(** * Token tracker: monitoring, classification, enrichment and dispatch

  A shallow embedding of the pipeline of the Avalanche token launch
  monitor ([lib/blockchain.ts], [lib/arena-socials.ts],
  [lib/database-simple.ts]) together with the properties its
  specification states about it.

  The first part of the file holds the embedding, one module per source
  file; the second part holds the lemmas and theorems. *)

From Stdlib Require Import ZArith String Ascii List Lia Bool DecimalString DecimalZ.
From Stdlib Require Import Floats Uint63.
From Stdlib Require Import Sorted.
From stdpp Require Import gmap strings list.

Open Scope Z_scope.

(* ===================================================================== *)
(** * Part I: the embedding                                               *)
(* ===================================================================== *)

(** ** JavaScript values used by the pipeline *)

Module Js.

(** [String.prototype.toLowerCase], on the ASCII range.  The strings the
    pipeline lower-cases are hexadecimal addresses, selectors and ticker
    symbols; a character outside [A-Z] is left as it is. *)
Definition lower_ascii (c : ascii) : ascii :=
  let n := nat_of_ascii c in
  if ((65 <=? n) && (n <=? 90))%nat then ascii_of_nat (n + 32) else c.

Fixpoint toLowerCase (s : string) : string :=
  match s with
  | EmptyString => EmptyString
  | String c s' => String (lower_ascii c) (toLowerCase s')
  end.


(** [s.includes(sub)] *)
Fixpoint includes (sub s : string) : bool :=
  String.prefix sub s ||
  match s with
  | EmptyString => false
  | String _ s' => includes sub s'
  end.

(** [s.slice(0, n)] and [s.slice(n)] for a non-negative [n]. *)
Definition slice_to (n : nat) (s : string) : string := substring 0 n s.

Fixpoint slice_from (n : nat) (s : string) : string :=
  match n, s with
  | O, _ => s
  | S _, EmptyString => EmptyString
  | S n', String _ s' => slice_from n' s'
  end.

(** Truthiness of an optional string: [undefined], [null] and the empty
    string are falsy. *)
Definition truthy (o : option string) : bool :=
  match o with
  | Some s => negb (String.eqb s "")
  | None => false
  end.

(** [a || b] on optional strings. *)
Definition or_else (a b : option string) : option string :=
  if truthy a then a else b.

(** [a || undefined] *)
Definition or_undefined (a : option string) : option string :=
  or_else a None.

(** [BigInt.prototype.toString]: the decimal numeral. *)
Definition bigint_toString (n : Z) : string :=
  NilZero.string_of_int (Z.to_int n).

End Js.

(** ** IEEE 754 binary64, the JavaScript number type

  The pipeline converts integer amounts of the smallest currency unit
  to numbers and divides them by [1e18].  Every finite binary64 value is
  an integer multiple of [2^-1074]; a finite number is represented by
  that integer.  The sign of zero is not represented: no comparison of
  the pipeline observes it. *)

Module Float64.

Inductive float64 : Type :=
| Finite (v : Z)          (* the value v * 2^-1074 *)
| PosInfinity
| NegInfinity
| NaN.

(** The integer nearest to [p / q], ties to even ([0 <= p], [0 < q]). *)
Definition rne (p q : Z) : Z :=
  let d := p / q in
  match 2 * (p mod q) ?= q with
  | Lt => d
  | Gt => d + 1
  | Eq => if Z.even d then d else d + 1
  end.

(** A value of [u] units with [2^k <= u < 2^(k+1)] carries 53
    significant bits: it is a multiple of [2^(k - 52)] units; below
    [2^53] units (the subnormal and the first normal binade) the
    spacing is one unit. *)
Definition ulp_shift (p q : Z) : Z := Z.max (Z.log2 (p / q) - 52) 0.

(** [p / q] units rounded to the nearest representable number of units. *)
Definition round_units (p q : Z) : Z :=
  let s := ulp_shift p q in
  rne p (q * 2 ^ s) * 2 ^ s.

(** [2^1024], in units. *)
Definition overflow_units : Z := 2 ^ 2098.

Definition round_pos (p q : Z) : float64 :=
  let v := round_units p q in
  if overflow_units <=? v then PosInfinity else Finite v.

Definition opp (x : float64) : float64 :=
  match x with
  | Finite v => Finite (- v)
  | PosInfinity => NegInfinity
  | NegInfinity => PosInfinity
  | NaN => NaN
  end.

(** One, in units. *)
Definition one_units : Z := 2 ^ 1074.

(** The binary64 number nearest to the rational [p / q], [0 < q]. *)
Definition of_ratio (p q : Z) : float64 :=
  match p with
  | Z0 => Finite 0
  | Zpos _ => round_pos (p * one_units) q
  | Zneg _ => opp (round_pos (- p * one_units) q)
  end.

(** [Number(s)] for a string [s] that is the decimal numeral of the
    integer [n], as [BigInt.prototype.toString] produces it. *)
Definition Number (n : Z) : float64 := of_ratio n 1.

(** [x / y] *)
Definition div (x y : float64) : float64 :=
  match x, y with
  | NaN, _ | _, NaN => NaN
  | Finite a, Finite b =>
      match b with
      | Z0 => match a with
              | Z0 => NaN
              | Zpos _ => PosInfinity
              | Zneg _ => NegInfinity
              end
      | Zpos _ => of_ratio a b
      | Zneg _ => of_ratio (- a) (- b)
      end
  | Finite _, _ => Finite 0
  | PosInfinity, Finite b => if b <? 0 then NegInfinity else PosInfinity
  | NegInfinity, Finite b => if b <? 0 then PosInfinity else NegInfinity
  | _, _ => NaN
  end.

(** [x <= y] and [x < y]; every comparison with [NaN] is false. *)
Definition leb (x y : float64) : bool :=
  match x, y with
  | NaN, _ | _, NaN => false
  | NegInfinity, _ => true
  | _, PosInfinity => true
  | Finite a, Finite b => a <=? b
  | _, _ => false
  end.

Definition ltb (x y : float64) : bool :=
  match x, y with
  | NaN, _ | _, NaN => false
  | PosInfinity, _ => false
  | _, NegInfinity => false
  | Finite a, Finite b => a <? b
  | _, _ => true
  end.

(** The literals of the source. *)
Definition zero : float64 := Finite 0.
Definition lit_1e18 : float64 := Number (10 ^ 18).
Definition lit_1_5 : float64 := of_ratio 3 2.

(** The standard library's specification floats, to compare the
    definitions above with the kernel's hardware binary64. *)
Definition of_spec (f : spec_float) : float64 :=
  match f with
  | S754_zero _ => Finite 0
  | S754_infinity false => PosInfinity
  | S754_infinity true => NegInfinity
  | S754_nan => NaN
  | S754_finite s m e =>
      let v := Z.pos m * 2 ^ (e + 1074) in
      Finite (if s then - v else v)
  end.

Definition of_prim (f : PrimFloat.float) : float64 := of_spec (Prim2SF f).

(** [1e18] and [1.5], in units. *)
Definition units_1e18 : Z := 10 ^ 18 * 2 ^ 1074.
Definition units_1_5 : Z := 3 * 2 ^ 1073.

(** [Number(n) / 1e18] for a positive [n], unfolded. *)
Definition quot18 (n : Z) : float64 :=
  match round_pos (n * one_units) 1 with
  | Finite v => round_pos (v * one_units) units_1e18
  | x => x
  end.

(** The least integer [n] for which [Number(n) / 1e18 >= 1.5] holds:
    [1.5e18 - 128], which [Number] rounds to [1.5e18]. *)
Definition threshold_1_5 : Z := 1499999999999999872.

End Float64.

(** ** Hexadecimal strings and byte arrays *)

Module Hex.

Definition bytes := list ascii.

Definition nibble_char (n : N) : ascii :=
  if (n <? 10)%N then ascii_of_N (48 + n) else ascii_of_N (87 + n).

(** [charCodeToBase16]: digits, [a-f] and [A-F]. *)
Definition nibble_value (c : ascii) : option N :=
  let n := N_of_ascii c in
  if ((48 <=? n) && (n <=? 57))%N then Some (n - 48)%N
  else if ((97 <=? n) && (n <=? 102))%N then Some (n - 87)%N
  else if ((65 <=? n) && (n <=? 70))%N then Some (n - 55)%N
  else None.

Fixpoint parse_pairs (cs : list ascii) : option bytes :=
  match cs with
  | [] => Some []
  | hi :: lo :: rest =>
      match nibble_value hi, nibble_value lo, parse_pairs rest with
      | Some h, Some l, Some bs => Some (ascii_of_N (16 * h + l) :: bs)
      | _, _, _ => None
      end
  | [_] => None
  end.

(** [hexToBytes]: the two leading characters (the [0x] prefix) are
    dropped, an odd number of digits is padded with a leading zero, and a
    character that is no hexadecimal digit raises. *)
Definition hexToBytes (hex : string) : option bytes :=
  let digits := list_ascii_of_string (Js.slice_from 2 hex) in
  parse_pairs (if Nat.odd (length digits) then "0"%char :: digits else digits).

Fixpoint hex_digits (bs : bytes) : string :=
  match bs with
  | [] => EmptyString
  | b :: bs' =>
      let n := N_of_ascii b in
      String (nibble_char (n / 16)) (String (nibble_char (n mod 16)) (hex_digits bs'))
  end.

(** [bytesToHex] *)
Definition bytesToHex (bs : bytes) : string := String.append "0x" (hex_digits bs).

End Hex.

(** ** Decoding of UTF-8

  [TextDecoder] belongs to the platform.  It is written here after the
  encoding standard; a text is represented by its UTF-8 bytes. *)

Module TextDecoder.
Import Hex.

Definition between (lo hi : N) (b : ascii) : bool :=
  ((lo <=? N_of_ascii b) && (N_of_ascii b <=? hi))%N.

(** The bounds of the byte that follows the lead byte of a sequence of
    three or four bytes: they exclude the overlong forms, the surrogates
    and the code points above U+10FFFF. *)
Definition lowerBoundary (lead : ascii) : N :=
  if (N_of_ascii lead =? 0xE0)%N then 0xA0%N
  else if (N_of_ascii lead =? 0xF0)%N then 0x90%N else 0x80%N.

Definition upperBoundary (lead : ascii) : N :=
  if (N_of_ascii lead =? 0xED)%N then 0x9F%N
  else if (N_of_ascii lead =? 0xF4)%N then 0x8F%N else 0xBF%N.

(** U+FFFD in UTF-8. *)
Definition replacement : bytes := [ascii_of_N 0xEF; ascii_of_N 0xBF; ascii_of_N 0xBD].

(** The decoder for UTF-8 without the [fatal] flag: a sequence that is
    not UTF-8 gives U+FFFD, and the byte that broke it off is read again
    as the start of the next one. *)
Fixpoint utf8Decode (bs : bytes) : bytes :=
  match bs with
  | [] => []
  | b :: r1 =>
      if between 0x00 0x7F b then b :: utf8Decode r1
      else if between 0xC2 0xDF b then
        match r1 with
        | [] => replacement
        | c :: r2 =>
            if between 0x80 0xBF c then b :: c :: utf8Decode r2
            else replacement ++ utf8Decode r1
        end
      else if between 0xE0 0xEF b then
        match r1 with
        | [] => replacement
        | c :: r2 =>
            if between (lowerBoundary b) (upperBoundary b) c then
              match r2 with
              | [] => replacement
              | d :: r3 =>
                  if between 0x80 0xBF d then b :: c :: d :: utf8Decode r3
                  else replacement ++ utf8Decode r2
              end
            else replacement ++ utf8Decode r1
        end
      else if between 0xF0 0xF4 b then
        match r1 with
        | [] => replacement
        | c :: r2 =>
            if between (lowerBoundary b) (upperBoundary b) c then
              match r2 with
              | [] => replacement
              | d :: r3 =>
                  if between 0x80 0xBF d then
                    match r3 with
                    | [] => replacement
                    | e :: r4 =>
                        if between 0x80 0xBF e then b :: c :: d :: e :: utf8Decode r4
                        else replacement ++ utf8Decode r3
                    end
                  else replacement ++ utf8Decode r2
              end
            else replacement ++ utf8Decode r1
        end
      else replacement ++ utf8Decode r1
  end.

(** Whether bytes are the UTF-8 of a text. *)
Fixpoint isUtf8 (bs : bytes) : bool :=
  match bs with
  | [] => true
  | b :: r1 =>
      if between 0x00 0x7F b then isUtf8 r1
      else if between 0xC2 0xDF b then
        match r1 with
        | c :: r2 => between 0x80 0xBF c && isUtf8 r2
        | _ => false
        end
      else if between 0xE0 0xEF b then
        match r1 with
        | c :: d :: r3 =>
            between (lowerBoundary b) (upperBoundary b) c && between 0x80 0xBF d && isUtf8 r3
        | _ => false
        end
      else if between 0xF0 0xF4 b then
        match r1 with
        | c :: d :: e :: r4 =>
            between (lowerBoundary b) (upperBoundary b) c && between 0x80 0xBF d
            && between 0x80 0xBF e && isUtf8 r4
        | _ => false
        end
      else false
  end.

(** The byte order mark U+FEFF in UTF-8, which the decoder drops at the
    head of its input. *)
Definition byteOrderMark : bytes := [ascii_of_N 0xEF; ascii_of_N 0xBB; ascii_of_N 0xBF].

Definition starts_with_bom (bs : bytes) : bool :=
  match bs with
  | b0 :: b1 :: b2 :: _ =>
      (N_of_ascii b0 =? 0xEF)%N && (N_of_ascii b1 =? 0xBB)%N && (N_of_ascii b2 =? 0xBF)%N
  | _ => false
  end.

Definition dropByteOrderMark (bs : bytes) : bytes :=
  if starts_with_bom bs then skipn 3 bs else bs.

(** [new TextDecoder().decode(bytes)] *)
Definition decode (bs : bytes) : bytes := utf8Decode (dropByteOrderMark bs).

End TextDecoder.

(** ** Keccak-256

  The hash belongs to the chain client library.  It is written here
  after its definition: a sponge of rate 136 bytes over 25 lanes of 64
  bits, 24 rounds, the padding starting with the byte [0x01]. *)

Module Keccak.
Import Hex.

Definition mask64 : Z := 2 ^ 64 - 1.

(** Rotation of a lane of 64 bits to the left. *)
Definition rotl (x n : Z) : Z :=
  Z.land (Z.lor (Z.shiftl x n) (Z.shiftr x (64 - n))) mask64.

(** The state is 25 lanes, lane [(x, y)] at index [x + 5 * y]. *)
Definition lane (st : list Z) (i : nat) : Z := nth i st 0.

Definition indices : list nat := seq 0 25.

Definition roundConstants : list Z :=
  [ 0x0000000000000001; 0x0000000000008082; 0x800000000000808A; 0x8000000080008000;
    0x000000000000808B; 0x0000000080000001; 0x8000000080008081; 0x8000000000008009;
    0x000000000000008A; 0x0000000000000088; 0x0000000080008009; 0x000000008000000A;
    0x000000008000808B; 0x800000000000008B; 0x8000000000008089; 0x8000000000008003;
    0x8000000000008002; 0x8000000000000080; 0x000000000000800A; 0x800000008000000A;
    0x8000000080008081; 0x8000000000008080; 0x0000000080000001; 0x8000000080008008 ].

Definition rotationOffsets : list Z :=
  [  0;  1; 62; 28; 27;
    36; 44;  6; 55; 20;
     3; 10; 43; 25; 39;
    41; 45; 15; 21;  8;
    18;  2; 61; 56; 14 ].

Definition theta (st : list Z) : list Z :=
  let C := map (fun x => fold_left Z.lxor
                           (map (fun y => lane st (x + 5 * y)) (seq 0 5)) 0) (seq 0 5) in
  let D := map (fun x => Z.lxor (lane C ((x + 4) mod 5)) (rotl (lane C ((x + 1) mod 5)) 1))
               (seq 0 5) in
  map (fun i => Z.lxor (lane st i) (lane D (i mod 5))) indices.

Definition rhoPi (st : list Z) : list Z :=
  map (fun i => let X := (i mod 5)%nat in
                let Y := (i / 5)%nat in
                let x := ((X + 3 * Y) mod 5)%nat in
                rotl (lane st (x + 5 * X)) (nth (x + 5 * X) rotationOffsets 0)) indices.

Definition chi (st : list Z) : list Z :=
  map (fun i => let x := (i mod 5)%nat in
                let y := (i / 5)%nat in
                Z.lxor (lane st i)
                  (Z.land (Z.lxor (lane st ((x + 1) mod 5 + 5 * y)) mask64)
                          (lane st ((x + 2) mod 5 + 5 * y)))) indices.

Definition iota (rc : Z) (st : list Z) : list Z :=
  match st with
  | a :: rest => Z.lxor a rc :: rest
  | [] => []
  end.

Definition round (st : list Z) (rc : Z) : list Z := iota rc (chi (rhoPi (theta st))).

Definition keccakF (st : list Z) : list Z := fold_left round roundConstants st.

(** The rate of Keccak-256 is 136 bytes, 17 lanes. *)
Definition rate : nat := 136.

Definition padding (len : nat) : bytes :=
  match (rate - len mod rate)%nat with
  | 1%nat => [ascii_of_N 0x81]
  | k => ascii_of_N 0x01 :: repeat Ascii.zero (k - 2) ++ [ascii_of_N 0x80]
  end.

Definition littleEndian (bs : bytes) : Z :=
  fold_right (fun b acc => Z.of_N (N_of_ascii b) + 256 * acc) 0 bs.

Fixpoint lanesOf (bs : bytes) : list Z :=
  match bs with
  | b0 :: b1 :: b2 :: b3 :: b4 :: b5 :: b6 :: b7 :: rest =>
      littleEndian [b0; b1; b2; b3; b4; b5; b6; b7] :: lanesOf rest
  | _ => []
  end.

Definition absorbBlock (st block : list Z) : list Z :=
  keccakF (map (fun i => Z.lxor (lane st i) (lane block i)) indices).

Fixpoint absorb (fuel : nat) (st lanes : list Z) : list Z :=
  match fuel, lanes with
  | S fuel', _ :: _ => absorb fuel' (absorbBlock st (firstn 17 lanes)) (skipn 17 lanes)
  | _, _ => st
  end.

Fixpoint laneBytes (k : nat) (x : Z) : bytes :=
  match k with
  | O => []
  | S k' => ascii_of_N (Z.to_N (x mod 256)) :: laneBytes k' (x / 256)
  end.

(** [keccak256(bytes)] *)
Definition keccak256 (message : bytes) : bytes :=
  let lanes := lanesOf (message ++ padding (length message)) in
  let st := absorb (length lanes) (repeat 0 25) lanes in
  flat_map (laneBytes 8) (firstn 4 st).

End Keccak.

(** ** Checksum capitalisation of an address

  The chain client library returns a decoded address with the letters
  among its digits capitalised after the Keccak-256 hash of its
  lower-case digits: a letter is a capital when the hexadecimal digit of
  the hash at its place is 8 or more. *)

Module Address.
Import Hex.

(** [toUpperCase] on one character of an address. *)
Definition upper_ascii (c : ascii) : ascii :=
  let n := nat_of_ascii c in
  if ((97 <=? n) && (n <=? 122))%nat then ascii_of_nat (n - 32) else c.

Fixpoint capitalise (hash : bytes) (address : list ascii) : list ascii :=
  match hash, address with
  | h :: hash', c1 :: c2 :: rest =>
      (if (8 <=? N_of_ascii h / 16)%N then upper_ascii c1 else c1)
        :: (if (8 <=? N_of_ascii h mod 16)%N then upper_ascii c2 else c2)
        :: capitalise hash' rest
  | _, _ => address
  end.

(** [checksumAddress(address)], without a chain id. *)
Definition checksumAddress (address : string) : string :=
  let hexAddress := list_ascii_of_string (Js.toLowerCase (Js.slice_from 2 address)) in
  let hash := Keccak.keccak256 hexAddress in
  String.append "0x" (string_of_list_ascii (capitalise (firstn 20 hash) hexAddress)).

End Address.

(** ** Contract ABI encoding of call data

  Modelled from the spec: the ABI encode and decode primitives for call
  data ([encodeAbiParameters], [decodeAbiParameters]) belong to the chain
  client library, which the repository imports and does not contain.
  They are written here after the contract ABI specification: one
  32-byte head slot per parameter, holding the value of a static
  parameter or the offset of the tail of a dynamic one; a string tail is
  its length followed by its bytes, zero-padded to a multiple of 32.
  Strings are represented by their UTF-8 bytes.  The decoder of the
  library hands the bytes of a string, without the zero bytes at their
  head, to [TextDecoder], and returns an address in its checksum
  capitalisation ([Address.checksumAddress]). *)

Module Abi.
Import Hex.

Inductive AbiType : Type :=
| TUint (bits : N)
| TAddress
| TString.

Inductive AbiValue : Type :=
| VUint (n : Z)
| VAddress (a : Z)
| VString (s : string).

Definition type_of (v : AbiValue) (bits : N) : AbiType :=
  match v with
  | VUint _ => TUint bits
  | VAddress _ => TAddress
  | VString _ => TString
  end.

(** Big-endian numbers. *)
Fixpoint bytesToBigInt_from (acc : Z) (bs : bytes) : Z :=
  match bs with
  | [] => acc
  | b :: bs' => bytesToBigInt_from (256 * acc + Z.of_N (N_of_ascii b)) bs'
  end.

Definition bytesToBigInt (bs : bytes) : Z := bytesToBigInt_from 0 bs.

Fixpoint numberToBytes (size : nat) (n : Z) : bytes :=
  match size with
  | O => []
  | S k => ascii_of_N (Z.to_N ((n / 256 ^ Z.of_nat k) mod 256)) :: numberToBytes k n
  end.

Definition word (n : Z) : bytes := numberToBytes 32 n.

(** The cursor's [readBytes]: reading past the end raises. *)
Definition readBytes (data : bytes) (pos len : nat) : option bytes :=
  if (pos + len <=? length data)%nat then Some (firstn len (skipn pos data)) else None.

(** [trim]: leading zero bytes are dropped, the last byte is kept. *)
Fixpoint trim (bs : bytes) : bytes :=
  match bs with
  | b :: ((_ :: _) as bs') =>
      if (N_of_ascii b =? 0)%N then trim bs' else bs
  | _ => bs
  end.

Definition decodeNumber (data : bytes) (pos : nat) : option AbiValue :=
  match readBytes data pos 32 with
  | Some w => Some (VUint (bytesToBigInt w))
  | None => None
  end.

(** The address is the low 20 bytes of its slot. *)
Definition decodeAddress (data : bytes) (pos : nat) : option AbiValue :=
  match readBytes data pos 32 with
  | Some w => Some (VAddress (bytesToBigInt (skipn 12 w)))
  | None => None
  end.

(** [bytesToString(bytes)] *)
Definition bytesToString (bs : bytes) : string :=
  string_of_list_ascii (TextDecoder.decode bs).

Definition decodeString (data : bytes) (pos : nat) : option AbiValue :=
  match readBytes data pos 32 with
  | None => None
  | Some w =>
      let start := Z.to_nat (bytesToBigInt w) in
      match readBytes data start 32 with
      | None => None
      | Some lw =>
          let len := Z.to_nat (bytesToBigInt lw) in
          match len with
          | O => Some (VString EmptyString)
          | S _ =>
              match readBytes data (start + 32) len with
              | Some bs => Some (VString (bytesToString (trim bs)))
              | None => None
              end
          end
      end
  end.

Definition decodeParameter (ty : AbiType) (data : bytes) (pos : nat) : option AbiValue :=
  match ty with
  | TUint _ => decodeNumber data pos
  | TAddress => decodeAddress data pos
  | TString => decodeString data pos
  end.

Fixpoint decodeParameters (tys : list AbiType) (data : bytes) (consumed : nat)
  : option (list AbiValue) :=
  match tys with
  | [] => Some []
  | ty :: tys' =>
      match decodeParameter ty data consumed with
      | None => None
      | Some v =>
          match decodeParameters tys' data (consumed + 32) with
          | Some vs => Some (v :: vs)
          | None => None
          end
      end
  end.

(** [decodeAbiParameters(params, data)]: [None] stands for a raised
    error (empty data, data shorter than one slot, a read out of bounds
    or a malformed hexadecimal string). *)
Definition decodeAbiParameters (tys : list AbiType) (data : string)
  : option (list AbiValue) :=
  match hexToBytes data with
  | None => None
  | Some bs =>
      if ((length bs =? 0) && negb (length tys =? 0))%nat then None
      else if ((0 <? length bs) && (length bs <? 32))%nat then None
      else decodeParameters tys bs 0
  end.

(** Encoding. *)
Definition pad32 (bs : bytes) : bytes :=
  bs ++ repeat Ascii.zero ((32 - length bs mod 32) mod 32)%nat.

Definition encodeString (s : string) : bytes :=
  word (Z.of_nat (String.length s)) ++ pad32 (list_ascii_of_string s).

(** Heads and tails of the parameters, the next tail starting at [off]. *)
Fixpoint encodeParams (vs : list AbiValue) (off : nat) : bytes * bytes :=
  match vs with
  | [] => ([], [])
  | VUint n :: vs' =>
      let '(h, t) := encodeParams vs' off in (word n ++ h, t)
  | VAddress a :: vs' =>
      let '(h, t) := encodeParams vs' off in (word a ++ h, t)
  | VString s :: vs' =>
      let ts := encodeString s in
      let '(h, t) := encodeParams vs' (off + length ts) in
      (word (Z.of_nat off) ++ h, ts ++ t)
  end.

Definition encodeAbiParameters (vs : list AbiValue) : string :=
  let '(h, t) := encodeParams vs (32 * length vs) in
  bytesToHex (h ++ t).

(** The values the encoder takes for a type: an unsigned integer within
    the width of its type, an address of 160 bits, a text (its bytes are
    UTF-8) of fewer than [2 ^ 32] bytes. *)
Definition encodable (ty : AbiType) (v : AbiValue) : bool :=
  match ty, v with
  | TUint bits, VUint n => (bits <=? 256)%N && (0 <=? n) && (n <? 2 ^ Z.of_N bits)
  | TAddress, VAddress a => (0 <=? a) && (a <? 2 ^ 160)
  | TString, VString s =>
      TextDecoder.isUtf8 (list_ascii_of_string s)
      && (Z.of_nat (String.length s) <? 2 ^ 32)
  | _, _ => false
  end.

Fixpoint well_formed (tys : list AbiType) (vs : list AbiValue) : bool :=
  match tys, vs with
  | [], [] => true
  | ty :: tys', v :: vs' => encodable ty v && well_formed tys' vs'
  | _, _ => false
  end.

(** The decoder drops the zero bytes and then a byte order mark at the
    head of the bytes of a text.  A text begins plainly when it begins
    with neither. *)
Definition starts_with_nul (s : string) : bool :=
  match s with
  | String c _ => (N_of_ascii c =? 0)%N
  | EmptyString => false
  end.

Definition begins_plainly (v : AbiValue) : bool :=
  match v with
  | VString s =>
      negb (starts_with_nul s)
      && negb (TextDecoder.starts_with_bom (list_ascii_of_string s))
  | _ => true
  end.

End Abi.

(** ** lib/arena-socials.ts: the profile resolver *)

Module ArenaSocials.

(** A scalar of a JSON payload, for a field the code reads without
    trusting its type.  Numbers are integral. *)
Inductive JsVal : Type :=
| JUndefined
| JNull
| JBool (b : bool)
| JNum (n : Z)
| JStr (s : string).

(** A property of a JSON object that the code tests against
    [undefined] before it calls a method on it: [null] passes the test
    and the method call raises. *)
Inductive Field (A : Type) : Type :=
| Absent
| Null
| Val (a : A).
Arguments Absent {A}.
Arguments Null {A}.
Arguments Val {A} a.

Record ArenaBadge : Type := {
  badge_id : Z;
  badge_userId : string;
  badgeType : JsVal;
  badge_order : Z
}.

(** [ArenaUserProfile], without the presentation fields (bio, avatar,
    links).  Amounts that the source carries as decimal strings
    ([keyPrice], [totalHolders], [volume]) are the integers they
    denote. *)
Record ArenaUserProfile : Type := {
  username : option string;
  displayName : option string;
  followerCount : option Z;
  twitterFollowerCount : option Z;
  keyPrice : option Z;
  totalHolders : option Z;
  volume : option Z;
  supply : option Z;
  badges : option (list ArenaBadge);
  isArenaChampion : option bool
}.

Definition set_displayName v p :=
  {| username := username p; displayName := v; followerCount := followerCount p;
     twitterFollowerCount := twitterFollowerCount p; keyPrice := keyPrice p;
     totalHolders := totalHolders p; volume := volume p; supply := supply p;
     badges := badges p; isArenaChampion := isArenaChampion p |}.
Definition set_followerCount v p :=
  {| username := username p; displayName := displayName p; followerCount := v;
     twitterFollowerCount := twitterFollowerCount p; keyPrice := keyPrice p;
     totalHolders := totalHolders p; volume := volume p; supply := supply p;
     badges := badges p; isArenaChampion := isArenaChampion p |}.
Definition set_twitterFollowerCount v p :=
  {| username := username p; displayName := displayName p;
     followerCount := followerCount p; twitterFollowerCount := v;
     keyPrice := keyPrice p; totalHolders := totalHolders p; volume := volume p;
     supply := supply p; badges := badges p; isArenaChampion := isArenaChampion p |}.
Definition set_keyPrice v p :=
  {| username := username p; displayName := displayName p;
     followerCount := followerCount p;
     twitterFollowerCount := twitterFollowerCount p; keyPrice := v;
     totalHolders := totalHolders p; volume := volume p; supply := supply p;
     badges := badges p; isArenaChampion := isArenaChampion p |}.
Definition set_totalHolders v p :=
  {| username := username p; displayName := displayName p;
     followerCount := followerCount p;
     twitterFollowerCount := twitterFollowerCount p; keyPrice := keyPrice p;
     totalHolders := v; volume := volume p; supply := supply p;
     badges := badges p; isArenaChampion := isArenaChampion p |}.
Definition set_volume v p :=
  {| username := username p; displayName := displayName p;
     followerCount := followerCount p;
     twitterFollowerCount := twitterFollowerCount p; keyPrice := keyPrice p;
     totalHolders := totalHolders p; volume := v; supply := supply p;
     badges := badges p; isArenaChampion := isArenaChampion p |}.
Definition set_supply v p :=
  {| username := username p; displayName := displayName p;
     followerCount := followerCount p;
     twitterFollowerCount := twitterFollowerCount p; keyPrice := keyPrice p;
     totalHolders := totalHolders p; volume := volume p; supply := v;
     badges := badges p; isArenaChampion := isArenaChampion p |}.
Definition set_badges v p :=
  {| username := username p; displayName := displayName p;
     followerCount := followerCount p;
     twitterFollowerCount := twitterFollowerCount p; keyPrice := keyPrice p;
     totalHolders := totalHolders p; volume := volume p; supply := supply p;
     badges := v; isArenaChampion := isArenaChampion p |}.
Definition set_isArenaChampion v p :=
  {| username := username p; displayName := displayName p;
     followerCount := followerCount p;
     twitterFollowerCount := twitterFollowerCount p; keyPrice := keyPrice p;
     totalHolders := totalHolders p; volume := volume p; supply := supply p;
     badges := badges p; isArenaChampion := v |}.

(** What [await fetchWithRetry(...)] followed by [response.json()]
    comes to. *)
Inductive Fetched (A : Type) : Type :=
| Ok (body : A)            (* response.ok, body parsed *)
| BadBody                  (* response.ok, response.json() rejects *)
| NotOk (status : Z)       (* a response that is not 2xx *)
| Failed.                  (* fetchWithRetry raises after its attempts *)
Arguments Ok {A} body.
Arguments BadBody {A}.
Arguments NotOk {A} status.
Arguments Failed {A}.

(** The payloads of the three lookups. *)
Record TradeUser : Type := {
  twitter_handle : option string;
  twitter_handle_lc : option string;
  tu_handle : option string;
  twitter_username : option string;
  twitter_followers : option Z;
  key_price : Field Z;
  total_holders : Field Z;
  tu_volume : Field Z;
  tu_supply : Field Z;
  arena_price : Field Z;
  holder_count : Field Z;
  trade_volume : Field Z
}.

Record StarsUser : Type := {
  su_id : option string;
  twitterName : option string;
  su_handle : option string;
  su_followerCount : option Z;
  su_twitterFollowerCount : option Z;
  su_keyPrice : option Z;
  lastKeyPrice : option Z
}.

Record StatsInner : Type := {
  st_keyPrice : Field Z;
  st_volume : Field Z;
  st_supply : Field Z
}.

Record StatsBody : Type := {
  sb_totalHolders : Field Z;
  sb_stats : option StatsInner;
  sb_badges : option (list ArenaBadge)   (* [None]: no array under [badges] *)
}.

(** Truthiness of an optional number: [undefined] and [0] are falsy. *)
Definition truthy_num (o : option Z) : bool :=
  match o with
  | Some n => negb (n =? 0)
  | None => false
  end.

(** A step of a [try] block: the profile as mutated so far, and whether
    the step raised. *)
Inductive Step : Type :=
| Done (p : ArenaUserProfile)
| Raised (p : ArenaUserProfile).

Definition bind (s : Step) (k : ArenaUserProfile -> Step) : Step :=
  match s with
  | Done p => k p
  | Raised p => Raised p
  end.

(** [if (x !== undefined) p.f = x.toString()] *)
Definition assign_toString (f : Field Z) (set : option Z -> ArenaUserProfile -> ArenaUserProfile)
    (p : ArenaUserProfile) : Step :=
  match f with
  | Absent => Done p
  | Null => Raised p
  | Val n => Done (set (Some n) p)
  end.

(** [if (x !== undefined) p.f = Number(x)]; [Number(null)] is [0]. *)
Definition assign_Number (f : Field Z) (set : option Z -> ArenaUserProfile -> ArenaUserProfile)
    (p : ArenaUserProfile) : Step :=
  match f with
  | Absent => Done p
  | Null => Done (set (Some 0) p)
  | Val n => Done (set (Some n) p)
  end.

(** [normalizeArenaTradeArrayResponse] *)
Definition normalizeArenaTradeArrayResponse (data : TradeUser) : option ArenaUserProfile :=
  let profile :=
    {| username := Js.or_else (twitter_handle data) (twitter_handle_lc data);
       displayName := Js.or_else (twitter_username data) (twitter_handle data);
       followerCount := Some 0;
       twitterFollowerCount :=
         if truthy_num (twitter_followers data) then twitter_followers data else Some 0;
       keyPrice := None; totalHolders := None; volume := None; supply := None;
       badges := None;
       isArenaChampion := Some false |} in
  let s :=
    bind (assign_toString (key_price data) set_keyPrice profile) (fun p =>
    bind (assign_toString (total_holders data) set_totalHolders p) (fun p =>
    bind (assign_toString (tu_volume data) set_volume p) (fun p =>
    bind (assign_Number (tu_supply data) set_supply p) (fun p =>
    bind (assign_toString (arena_price data) set_keyPrice p) (fun p =>
    bind (assign_toString (holder_count data) set_totalHolders p) (fun p =>
    assign_toString (trade_volume data) set_volume p)))))) in
  match s with
  | Raised _ => None
  | Done p =>
      if Js.truthy (username p) || Js.truthy (displayName p) then Some p else None
  end.

Section Resolver.

(** [Number(s)] on a string: the integer that the string denotes as a
    numeric literal, or [None] when it denotes none ([NaN], or a
    number that is not integral). *)
Variable StringToNumber : string -> option Z.

(** [Number(v)] *)
Definition ToNumber (v : JsVal) : option Z :=
  match v with
  | JUndefined => None
  | JNull => Some 0
  | JBool b => Some (if b then 1 else 0)
  | JNum n => Some n
  | JStr s => StringToNumber s
  end.

(** [String(v)] *)
Definition ToString (v : JsVal) : string :=
  match v with
  | JUndefined => "undefined"
  | JNull => "null"
  | JBool b => if b then "true" else "false"
  | JNum n => Js.bigint_toString n
  | JStr s => s
  end.

Definition strict_eq_num (v : JsVal) (n : Z) : bool :=
  match v with JNum m => m =? n | _ => false end.

Definition strict_eq_str (v : JsVal) (s : string) : bool :=
  match v with JStr t => String.eqb t s | _ => false end.

Definition opt_is (o : option Z) (n : Z) : bool :=
  match o with Some m => m =? n | None => false end.

(** The predicate of the first [find]. *)
Definition championBadge (b : ArenaBadge) : bool :=
  strict_eq_num (badgeType b) 19 || strict_eq_str (badgeType b) "19"
  || opt_is (ToNumber (badgeType b)) 19.

(** The predicate of the second [find]. *)
Definition championBadgeLoose (b : ArenaBadge) : bool :=
  String.eqb (ToString (badgeType b)) "19".

Definition is_some {A} (o : option A) : bool :=
  match o with Some _ => true | None => false end.

(** Step 1: the handle and the first profile, from arena.trade. *)
Definition step1 (r : Fetched (list TradeUser))
  : option ArenaUserProfile * option string :=
  match r with
  | Ok (userData :: _) =>
      let handle :=
        Js.or_else (twitter_handle userData)
          (Js.or_else (twitter_handle_lc userData) (tu_handle userData)) in
      (normalizeArenaTradeArrayResponse userData,
       if Js.truthy handle then handle else None)
  | _ => (None, None)
  end.

Definition assign_if_str (v : option string)
    (set : option string -> ArenaUserProfile -> ArenaUserProfile) p :=
  if Js.truthy v then set v p else p.

Definition assign_if_num (v : option Z)
    (set : option Z -> ArenaUserProfile -> ArenaUserProfile) p :=
  if truthy_num v then set v p else p.

Definition assign_if_some (v : option Z)
    (set : option Z -> ArenaUserProfile -> ArenaUserProfile) p :=
  match v with Some _ => set v p | None => p end.

(** Step 2: the user id, from StarsArena, by handle. *)
Definition step2 (handle : string) (profile : option ArenaUserProfile)
    (r : Fetched (option StarsUser))
  : option ArenaUserProfile * option string :=
  match r with
  | Ok (Some user) =>
      if Js.truthy (su_id user) then
        let p0 :=
          match profile with
          | Some p => p
          | None =>
              {| username := Some handle;
                 displayName := Js.or_else (twitterName user) (su_handle user);
                 followerCount := None; twitterFollowerCount := None;
                 keyPrice := None; totalHolders := None; volume := None;
                 supply := None; badges := None; isArenaChampion := None |}
          end in
        let p1 := assign_if_str (twitterName user) set_displayName p0 in
        let p2 := assign_if_num (su_followerCount user) set_followerCount p1 in
        let p3 := assign_if_num (su_twitterFollowerCount user) set_twitterFollowerCount p2 in
        let p4 := assign_if_some (su_keyPrice user) set_keyPrice p3 in
        let p5 := assign_if_some (lastKeyPrice user) set_keyPrice p4 in
        (Some p5, su_id user)
      else (profile, None)
  | _ => (profile, None)
  end.

(** The body of the [try] of step 3 on a 2xx response. *)
Definition applyStats (handle : option string) (userId : string)
    (profile : option ArenaUserProfile) (data : StatsBody) : Step :=
  let p0 :=
    match profile with
    | Some p => p
    | None =>
        let h := Js.or_else handle (Some userId) in
        {| username := h; displayName := h;
           followerCount := None; twitterFollowerCount := None;
           keyPrice := None; totalHolders := None; volume := None;
           supply := None; badges := None; isArenaChampion := None |}
    end in
  bind (assign_toString (sb_totalHolders data) set_totalHolders p0) (fun p =>
  bind (match sb_stats data with
        | None => Done p
        | Some st =>
            bind (assign_toString (st_keyPrice st) set_keyPrice p) (fun p =>
            bind (assign_toString (st_volume st) set_volume p) (fun p =>
            assign_Number (st_supply st) set_supply p))
        end) (fun p =>
  match sb_badges data with
  | Some bs =>
      let championBadge := find championBadge bs in
      let championBadgeLoose := find championBadgeLoose bs in
      Done (set_isArenaChampion
              (Some (is_some championBadge || is_some championBadgeLoose))
              (set_badges (Some bs) p))
  | None => Done (set_isArenaChampion (Some false) p)
  end)).

(** [if (profile) profile.isArenaChampion = false] *)
Definition clearChampion (profile : option ArenaUserProfile) : option ArenaUserProfile :=
  match profile with
  | Some p => Some (set_isArenaChampion (Some false) p)
  | None => None
  end.

(** Step 3: the statistics and the badges, from StarsArena, by user
    id; without a user id the champion flag is cleared. *)
Definition step3 (handle userId : option string) (profile : option ArenaUserProfile)
    (r : Fetched (option StatsBody)) : option ArenaUserProfile :=
  match userId with
  | Some uid =>
      match r with
      | Ok (Some data) =>
          match applyStats handle uid profile data with
          | Done p => Some p
          | Raised p => Some (set_isArenaChampion (Some false) p)
          end
      | Ok None =>
          (* the body is [null]: reading [data.totalHolders] raises
             after [profile] is initialised *)
          match profile with
          | Some p => Some (set_isArenaChampion (Some false) p)
          | None =>
              let h := Js.or_else handle (Some uid) in
              Some {| username := h; displayName := h;
                      followerCount := None; twitterFollowerCount := None;
                      keyPrice := None; totalHolders := None; volume := None;
                      supply := None; badges := None;
                      isArenaChampion := Some false |}
          end
      | BadBody | NotOk _ | Failed => clearChampion profile
      end
  | None => clearChampion profile
  end.

(** The profile cache: five minutes per lower-cased address. *)
Definition CACHE_DURATION : Z := 5 * 60 * 1000.

Record CacheEntry : Type := {
  ce_profile : option ArenaUserProfile;
  ce_timestamp : Z
}.

Record Responses : Type := {
  r_trade : Fetched (list TradeUser);
  r_user : Fetched (option StarsUser);
  r_stats : Fetched (option StatsBody)
}.

(** The three steps, without the cache. *)
Definition resolve (rs : Responses) : option ArenaUserProfile :=
  let '(profile1, handle) := step1 (r_trade rs) in
  let '(profile2, userId) :=
    match handle with
    | Some h => step2 h profile1 (r_user rs)
    | None => (profile1, None)
    end in
  step3 handle userId profile2 (r_stats rs).

(** [fetchArenaUserProfile] at time [now]. *)
Definition fetchArenaUserProfile (now : Z) (cache : gmap string CacheEntry)
    (walletAddress : string) (rs : Responses)
  : gmap string CacheEntry * option ArenaUserProfile :=
  let key := Js.toLowerCase walletAddress in
  match cache !! key with
  | Some cached =>
      if now - ce_timestamp cached <? CACHE_DURATION
      then (cache, ce_profile cached)
      else
        let profile := resolve rs in
        (<[key := {| ce_profile := profile; ce_timestamp := now |}]> cache, profile)
  | None =>
      let profile := resolve rs in
      (<[key := {| ce_profile := profile; ce_timestamp := now |}]> cache, profile)
  end.

(** Whether the body of the [try] of step 3 raises on this payload: a
    [null] under a property on which [toString] is called. *)
Definition is_null {A} (f : Field A) : bool :=
  match f with Null => true | _ => false end.

Definition stats_raises (data : StatsBody) : bool :=
  is_null (sb_totalHolders data) ||
  match sb_stats data with
  | Some st => is_null (st_keyPrice st) || is_null (st_volume st)
  | None => false
  end.

(** Whether one of the two tests of step 3 finds a badge in the array. *)
Definition has_champion_badge (bs : list ArenaBadge) : bool :=
  existsb (fun b => championBadge b || championBadgeLoose b) bs.

(** The specification's reading of "the badge-type code equals 19,
    tolerating numeric and string representations": the number 19, or a
    string that is the numeral 19 or that [Number] reads as 19. *)
Definition champion_code (v : JsVal) : Prop :=
  v = JNum 19 \/ exists s, v = JStr s /\ (s = "19"%string \/ StringToNumber s = Some 19).

End Resolver.

End ArenaSocials.

(** ** lib/blockchain.ts: the call-data classifier *)

Module Blockchain.
Import Abi.

Definition ARENA_CONTRACT_ADDRESS : string :=
  "0x8315f1eb449Dd4B779495C3A0b05e5d194446c6e".

Record TokenMetadata : Type := {
  tm_name : option string;
  tm_symbol : option string;
  tm_totalSupply : option string;
  tm_creator : option string;
  tm_tokenAddress : option string
}.

Record CreatorProfile : Type := {
  cp_address : string;
  cp_arenaProfile : option ArenaSocials.ArenaUserProfile;
  cp_isLoading : bool
}.

Inductive TransactionType : Type :=
| TOKEN_CREATION
| BUY
| SELL
| ADD_LIQUIDITY
| REMOVE_LIQUIDITY
| APPROVE
| TRANSFER
| UNKNOWN.

#[export] Instance TransactionType_eq_dec : EqDecision TransactionType.
Proof. solve_decision. Defined.

(** [ContractTransaction].  [value] is the decimal numeral of an integer
    amount; it is carried as that integer. *)
Record ContractTransaction : Type := {
  hash : string;
  from : string;
  to : option string;
  value : Z;
  blockNumber : Z;
  timestamp : option Z;
  method : option string;
  methodId : option string;
  transactionType : TransactionType;
  isTokenCreation : bool;
  description : string;
  tokenMetadata : option TokenMetadata;
  creatorProfile : option CreatorProfile;
  rawInput : option string;
  tokenAddress : option string
}.

Record MethodInfo : Type := {
  mi_name : string;
  mi_type : TransactionType;
  mi_description : string
}.

Definition METHOD_SIGNATURES : list (string * MethodInfo) :=
  [ ("0x0b8c6fec", {| mi_name := "createToken"; mi_type := TOKEN_CREATION;
                       mi_description := "Create new token" |});
    ("0x30f51a46", {| mi_name := "createToken"; mi_type := TOKEN_CREATION;
                       mi_description := "Create new token" |});
    ("0x5a46f06c", {| mi_name := "createLP"; mi_type := ADD_LIQUIDITY;
                       mi_description := "Add initial liquidity" |});
    ("0xe8e33700", {| mi_name := "addLiquidity"; mi_type := ADD_LIQUIDITY;
                       mi_description := "Add liquidity to pool" |});
    ("0xbaa2abde", {| mi_name := "removeLiquidity"; mi_type := REMOVE_LIQUIDITY;
                       mi_description := "Remove liquidity from pool" |});
    ("0xa6f2ae3a", {| mi_name := "buy"; mi_type := BUY;
                       mi_description := "Buy tokens with AVAX" |});
    ("0x7ff36ab5", {| mi_name := "sell"; mi_type := SELL;
                       mi_description := "Sell tokens for AVAX" |});
    ("0x38ed1739", {| mi_name := "swapExactTokensForETH"; mi_type := SELL;
                       mi_description := "Swap tokens for AVAX" |});
    ("0x7c025200", {| mi_name := "swapETHForExactTokens"; mi_type := BUY;
                       mi_description := "Swap AVAX for tokens" |});
    ("0x095ea7b3", {| mi_name := "approve"; mi_type := APPROVE;
                       mi_description := "Approve token spending" |});
    ("0xa9059cbb", {| mi_name := "transfer"; mi_type := TRANSFER;
                       mi_description := "Transfer tokens" |});
    ("0x23b872dd", {| mi_name := "transferFrom"; mi_type := TRANSFER;
                       mi_description := "Transfer tokens from address" |});
    ("0x2e1a7d4d", {| mi_name := "withdraw"; mi_type := SELL;
                       mi_description := "Withdraw AVAX" |});
    ("0xd0e30db0", {| mi_name := "deposit"; mi_type := BUY;
                       mi_description := "Deposit AVAX" |}) ]%string.

(** [METHOD_SIGNATURES[methodId]].  A selector is the text [0x] followed
    by hexadecimal digits, so no property inherited from the object
    prototype is ever looked up. *)
Fixpoint lookup_signature (table : list (string * MethodInfo)) (methodId : string)
  : option MethodInfo :=
  match table with
  | [] => None
  | (k, info) :: rest =>
      if String.eqb k methodId then Some info else lookup_signature rest methodId
  end.

(** The address of an ABI value as the decoder returns it: [0x] and
    forty digits, in the checksum capitalisation. *)
Definition address_text (a : Z) : string :=
  Address.checksumAddress (Hex.bytesToHex (numberToBytes 20 a)).

Definition formatA : list AbiType :=
  [TString; TString; TUint 256; TUint 256].

Definition formatB : list AbiType :=
  [TUint 16; TUint 8; TUint 128; TUint 8; TAddress; TUint 256;
   TString; TString; TUint 256].

(** [decodeTokenCreationData]; a decoding error is caught and gives
    [null]. *)
Definition decodeTokenCreationData (methodId input : string) : option TokenMetadata :=
  if String.eqb methodId "0x0b8c6fec" then
    let data := String.append "0x" (Js.slice_from 10 input) in
    match decodeAbiParameters formatA data with
    | Some [VString name; VString symbol; VUint totalSupply; _] =>
        Some {| tm_name := Some name; tm_symbol := Some symbol;
                tm_totalSupply := Some (Js.bigint_toString totalSupply);
                tm_creator := None; tm_tokenAddress := None |}
    | _ => None
    end
  else if String.eqb methodId "0x30f51a46" then
    let data := String.append "0x" (Js.slice_from 10 input) in
    match decodeAbiParameters formatB data with
    | Some [_; _; _; _; VAddress creator; _; VString name; VString symbol;
            VUint totalSupply] =>
        Some {| tm_name := Some name; tm_symbol := Some symbol;
                tm_totalSupply := Some (Js.bigint_toString totalSupply);
                tm_creator := Some (address_text creator);
                tm_tokenAddress := None |}
    | _ => None
    end
  else None.

(** [buildInput] of [blockchain.test.ts]: the selector followed by the
    encoded parameters without their [0x]. *)
Definition buildInput (methodId : string) (params : list AbiValue) : string :=
  String.append methodId (Js.slice_from 2 (encodeAbiParameters params)).

Record TransactionInfo : Type := {
  ti_type : TransactionType;
  ti_description : string;
  ti_method : string
}.

(** [determineTransactionType(methodId, value)], [value] being the
    decimal numeral of the integer it is given as here. *)
Definition determineTransactionType (methodId : string) (value : Z) : TransactionInfo :=
  match lookup_signature METHOD_SIGNATURES methodId with
  | Some methodInfo =>
      {| ti_type := mi_type methodInfo;
         ti_description := mi_description methodInfo;
         ti_method := mi_name methodInfo |}
  | None =>
      let methodIdLower := Js.toLowerCase methodId in
      if Js.includes "create" methodIdLower || Js.includes "token" methodIdLower then
        {| ti_type := TOKEN_CREATION;
           ti_description := "Possible token creation";
           ti_method := "unknown_create" |}
      else
        let valueInAvax := Float64.div (Float64.Number value) Float64.lit_1e18 in
        if Float64.ltb Float64.zero valueInAvax then
          {| ti_type := BUY;
             ti_description := "Buy transaction (AVAX sent)";
             ti_method := "unknown_buy" |}
        else
          {| ti_type := UNKNOWN;
             ti_description := "Unknown transaction type";
             ti_method := if String.eqb methodId "" then "unknown" else methodId |}
  end.

End Blockchain.

(** ** lib/database-simple.ts: creators, tiering and dispatch *)

Module DatabaseSimple.
Import ArenaSocials Blockchain.

Record ContractTicker : Type := {
  symbol : string;
  name : option string;
  address : option string;
  transaction_hash : option string;
  created_at : Z
}.

Record Creator : Type := {
  id : string;
  wallet_address : string;
  contracts_created : Z;
  contract_tickers : list ContractTicker;
  first_seen_at : Z;
  last_contract_at : option Z
}.

(** A row of [contract_transactions], with the columns the dispatcher
    reads and writes. *)
Record TransactionRow : Type := {
  row_id : string;
  posted_to_arena : option bool;
  posted_to_discord : option bool
}.

Record PostCacheEntry : Type := {
  posted : bool;
  pc_timestamp : Z;
  postType : string
}.

(** The two tables of the store and the two module-level caches.
    [creators] is keyed by its unique [wallet_address],
    [contract_transactions] by its unique [hash]. *)
Record State : Type := {
  creators : gmap string Creator;
  contract_transactions : gmap string TransactionRow;
  arenaPostCache : gmap string PostCacheEntry;
  discordPostCache : gmap string PostCacheEntry
}.

Definition set_creators v st :=
  {| creators := v; contract_transactions := contract_transactions st;
     arenaPostCache := arenaPostCache st; discordPostCache := discordPostCache st |}.
Definition set_contract_transactions v st :=
  {| creators := creators st; contract_transactions := v;
     arenaPostCache := arenaPostCache st; discordPostCache := discordPostCache st |}.
Definition set_arenaPostCache v st :=
  {| creators := creators st; contract_transactions := contract_transactions st;
     arenaPostCache := v; discordPostCache := discordPostCache st |}.
Definition set_discordPostCache v st :=
  {| creators := creators st; contract_transactions := contract_transactions st;
     arenaPostCache := arenaPostCache st; discordPostCache := v |}.

(** What the outside world answers during one invocation: the clock,
    the store's answers to the queries whose result the code tests,
    whether the store carries out the queries whose result the code does
    not look at, the resolver and the two channels. *)
Record Env : Type := {
  now : Z;
  creators_db_ok : bool;          (* the queries of addCreatorContract succeed *)
  new_creator_id : string;        (* the id the store gives a new creator *)
  get_creator_ok : bool;          (* the query of getCreator succeeds *)
  saved_tx_id : option string;    (* saveContractTransaction: the row id, or null *)
  select_tx_ok : bool;            (* the select of the transaction's row succeeds *)
  update_arena_ok : bool;         (* update({ posted_to_arena: true }) takes effect *)
  update_discord_ok : bool;       (* update({ posted_to_discord: true }) takes effect *)
  arena_profile : option ArenaUserProfile;   (* fetchArenaUserProfile *)
  arena_post : bool;              (* postToArenaTimeline *)
  discord_post : bool             (* postToDiscordWithRetry *)
}.

Definition CACHE_DURATION : Z := 24 * 60 * 60 * 1000.

Definition createArenaPostCacheKey (transactionHash walletAddress symbol : string) : string :=
  String.append "arena-post-"
    (String.append transactionHash
       (String.append "-"
          (String.append (Js.toLowerCase walletAddress)
             (String.append "-" (Js.toLowerCase symbol))))).

Definition createDiscordPostCacheKey (transactionHash walletAddress symbol : string) : string :=
  String.append "discord-post-"
    (String.append transactionHash
       (String.append "-"
          (String.append (Js.toLowerCase walletAddress)
             (String.append "-" (Js.toLowerCase symbol))))).



(** [wasArenaPostAlreadySent] and [wasDiscordPostAlreadySent]: the
    answer, and the cache without the entry when it has expired. *)
Definition wasPostAlreadySent (now : Z) (cache : gmap string PostCacheEntry)
    (cacheKey : string) : bool * gmap string PostCacheEntry :=
  match cache !! cacheKey with
  | None => (false, cache)
  | Some cached =>
      if now - pc_timestamp cached <? CACHE_DURATION
      then (posted cached, cache)
      else (false, delete cacheKey cache)
  end.

Definition wasArenaPostAlreadySent (now : Z) (st : State) (cacheKey : string)
  : bool * State :=
  let '(b, c) := wasPostAlreadySent now (arenaPostCache st) cacheKey in
  (b, set_arenaPostCache c st).

Definition wasDiscordPostAlreadySent (now : Z) (st : State) (cacheKey : string)
  : bool * State :=
  let '(b, c) := wasPostAlreadySent now (discordPostCache st) cacheKey in
  (b, set_discordPostCache c st).

Definition markArenaPostAsSent (now : Z) (cacheKey postType : string) (st : State) : State :=
  set_arenaPostCache
    (<[cacheKey := {| posted := true; pc_timestamp := now; postType := postType |}]>
       (arenaPostCache st)) st.

Definition markDiscordPostAsSent (now : Z) (cacheKey postType : string) (st : State) : State :=
  set_discordPostCache
    (<[cacheKey := {| posted := true; pc_timestamp := now; postType := postType |}]>
       (discordPostCache st)) st.

(** The record that [addCreatorContract] writes for a wallet, from the
    record it read: a new creator with one contract, or the existing one
    with its count incremented and the ticker appended unless a ticker
    of that symbol is there. *)
Definition creatorAfterContract (now : Z) (newId : string) (existing : option Creator)
    (walletAddress symbol : string) (name address transactionHash : option string)
  : Creator :=
  let ticker :=
    {| symbol := symbol; name := name; address := address;
       transaction_hash := transactionHash; created_at := now |} in
  match existing with
  | None =>
      {| id := newId; wallet_address := walletAddress; contracts_created := 1;
         contract_tickers := [ticker];
         first_seen_at := now; last_contract_at := Some now |}
  | Some creator =>
      let existingTickers := contract_tickers creator in
      let tickerExists :=
        existsb (fun ticker => String.eqb (DatabaseSimple.symbol ticker) symbol)
          existingTickers in
      {| id := id creator; wallet_address := wallet_address creator;
         contracts_created := contracts_created creator + 1;
         contract_tickers :=
           if tickerExists then existingTickers else existingTickers ++ [ticker];
         first_seen_at := first_seen_at creator;
         last_contract_at := Some now |}
  end.

(** [addCreatorContract]: the id of the creator, or [null] when the
    store refuses. *)
Definition addCreatorContract (env : Env) (st : State)
    (walletAddress symbol : string) (name address transactionHash : option string)
  : State * option string :=
  if creators_db_ok env then
    let creator :=
      creatorAfterContract (now env) (new_creator_id env)
        (creators st !! walletAddress) walletAddress symbol name address transactionHash in
    (set_creators (<[walletAddress := creator]> (creators st)) st, Some (id creator))
  else (st, None).

Definition getCreator (env : Env) (st : State) (walletAddress : string) : option Creator :=
  if get_creator_ok env then creators st !! walletAddress else None.

(** [saveContractTransaction]: an upsert on [hash] that leaves the
    posted flags of an existing row as they are. *)
Definition saveContractTransaction (env : Env) (st : State) (transaction : ContractTransaction)
  : State * option string :=
  match saved_tx_id env with
  | None => (st, None)
  | Some newId =>
      match contract_transactions st !! hash transaction with
      | Some row => (st, Some (row_id row))
      | None =>
          (set_contract_transactions
             (<[hash transaction :=
                  {| row_id := newId; posted_to_arena := None; posted_to_discord := None |}]>
                (contract_transactions st)) st,
           Some newId)
      end
  end.

(** The select of the transaction's row by its hash: the row, or [null]
    when there is none and when the query fails; a failure is logged and
    nothing else. *)
Definition selectTransaction (env : Env) (st : State) (h : string)
  : option TransactionRow :=
  if select_tx_ok env then contract_transactions st !! h else None.

(** [update({ posted_to_arena: true }).eq("id", transactionId)], when the
    store carries it out. *)
Definition setPostedToArena (transactionId : string) (st : State) : State :=
  set_contract_transactions
    ((fun row =>
        if String.eqb (row_id row) transactionId
        then {| row_id := row_id row; posted_to_arena := Some true;
                posted_to_discord := posted_to_discord row |}
        else row) <$> contract_transactions st) st.

Definition setPostedToDiscord (transactionId : string) (st : State) : State :=
  set_contract_transactions
    ((fun row =>
        if String.eqb (row_id row) transactionId
        then {| row_id := row_id row; posted_to_arena := posted_to_arena row;
                posted_to_discord := Some true |}
        else row) <$> contract_transactions st) st.

(** The two updates as the dispatcher issues them: their result is not
    looked at, and an update that the store refuses leaves the row as it
    is. *)
Definition updatePostedToArena (env : Env) (transactionId : string) (st : State) : State :=
  if update_arena_ok env then setPostedToArena transactionId st else st.

Definition updatePostedToDiscord (env : Env) (transactionId : string) (st : State)
  : State :=
  if update_discord_ok env then setPostedToDiscord transactionId st else st.

(** The tier of a creator. *)
Inductive PostType : Type :=
| Regular
| Champion
| HeavyHitter.

Definition label (t : PostType) : string :=
  match t with
  | Regular => "regular"
  | Champion => "champion"
  | HeavyHitter => "heavy-hitter"
  end.

(** [arenaProfile.followerCount || 0] *)
Definition followersOf (arenaProfile : ArenaUserProfile) : Z :=
  match followerCount arenaProfile with
  | Some n => n
  | None => 0
  end.

(** [arenaProfile.keyPrice ? Number(arenaProfile.keyPrice) / 1e18 : 0] *)
Definition ticketPriceOf (arenaProfile : ArenaUserProfile) : Float64.float64 :=
  match keyPrice arenaProfile with
  | Some k => Float64.div (Float64.Number k) Float64.lit_1e18
  | None => Float64.zero
  end.

Definition is_true (o : option bool) : bool :=
  match o with
  | Some b => b
  | None => false
  end.

(** The claim's reading of "ticket price in whole native-token units
    >= 1.5" for a key price of [k] of the smallest unit: the quotient of
    [k] by [10^18], taken exactly, is at least [3/2]. *)
Definition exact_price_reaches_1_5 (k : Z) : Prop := 3 * 10 ^ 18 <= 2 * k.

(** The post type that [processTokenCreation] determines. *)
Definition postTypeOf (arenaProfile : ArenaUserProfile) : PostType :=
  if is_true (isArenaChampion arenaProfile) then Champion
  else
    let followers := followersOf arenaProfile in
    let ticketPrice := ticketPriceOf arenaProfile in
    if (5000 <=? followers) || Float64.leb Float64.lit_1_5 ticketPrice
    then HeavyHitter
    else Regular.

(** The calls that leave the process. *)
Inductive Effect : Type :=
| EFetchArenaProfile (walletAddress : string)
| EPostArena (username symbol : string) (name : option string)
    (contractsCreated : Z) (isChampion : bool)
| EPostDiscord (username symbol : string) (name : option string)
    (contractsCreated : Z) (isChampion : bool) (contractAddress : option string).

Record Outcome : Type := {
  out_state : State;
  out_trace : list Effect;
  out_result : option string
}.

Definition or_false (o : option bool) : bool := is_true o.

(** The Arena branch of the dispatch. *)
Definition dispatchArena (env : Env) (st : State) (arenaPostKey : string)
    (transactionId : option string) (arenaAlreadySent : bool)
    (postType : PostType) (call : Effect) : State * list Effect :=
  match postType with
  | Champion | HeavyHitter =>
      if negb arenaAlreadySent then
        if arena_post env then
          let st1 := markArenaPostAsSent (now env) arenaPostKey (label postType) st in
          let st2 :=
            match transactionId with
            | Some tid =>
                if Js.truthy transactionId then updatePostedToArena env tid st1 else st1
            | None => st1
            end in
          (st2, [call])
        else (st, [call])
      else (st, [])
  | Regular =>
      (markArenaPostAsSent (now env) arenaPostKey (label postType) st, [])
  end.

(** The Discord branch of the dispatch. *)
Definition dispatchDiscord (env : Env) (st : State) (discordPostKey : string)
    (transactionId : option string) (discordAlreadySent : bool)
    (postType : PostType) (call : Effect) : State * list Effect :=
  if negb discordAlreadySent then
    if discord_post env then
      let st1 := markDiscordPostAsSent (now env) discordPostKey (label postType) st in
      let st2 :=
        match transactionId with
        | Some tid =>
            if Js.truthy transactionId then updatePostedToDiscord env tid st1 else st1
        | None => st1
        end in
      (st2, [call])
    else (st, [call])
  else (st, []).

(** The posted flags of the transaction, read from the store; the
    transaction is saved when the select yields no row, be it that the
    store has none for the hash or that the query failed.  A flag found set
    is copied to the cache.  The result is the state, the id of the row and
    the two flags. *)
Definition loadPostStatus (env : Env) (st : State) (transaction : ContractTransaction)
  (arenaPostKey discordPostKey : string) : State * option string * bool * bool :=
  match selectTransaction env st (hash transaction) with
  | Some txData =>
      let arenaAlreadySent := or_false (posted_to_arena txData) in
      let discordAlreadySent := or_false (posted_to_discord txData) in
      let sa :=
        if arenaAlreadySent
        then markArenaPostAsSent (now env) arenaPostKey "db" st else st in
      let sd :=
        if discordAlreadySent
        then markDiscordPostAsSent (now env) discordPostKey "db" sa else sa in
      (sd, Some (row_id txData), arenaAlreadySent, discordAlreadySent)
  | None =>
      let '(s, tid) := saveContractTransaction env st transaction in
      (s, tid, false, false)
  end.

(** The tiering and the two posts, for a creator with more than one
    contract and a profile with a user name. *)
Definition dispatch (env : Env) (st : State) (arenaPostKey discordPostKey : string)
  (transactionId : option string) (arenaAlreadySent discordAlreadySent : bool)
  (symbol : string) (name contractAddress : option string)
  (contractsCreated : Z) (arenaProfile : ArenaUserProfile) (uname : string)
  : State * list Effect :=
  let postType := postTypeOf arenaProfile in
  let isChampion := or_false (isArenaChampion arenaProfile) in
  let '(st3, ta) :=
    dispatchArena env st arenaPostKey transactionId arenaAlreadySent postType
      (EPostArena uname symbol name contractsCreated isChampion) in
  let '(st4, td) :=
    dispatchDiscord env st3 discordPostKey transactionId discordAlreadySent postType
      (EPostDiscord uname symbol name contractsCreated isChampion contractAddress) in
  (st4, ta ++ td).

(** What follows the update of the creator: the count of contracts is
    read back, and above one the profile is resolved and the posts are
    dispatched. *)
Definition enrichAndDispatch (env : Env) (st : State) (transaction : ContractTransaction)
  (arenaPostKey discordPostKey : string) (transactionId : option string)
  (arenaAlreadySent discordAlreadySent : bool)
  (symbol : string) (name contractAddress : option string) : State * list Effect :=
  match getCreator env st (from transaction) with
  | Some creatorData =>
      if 1 <? contracts_created creatorData then
        match arena_profile env with
        | Some arenaProfile =>
            match username arenaProfile with
            | Some uname =>
                if Js.truthy (Some uname) then
                  let '(st', t) :=
                    dispatch env st arenaPostKey discordPostKey transactionId
                      arenaAlreadySent discordAlreadySent symbol name contractAddress
                      (contracts_created creatorData) arenaProfile uname in
                  (st', EFetchArenaProfile (from transaction) :: t)
                else (st, [EFetchArenaProfile (from transaction)])
            | None => (st, [EFetchArenaProfile (from transaction)])
            end
        | None => (st, [EFetchArenaProfile (from transaction)])
        end
      else (st, [])
  | None => (st, [])
  end.

(** The symbol of a token creation that [processTokenCreation] accepts. *)
Definition creationSymbol (transaction : ContractTransaction) : option string :=
  match isTokenCreation transaction, tokenMetadata transaction with
  | true, Some md =>
      match tm_symbol md with
      | Some symbol => if String.eqb symbol "" then None else Some symbol
      | None => None
      end
  | _, _ => None
  end.

(** [processTokenCreation] *)
Definition processTokenCreation (env : Env) (st : State) (transaction : ContractTransaction)
  : Outcome :=
  match creationSymbol transaction, tokenMetadata transaction with
  | Some symbol, Some md =>
      let name := tm_name md in
      let mdTokenAddress := tm_tokenAddress md in
      let arenaPostKey :=
        createArenaPostCacheKey (hash transaction) (from transaction) symbol in
      let discordPostKey :=
        createDiscordPostCacheKey (hash transaction) (from transaction) symbol in
      let '(st1, transactionId, arenaAlreadySent, discordAlreadySent) :=
        loadPostStatus env st transaction arenaPostKey discordPostKey in
      let contractAddress :=
        Js.or_else mdTokenAddress (Js.or_undefined (tokenAddress transaction)) in
      let '(st2, creatorId) :=
        addCreatorContract env st1 (from transaction) symbol (Js.or_undefined name)
          contractAddress (Some (hash transaction)) in
      if arenaAlreadySent && discordAlreadySent then
        {| out_state := st2; out_trace := []; out_result := creatorId |}
      else if Js.truthy creatorId then
        let '(st3, t) :=
          enrichAndDispatch env st2 transaction arenaPostKey discordPostKey
            transactionId arenaAlreadySent discordAlreadySent symbol name
            contractAddress in
        {| out_state := st3; out_trace := t; out_result := creatorId |}
      else {| out_state := st2; out_trace := []; out_result := creatorId |}
  | _, _ => {| out_state := st; out_trace := []; out_result := None |}
  end.

(** An invocation awaits the answer of its select, and other
    invocations run meanwhile: the answer shows the store as it was when
    the select was evaluated, which need not be the store that the rest of
    the invocation finds.  [loadPostStatusFrom] and
    [processTokenCreationFrom] are [loadPostStatus] and
    [processTokenCreation] with the answer [txData] of the select given;
    [st] is the state when the answer arrives. *)
Definition loadPostStatusFrom (txData : option TransactionRow) (env : Env) (st : State)
  (transaction : ContractTransaction) (arenaPostKey discordPostKey : string)
  : State * option string * bool * bool :=
  match txData with
  | Some txData =>
      let arenaAlreadySent := or_false (posted_to_arena txData) in
      let discordAlreadySent := or_false (posted_to_discord txData) in
      let sa :=
        if arenaAlreadySent
        then markArenaPostAsSent (now env) arenaPostKey "db" st else st in
      let sd :=
        if discordAlreadySent
        then markDiscordPostAsSent (now env) discordPostKey "db" sa else sa in
      (sd, Some (row_id txData), arenaAlreadySent, discordAlreadySent)
  | None =>
      let '(s, tid) := saveContractTransaction env st transaction in
      (s, tid, false, false)
  end.

Definition processTokenCreationFrom (txData : option TransactionRow) (env : Env)
  (st : State) (transaction : ContractTransaction) : Outcome :=
  match creationSymbol transaction, tokenMetadata transaction with
  | Some symbol, Some md =>
      let name := tm_name md in
      let mdTokenAddress := tm_tokenAddress md in
      let arenaPostKey :=
        createArenaPostCacheKey (hash transaction) (from transaction) symbol in
      let discordPostKey :=
        createDiscordPostCacheKey (hash transaction) (from transaction) symbol in
      let '(st1, transactionId, arenaAlreadySent, discordAlreadySent) :=
        loadPostStatusFrom txData env st transaction arenaPostKey discordPostKey in
      let contractAddress :=
        Js.or_else mdTokenAddress (Js.or_undefined (tokenAddress transaction)) in
      let '(st2, creatorId) :=
        addCreatorContract env st1 (from transaction) symbol (Js.or_undefined name)
          contractAddress (Some (hash transaction)) in
      if arenaAlreadySent && discordAlreadySent then
        {| out_state := st2; out_trace := []; out_result := creatorId |}
      else if Js.truthy creatorId then
        let '(st3, t) :=
          enrichAndDispatch env st2 transaction arenaPostKey discordPostKey
            transactionId arenaAlreadySent discordAlreadySent symbol name
            contractAddress in
        {| out_state := st3; out_trace := t; out_result := creatorId |}
      else {| out_state := st2; out_trace := []; out_result := creatorId |}
  | _, _ => {| out_state := st; out_trace := []; out_result := None |}
  end.

(** Whether the id of the transaction's row is known to an invocation:
    the row is selected, or the store saves it. *)
Definition transactionIdKnown (env : Env) (st : State) (transaction : ContractTransaction)
  : bool :=
  match selectTransaction env st (hash transaction) with
  | Some txData => Js.truthy (Some (row_id txData))
  | None => Js.truthy (snd (saveContractTransaction env st transaction))
  end.

(** The posted flags that the store holds for a hash. *)
Definition postedToArena (st : State) (h : string) : bool :=
  match contract_transactions st !! h with
  | Some row => or_false (posted_to_arena row)
  | None => false
  end.

Definition postedToDiscord (st : State) (h : string) : bool :=
  match contract_transactions st !! h with
  | Some row => or_false (posted_to_discord row)
  | None => false
  end.

(** The posted flags as an invocation reads them: those of the row that
    its select yields, false without one. *)
Definition readPostedToArena (env : Env) (st : State) (h : string) : bool :=
  match selectTransaction env st h with
  | Some row => or_false (posted_to_arena row)
  | None => false
  end.

Definition readPostedToDiscord (env : Env) (st : State) (h : string) : bool :=
  match selectTransaction env st h with
  | Some row => or_false (posted_to_discord row)
  | None => false
  end.

(** Whether a cache holds an entry marked as posted under a key. *)
Definition markedPosted (cache : gmap string PostCacheEntry) (key : string) : bool :=
  match cache !! key with
  | Some entry => posted entry
  | None => false
  end.

(** The tiers that post to Arena. *)
Definition tiered (pt : PostType) : bool :=
  match pt with Regular => false | _ => true end.

(** The store has a row for the hash, with this id. *)
Definition hasRow (st : State) (h t : string) : Prop :=
  exists row, contract_transactions st !! h = Some row /\ row_id row = t.

(** The record of the sender that an invocation writes for an accepted
    creation. *)
Definition creatorAfter (env : Env) (st : State) (transaction : ContractTransaction)
  (symbol : string) (md : TokenMetadata) : Creator :=
  creatorAfterContract (now env) (new_creator_id env)
    (creators st !! from transaction) (from transaction) symbol
    (Js.or_undefined (tm_name md))
    (Js.or_else (tm_tokenAddress md) (Js.or_undefined (tokenAddress transaction)))
    (Some (hash transaction)).

(** The profile with which an invocation reaches the dispatch, if it
    does: the creation is accepted, the two flags are not both read as
    set, the creator is written and read back with more than one contract,
    and the resolver answers with a profile that has a user name. *)
Definition reachesDispatch (env : Env) (st : State) (transaction : ContractTransaction)
  : option ArenaUserProfile :=
  match creationSymbol transaction, tokenMetadata transaction with
  | Some symbol, Some md =>
      let creator := creatorAfter env st transaction symbol md in
      if readPostedToArena env st (hash transaction)
         && readPostedToDiscord env st (hash transaction)
      then None
      else if creators_db_ok env && Js.truthy (Some (id creator))
              && get_creator_ok env && (1 <? contracts_created creator)
      then
        match arena_profile env with
        | Some arenaProfile =>
            if Js.truthy (username arenaProfile) then Some arenaProfile else None
        | None => None
        end
      else None
  | _, _ => None
  end.

(** The state in which an invocation that reaches the dispatch
    dispatches: the flags read and the creator updated. *)
Definition beforeDispatch (env : Env) (st : State) (tx : ContractTransaction)
  (sym : string) (md : TokenMetadata) : State :=
  fst (addCreatorContract env
         (fst (fst (fst (loadPostStatus env st tx
                           (createArenaPostCacheKey (hash tx) (from tx) sym)
                           (createDiscordPostCacheKey (hash tx) (from tx) sym)))))
         (from tx) sym (Js.or_undefined (tm_name md))
         (Js.or_else (tm_tokenAddress md) (Js.or_undefined (tokenAddress tx)))
         (Some (hash tx))).

(** The id of the transaction's row, as the invocation learns it. *)
Definition loadedId (env : Env) (st : State) (tx : ContractTransaction) (sym : string)
  : option string :=
  snd (fst (fst (loadPostStatus env st tx
                   (createArenaPostCacheKey (hash tx) (from tx) sym)
                   (createDiscordPostCacheKey (hash tx) (from tx) sym)))).

(** [existingTickers.some((ticker) => ticker.symbol === symbol)] *)
Definition has_symbol (sym : string) (tickers : list ContractTicker) : bool :=
  existsb (fun ticker => String.eqb (symbol ticker) sym) tickers.

(** A call of [addCreatorContract] for one wallet, with the clock at the
    time of the call. *)
Record ContractCall : Type := {
  cc_now : Z;
  cc_symbol : string;
  cc_name : option string;
  cc_address : option string;
  cc_transactionHash : option string
}.

(** The record of a wallet after a sequence of calls. *)
Fixpoint creatorAfterCalls (newId walletAddress : string) (existing : option Creator)
    (calls : list ContractCall) : option Creator :=
  match calls with
  | [] => existing
  | c :: rest =>
      creatorAfterCalls newId walletAddress
        (Some (creatorAfterContract (cc_now c) newId existing walletAddress
                 (cc_symbol c) (cc_name c) (cc_address c) (cc_transactionHash c)))
        rest
  end.

(** The outbound calls of a trace, per channel. *)
Definition is_arena_post (e : Effect) : bool :=
  match e with EPostArena _ _ _ _ _ => true | _ => false end.

Definition is_discord_post (e : Effect) : bool :=
  match e with EPostDiscord _ _ _ _ _ _ => true | _ => false end.

Definition is_resolution (e : Effect) : bool :=
  match e with EFetchArenaProfile _ => true | _ => false end.

Definition arenaPosts (t : list Effect) : nat := length (List.filter is_arena_post t).
Definition discordPosts (t : list Effect) : nat := length (List.filter is_discord_post t).

End DatabaseSimple.

(** ** lib/blockchain.ts: the chain poller *)

Module Monitor.
Import ArenaSocials Blockchain DatabaseSimple.

(** A transaction of a block fetched with its transactions. *)
Record ChainTransaction : Type := {
  ct_hash : string;
  ct_from : string;
  ct_to : option string;
  ct_value : Z;
  ct_input : string
}.

Record Block : Type := {
  b_number : Z;
  b_timestamp : Z;
  b_transactions : option (list ChainTransaction)
}.

(** The chain client during one tick; [None] is a request that raises. *)
Record Chain : Type := {
  getBlockNumber : option Z;
  getBlock : Z -> option Block
}.

(** A subscriber is known by the callback it registered. *)
Definition Callback : Type := nat.

Record MonitorState : Type := {
  isMonitoring : bool;
  lastProcessedBlock : Z;
  monitoringCallbacks : list Callback;
  monitoringTimeout : option Z          (* the delay of the pending timer *)
}.

(** The work that a tick hands to the scheduler. *)
Inductive Action : Type :=
| Notify (tx : ContractTransaction)
    (* notifyCallbacks(contractTx) *)
| FetchCreatorProfile (address : string) (tx : ContractTransaction).
    (* fetchCreatorProfile(tx.from).then(profile => notifyCallbacks(...)) *)

Definition addressed_to_contract (tx : ChainTransaction) : bool :=
  match ct_to tx with
  | Some a => String.eqb (Js.toLowerCase a) (Js.toLowerCase ARENA_CONTRACT_ADDRESS)
  | None => false
  end.

Definition contractTxOf (block : Block) (tx : ChainTransaction)
    (methodId : string) (info : TransactionInfo) : ContractTransaction :=
  {| hash := ct_hash tx;
     from := ct_from tx;
     to := ct_to tx;
     value := ct_value tx;
     blockNumber := b_number block;
     timestamp := Some (b_timestamp block * 1000);
     method := Some (ti_method info);
     methodId := Some methodId;
     transactionType := ti_type info;
     isTokenCreation :=
       match ti_type info with TOKEN_CREATION => true | _ => false end;
     description := ti_description info;
     tokenMetadata := decodeTokenCreationData methodId (ct_input tx);
     creatorProfile := None;
     rawInput := Some (ct_input tx);
     tokenAddress := None |}.

(** The body of the loop over the transactions of a block. *)
Definition processTransaction (block : Block) (tx : ChainTransaction) : list Action :=
  if addressed_to_contract tx then
    let methodId := Js.slice_to 10 (ct_input tx) in
    let transactionInfo := determineTransactionType methodId (ct_value tx) in
    match ti_type transactionInfo with
    | TOKEN_CREATION =>
        let contractTx := contractTxOf block tx methodId transactionInfo in
        [Notify contractTx; FetchCreatorProfile (ct_from tx) contractTx]
    | _ => []                 (* only token creations are processed *)
    end
  else [].

(** The body of the loop over the new blocks; a block that cannot be
    fetched is logged and skipped. *)
Definition processBlock (chain : Chain) (blockNum : Z) : list Action :=
  match getBlock chain blockNum with
  | Some block =>
      match b_transactions block with
      | Some txs => flat_map (processTransaction block) txs
      | None => []
      end
  | None => []
  end.

(** The block numbers [lo, lo + 1, ..., hi]. *)
Definition blockRange (lo hi : Z) : list Z :=
  map (fun i => lo + Z.of_nat i) (seq 0 (Z.to_nat (hi - lo + 1))).

Definition rearm (st : MonitorState) : MonitorState :=
  {| isMonitoring := isMonitoring st;
     lastProcessedBlock := lastProcessedBlock st;
     monitoringCallbacks := monitoringCallbacks st;
     monitoringTimeout := if isMonitoring st then Some 3000 else monitoringTimeout st |}.

Definition set_lastProcessedBlock (v : Z) (st : MonitorState) : MonitorState :=
  {| isMonitoring := isMonitoring st;
     lastProcessedBlock := v;
     monitoringCallbacks := monitoringCallbacks st;
     monitoringTimeout := monitoringTimeout st |}.

(** [monitorContract]: one tick. *)
Definition monitorContract (chain : Chain) (st : MonitorState)
  : MonitorState * list Action :=
  if isMonitoring st then
    match getBlockNumber chain with
    | None => (rearm st, [])
    | Some latestBlock =>
        if lastProcessedBlock st =? 0 then
          (rearm (set_lastProcessedBlock (latestBlock - 1) st), [])
        else if lastProcessedBlock st <? latestBlock then
          (rearm (set_lastProcessedBlock latestBlock st),
           flat_map (processBlock chain)
             (blockRange (lastProcessedBlock st + 1) latestBlock))
        else (rearm st, [])
    end
  else (st, []).

(** [notifyCallbacks], when its timer fires: every callback registered
    at that time receives the transaction, a callback that raises does
    not stop the others, and a token creation is then handed to
    [processTokenCreation]. *)
Definition deliveries (callbacks : list Callback) (tx : ContractTransaction)
  : list (Callback * ContractTransaction) :=
  map (fun callback => (callback, tx)) callbacks.

Record Notified : Type := {
  n_deliveries : list (Callback * ContractTransaction);
  n_outcome : option Outcome
}.

Definition notifyCallbacks (env : Env) (st : State) (callbacks : list Callback)
    (tx : ContractTransaction) : Notified :=
  {| n_deliveries := deliveries callbacks tx;
     n_outcome :=
       if isTokenCreation tx then Some (processTokenCreation env st tx) else None |}.

(** [fetchCreatorProfile]: the resolver is called for the address. *)
Definition fetchCreatorProfile (resolved : option ArenaUserProfile) (address : string)
  : list Effect * CreatorProfile :=
  ([EFetchArenaProfile address],
   {| cp_address := address; cp_arenaProfile := resolved; cp_isLoading := false |}).

Definition with_creatorProfile (profile : CreatorProfile) (tx : ContractTransaction)
  : ContractTransaction :=
  {| hash := hash tx; from := from tx; to := to tx; value := value tx;
     blockNumber := blockNumber tx; timestamp := timestamp tx; method := method tx;
     methodId := methodId tx; transactionType := transactionType tx;
     isTokenCreation := isTokenCreation tx; description := description tx;
     tokenMetadata := tokenMetadata tx; creatorProfile := Some profile;
     rawInput := rawInput tx; tokenAddress := tokenAddress tx |}.

(** The effects of the actions of a tick, each action run to its end
    before the next one starts; [env] answers the invocations of
    [processTokenCreation] and [resolved] is what the resolver answers
    the poller.  The program starts an invocation without waiting for
    it, so that the two invocations for one creation can overlap: the
    second may read the store before the first has written its flags.
    What the order of the writes decides, the number of posts above all,
    is therefore not read off [runActions]. *)
Definition stateAfter (st : State) (n : Notified) : State :=
  match n_outcome n with
  | Some o => out_state o
  | None => st
  end.

Definition traceOf (n : Notified) : list Effect :=
  match n_outcome n with
  | Some o => out_trace o
  | None => []
  end.

Definition runAction (env : Env) (resolved : option ArenaUserProfile)
    (callbacks : list Callback) (st : State) (a : Action) : State * list Effect :=
  match a with
  | Notify tx =>
      let n := notifyCallbacks env st callbacks tx in
      (stateAfter st n, traceOf n)
  | FetchCreatorProfile address tx =>
      let '(t, profile) := fetchCreatorProfile resolved address in
      let n := notifyCallbacks env st callbacks (with_creatorProfile profile tx) in
      (stateAfter st n, t ++ traceOf n)
  end.

Fixpoint runActions (env : Env) (resolved : option ArenaUserProfile)
    (callbacks : list Callback) (st : State) (actions : list Action)
  : State * list Effect :=
  match actions with
  | [] => (st, [])
  | a :: rest =>
      let '(st1, t1) := runAction env resolved callbacks st a in
      let '(st2, t2) := runActions env resolved callbacks st1 rest in
      (st2, t1 ++ t2)
  end.

End Monitor.

(** ** Sample data

    Concrete inputs on which the properties below are exercised. *)

Module Samples.
Import ArenaSocials Blockchain DatabaseSimple Monitor.

Definition empty_state : State :=
  {| creators := ∅; contract_transactions := ∅;
     arenaPostCache := ∅; discordPostCache := ∅ |}.

Definition quiet_env : Env :=
  {| now := 1700000000000; creators_db_ok := true; new_creator_id := "creator-1";
     get_creator_ok := true; saved_tx_id := Some "tx-1"%string;
     select_tx_ok := true; update_arena_ok := true; update_discord_ok := true;
     arena_profile := None; arena_post := true; discord_post := true |}.

Definition wallet : string := "0x00000000000000000000000000000000000000aa".

Definition call_AAA : ContractCall :=
  {| cc_now := 1; cc_symbol := "AAA"; cc_name := None; cc_address := None;
     cc_transactionHash := Some "0xabc"%string |}.

Definition call_BBB : ContractCall :=
  {| cc_now := 2; cc_symbol := "BBB"; cc_name := None; cc_address := None;
     cc_transactionHash := Some "0xabc"%string |}.

Definition call_CCC : ContractCall :=
  {| cc_now := 3; cc_symbol := "CCC"; cc_name := None; cc_address := None;
     cc_transactionHash := Some "0xdef"%string |}.

(** [Number] on the strings that are decimal numerals of integers. *)
Definition decimalToNumber (s : string) : option Z :=
  match NilZero.int_of_string s with
  | Some d => Some (Z.of_int d)
  | None => None
  end.

Definition alice : TradeUser :=
  {| twitter_handle := Some "alice"%string; twitter_handle_lc := Some "alice"%string;
     tu_handle := None; twitter_username := Some "Alice"%string;
     twitter_followers := Some 1200;
     key_price := Absent; total_holders := Absent; tu_volume := Absent;
     tu_supply := Absent; arena_price := Absent; holder_count := Absent;
     trade_volume := Absent |}.

Definition alice_user : StarsUser :=
  {| su_id := Some "user-1"%string; twitterName := Some "Alice"%string;
     su_handle := Some "alice"%string; su_followerCount := Some 6000;
     su_twitterFollowerCount := Some 1200; su_keyPrice := None;
     lastKeyPrice := Some 20000000000000000 |}.

Definition badge (t : JsVal) : ArenaBadge :=
  {| badge_id := 1; badge_userId := "user-1"; badgeType := t; badge_order := 0 |}.

Definition alice_stats : StatsBody :=
  {| sb_totalHolders := Val 12;
     sb_stats := Some {| st_keyPrice := Val 20000000000000000; st_volume := Absent;
        st_supply := Val 15 |};
     sb_badges := Some [badge (JNum 7); badge (JStr "19")] |}.

Definition champion_responses : Responses :=
  {| r_trade := Ok [alice]; r_user := Ok (Some alice_user);
     r_stats := Ok (Some alice_stats) |}.

Definition forbidden_responses : Responses :=
  {| r_trade := Ok [alice]; r_user := Ok (Some alice_user); r_stats := Failed |}.

(** A creation by [wallet], as the poller hands it over. *)
Definition creation : ContractTransaction :=
  {| hash := "0x1f"; from := wallet; to := Some ARENA_CONTRACT_ADDRESS; value := 0;
     blockNumber := 101; timestamp := Some 1700000000000;
     method := Some "createToken"%string; methodId := Some "0x0b8c6fec"%string;
     transactionType := TOKEN_CREATION; isTokenCreation := true;
     description := "Create new token";
     tokenMetadata :=
     Some {| tm_name := Some "MyToken"%string; tm_symbol := Some "MYT"%string;
        tm_totalSupply := Some "1000"%string; tm_creator := None;
        tm_tokenAddress := None |};
     creatorProfile := None; rawInput := None; tokenAddress := None |}.

Definition profile_with (followers : Z) (champion : bool) : ArenaUserProfile :=
  {| username := Some "alice"%string; displayName := Some "Alice"%string;
     followerCount := Some followers; twitterFollowerCount := Some 1200;
     keyPrice := Some 20000000000000000; totalHolders := Some 12; volume := None;
     supply := Some 15; badges := None; isArenaChampion := Some champion |}.

(** The outside world: the resolver answers with a profile of so many
    followers, and the posts succeed or fail. *)
Definition world (followers : Z) (posts : bool) : Env :=
  {| now := 1700000000000; creators_db_ok := true; new_creator_id := "creator-1";
     get_creator_ok := true; saved_tx_id := Some "tx-1"%string;
     select_tx_ok := true; update_arena_ok := true; update_discord_ok := true;
     arena_profile := Some (profile_with followers false);
     arena_post := posts; discord_post := posts |}.

(** The same world when the row of the transaction cannot be saved, so
    that no id is known and no persisted flag is written. *)
Definition rowless_world (followers : Z) (posts : bool) : Env :=
  {| now := 1700000000000; creators_db_ok := true; new_creator_id := "creator-1";
     get_creator_ok := true; saved_tx_id := None;
     select_tx_ok := true; update_arena_ok := true; update_discord_ok := true;
     arena_profile := Some (profile_with followers false);
     arena_post := posts; discord_post := posts |}.

(** The same world when the select of the transaction's row fails, and
    when the store refuses the updates of the posted flags. *)
Definition blind_world (followers : Z) : Env :=
  {| now := 1700000000000; creators_db_ok := true; new_creator_id := "creator-1";
     get_creator_ok := true; saved_tx_id := Some "tx-1"%string;
     select_tx_ok := false; update_arena_ok := true; update_discord_ok := true;
     arena_profile := Some (profile_with followers false);
     arena_post := true; discord_post := true |}.

Definition refusing_world (followers : Z) : Env :=
  {| now := 1700000000000; creators_db_ok := true; new_creator_id := "creator-1";
     get_creator_ok := true; saved_tx_id := Some "tx-1"%string;
     select_tx_ok := true; update_arena_ok := false; update_discord_ok := false;
     arena_profile := Some (profile_with followers false);
     arena_post := true; discord_post := true |}.

(** A store in which [wallet] has one earlier contract. *)
Definition seasoned_state : State :=
  fst (addCreatorContract quiet_env empty_state wallet "OLD" None None
  (Some "0x0e"%string)).

(** The state left by an invocation for [creation] while the profile of
    the sender is regular. *)
Definition suppressed_state : State :=
  out_state (processTokenCreation (world 100 true) seasoned_state creation).

(** A chain whose block 101 holds one transaction to the tracked
    contract. *)
Definition chain_with (tx : ChainTransaction) : Chain :=
  {| getBlockNumber := Some 101;
     getBlock := fun n =>
       if n =? 101
       then Some {| b_number := 101; b_timestamp := 1700000000;
        b_transactions := Some [tx] |}
       else None |}.

Definition creation_call : ChainTransaction :=
  {| ct_hash := "0x1f"; ct_from := wallet;
     ct_to := Some "0x8315F1EB449DD4B779495C3A0B05E5D194446C6E"%string;
     ct_value := 0;
     ct_input :=
     buildInput "0x0b8c6fec"
     [Abi.VString "MyToken"; Abi.VString "MYT"; Abi.VUint 1000; Abi.VUint 10] |}.

Definition buy_call : ChainTransaction :=
  {| ct_hash := "0x2a"; ct_from := wallet;
     ct_to := Some ARENA_CONTRACT_ADDRESS;
     ct_value := 1000000000000000000;
     ct_input :=
     "0xa6f2ae3a00000000000000000000000000000000000000000000000000000000000000aa" |}.

Definition running : MonitorState :=
  {| isMonitoring := true; lastProcessedBlock := 100;
     monitoringCallbacks := [1; 2]%nat; monitoringTimeout := Some 3000 |}.

(** The name MyToken after a byte order mark (U+FEFF), and after a zero
    byte. *)
Definition marked_name : string :=
  string_of_list_ascii (TextDecoder.byteOrderMark ++ list_ascii_of_string "MyToken").

Definition padded_name : string := String Ascii.zero "MyToken".

End Samples.

(** ** lib/arena-socials.ts and lib/discord-socials.ts: the retry loops *)

Module Retry.

(** What one [fetch] comes to: a response with its status, or a
    rejection (a network error, or the abort when the timer of the
    attempt fires). *)
Inductive Attempt : Type :=
| Responded (status : Z)
| Threw (error : string).

(** [response.ok] *)
Definition ok (status : Z) : bool := (200 <=? status) && (status <=? 299).

(** How [fetchWithRetry] ends: it returns a response or throws. *)
Inductive Fetch : Type :=
| Returned (status : Z)
| Thrown (error : string).

(** What the loop does, in order: a [fetch] with the timer of the
    attempt, a pause before the next attempt. *)
Inductive Event : Type :=
| Attempted (attempt : nat) (timeoutMs : Z)
| Waited (delay : Z).

(** [Math.min(1000 * Math.pow(2, attempt - 1), 3000)] *)
Definition backoff (attempt : nat) : Z :=
  Z.min (1000 * 2 ^ (Z.of_nat attempt - 1)) 3000.

(** [new Error(`Failed after ${maxRetries} attempts`)] *)
Definition failedAfter (maxRetries : nat) : string :=
  String.append "Failed after "
    (String.append (Js.bigint_toString (Z.of_nat maxRetries)) " attempts").

(** The loop of [fetchWithRetry] from [attempt] on, [remaining] being
    the number of iterations left. *)
Fixpoint attempts (fetch : nat -> Attempt) (maxRetries remaining attempt : nat)
    (lastError : option string) : Fetch * list Event :=
  match remaining with
  | O =>
      (Thrown (match lastError with
               | Some e => e
               | None => failedAfter maxRetries
               end), [])
  | S remaining' =>
      let timeoutMs := 10000 + Z.of_nat attempt * 2000 in
      match fetch attempt with
      | Responded status =>
          if ok status then (Returned status, [Attempted attempt timeoutMs])
          else if status =? 404 then (Returned status, [Attempted attempt timeoutMs])
          else
            let '(r, t) := attempts fetch maxRetries remaining' (S attempt) lastError in
            (r, Attempted attempt timeoutMs :: t)
      | Threw e =>
          let wait :=
            if (attempt <? maxRetries)%nat then [Waited (backoff attempt)] else [] in
          let '(r, t) := attempts fetch maxRetries remaining' (S attempt) (Some e) in
          (r, Attempted attempt timeoutMs :: wait ++ t)
      end
  end.

(** [fetchWithRetry(url, options, maxRetries)], [fetch k] being what the
    [k]-th call of [fetch] comes to. *)
Definition fetchWithRetry (fetch : nat -> Attempt) (maxRetries : nat)
  : Fetch * list Event :=
  attempts fetch maxRetries maxRetries 1 None.

(** An attempt that ends the loop: a response that is ok or 404. *)
Definition settles (a : Attempt) : bool :=
  match a with
  | Responded status => ok status || (status =? 404)
  | Threw _ => false
  end.

(** The error of the last of the attempts [attempt, ..., attempt +
    remaining - 1] that threw, [lastError] when none did. *)
Fixpoint lastThrown (fetch : nat -> Attempt) (remaining attempt : nat)
    (lastError : option string) : option string :=
  match remaining with
  | O => lastError
  | S remaining' =>
      lastThrown fetch remaining' (S attempt)
        (match fetch attempt with
         | Threw e => Some e
         | Responded _ => lastError
         end)
  end.

(** The events of the attempts [attempt, ..., attempt + n - 1] when none
    of them ends the loop. *)
Definition eventsOf (fetch : nat -> Attempt) (maxRetries : nat) (k : nat) : list Event :=
  Attempted k (10000 + Z.of_nat k * 2000)
  :: match fetch k with
     | Threw _ => if (k <? maxRetries)%nat then [Waited (backoff k)] else []
     | Responded _ => []
     end.

(** The attempts of a trace, and the time it waits. *)
Definition attemptsOf (t : list Event) : list nat :=
  flat_map (fun e => match e with Attempted k _ => [k] | Waited _ => [] end) t.

Definition waited (t : list Event) : Z :=
  fold_right (fun e acc => match e with Waited d => d + acc | Attempted _ _ => acc end) 0 t.

(** [postToDiscordWithRetry]: an attempt is a call of
    [postToDiscordChannels], which answers whether the post succeeded and
    does not throw. *)
Inductive DiscordEvent : Type :=
| Posted (attempt : nat)
| Paused (delay : Z).

Fixpoint discordAttempts (post : nat -> bool) (maxRetries remaining attempt : nat)
  : bool * list DiscordEvent :=
  match remaining with
  | O => (false, [])
  | S remaining' =>
      if post attempt then (true, [Posted attempt])
      else
        let wait :=
          if (attempt <? maxRetries)%nat then [Paused (Z.of_nat attempt * 1000)] else [] in
        let '(r, t) := discordAttempts post maxRetries remaining' (S attempt) in
        (r, Posted attempt :: wait ++ t)
  end.

Definition postToDiscordWithRetry (post : nat -> bool) (maxRetries : nat)
  : bool * list DiscordEvent :=
  discordAttempts post maxRetries maxRetries 1.

Definition postsOf (t : list DiscordEvent) : list nat :=
  flat_map (fun e => match e with Posted k => [k] | Paused _ => [] end) t.

Definition paused (t : list DiscordEvent) : Z :=
  fold_right (fun e acc => match e with Paused d => d + acc | Posted _ => acc end) 0 t.

(** Sample answers: two rejections and then a response. *)
Definition flaky (status : Z) (k : nat) : Attempt :=
  match k with
  | 1%nat => Threw "timeout"
  | 2%nat => Responded 503
  | _ => Responded status
  end.

End Retry.

(** ** lib/arena-socials.ts: the operations on the profile cache *)

Module ProfileCache.
Import ArenaSocials.

Section Cache.

Variable StringToNumber : string -> option Z.

(** [forceRefreshArenaProfile]: the entry of the address is deleted and
    the profile is fetched. *)
Definition forceRefreshArenaProfile (now : Z) (cache : gmap string CacheEntry)
    (walletAddress : string) (rs : Responses)
  : gmap string CacheEntry * option ArenaUserProfile :=
  fetchArenaUserProfile StringToNumber now
    (delete (Js.toLowerCase walletAddress) cache) walletAddress rs.

(** [checkArenaChampionStatus]: [null] without a profile or without a
    badge array, else whether a badge has the type [19], compared with
    [===]. *)
Definition checkArenaChampionStatus (now : Z) (cache : gmap string CacheEntry)
    (walletAddress : string) (rs : Responses)
  : gmap string CacheEntry * option bool :=
  let '(cache', profile) :=
    fetchArenaUserProfile StringToNumber now
      (delete (Js.toLowerCase walletAddress) cache) walletAddress rs in
  match profile with
  | None => (cache', None)
  | Some p =>
      match badges p with
      | None => (cache', None)
      | Some bs =>
          (cache', Some (existsb (fun badge => strict_eq_num (badgeType badge) 19) bs))
      end
  end.

End Cache.

End ProfileCache.

(** ** lib/database-simple.ts: maintenance of the post caches *)

Module PostCaches.
Import DatabaseSimple.

(** The body of the loop of [cleanExpiredArenaPostCache]. *)
Definition cleanEntry (now : Z) (acc : gmap string PostCacheEntry * Z)
    (entry : string * PostCacheEntry) : gmap string PostCacheEntry * Z :=
  let '(cache, cleaned) := acc in
  let '(key, value) := entry in
  if CACHE_DURATION <? now - pc_timestamp value
  then (delete key cache, cleaned + 1)
  else (cache, cleaned).

(** [cleanExpiredArenaPostCache]: the cache and the number of entries
    deleted.  The loop visits the entries that the cache holds when it
    starts, each once; the order of the visits does not matter to what
    it computes. *)
Definition cleanExpiredArenaPostCache (now : Z) (st : State) : State * Z :=
  let '(cache, cleaned) :=
    fold_left (cleanEntry now) (map_to_list (arenaPostCache st)) (arenaPostCache st, 0) in
  (set_arenaPostCache cache st, cleaned).

(** An entry that [cleanExpiredArenaPostCache] deletes. *)
Definition expired (now : Z) (value : PostCacheEntry) : bool :=
  CACHE_DURATION <? now - pc_timestamp value.

End PostCaches.

(** ** lib/blockchain.ts: starting, stopping and subscribing *)

Module Subscription.
Import Blockchain Monitor.

Definition set_monitoringCallbacks (v : list Callback) (st : MonitorState) : MonitorState :=
  {| isMonitoring := isMonitoring st;
     lastProcessedBlock := lastProcessedBlock st;
     monitoringCallbacks := v;
     monitoringTimeout := monitoringTimeout st |}.

(** [startContractMonitoring], up to its call of [monitorContract]: the
    state, and whether the call is made.  The pending timer is
    cleared. *)
Definition startContractMonitoring (st : MonitorState) : MonitorState * bool :=
  if isMonitoring st then (st, false)
  else
    ({| isMonitoring := true;
        lastProcessedBlock := lastProcessedBlock st;
        monitoringCallbacks := monitoringCallbacks st;
        monitoringTimeout := None |}, true).

(** [stopContractMonitoring] *)
Definition stopContractMonitoring (st : MonitorState) : MonitorState :=
  {| isMonitoring := false;
     lastProcessedBlock := 0;
     monitoringCallbacks := [];
     monitoringTimeout := None |}.

(** [subscribeToContractTransactions(callback)]: the state, and whether
    [monitorContract] is called. *)
Definition subscribeToContractTransactions (callback : Callback) (st : MonitorState)
  : MonitorState * bool :=
  let st1 := set_monitoringCallbacks (monitoringCallbacks st ++ [callback]) st in
  if negb (isMonitoring st1) then startContractMonitoring st1 else (st1, false).

(** [monitoringCallbacks.indexOf(callback)], [None] for [-1]. *)
Fixpoint indexOf (callback : Callback) (l : list Callback) : option nat :=
  match l with
  | [] => None
  | c :: l' =>
      if Nat.eqb c callback then Some O
      else match indexOf callback l' with
           | Some i => Some (S i)
           | None => None
           end
  end.

(** [monitoringCallbacks.splice(index, 1)] *)
Fixpoint splice1 (index : nat) (l : list Callback) : list Callback :=
  match index, l with
  | _, [] => []
  | O, _ :: l' => l'
  | S i, c :: l' => c :: splice1 i l'
  end.

(** The function that [subscribeToContractTransactions(callback)]
    returns. *)
Definition unsubscribe (callback : Callback) (st : MonitorState) : MonitorState :=
  let callbacks :=
    match indexOf callback (monitoringCallbacks st) with
    | Some index => splice1 index (monitoringCallbacks st)
    | None => monitoringCallbacks st
    end in
  let st1 := set_monitoringCallbacks callbacks st in
  if (length callbacks =? 0)%nat then stopContractMonitoring st1 else st1.

Definition loaded : MonitorState :=
  {| isMonitoring := false; lastProcessedBlock := 0;
     monitoringCallbacks := []; monitoringTimeout := None |}.

(** A tick of [monitorContract] is suspended at its requests to the chain
    client, and the other operations of the module run meanwhile.  A
    suspended tick has passed the test of [isMonitoring] and waits for the
    number of the latest block, or it is in the loop over the new blocks up
    to [latestBlock]. *)
Inductive Suspended : Type :=
| AwaitingBlockNumber
| ProcessingBlocks (latestBlock : Z).

(** The variables of the module and the ticks that are suspended. *)
Record Poller : Type := {
  variables : MonitorState;
  suspended : list Suspended
}.

Definition with_variables (st : MonitorState) (p : Poller) : Poller :=
  {| variables := st; suspended := suspended p |}.

(** [monitoringTimeout = setTimeout(monitorContract, 3000)] *)
Definition armTimer (st : MonitorState) : MonitorState :=
  {| isMonitoring := isMonitoring st;
     lastProcessedBlock := lastProcessedBlock st;
     monitoringCallbacks := monitoringCallbacks st;
     monitoringTimeout := Some 3000 |}.

(** [monitorContract] up to its first request: it returns at once when
    the poller is off. *)
Definition beginTick (p : Poller) : Poller :=
  if isMonitoring (variables p)
  then {| variables := variables p; suspended := AwaitingBlockNumber :: suspended p |}
  else p.

(** [monitorContract] from the answer to [getBlockNumber], [None] being
    a request that raises, to its end or to the loop over the new blocks.
    The variables are read as they are by then.  The branch that
    initialises the block pointer arms the timer without a test; the end of
    the function arms it when [isMonitoring] is set. *)
Definition afterBlockNumber (latestBlock : option Z) (st : MonitorState)
  : MonitorState * option Suspended :=
  match latestBlock with
  | None => (rearm st, None)
  | Some latestBlock =>
      if lastProcessedBlock st =? 0 then
        (armTimer (set_lastProcessedBlock (latestBlock - 1) st), None)
      else if lastProcessedBlock st <? latestBlock then
        (st, Some (ProcessingBlocks latestBlock))
      else (rearm st, None)
  end.

(** [monitorContract] from the end of the loop over the new blocks. *)
Definition afterBlocks (latestBlock : Z) (st : MonitorState) : MonitorState :=
  rearm (set_lastProcessedBlock latestBlock st).

Definition is_awaiting (s : Suspended) : bool :=
  match s with AwaitingBlockNumber => true | _ => false end.

Definition is_processing (latestBlock : Z) (s : Suspended) : bool :=
  match s with ProcessingBlocks l => l =? latestBlock | _ => false end.

(** The suspended ticks without the first one that [f] holds of, if
    there is one. *)
Fixpoint resume (f : Suspended -> bool) (l : list Suspended) : option (list Suspended) :=
  match l with
  | [] => None
  | s :: rest =>
      if f s then Some rest
      else match resume f rest with
           | Some rest' => Some (s :: rest')
           | None => None
           end
  end.

(** What happens to the module, one thing at a time: a call of one of
    its three functions or of a function that a subscription returned; a
    call of [monitorContract], as a timer makes it; the answer to a
    suspended tick's request for the number of the latest block; the end
    of a suspended tick's loop.  A call of [monitorContract] is taken to
    be possible at any time, so that the runs of the program are among the
    runs of these operations. *)
Inductive Op : Type :=
| Subscribe (callback : Callback)
| Unsubscribe (callback : Callback)
| Start
| Stop
| CallMonitorContract
| BlockNumberArrives (latestBlock : option Z)
| BlocksProcessed (latestBlock : Z).

Definition step (p : Poller) (op : Op) : Poller :=
  match op with
  | Subscribe callback =>
      let r := subscribeToContractTransactions callback (variables p) in
      if snd r then beginTick (with_variables (fst r) p) else with_variables (fst r) p
  | Unsubscribe callback => with_variables (unsubscribe callback (variables p)) p
  | Start =>
      let r := startContractMonitoring (variables p) in
      if snd r then beginTick (with_variables (fst r) p) else with_variables (fst r) p
  | Stop => with_variables (stopContractMonitoring (variables p)) p
  | CallMonitorContract => beginTick p
  | BlockNumberArrives latestBlock =>
      match resume is_awaiting (suspended p) with
      | Some rest =>
          let r := afterBlockNumber latestBlock (variables p) in
          {| variables := fst r;
             suspended := match snd r with Some s => s :: rest | None => rest end |}
      | None => p
      end
  | BlocksProcessed latestBlock =>
      match resume (is_processing latestBlock) (suspended p) with
      | Some rest =>
          {| variables := afterBlocks latestBlock (variables p); suspended := rest |}
      | None => p
      end
  end.

(** A run from the state in which the module is loaded. *)
Definition run (ops : list Op) : Poller :=
  fold_left step ops {| variables := loaded; suspended := [] |}.

End Subscription.

(** ** lib/blockchain.ts: the selectors that the chain client hands over *)

Module Selectors.

(** The characters of the hexadecimal text of call data: the digits,
    the letters [a-f] in either case, and the [x] of the prefix. *)
Definition is_hex_char (c : ascii) : bool :=
  let n := nat_of_ascii c in
  (((48 <=? n) && (n <=? 57)) || ((97 <=? n) && (n <=? 102))
   || ((65 <=? n) && (n <=? 70)) || (n =? 120))%nat.

Definition hex_text (s : string) : bool :=
  forallb is_hex_char (list_ascii_of_string s).

End Selectors.

(** ** app/api/arena-post and app/api/discord-post: the two posting routes

  The routes receive the arguments of [postToArenaTimeline] and of
  [postToDiscordChannels] as a JSON body.  The text of a message is
  represented by its template and the values put in it; the embed of a
  Discord post, which the route builds from the same values, is not
  represented. *)

Module Routes.
Import ArenaSocials DatabaseSimple Retry.

(** [suffix[i]] for [suffix = ["th", "st", "nd", "rd"]]: [undefined]
    outside the array. *)
Definition suffixAt (i : Z) : option string :=
  if i =? 0 then Some "th"%string
  else if i =? 1 then Some "st"%string
  else if i =? 2 then Some "nd"%string
  else if i =? 3 then Some "rd"%string
  else None.

(** [Number.MAX_SAFE_INTEGER] *)
Definition MAX_SAFE_INTEGER : Z := 2 ^ 53 - 1.

(** The text of a number in a concatenation, for a number that is a safe
    integer: its decimal numeral.  The other numbers, among them the
    integers from [10^21] on, which are written with an exponent, are not
    represented. *)
Definition numberText (num : Z) : option string :=
  if (- MAX_SAFE_INTEGER <=? num) && (num <=? MAX_SAFE_INTEGER)
  then Some (Js.bigint_toString num) else None.

(** [getOrdinalNumber(num)] for a number [num] that is a safe integer;
    [%] is the remainder that has the sign of the dividend, and it is exact
    on these numbers. *)
Definition getOrdinalNumber (num : Z) : option string :=
  let value := Z.rem num 100 in
  match numberText num with
  | Some numeral =>
      Some (String.append numeral
              (match suffixAt (Z.rem (value - 20) 10) with
               | Some s => s
               | None =>
                   match suffixAt value with
                   | Some s => s
                   | None => "th"%string
                   end
               end))
  | None => None
  end.

(** [checkHeavyHitter(arenaProfile).isHeavy]; the reason, which is only
    logged, is left out. *)
Definition checkHeavyHitter (arenaProfile : option ArenaUserProfile) : bool :=
  match arenaProfile with
  | None => false
  | Some p =>
      if 5000 <=? followersOf p then true
      else if Float64.leb Float64.lit_1_5 (ticketPriceOf p) then true
      else false
  end.

(** The body of a request to either route. *)
Record PostRequest : Type := {
  rq_username : string;
  rq_tokenSymbol : string;
  rq_tokenName : option string;
  rq_contractsCreated : Z;
  rq_isChampion : bool;
  rq_arenaProfile : option ArenaUserProfile;
  rq_contractAddress : option string
}.

(** The message that the Arena route posts. *)
Inductive ArenaMessage : Type :=
| ChampionText (username tokenDisplay : string)
| HeavyHitterText (username tokenSymbol : string) (tokenName : option string)
    (followers : Z) (keyPrice : option Z) (isFirstToken : bool)
| RegularText (username tokenDisplay : string) (ordinalCount : option string).

(** [tokenName ? `${tokenSymbol} (${tokenName})` : tokenSymbol] *)
Definition tokenDisplay (tokenSymbol : string) (tokenName : option string) : string :=
  match tokenName with
  | Some n =>
      if Js.truthy tokenName
      then String.append tokenSymbol (String.append " (" (String.append n ")"))
      else tokenSymbol
  | None => tokenSymbol
  end.

Definition arenaMessage (req : PostRequest) : ArenaMessage :=
  if rq_isChampion req then
    ChampionText (rq_username req)
      (tokenDisplay (String.append "$" (rq_tokenSymbol req)) (rq_tokenName req))
  else if checkHeavyHitter (rq_arenaProfile req) then
    HeavyHitterText (rq_username req) (rq_tokenSymbol req) (rq_tokenName req)
      (match rq_arenaProfile req with Some p => followersOf p | None => 0 end)
      (match rq_arenaProfile req with Some p => keyPrice p | None => None end)
      (rq_contractsCreated req =? 1)
  else
    RegularText (rq_username req)
      (tokenDisplay (rq_tokenSymbol req) (rq_tokenName req))
      (getOrdinalNumber (rq_contractsCreated req)).

(** The response of a route: its status and the [success] of its
    body. *)
Record Reply : Type := {
  rp_status : Z;
  rp_success : bool
}.

(** The Arena route: the reply, the message it posted or tried to post,
    and the attempts of the post.  [tokenConfigured] is whether the
    bearer token is set. *)
Definition arenaPostRoute (tokenConfigured : bool) (fetch : nat -> Attempt)
    (req : PostRequest) : Reply * option ArenaMessage * list Event :=
  if negb (Js.truthy (Some (rq_username req)))
     || negb (Js.truthy (Some (rq_tokenSymbol req)))
     || (rq_contractsCreated req =? 0)
  then ({| rp_status := 400; rp_success := false |}, None, [])
  else
    let message := arenaMessage req in
    if negb tokenConfigured
    then ({| rp_status := 500; rp_success := false |}, None, [])
    else
      match fetchWithRetry fetch 2 with
      | (Returned status, t) =>
          if ok status
          then ({| rp_status := 200; rp_success := true |}, Some message, t)
          else ({| rp_status := status; rp_success := false |}, Some message, t)
      | (Thrown _, t) => ({| rp_status := 500; rp_success := false |}, Some message, t)
      end.

(** [postToArenaTimeline], given the reply of the route: [response.ok &&
    data.success]. *)
Definition postToArenaTimeline (reply : Reply) : bool :=
  ok (rp_status reply) && rp_success reply.

(** The channels of the Discord route, and the one it chooses. *)
Inductive Channel : Type :=
| Champions
| HeavyHitters
| General.

Definition discordChannel (req : PostRequest) : Channel :=
  let followerCount :=
    match rq_arenaProfile req with Some p => followersOf p | None => 0 end in
  let ticketPrice :=
    match rq_arenaProfile req with Some p => ticketPriceOf p | None => Float64.zero end in
  if rq_isChampion req then Champions
  else if (5000 <=? followerCount) || Float64.leb Float64.lit_1_5 ticketPrice
       then HeavyHitters
       else General.

(** The request that [processTokenCreation] sends with a post, for the
    profile it resolved. *)
Definition requestOf (e : Effect) (arenaProfile : ArenaUserProfile) : option PostRequest :=
  match e with
  | EPostArena username symbol name contractsCreated isChampion =>
      Some {| rq_username := username; rq_tokenSymbol := symbol; rq_tokenName := name;
              rq_contractsCreated := contractsCreated; rq_isChampion := isChampion;
              rq_arenaProfile := Some arenaProfile; rq_contractAddress := None |}
  | EPostDiscord username symbol name contractsCreated isChampion contractAddress =>
      Some {| rq_username := username; rq_tokenSymbol := symbol; rq_tokenName := name;
              rq_contractsCreated := contractsCreated; rq_isChampion := isChampion;
              rq_arenaProfile := Some arenaProfile;
              rq_contractAddress := contractAddress |}
  | EFetchArenaProfile _ => None
  end.

(** The channel of a tier. *)
Definition channelOf (t : PostType) : Channel :=
  match t with
  | Champion => Champions
  | HeavyHitter => HeavyHitters
  | Regular => General
  end.

(** The rule of the English ordinals. *)
Definition ordinalSuffix (num : Z) : string :=
  if (num mod 100 =? 11) || (num mod 100 =? 12) || (num mod 100 =? 13) then "th"
  else if num mod 10 =? 1 then "st"
  else if num mod 10 =? 2 then "nd"
  else if num mod 10 =? 3 then "rd"
  else "th".

End Routes.

(** ** lib/database-simple.ts: successive invocations of the dispatcher *)

Module Invocations.
Import ArenaSocials Blockchain DatabaseSimple.

(** Invocations of [processTokenCreation] that run one after the other,
    each with the transaction it is handed and with the answers of the
    outside world at its time; the result is the state they leave. *)
Definition processAll (st : State) (calls : list (Env * ContractTransaction)) : State :=
  fold_left (fun s call => out_state (processTokenCreation (fst call) s (snd call)))
    calls st.

End Invocations.

(** ** lib/database-simple.ts: the statistics of the creators table *)

Module CreatorStats.
Import DatabaseSimple.

(** What the store answers a query of [getCreatorStats]: the rows or
    the count asked for, nothing ([data] or [count] is [null]), or an
    exception. *)
Inductive Answer : Type :=
| Answered
| NoData
| Threw.

Record Queries : Type := {
  q_totalCreators : Answer;
  q_contractsData : Answer;
  q_newCreators : Answer;
  q_newContracts : Answer
}.

(** The result of [getCreatorStats] without [avgContractsPerCreator],
    a binary64 quotient rounded to two decimals, which is not
    represented. *)
Record Stats : Type := {
  totalCreators : Z;
  totalContracts : Z;
  newCreatorsLast24h : Z;
  newContractsLast24h : Z
}.

Definition rows (st : State) : list Creator := map snd (map_to_list (creators st)).

(** [rows.reduce((sum, creator) => sum + f(creator), 0)] *)
Definition total (f : Creator -> Z) (l : list Creator) : Z :=
  fold_left (fun sum creator => sum + f creator) l 0.

(** [select("*", { count: "exact", head: true })] with a filter, then
    [count || 0]. *)
Definition countWhere (a : Answer) (p : Creator -> bool) (st : State) : Z :=
  match a with
  | Answered => Z.of_nat (length (List.filter p (rows st)))
  | _ => 0
  end.

(** [.gte(column, oneDayAgo.toISOString())]; a [null] in the column
    does not pass. *)
Definition gte (v : option Z) (oneDayAgo : Z) : bool :=
  match v with
  | Some t => oneDayAgo <=? t
  | None => false
  end.

Definition threw (a : Answer) : bool :=
  match a with Threw => true | _ => false end.

(** [getCreatorStats] at time [now]. *)
Definition getCreatorStats (q : Queries) (now : Z) (st : State) : Stats :=
  if threw (q_totalCreators q) || threw (q_contractsData q)
     || threw (q_newCreators q) || threw (q_newContracts q)
  then {| totalCreators := 0; totalContracts := 0;
          newCreatorsLast24h := 0; newContractsLast24h := 0 |}
  else
    let oneDayAgo := now - 24 * 60 * 60 * 1000 in
    {| totalCreators := countWhere (q_totalCreators q) (fun _ => true) st;
       totalContracts :=
         match q_contractsData q with
         | Answered => total contracts_created (rows st)
         | _ => 0
         end;
       newCreatorsLast24h :=
         countWhere (q_newCreators q)
           (fun creator => gte (Some (first_seen_at creator)) oneDayAgo) st;
       newContractsLast24h :=
         countWhere (q_newContracts q)
           (fun creator => gte (last_contract_at creator) oneDayAgo) st |}.

Definition answered : Queries :=
  {| q_totalCreators := Answered; q_contractsData := Answered;
     q_newCreators := Answered; q_newContracts := Answered |}.

(** Whether the store knows a wallet, and whether the wallet's last
    contract is no older than a day at time [now]. *)
Definition known (st : State) (walletAddress : string) : bool :=
  match creators st !! walletAddress with Some _ => true | None => false end.

Definition activeLast24h (now : Z) (st : State) (walletAddress : string) : bool :=
  match creators st !! walletAddress with
  | Some creator => gte (last_contract_at creator) (now - 24 * 60 * 60 * 1000)
  | None => false
  end.

End CreatorStats.

(** ** lib/blockchain.ts: the initial load of the recent transactions *)

Module History.
Import ArenaSocials Blockchain DatabaseSimple Monitor.

(** A log of a transaction receipt.  [log_decoded] is what
    [decodeEventLog] makes of it with the [TokenCreated] event as the
    only entry of the interface: [None] when it raises, otherwise
    [params?.tokenContractAddress]. *)
Record Log : Type := {
  log_address : string;
  log_decoded : option (option string)
}.

(** The two places where the receipt of a creation is requested. *)
Inductive Site : Type :=
| ForMetadata
| ForTransaction.

(** The outside world during one load: the chain client, the receipts,
    and the answer of the resolver to the n-th creation of the result. *)
Record Client : Type := {
  cl_chain : Chain;
  getTransactionReceipt : Site -> string -> option (list Log);
  resolveCreator : nat -> string -> option ArenaUserProfile
}.

(** The body of the loop over the logs: the address that the log
    yields, if it does. *)
Definition tokenCreatedAt (log : Log) : option string :=
  if String.eqb (Js.toLowerCase (log_address log)) (Js.toLowerCase ARENA_CONTRACT_ADDRESS)
  then
    match log_decoded log with
    | Some tokenContractAddress =>
        if Js.truthy tokenContractAddress then tokenContractAddress else None
    | None => None
    end
  else None.

Fixpoint firstTokenAddress (logs : list Log) : option string :=
  match logs with
  | [] => None
  | log :: rest =>
      match tokenCreatedAt log with
      | Some a => Some a
      | None => firstTokenAddress rest
      end
  end.

(** [extractTokenAddressFromTransaction]; a receipt that cannot be
    fetched gives [null]. *)
Definition extractTokenAddressFromTransaction (client : Client) (site : Site)
    (txHash : string) : option string :=
  match getTransactionReceipt client site txHash with
  | Some logs => firstTokenAddress logs
  | None => None
  end.

Definition is_creation (t : TransactionType) : bool :=
  match t with TOKEN_CREATION => true | _ => false end.

(** [!(filterType && transactionInfo.type !== filterType)] *)
Definition passesFilter (filterType : option TransactionType) (t : TransactionType) : bool :=
  match filterType with
  | Some f => bool_decide (t = f)
  | None => true
  end.

(** The metadata of a creation: what the call data decode to, with the
    address of the token from the receipt when the metadata have none. *)
Definition creationMetadata (client : Client) (tx : ChainTransaction) (methodId : string)
  : option TokenMetadata :=
  let tokenMetadata := decodeTokenCreationData methodId (ct_input tx) in
  let hasAddress :=
    match tokenMetadata with
    | Some md => Js.truthy (tm_tokenAddress md)
    | None => false
    end in
  if hasAddress then tokenMetadata
  else
    let tokenAddress := extractTokenAddressFromTransaction client ForMetadata (ct_hash tx) in
    if Js.truthy tokenAddress then
      match tokenMetadata with
      | None =>
          Some {| tm_name := None; tm_symbol := None; tm_totalSupply := None;
                  tm_creator := None; tm_tokenAddress := tokenAddress |}
      | Some md =>
          Some {| tm_name := tm_name md; tm_symbol := tm_symbol md;
                  tm_totalSupply := tm_totalSupply md; tm_creator := tm_creator md;
                  tm_tokenAddress := tokenAddress |}
      end
    else tokenMetadata.

(** The body of the loop over the transactions of a block: what is
    pushed on [transactions]. *)
Definition historyTransaction (client : Client) (filterType : option TransactionType)
    (block : Block) (tx : ChainTransaction) : list ContractTransaction :=
  if addressed_to_contract tx then
    let methodId := Js.slice_to 10 (ct_input tx) in
    let transactionInfo := determineTransactionType methodId (ct_value tx) in
    if passesFilter filterType (ti_type transactionInfo) then
      [ {| hash := ct_hash tx;
           from := ct_from tx;
           to := ct_to tx;
           value := ct_value tx;
           blockNumber := b_number block;
           timestamp := Some (b_timestamp block * 1000);
           method := Some (ti_method transactionInfo);
           methodId := Some methodId;
           transactionType := ti_type transactionInfo;
           isTokenCreation := is_creation (ti_type transactionInfo);
           description := ti_description transactionInfo;
           tokenMetadata :=
             if is_creation (ti_type transactionInfo)
             then creationMetadata client tx methodId else None;
           creatorProfile := None;
           rawInput := Some (ct_input tx);
           tokenAddress :=
             if is_creation (ti_type transactionInfo)
             then extractTokenAddressFromTransaction client ForTransaction (ct_hash tx)
             else None |} ]
    else []
  else [].

Definition historyBlock (client : Client) (filterType : option TransactionType)
    (block : Block) : list ContractTransaction :=
  match b_transactions block with
  | Some txs => flat_map (historyTransaction client filterType block) txs
  | None => []
  end.

(** [Promise.all]: every request answered, or a rejection. *)
Fixpoint allFetched (answers : list (option Block)) : option (list Block) :=
  match answers with
  | [] => Some []
  | Some block :: rest =>
      match allFetched rest with
      | Some blocks => Some (block :: blocks)
      | None => None
      end
  | None :: _ => None
  end.

(** The body of the loop over the chunks: the blocks [i .. endBlock]
    are requested together, and a request that fails skips the chunk. *)
Definition scanChunk (client : Client) (filterType : option TransactionType)
    (i endBlock : Z) : list ContractTransaction :=
  match allFetched (map (getBlock (cl_chain client)) (blockRange i endBlock)) with
  | Some blocks => flat_map (historyBlock client filterType) blocks
  | None => []
  end.

Definition chunkSize : Z := 50.

(** The loop [for (let i = fromBlock; i <= toBlock; i += chunkSize)],
    for at most [fuel] iterations. *)
Fixpoint scanFrom (fuel : nat) (client : Client) (filterType : option TransactionType)
    (i toBlock : Z) : list ContractTransaction :=
  match fuel with
  | O => []
  | S fuel' =>
      if i <=? toBlock then
        let endBlock :=
          if toBlock <? i + chunkSize - 1 then toBlock else i + chunkSize - 1 in
        scanChunk client filterType i endBlock
        ++ scanFrom fuel' client filterType (i + chunkSize) toBlock
      else []
  end.

(** [transactions.sort((a, b) => Number(b.blockNumber - a.blockNumber))]:
    the sort is stable, so that its result is the one of the insertion
    below. *)
Fixpoint insertNewest (x : ContractTransaction) (l : list ContractTransaction)
  : list ContractTransaction :=
  match l with
  | [] => [x]
  | y :: rest =>
      if blockNumber x <? blockNumber y then y :: insertNewest x rest else x :: l
  end.

Definition sortNewestFirst (l : list ContractTransaction) : list ContractTransaction :=
  fold_right insertNewest [] l.

(** The order of the result: [a] before [b] only if [b] is not of a
    later block. *)
Definition newerOrSame (a b : ContractTransaction) : Prop :=
  blockNumber b <= blockNumber a.

(** A transaction without the profile of its creator. *)
Definition forgetProfile (tx : ContractTransaction) : ContractTransaction :=
  {| hash := hash tx; from := from tx; to := to tx; value := value tx;
     blockNumber := blockNumber tx; timestamp := timestamp tx; method := method tx;
     methodId := methodId tx; transactionType := transactionType tx;
     isTokenCreation := isTokenCreation tx; description := description tx;
     tokenMetadata := tokenMetadata tx; creatorProfile := None;
     rawInput := rawInput tx; tokenAddress := tokenAddress tx |}.

(** [l.slice(0, limit)]; a negative [limit] counts from the end. *)
Definition slice0 {A : Type} (limit : Z) (l : list A) : list A :=
  if limit <? 0 then firstn (Z.to_nat (Z.of_nat (length l) + limit)) l
  else firstn (Z.to_nat limit) l.

(** The profiles of the creators, set on the creations of the result;
    [n] counts the creations passed. *)
Fixpoint attachProfiles (client : Client) (n : nat) (txs : list ContractTransaction)
  : list ContractTransaction :=
  match txs with
  | [] => []
  | tx :: rest =>
      if is_creation (transactionType tx) then
        with_creatorProfile
          (snd (fetchCreatorProfile (resolveCreator client n (from tx)) (from tx))) tx
        :: attachProfiles client (S n) rest
      else tx :: attachProfiles client n rest
  end.

(** The transactions gathered from the last 500 blocks, before they are
    sorted. *)
Definition scanned (client : Client) (filterType : option TransactionType)
    (latestBlock : Z) : list ContractTransaction :=
  scanFrom 11 client filterType (latestBlock - 500) latestBlock.

(** [fetchContractTransactions(limit, filterType)] *)
Definition fetchContractTransactions (client : Client) (limit : Z)
    (filterType : option TransactionType) : list ContractTransaction :=
  match getBlockNumber (cl_chain client) with
  | None => []
  | Some latestBlock =>
      let transactions := scanned client filterType latestBlock in
      let sortedTransactions := slice0 limit (sortNewestFirst transactions) in
      attachProfiles client 0 sortedTransactions
  end.

(** The chunk of the load in which a block lies: its first block. *)
Definition chunkStart (latestBlock n : Z) : Z :=
  latestBlock - 500 + chunkSize * ((n - (latestBlock - 500)) / chunkSize).

(** A client whose chain answers every block but [missing], each block
    holding one creation and one purchase. *)
Definition sample_block (n : Z) : Block :=
  {| b_number := n; b_timestamp := 1700000000 + n;
     b_transactions :=
       Some [ {| ct_hash := "0x1f"; ct_from := "0x00000000000000000000000000000000000000aa";
                 ct_to := Some ARENA_CONTRACT_ADDRESS; ct_value := 0;
                 ct_input := "0x0b8c6fec" |};
              {| ct_hash := "0x2a"; ct_from := "0x00000000000000000000000000000000000000bb";
                 ct_to := Some ARENA_CONTRACT_ADDRESS; ct_value := 5;
                 ct_input := "0xa6f2ae3a" |} ] |}.

Definition sample_client (latest missing : Z) : Client :=
  {| cl_chain :=
       {| getBlockNumber := Some latest;
          getBlock := fun n => if n =? missing then None else Some (sample_block n) |};
     getTransactionReceipt := fun _ _ =>
       Some [ {| log_address := ARENA_CONTRACT_ADDRESS;
                 log_decoded := Some (Some "0x00000000000000000000000000000000000000cc"%string) |} ];
     resolveCreator := fun _ _ => None |}.

End History.

(** ** lib/arena-socials.ts: what the resolver reads from each lookup *)

Module ResolverInputs.
Import ArenaSocials.

(** The profile and the handle that the first lookup yields, and the
    user id that the second lookup yields for that handle. *)
Definition tradeProfile (rs : Responses) : option ArenaUserProfile :=
  fst (step1 (r_trade rs)).

Definition tradeHandle (rs : Responses) : option string :=
  snd (step1 (r_trade rs)).

Definition foundUserId (rs : Responses) : option string :=
  match tradeHandle rs with
  | Some h => snd (step2 h (tradeProfile rs) (r_user rs))
  | None => None
  end.

(** The value under a property of a payload, if there is one. *)
Definition field_value (f : Field Z) : option Z :=
  match f with
  | Val n => Some n
  | _ => None
  end.

(** The first value that is defined. *)
Fixpoint firstDefined (l : list (option Z)) : option Z :=
  match l with
  | [] => None
  | Some n :: _ => Some n
  | None :: rest => firstDefined rest
  end.

End ResolverInputs.

(* ===================================================================== *)
(** * Part II: properties                                                 *)
(* ===================================================================== *)

(** ** Rounding to binary64 is monotone *)

Module Float64Facts.
Import Float64.

Lemma div_cross_le p q p' q' :
  0 < q -> 0 < q' -> p * q' <= p' * q -> p / q <= p' / q'.
Proof.
  intros Hq Hq' H.
  apply Z.div_le_lower_bound; [lia|].
  (* q' * (p/q) <= p' *)
  pose proof (Z.mul_div_le p q Hq) as H1.
  assert (q * (q' * (p / q)) <= q * p') by nia.
  nia.
Qed.

Lemma rne_lower p q : 0 < q -> p / q <= rne p q.
Proof.
  intros Hq. unfold rne. cbv zeta.
  destruct (2 * (p mod q) ?= q); [destruct (Z.even (p / q))|..]; lia.
Qed.

Lemma rne_upper p q : 0 < q -> rne p q <= p / q + 1.
Proof.
  intros Hq. unfold rne. cbv zeta.
  destruct (2 * (p mod q) ?= q); [destruct (Z.even (p / q))|..]; lia.
Qed.

Lemma rne_exact n q : 0 < q -> rne (n * q) q = n.
Proof.
  intros Hq. unfold rne. cbv zeta.
  rewrite Z.div_mul by lia. rewrite Z.mod_mul by lia.
  destruct (Z.compare_spec (2 * 0) q); [lia|reflexivity|lia].
Qed.

Lemma rne_mono p q p' q' :
  0 < q -> 0 < q' -> p * q' <= p' * q -> rne p q <= rne p' q'.
Proof.
  intros Hq Hq' H.
  pose proof (div_cross_le p q p' q' Hq Hq' H) as Hd.
  destruct (Z.eq_dec (p / q) (p' / q')) as [E|NE].
  - pose proof (Z.div_mod p q ltac:(lia)) as Dp.
    pose proof (Z.div_mod p' q' ltac:(lia)) as Dp'.
    pose proof (Z.mod_pos_bound p q Hq) as Bp.
    pose proof (Z.mod_pos_bound p' q' Hq') as Bp'.
    assert (Hr : (p mod q) * q' <= (p' mod q') * q) by nia.
    unfold rne. cbv zeta. rewrite <- E.
    destruct (Z.compare_spec (2 * (p mod q)) q) as [C|C|C];
    destruct (Z.compare_spec (2 * (p' mod q')) q') as [C'|C'|C'];
    try destruct (Z.even (p / q)); try lia; exfalso; nia.
  - pose proof (rne_upper p q Hq). pose proof (rne_lower p' q' Hq'). lia.
Qed.

Lemma ulp_shift_nonneg p q : 0 <= ulp_shift p q.
Proof. unfold ulp_shift. lia. Qed.

Lemma round_units_mono p q p' q' :
  0 <= p -> 0 < q -> 0 < q' -> p * q' <= p' * q ->
  round_units p q <= round_units p' q'.
Proof.
  intros Hp Hq Hq' H.
  pose proof (div_cross_le p q p' q' Hq Hq' H) as Hd.
  assert (Hd0 : 0 <= p / q) by (apply Z.div_pos; lia).
  pose proof (Z.log2_le_mono _ _ Hd) as Hl.
  unfold round_units. cbv zeta.
  set (s := ulp_shift p q). set (s' := ulp_shift p' q').
  assert (Hs : 0 <= s) by apply ulp_shift_nonneg.
  assert (Hs' : 0 <= s') by apply ulp_shift_nonneg.
  assert (Hss : s <= s') by (unfold s, s', ulp_shift; lia).
  assert (P2 : 0 < 2 ^ s) by (apply Z.pow_pos_nonneg; lia).
  assert (P2' : 0 < 2 ^ s') by (apply Z.pow_pos_nonneg; lia).
  destruct (Z.eq_dec s s') as [E|NE].
  - rewrite <- E.
    apply Z.mul_le_mono_nonneg_r; [lia|].
    apply rne_mono; nia.
  - assert (Hlt : s + 1 <= s') by lia.
    (* upper bound on the left *)
    assert (U : rne p (q * 2 ^ s) <= 2 ^ 53).
    { pose proof (rne_exact (2 ^ 53) (q * 2 ^ s) ltac:(nia)) as Ex.
      rewrite <- Ex at 1. clear Ex.
      apply rne_mono; try nia.
      assert (p / q < 2 ^ (s + 53)).
      { destruct (Z.eq_dec (p / q) 0) as [Z0|NZ].
        - rewrite Z0. apply Z.pow_pos_nonneg; lia.
        - pose proof (Z.log2_spec (p / q) ltac:(lia)) as [_ Hu].
          eapply Z.lt_le_trans; [exact Hu|].
          apply Z.pow_le_mono_r; [lia|]. unfold s, ulp_shift. lia. }
      assert (K : p < q * 2 ^ (s + 53)).
      { pose proof (Z.div_mod p q ltac:(lia)).
        pose proof (Z.mod_pos_bound p q Hq). nia. }
      rewrite Z.pow_add_r in K by lia.
      apply Z.mul_le_mono_nonneg_r; [nia|]. lia. }
    assert (L : 2 ^ 52 <= rne p' (q' * 2 ^ s')).
    { pose proof (rne_exact (2 ^ 52) (q' * 2 ^ s') ltac:(nia)) as Ex.
      rewrite <- Ex at 1. clear Ex.
      apply rne_mono; try nia.
      assert (Hl' : Z.log2 (p' / q') = s' + 52) by (unfold s', ulp_shift in *; lia).
      assert (0 < p' / q').
      { destruct (Z_lt_le_dec 0 (p' / q')); [assumption|].
        rewrite Z.log2_nonpos in Hl' by lia. lia. }
      pose proof (Z.log2_spec (p' / q') ltac:(lia)) as [Hlo _].
      rewrite Hl' in Hlo.
      pose proof (Z.mul_div_le p' q' Hq') as Hm.
      rewrite Z.pow_add_r in Hlo by lia.
      assert (K : q' * (2 ^ s' * 2 ^ 52) <= p').
      { eapply Z.le_trans; [|exact Hm]. apply Z.mul_le_mono_nonneg_l; lia. }
      apply Z.mul_le_mono_nonneg_r; [nia|]. lia. }
    assert (2 ^ s * 2 <= 2 ^ s').
    { replace s' with (s + 1 + (s' - s - 1)) by lia.
      rewrite !Z.pow_add_r by lia.
      assert (1 <= 2 ^ (s' - s - 1)) by (apply Z.lt_pred_le; apply Z.pow_pos_nonneg; lia).
      nia. }
    change (2 ^ 53) with (2 ^ 52 * 2) in U.
    assert (0 < 2 ^ 52) by reflexivity.
    nia.
Qed.

Lemma round_pos_mono p q p' q' :
  0 <= p -> 0 < q -> 0 < q' -> p * q' <= p' * q ->
  leb (round_pos p q) (round_pos p' q') = true.
Proof.
  intros Hp Hq Hq' H.
  pose proof (round_units_mono p q p' q' Hp Hq Hq' H) as M.
  unfold round_pos. cbv zeta.
  destruct (Z.leb_spec overflow_units (round_units p q));
  destruct (Z.leb_spec overflow_units (round_units p' q')); simpl; try reflexivity.
  - lia.
  - apply Z.leb_le. lia.
Qed.

Lemma round_units_nonneg p q : 0 <= p -> 0 < q -> 0 <= round_units p q.
Proof.
  intros Hp Hq. unfold round_units. cbv zeta.
  apply Z.mul_nonneg_nonneg.
  - pose proof (ulp_shift_nonneg p q).
    assert (0 < q * 2 ^ ulp_shift p q) by (apply Z.mul_pos_pos; [lia|apply Z.pow_pos_nonneg; lia]).
    pose proof (rne_lower p (q * 2 ^ ulp_shift p q) ltac:(assumption)).
    assert (0 <= p / (q * 2 ^ ulp_shift p q)) by (apply Z.div_pos; lia).
    lia.
  - apply Z.pow_nonneg. lia.
Qed.

Lemma lit_1e18_units : lit_1e18 = Finite units_1e18.
Proof. vm_compute. reflexivity. Qed.

Lemma units_1e18_pos : 0 < units_1e18.
Proof. reflexivity. Qed.

Lemma round_units_one : round_units one_units 1 = one_units.
Proof. vm_compute. reflexivity. Qed.

Lemma Number_pos_units n :
  0 < n -> one_units <= round_units (n * one_units) 1.
Proof.
  intros Hn. rewrite <- round_units_one at 1.
  assert (0 < one_units) by reflexivity.
  apply round_units_mono; nia.
Qed.

Lemma div_Number_pos n :
  0 < n -> div (Number n) lit_1e18 = quot18 n.
Proof.
  intros Hn. rewrite lit_1e18_units.
  pose proof (Number_pos_units n Hn) as V.
  assert (0 < one_units) by reflexivity.
  unfold Number, of_ratio, quot18.
  destruct n as [|n|n]; try lia.
  unfold round_pos at 1 2. cbv zeta.
  destruct (overflow_units <=? _); [reflexivity|].
  destruct (round_units (Z.pos n * one_units) 1) as [|v|v]; try lia.
  reflexivity.
Qed.

Lemma round_pos_cases p q :
  round_pos p q = PosInfinity \/ round_pos p q = Finite (round_units p q).
Proof. unfold round_pos. cbv zeta. destruct (_ <=? _); auto. Qed.

Lemma quot18_mono n m :
  0 < n -> n <= m -> leb (quot18 n) (quot18 m) = true.
Proof.
  intros Hn Hm.
  assert (HU : 0 < one_units) by reflexivity.
  pose proof units_1e18_pos as HE.
  assert (M : round_units (n * one_units) 1 <= round_units (m * one_units) 1)
    by (apply round_units_mono; nia).
  pose proof (Number_pos_units n Hn) as Vn.
  unfold quot18. unfold round_pos at 1 3. cbv zeta.
  destruct (Z.leb_spec overflow_units (round_units (n * one_units) 1));
  destruct (Z.leb_spec overflow_units (round_units (m * one_units) 1));
    try reflexivity; try lia.
  - destruct (round_pos_cases (round_units (n * one_units) 1 * one_units) units_1e18)
      as [-> | ->]; reflexivity.
  - apply round_pos_mono; try lia.
    + apply Z.mul_nonneg_nonneg; lia.
    + apply Z.mul_le_mono_nonneg_r; [lia|].
      apply Z.mul_le_mono_nonneg_r; lia.
Qed.

Lemma leb_Finite_l c x :
  leb (Finite c) x = true -> x = PosInfinity \/ exists v, x = Finite v /\ c <= v.
Proof.
  destruct x; simpl; intros H; try discriminate; auto.
  right. exists v. split; [reflexivity|]. apply Z.leb_le. exact H.
Qed.

Lemma leb_Finite_r c x :
  leb x (Finite c) = true -> x = NegInfinity \/ exists v, x = Finite v /\ v <= c.
Proof.
  destruct x; simpl; intros H; try discriminate; auto.
  right. exists v. split; [reflexivity|]. apply Z.leb_le. exact H.
Qed.

Lemma quot18_not_NegInfinity n : quot18 n <> NegInfinity.
Proof.
  unfold quot18.
  destruct (round_pos_cases (n * one_units) 1) as [-> | ->]; [discriminate|].
  destruct (round_pos_cases (round_units (n * one_units) 1 * one_units) units_1e18)
    as [-> | ->]; discriminate.
Qed.

Lemma div_Finite_pos a b : 0 < b -> div (Finite a) (Finite b) = of_ratio a b.
Proof. intros Hb. destruct b; try lia. reflexivity. Qed.

Lemma of_ratio_nonpos a b :
  a <= 0 -> 0 < b ->
  of_ratio a b = NegInfinity \/ exists v, of_ratio a b = Finite v /\ v <= 0.
Proof.
  intros Ha Hb.
  assert (HU : 0 < one_units) by reflexivity.
  destruct a as [|a|a]; try lia.
  - right. exists 0. split; [reflexivity|lia].
  - unfold of_ratio.
    destruct (round_pos_cases (- Z.neg a * one_units) b) as [-> | ->].
    + left. reflexivity.
    + right. eexists. split; [reflexivity|].
      pose proof (round_units_nonneg (- Z.neg a * one_units) b ltac:(lia) Hb). lia.
Qed.

Lemma div_Number_nonpos n :
  n <= 0 ->
  div (Number n) lit_1e18 = NegInfinity \/
  exists v, div (Number n) lit_1e18 = Finite v /\ v <= 0.
Proof.
  intros Hn. rewrite lit_1e18_units.
  destruct (of_ratio_nonpos n 1 Hn ltac:(lia)) as [E | [v [E Hv]]];
    unfold Number; rewrite E.
  - left. reflexivity.
  - rewrite div_Finite_pos by apply units_1e18_pos.
    apply of_ratio_nonpos; [exact Hv | apply units_1e18_pos].
Qed.

(** The quotient is positive exactly for a positive amount. *)
Lemma div_1e18_positive n :
  ltb zero (div (Number n) lit_1e18) = (0 <? n).
Proof.
  destruct (Z.ltb_spec 0 n) as [Hn | Hn].
  - rewrite div_Number_pos by exact Hn.
    pose proof (quot18_mono 1 n ltac:(lia) ltac:(lia)) as M.
    assert (Q1 : exists c, quot18 1 = Finite c /\ 0 < c).
    { eexists. split; [vm_compute; reflexivity | reflexivity]. }
    destruct Q1 as [c [E Hc]]. rewrite E in M.
    destruct (leb_Finite_l _ _ M) as [-> | [v [-> Hv]]]; [reflexivity|].
    simpl. apply Z.ltb_lt. lia.
  - destruct (div_Number_nonpos n Hn) as [-> | [v [-> Hv]]]; [reflexivity|].
    simpl. apply Z.ltb_ge. exact Hv.
Qed.

Lemma lit_1_5_units : lit_1_5 = Finite units_1_5.
Proof. vm_compute. reflexivity. Qed.

Lemma quot18_threshold : quot18 threshold_1_5 = Finite units_1_5.
Proof. vm_compute. reflexivity. Qed.

Lemma quot18_below_threshold :
  exists w, quot18 (threshold_1_5 - 1) = Finite w /\ w < units_1_5.
Proof. eexists. split; [vm_compute; reflexivity | reflexivity]. Qed.

Lemma div_1e18_ge_1_5 n :
  leb lit_1_5 (div (Number n) lit_1e18) = (threshold_1_5 <=? n).
Proof.
  rewrite lit_1_5_units.
  destruct (Z.leb_spec threshold_1_5 n) as [Hn | Hn].
  - assert (0 < n) by (unfold threshold_1_5 in Hn; lia).
    rewrite div_Number_pos by assumption.
    pose proof (quot18_mono threshold_1_5 n ltac:(reflexivity) Hn) as M.
    rewrite quot18_threshold in M.
    destruct (leb_Finite_l _ _ M) as [-> | [v [-> Hv]]]; [reflexivity|].
    simpl. apply Z.leb_le. exact Hv.
  - assert (P15 : 0 < units_1_5) by reflexivity.
    destruct (Z_lt_le_dec 0 n) as [Hp | Hp].
    + rewrite div_Number_pos by assumption.
      pose proof (quot18_mono n (threshold_1_5 - 1) Hp ltac:(lia)) as M.
      destruct quot18_below_threshold as [w [EQ Hw]]. rewrite EQ in M.
      destruct (leb_Finite_r _ _ M) as [F | [v [-> Hv]]].
      * exfalso. exact (quot18_not_NegInfinity n F).
      * simpl. apply Z.leb_gt. lia.
    + destruct (div_Number_nonpos n Hp) as [-> | [v [-> Hv]]]; [reflexivity|].
      simpl. apply Z.leb_gt. lia.
Qed.

End Float64Facts.

Module CreatorFacts.
Import Blockchain DatabaseSimple Samples.

Lemma has_symbol_In sym tickers :
  has_symbol sym tickers = true <-> In sym (map symbol tickers).
Proof.
  unfold has_symbol. rewrite existsb_exists, in_map_iff. split.
  - intros [t [Ht E]]. apply String.eqb_eq in E. eauto.
  - intros [t [E Ht]]. exists t. split; [assumption|]. apply String.eqb_eq. assumption.
Qed.

(** The tickers of the record written by a call: the ones read, and the
    new one at the end unless its symbol is among them. *)
Lemma tickers_after_contract now newId c wallet sym name addr h :
  contract_tickers (creatorAfterContract now newId (Some c) wallet sym name addr h) =
  if has_symbol sym (contract_tickers c) then contract_tickers c
  else contract_tickers c ++
  [{| symbol := sym; name := name; address := addr; transaction_hash := h;
  created_at := now |}].
Proof. reflexivity. Qed.

Lemma symbols_distinct_step now newId existing wallet sym name addr h :
  match existing with
  | Some c => NoDup (map symbol (contract_tickers c))
  | None => True
  end ->
  NoDup (map symbol
  (contract_tickers (creatorAfterContract now newId existing wallet sym name addr h))).
Proof.
  destruct existing as [c|]; intros H.
  - rewrite tickers_after_contract.
    destruct (has_symbol sym (contract_tickers c)) eqn:E; [assumption|].
    rewrite List.map_app. simpl.
    apply NoDup_app. split; [assumption|]. split.
    + intros x Hx Hin. apply list_elem_of_In in Hx. apply list_elem_of_In in Hin.
      destruct Hin as [<-|[]]. apply has_symbol_In in Hx. congruence.
    + apply NoDup_singleton.
  - simpl. apply NoDup_singleton.
Qed.

Lemma symbols_distinct_calls newId wallet calls : forall existing,
  match existing with
  | Some c => NoDup (map symbol (contract_tickers c))
  | None => True
  end ->
  match creatorAfterCalls newId wallet existing calls with
  | Some c => NoDup (map symbol (contract_tickers c))
  | None => True
  end.
Proof.
  induction calls as [|call rest IH]; intros existing H; simpl.
  - exact H.
  - apply IH. apply symbols_distinct_step. exact H.
Qed.

(** Every ticker of the record was there before or comes from a call. *)
Lemma ticker_provenance newId wallet calls : forall existing c t,
  creatorAfterCalls newId wallet existing calls = Some c ->
  In t (contract_tickers c) ->
  (exists c0, existing = Some c0 /\ In t (contract_tickers c0)) \/
  (exists call, In call calls /\ symbol t = cc_symbol call /\
  transaction_hash t = cc_transactionHash call).
Proof.
  induction calls as [|call rest IH]; intros existing c t E Ht; simpl in E.
  - left. exists c. split; assumption.
  - destruct (IH _ _ _ E Ht) as [[c0 [E0 H0]] | [call' [Hin Hc]]].
    + injection E0 as <-.
      destruct existing as [c1|].
      * rewrite tickers_after_contract in H0.
        destruct (has_symbol (cc_symbol call) (contract_tickers c1)).
        -- left. exists c1. split; [reflexivity | assumption].
        -- apply in_app_or in H0. destruct H0 as [H0 | [<- | []]].
        ++ left. exists c1. split; [reflexivity | assumption].
        ++ right. exists call. simpl. auto.
      * simpl in H0. destruct H0 as [<- | []].
        right. exists call. simpl. auto.
    + right. exists call'. simpl. tauto.
Qed.

Lemma NoDup_map_transfer {A B C : Type} (f : A -> B) (g : A -> C) (l : list A) :
  NoDup (map f l) ->
  (forall x y, In x l -> In y l -> g x = g y -> f x = f y) ->
  NoDup (map g l).
Proof.
  induction l as [|a l IH]; simpl; intros Hf Hfg.
  - constructor.
  - apply NoDup_cons in Hf. destruct Hf as [Ha Hl].
    apply NoDup_cons. split.
    + intros Hin. apply Ha.
      apply list_elem_of_In in Hin. apply in_map_iff in Hin.
      destruct Hin as [y [Ey Hy]].
      apply list_elem_of_In. apply in_map_iff. exists y. split; [|assumption].
      apply Hfg; auto.
    + apply IH; [assumption|]. intros x y Hx Hy. apply Hfg; auto.
Qed.

(** C9, amended: after any sequence of calls of [addCreatorContract] for
    a wallet that had no record, no two tickers of the record have the same
    symbol, and a call whose symbol is among the tickers leaves the list as
    it is.  No two tickers have the same transaction hash when, among the
    calls, equal hashes come with equal symbols. *)
Theorem tickers_distinct_symbols newId wallet calls c :
  creatorAfterCalls newId wallet None calls = Some c ->
  NoDup (map symbol (contract_tickers c)) /\
  (forall now sym name addr h,
  has_symbol sym (contract_tickers c) = true ->
  contract_tickers (creatorAfterContract now newId (Some c) wallet sym name addr h) =
  contract_tickers c) /\
  ((forall a b, In a calls -> In b calls ->
  cc_transactionHash a = cc_transactionHash b -> cc_symbol a = cc_symbol b) ->
  NoDup (map transaction_hash (contract_tickers c))).
Proof.
  intros E.
  assert (S : NoDup (map symbol (contract_tickers c))).
  { pose proof (symbols_distinct_calls newId wallet calls None I) as H.
  rewrite E in H. exact H. }
  split; [exact S|]. split.
  - intros now sym name addr h Hs. rewrite tickers_after_contract, Hs. reflexivity.
  - intros FD. apply (NoDup_map_transfer symbol transaction_hash); [exact S|].
    intros x y Hx Hy Eh.
    destruct (ticker_provenance _ _ _ _ _ _ E Hx) as [[c0 [E0 _]] | [cx [Ix [Sx Tx]]]];
      [discriminate|].
    destruct (ticker_provenance _ _ _ _ _ _ E Hy) as [[c0 [E0 _]] | [cy [Iy [Sy Ty]]]];
      [discriminate|].
    rewrite Sx, Sy. apply FD; [assumption | assumption | congruence].
Qed.


Lemma tickers_distinct_symbols_witness :
  NoDup (map symbol
  (contract_tickers
  (creatorAfterContract 3 "creator-1" 
  (Some (creatorAfterContract 1 "creator-1" None wallet "AAA" None None
  (Some "0xabc"%string)))
  wallet "CCC" None None (Some "0xdef"%string)))) /\
  NoDup (map transaction_hash
  (contract_tickers
  (creatorAfterContract 3 "creator-1"
  (Some (creatorAfterContract 1 "creator-1" None wallet "AAA" None None
  (Some "0xabc"%string)))
  wallet "CCC" None None (Some "0xdef"%string)))).
Proof.
  destruct (tickers_distinct_symbols "creator-1" wallet [call_AAA; call_AAA; call_CCC] _
    eq_refl) as [S [_ H]].
  split; [exact S|].
  apply H. intros a b Ha Hb.
  simpl in Ha, Hb.
  destruct Ha as [<- | [<- | [<- | []]]]; destruct Hb as [<- | [<- | [<- | []]]];
    simpl; intros E; try reflexivity; discriminate E.
Defined.

(** What [addCreatorContract] leaves in the store for the wallet. *)
Lemma addCreatorContract_record env st w sym name addr h :
  creators_db_ok env = true ->
  creators (fst (addCreatorContract env st w sym name addr h)) !! w =
  Some (creatorAfterContract (now env) (new_creator_id env) (creators st !! w)
  w sym name addr h).
Proof.
  intros Hok. unfold addCreatorContract. rewrite Hok. simpl.
  apply lookup_insert_eq.
Qed.

(** C9 as stated fails: two calls of [addCreatorContract] that carry the
    same transaction hash and different symbols leave two tickers with that
    hash. *)
Lemma tickers_share_hash_counterexample :
  let st1 := fst (addCreatorContract quiet_env empty_state wallet "AAA" None None
  (Some "0xabc"%string)) in
  let st2 := fst (addCreatorContract quiet_env st1 wallet "BBB" None None
  (Some "0xabc"%string)) in
  exists c, creators st2 !! wallet = Some c /\
  map transaction_hash (contract_tickers c) = [Some "0xabc"; Some "0xabc"]%string /\
  ~ NoDup (map transaction_hash (contract_tickers c)).
Proof.
  cbv zeta. eexists. split.
  - rewrite addCreatorContract_record by reflexivity.
    rewrite addCreatorContract_record by reflexivity.
    reflexivity.
  - split; [reflexivity|].
    simpl. intros H. apply NoDup_cons in H. destruct H as [H _].
    apply H. apply list_elem_of_In. left. reflexivity.
Qed.

(** C10: a call of [addCreatorContract] for a wallet that has a record
    adds one to the persisted count of contracts, also when the symbol is
    among the tickers and no ticker is appended; the count then exceeds the
    number of tickers if it was not below it. *)
Theorem contracts_created_exceeds_tickers env st w sym name addr h c :
  creators_db_ok env = true ->
  creators st !! w = Some c ->
  exists c',
  creators (fst (addCreatorContract env st w sym name addr h)) !! w = Some c' /\
  contracts_created c' = contracts_created c + 1 /\
  (has_symbol sym (contract_tickers c) = true ->
  contract_tickers c' = contract_tickers c /\
  (Z.of_nat (length (contract_tickers c)) <= contracts_created c ->
  Z.of_nat (length (contract_tickers c')) < contracts_created c')).
Proof.
  intros Hok Hc. eexists. split.
  - rewrite addCreatorContract_record by exact Hok. rewrite Hc. reflexivity.
  - split; [reflexivity|].
    intros Hs. rewrite tickers_after_contract, Hs. simpl. split; [reflexivity | lia].
Qed.

Lemma contracts_created_exceeds_tickers_witness :
  let st1 := fst (addCreatorContract quiet_env empty_state wallet "AAA" None None
  (Some "0xabc"%string)) in
  exists c',
  creators (fst (addCreatorContract quiet_env st1 wallet "AAA" None None
  (Some "0xabc"%string))) !! wallet = Some c' /\
  contracts_created c' = 2 /\
  length (contract_tickers c') = 1%nat.
Proof.
  cbv zeta.
  destruct (contracts_created_exceeds_tickers quiet_env
    (fst (addCreatorContract quiet_env empty_state wallet "AAA" None None
    (Some "0xabc"%string)))
    wallet "AAA" None None (Some "0xabc"%string)
    (creatorAfterContract (now quiet_env) (new_creator_id quiet_env) None wallet
    "AAA" None None (Some "0xabc"%string))
    eq_refl
    (addCreatorContract_record quiet_env empty_state wallet "AAA" None None
    (Some "0xabc"%string) eq_refl))
    as [c' [E [Hn Ht]]].
  exists c'. split; [exact E|]. split; [exact Hn|].
  destruct (Ht eq_refl) as [-> _]. reflexivity.
Defined.

End CreatorFacts.

Module ClassifierFacts.
Import Blockchain Float64Facts.

(** C7 as stated fails on the description: for the selector of the
    repository's own test, absent from the table and containing "create", the
    description is "Possible token creation", with a capital letter. *)
Lemma fallback_description_counterexample :
  lookup_signature METHOD_SIGNATURES "0xdeadcreate" = None /\
  Js.includes "create" (Js.toLowerCase "0xdeadcreate") = true /\
  ti_type (determineTransactionType "0xdeadcreate" 0) = TOKEN_CREATION /\
  ti_description (determineTransactionType "0xdeadcreate" 0)
  <> "possible token creation"%string.
Proof. repeat split; try reflexivity. vm_compute. discriminate. Qed.

(** C7, amended: for a selector that is not in the table, the
    classification is TOKEN_CREATION with description "Possible token
    creation" when the lower-cased selector contains "create" or "token";
    otherwise BUY when the value is positive; otherwise UNKNOWN. *)
Theorem fallback_classification (methodId : string) (value : Z) :
  String.prefix "0x" methodId = true ->
  lookup_signature METHOD_SIGNATURES methodId = None ->
  let info := determineTransactionType methodId value in
  let keyword :=
  Js.includes "create" (Js.toLowerCase methodId)
  || Js.includes "token" (Js.toLowerCase methodId) in
  (keyword = true ->
  ti_type info = TOKEN_CREATION /\
  ti_description info = "Possible token creation"%string) /\
  (keyword = false -> 0 < value -> ti_type info = BUY) /\
  (keyword = false -> value <= 0 -> ti_type info = UNKNOWN).
Proof.
  intros _ Hl. cbv zeta. unfold determineTransactionType. rewrite Hl.
  destruct (Js.includes "create" (Js.toLowerCase methodId)
    || Js.includes "token" (Js.toLowerCase methodId)).
  - split; [intros _; split; reflexivity|]. split; intros H; discriminate H.
  - rewrite div_1e18_positive.
    split; [intros H; discriminate H|]. split; intros _ Hv.
    + destruct (Z.ltb_spec 0 value); [reflexivity | lia].
    + destruct (Z.ltb_spec 0 value); [lia | reflexivity].
Qed.

Lemma fallback_classification_witness :
  (ti_type (determineTransactionType "0xdeadcreate" 0) = TOKEN_CREATION /\
  ti_description (determineTransactionType "0xdeadcreate" 0)
  = "Possible token creation"%string) /\
  ti_type (determineTransactionType "0xabcdef01" 1000000000000000000) = BUY /\
  ti_type (determineTransactionType "0xabcdef01" 0) = UNKNOWN.
Proof.
  split; [|split].
  - apply (fallback_classification "0xdeadcreate" 0); reflexivity.
  - apply (fallback_classification "0xabcdef01" 1000000000000000000); reflexivity.
  - apply (fallback_classification "0xabcdef01" 0); reflexivity.
Defined.

(** The model of binary64 agrees with the hardware on the quotients
    around the two thresholds the pipeline tests. *)
Example quotient_matches_hardware :
  forallb
  (fun n =>
  match Float64.of_prim (PrimFloat.div (PrimFloat.of_uint63 (Uint63.of_Z n)) 1e18%float),
  Float64.div (Float64.Number n) Float64.lit_1e18 with
  | Float64.Finite a, Float64.Finite b => a =? b
  | _, _ => false
  end)
  [0; 1; 2; 999; 1000000000000000000; 1499900000000000000; 1499999999999999871;
  1499999999999999872; 1499999999999999999; 1500000000000000000;
  1500000000000000129; 9007199254740993; 9223372036854775807] = true.
Proof. vm_compute. reflexivity. Qed.

End ClassifierFacts.

Module TierFacts.
Import ArenaSocials DatabaseSimple Float64Facts Samples.

Lemma is_true_Some_true (o : option bool) : is_true o = true <-> o = Some true.
Proof.
  destruct o as [[|]|]; simpl; split; intros H; try reflexivity; try discriminate;
    congruence.
Qed.

(** The ticket price reaches [1.5] exactly when the key price, an
    integer amount of the smallest unit, is at least [1.5e18 - 128]: the
    amounts from there to [1.5e18] all convert to the number [1.5e18]. *)
Lemma ticket_price_threshold (p : ArenaUserProfile) :
  Float64.leb Float64.lit_1_5 (ticketPriceOf p) = true <->
  exists k, keyPrice p = Some k /\ Float64.threshold_1_5 <= k.
Proof.
  unfold ticketPriceOf. destruct (keyPrice p) as [k|].
  - rewrite div_1e18_ge_1_5. rewrite Z.leb_le. split.
    + intros H. exists k. split; [reflexivity | exact H].
    + intros [k' [E H]]. injection E as ->. exact H.
  - split; [|intros [k [E _]]; discriminate E].
    intros H. exfalso.
    assert (E : Float64.leb Float64.lit_1_5 Float64.zero = false)
      by (vm_compute; reflexivity).
    rewrite E in H. discriminate H.
Qed.

(** The claim C3 as it is stated fails at a key price of
    [1499999999999999872]: the profile is no champion and has 100
    followers, its ticket price in whole tokens is below 1.5, and its tier
    is heavy-hitter. *)
Lemma tier_price_counterexample :
  let p := set_keyPrice (Some 1499999999999999872) (profile_with 100 false) in
  isArenaChampion p <> Some true /\
  followersOf p < 5000 /\
  keyPrice p = Some 1499999999999999872 /\
  ~ exact_price_reaches_1_5 1499999999999999872 /\
  postTypeOf p = HeavyHitter.
Proof.
  cbv zeta. split; [discriminate|]. split; [reflexivity|]. split; [reflexivity|].
  split; [unfold exact_price_reaches_1_5; lia|].
  assert (E : (5000 <=? followersOf
                 (set_keyPrice (Some 1499999999999999872) (profile_with 100 false)))
              || Float64.leb Float64.lit_1_5
                   (ticketPriceOf
                      (set_keyPrice (Some 1499999999999999872) (profile_with 100 false)))
              = true) by (vm_compute; reflexivity).
  unfold postTypeOf. cbv zeta.
  change (is_true (isArenaChampion
                     (set_keyPrice (Some 1499999999999999872) (profile_with 100 false))))
    with false.
  cbv iota. rewrite E. reflexivity.
Qed.

(** C3, amended: the tier is champion exactly when the champion flag of
    the profile is true, whatever the follower count and the key price;
    otherwise heavy-hitter exactly when the follower count is at least
    5000 or the key price is at least [1499999999999999872] of the smallest
    unit, the least amount whose conversion to a number, divided by
    [1e18], reaches [1.5]; otherwise regular.  A ticket price of at least
    1.5 whole tokens always qualifies, and a key price that qualifies
    falls short of 1.5 whole tokens by 128 of the smallest unit at most.
    A follower count of 5000 and a ticket price of exactly 1.5 qualify;
    4999 followers with a ticket price of 1.4999 do not. *)
Theorem tier_classification (p : ArenaUserProfile) :
  (postTypeOf p = Champion <-> isArenaChampion p = Some true) /\
  (postTypeOf p = HeavyHitter <->
     isArenaChampion p <> Some true /\
     (5000 <= followersOf p \/
      exists k, keyPrice p = Some k /\ 1499999999999999872 <= k)) /\
  (postTypeOf p = Regular <->
     isArenaChampion p <> Some true /\
     followersOf p < 5000 /\
     forall k, keyPrice p = Some k -> k < 1499999999999999872) /\
  (forall k, (exact_price_reaches_1_5 k -> 1499999999999999872 <= k) /\
             (1499999999999999872 <= k -> exact_price_reaches_1_5 (k + 128))) /\
  (isArenaChampion p <> Some true -> followerCount p = Some 5000 ->
     postTypeOf p = HeavyHitter) /\
  (isArenaChampion p <> Some true -> keyPrice p = Some 1500000000000000000 ->
     postTypeOf p = HeavyHitter) /\
  (isArenaChampion p <> Some true -> followerCount p = Some 4999 ->
     keyPrice p = Some 1499900000000000000 -> postTypeOf p = Regular).
Proof.
  pose proof (is_true_Some_true (isArenaChampion p)) as C.
  pose proof (ticket_price_threshold p) as T.
  unfold Float64.threshold_1_5 in T.
  assert (B1 : followerCount p = Some 5000 -> (5000 <=? followersOf p) = true)
    by (unfold followersOf; intros ->; reflexivity).
  assert (B3 : followerCount p = Some 4999 -> (5000 <=? followersOf p) = false)
    by (unfold followersOf; intros ->; reflexivity).
  assert (TF : Float64.leb Float64.lit_1_5 (ticketPriceOf p) = false <->
               forall k, keyPrice p = Some k -> k < 1499999999999999872).
  { split.
    - intros F k Ek. destruct (Z.lt_ge_cases k 1499999999999999872) as [L | G];
        [exact L|].
      assert (X : Float64.leb Float64.lit_1_5 (ticketPriceOf p) = true)
        by (apply T; exists k; split; assumption).
      rewrite X in F. discriminate F.
    - intros H. destruct (Float64.leb Float64.lit_1_5 (ticketPriceOf p)) eqn:X;
        [|reflexivity].
      destruct (proj1 T eq_refl) as [k [Ek G]]. specialize (H k Ek). lia. }
  unfold postTypeOf. cbv zeta.
  rewrite <- (Z.leb_le 5000 (followersOf p)).
  rewrite <- (Z.leb_gt 5000 (followersOf p)).
  generalize dependent (Float64.leb Float64.lit_1_5 (ticketPriceOf p)).
  generalize dependent (5000 <=? followersOf p).
  intros f B1 B3 t T TF.
  assert (Q : forall k, (exact_price_reaches_1_5 k -> 1499999999999999872 <= k) /\
                        (1499999999999999872 <= k -> exact_price_reaches_1_5 (k + 128)))
    by (intros k; unfold exact_price_reaches_1_5; split; lia).
  destruct (is_true (isArenaChampion p)).
  - assert (E : isArenaChampion p = Some true) by (apply C; reflexivity).
    repeat split; try (intros; congruence); try (intros [? _]; congruence);
      apply Q.
  - assert (NE : isArenaChampion p <> Some true)
      by (intros E; apply C in E; discriminate E).
    clear C.
    split; [split; [destruct (f || t); discriminate | intros E; contradiction]|].
    split; [|split; [|split; [exact Q|]]].
    + split.
      * intros H. split; [exact NE|].
        destruct f; [left; reflexivity|]. destruct t; [|discriminate H].
        right. apply T. reflexivity.
      * intros [_ [H | H]]; [rewrite H; reflexivity|].
        apply T in H. rewrite H, orb_true_r. reflexivity.
    + split.
      * intros H. split; [exact NE|].
        destruct f; [discriminate H|]. split; [reflexivity|].
        destruct t; [discriminate H|]. apply TF. reflexivity.
      * intros [_ [-> H]]. apply TF in H. rewrite H. reflexivity.
    + split; [intros _ E; rewrite (B1 E); reflexivity|].
      split.
      * intros _ E.
        assert (X : t = true)
          by (apply T; exists 1500000000000000000; split; [exact E | lia]).
        rewrite X, orb_true_r. reflexivity.
      * intros _ E1 E2. rewrite (B3 E1).
        assert (X : t = false) by (apply TF; intros k Ek; rewrite E2 in Ek;
                                   injection Ek as <-; lia).
        rewrite X. reflexivity.
Qed.

(** For a profile that is no champion and has fewer than 5000 followers,
    the tier is heavy-hitter exactly from a key price of
    [1499999999999999872] of the smallest unit on: the conversion of the
    amount to a number rounds the amounts from there to [1.5e18] to
    [1.5e18]. *)
Theorem heavy_hitter_key_price (p : ArenaUserProfile) (k : Z) :
  isArenaChampion p <> Some true ->
  followersOf p < 5000 ->
  keyPrice p = Some k ->
  (postTypeOf p = HeavyHitter <-> 1499999999999999872 <= k).
Proof.
  intros NC NF Ek.
  pose proof (is_true_Some_true (isArenaChampion p)) as C.
  pose proof (ticket_price_threshold p) as T.
  unfold postTypeOf. cbv zeta.
  destruct (is_true (isArenaChampion p)).
  { exfalso. apply NC, C. reflexivity. }
  destruct (Z.leb_spec 5000 (followersOf p)) as [H|_]; [lia|].
  cbn [orb].
  generalize dependent (Float64.leb Float64.lit_1_5 (ticketPriceOf p)).
  intros b T. unfold Float64.threshold_1_5 in T.
  destruct b; split; intros H.
  - destruct T as [T _]. destruct (T eq_refl) as [k' [E Hk]].
    rewrite Ek in E. injection E as <-. exact Hk.
  - reflexivity.
  - discriminate H.
  - exfalso. destruct T as [_ T].
    assert (F : false = true) by (apply T; exists k; split; [exact Ek | exact H]).
    discriminate F.
Qed.

Lemma heavy_hitter_key_price_witness :
  postTypeOf (set_keyPrice (Some 1499999999999999872) (profile_with 100 false))
  = HeavyHitter /\
  postTypeOf (set_keyPrice (Some 1499999999999999871) (profile_with 100 false))
  <> HeavyHitter.
Proof.
  split.
  - apply (heavy_hitter_key_price
             (set_keyPrice (Some 1499999999999999872) (profile_with 100 false))
             1499999999999999872);
      [discriminate | reflexivity | reflexivity | lia].
  - intros H.
    apply (heavy_hitter_key_price
             (set_keyPrice (Some 1499999999999999871) (profile_with 100 false))
             1499999999999999871) in H;
      [lia | discriminate | reflexivity | reflexivity].
Defined.

End TierFacts.

Module ResolverFacts.
Import ArenaSocials Samples.

Lemma bigint_toString_19 (n : Z) : Js.bigint_toString n = "19"%string -> n = 19.
Proof.
  unfold Js.bigint_toString. intros H.
  assert (E : NilZero.int_of_string (NilZero.string_of_int (Z.to_int n))
              = Some (Decimal.Pos (Decimal.D1 (Decimal.D9 Decimal.Nil))))
    by (rewrite H; reflexivity).
  destruct (Z.to_int n) as [u | u] eqn:En.
  - destruct u as [|u|u|u|u|u|u|u|u|u|u];
      try (rewrite NilZero.isi in E by discriminate; injection E as E;
           rewrite <- (DecimalZ.of_to n), En, E; reflexivity);
      try (simpl in E; discriminate E).
  - destruct u as [|u|u|u|u|u|u|u|u|u|u];
      try (rewrite NilZero.isi in E by discriminate; discriminate E);
      try (simpl in E; discriminate E).
Qed.

Section Resolver.
Variable StringToNumber : string -> option Z.

(** The two tests of the code together are the specification's tolerant
    comparison with 19. *)
Lemma champion_tests_spec (b : ArenaBadge) :
  championBadge StringToNumber b || championBadgeLoose b = true <->
  champion_code StringToNumber (badgeType b).
Proof.
  unfold ArenaSocials.championBadge, ArenaSocials.championBadgeLoose,
    ArenaSocials.champion_code.
  destruct (badgeType b) as [| |x|n|s]; simpl.
  - split; [intros H; discriminate H | intros [H | [s [H _]]]; discriminate H].
  - split; [intros H; discriminate H | intros [H | [s [H _]]]; discriminate H].
  - split.
    + destruct x; intros H; discriminate H.
    + intros [H | [s [H _]]]; discriminate H.
  - split.
    + intros H. left. f_equal.
      destruct (Z.eqb_spec n 19) as [E | NE]; [exact E|].
      simpl in H. apply String.eqb_eq in H. apply bigint_toString_19. exact H.
    + intros [H | [s [H _]]]; [|discriminate H].
      injection H as ->. reflexivity.
  - split.
    + intros H. right. exists s. split; [reflexivity|].
      destruct (String.eqb_spec s "19") as [E | NE]; [left; exact E|].
      simpl in H. rewrite orb_false_r in H.
      right. unfold opt_is in H. destruct (StringToNumber s) as [m|]; [|discriminate H].
      apply Z.eqb_eq in H. congruence.
    + intros [H | [t [E [H | H]]]]; [discriminate H | |]; injection E as <-.
      * subst s. reflexivity.
      * unfold opt_is. rewrite H.
        destruct (String.eqb s "19"); reflexivity.
Qed.

Lemma find_existsb {A} (f : A -> bool) (l : list A) :
  is_some (find f l) = existsb f l.
Proof.
  induction l as [|a l IH]; simpl; [reflexivity|].
  destruct (f a); [reflexivity | exact IH].
Qed.

Lemma has_champion_badge_spec (bs : list ArenaBadge) :
  has_champion_badge StringToNumber bs = true <->
  exists b, In b bs /\ champion_code StringToNumber (badgeType b).
Proof.
  unfold has_champion_badge. rewrite existsb_exists.
  split; intros [b [Hb H]]; exists b; (split; [exact Hb|]);
    apply champion_tests_spec; exact H.
Qed.

Lemma existsb_orb {A} (f g : A -> bool) (l : list A) :
  existsb f l || existsb g l = existsb (fun x => f x || g x) l.
Proof.
  induction l as [|a l IH]; simpl; [reflexivity|].
  rewrite <- IH. destruct (f a), (g a), (existsb f l), (existsb g l); reflexivity.
Qed.

(** The body of the [try] of step 3: it raises exactly on the payloads
    that [stats_raises] describes; when it completes, the champion flag
    is set from the badge array, and to false without one. *)
Lemma applyStats_flag handle uid profile data :
  match applyStats StringToNumber handle uid profile data with
  | Raised _ => stats_raises data = true
  | Done p =>
      stats_raises data = false /\
      isArenaChampion p =
        Some (match sb_badges data with
              | Some bs => has_champion_badge StringToNumber bs
              | None => false
              end)
  end.
Proof.
  unfold applyStats, stats_raises, has_champion_badge.
  destruct data as [th st bs];
    destruct th as [| |h];
    destruct st as [[[| |k] [| |v] [| |u]]|];
    destruct bs as [l|]; simpl;
    first [ reflexivity
          | split; [reflexivity|];
            first [ reflexivity
                  | rewrite !find_existsb, existsb_orb; reflexivity ] ].
Qed.

Lemma step2_profile handle profile r p2 uid :
  step2 handle profile r = (p2, Some uid) -> exists p, p2 = Some p.
Proof.
  unfold step2. destruct r as [[user|]| | |]; try discriminate.
  destruct (Js.truthy (su_id user)); [|discriminate].
  intros H. injection H as <- _. eexists. reflexivity.
Qed.

(** C8: when the resolution reaches the statistics lookup, it returns a
    profile whose champion flag is set: to true exactly when the lookup
    succeeds and its badge array holds a badge whose type equals 19 as a
    number or as a string; to false when the payload has no badge array
    and whenever the lookup fails (a response that is not 2xx, a request
    or a body that raises, a payload on which the processing raises). *)
Theorem champion_flag_after_stats (rs : Responses) p1 h p2 uid :
  step1 (r_trade rs) = (p1, Some h) ->
  step2 h p1 (r_user rs) = (p2, Some uid) ->
  exists p,
    resolve StringToNumber rs = Some p /\
    match r_stats rs with
    | Ok (Some data) =>
        if stats_raises data then isArenaChampion p = Some false
        else
          match sb_badges data with
          | Some bs =>
              (isArenaChampion p = Some true <->
               exists b, In b bs /\ champion_code StringToNumber (badgeType b)) /\
              (isArenaChampion p = Some true \/ isArenaChampion p = Some false)
          | None => isArenaChampion p = Some false
          end
    | _ => isArenaChampion p = Some false
    end.
Proof.
  intros E1 E2.
  destruct (step2_profile _ _ _ _ _ E2) as [q ->].
  unfold resolve. rewrite E1, E2. unfold step3.
  destruct (r_stats rs) as [[data|]| | |]; simpl;
    try (eexists; split; reflexivity).
  pose proof (applyStats_flag (Some h) uid (Some q) data) as F.
  destruct (applyStats StringToNumber (Some h) uid (Some q) data) as [p | p].
  - destruct F as [-> F]. exists p. split; [reflexivity|].
    destruct (sb_badges data) as [bs|]; [|exact F].
    rewrite <- has_champion_badge_spec, F.
    destruct (has_champion_badge StringToNumber bs); split; auto;
      split; congruence.
  - rewrite F. eexists. split; reflexivity.
Qed.

End Resolver.

Lemma champion_flag_after_stats_witness :
  (exists p, resolve decimalToNumber champion_responses = Some p /\
             isArenaChampion p = Some true) /\
  (exists p, resolve decimalToNumber forbidden_responses = Some p /\
             isArenaChampion p = Some false).
Proof.
  split.
  - destruct (champion_flag_after_stats decimalToNumber champion_responses
                _ _ _ _ eq_refl eq_refl) as [p [E [H _]]].
    exists p. split; [exact E|]. apply H.
    exists (badge (JStr "19")). split; [right; left; reflexivity|].
    right. exists "19"%string. split; [reflexivity | left; reflexivity].
  - destruct (champion_flag_after_stats decimalToNumber forbidden_responses
                _ _ _ _ eq_refl eq_refl) as [p [E H]].
    exists p. split; [exact E | exact H].
Defined.

End ResolverFacts.

Module DispatchFacts.
Import ArenaSocials Blockchain DatabaseSimple Samples CreatorFacts.

(** *** The store under the flag updates *)

Lemma setPostedToArena_lookup tid st h :
  contract_transactions (setPostedToArena tid st) !! h =
  (fun row =>
     if String.eqb (row_id row) tid
     then {| row_id := row_id row; posted_to_arena := Some true;
             posted_to_discord := posted_to_discord row |}
     else row) <$> contract_transactions st !! h.
Proof. unfold setPostedToArena. simpl. apply lookup_fmap. Qed.

Lemma setPostedToDiscord_lookup tid st h :
  contract_transactions (setPostedToDiscord tid st) !! h =
  (fun row =>
     if String.eqb (row_id row) tid
     then {| row_id := row_id row; posted_to_arena := posted_to_arena row;
             posted_to_discord := Some true |}
     else row) <$> contract_transactions st !! h.
Proof. unfold setPostedToDiscord. simpl. apply lookup_fmap. Qed.

(** *** The two branches of the dispatch *)

Lemma dispatchArena_trace env st key tid a pt call :
  snd (dispatchArena env st key tid a pt call) =
  if tiered pt && negb a then [call] else [].
Proof.
  unfold dispatchArena.
  destruct pt, a; simpl; try reflexivity; destruct (arena_post env); reflexivity.
Qed.

Lemma dispatchDiscord_trace env st key tid d pt call :
  snd (dispatchDiscord env st key tid d pt call) = if negb d then [call] else [].
Proof.
  unfold dispatchDiscord. destruct d; simpl; [reflexivity|].
  destruct (discord_post env); reflexivity.
Qed.

(** The state after the Arena branch. *)
Lemma dispatchArena_state env st key tid a pt call :
  fst (dispatchArena env st key tid a pt call) =
  if tiered pt then
    if negb a && arena_post env then
      let st1 := markArenaPostAsSent (now env) key (label pt) st in
      match tid with
      | Some t => if Js.truthy tid then updatePostedToArena env t st1 else st1
      | None => st1
      end
    else st
  else markArenaPostAsSent (now env) key (label pt) st.
Proof.
  unfold dispatchArena.
  destruct pt, a; simpl; try reflexivity; destruct (arena_post env); reflexivity.
Qed.

Lemma dispatchDiscord_state env st key tid d pt call :
  fst (dispatchDiscord env st key tid d pt call) =
  if negb d && discord_post env then
    let st1 := markDiscordPostAsSent (now env) key (label pt) st in
    match tid with
    | Some t => if Js.truthy tid then updatePostedToDiscord env t st1 else st1
    | None => st1
    end
  else st.
Proof.
  unfold dispatchDiscord. destruct d; simpl; [reflexivity|].
  destruct (discord_post env); reflexivity.
Qed.

(** The two branches leave the creators alone, and each leaves the
    cache of the other channel alone. *)
Lemma dispatchArena_frame env st key tid a pt call :
  let st' := fst (dispatchArena env st key tid a pt call) in
  creators st' = creators st /\ discordPostCache st' = discordPostCache st /\
  (forall h, postedToDiscord st' h = postedToDiscord st h).
Proof.
  cbv zeta. rewrite dispatchArena_state.
  assert (M : forall l, creators (markArenaPostAsSent (now env) key l st) = creators st /\
              discordPostCache (markArenaPostAsSent (now env) key l st)
              = discordPostCache st /\
              (forall h, postedToDiscord (markArenaPostAsSent (now env) key l st) h
                         = postedToDiscord st h))
    by (intros l; repeat split).
  assert (S : forall t s, creators (updatePostedToArena env t s) = creators s /\
              discordPostCache (updatePostedToArena env t s) = discordPostCache s /\
              (forall h, postedToDiscord (updatePostedToArena env t s) h
                         = postedToDiscord s h)).
  { intros t s. unfold updatePostedToArena.
    destruct (update_arena_ok env); [|repeat split].
    repeat split. intros h. unfold postedToDiscord.
    rewrite setPostedToArena_lookup.
    destruct (contract_transactions s !! h) as [row|]; simpl; [|reflexivity].
    destruct (String.eqb (row_id row) t); reflexivity. }
  destruct (tiered pt); [|apply M].
  destruct (negb a && arena_post env); [|repeat split].
  cbv zeta. destruct tid as [t|]; [|apply M].
  destruct (Js.truthy (Some t)); [|apply M].
  destruct (S t (markArenaPostAsSent (now env) key (label pt) st)) as [-> [-> E]].
  split; [apply M|]. split; [apply M|]. intros h. rewrite E. apply M.
Qed.

Lemma dispatchDiscord_frame env st key tid d pt call :
  let st' := fst (dispatchDiscord env st key tid d pt call) in
  creators st' = creators st /\ arenaPostCache st' = arenaPostCache st /\
  (forall h, postedToArena st' h = postedToArena st h).
Proof.
  cbv zeta. rewrite dispatchDiscord_state.
  assert (M : forall l, creators (markDiscordPostAsSent (now env) key l st) = creators st /\
              arenaPostCache (markDiscordPostAsSent (now env) key l st)
              = arenaPostCache st /\
              (forall h, postedToArena (markDiscordPostAsSent (now env) key l st) h
                         = postedToArena st h))
    by (intros l; repeat split).
  assert (S : forall t s, creators (updatePostedToDiscord env t s) = creators s /\
              arenaPostCache (updatePostedToDiscord env t s) = arenaPostCache s /\
              (forall h, postedToArena (updatePostedToDiscord env t s) h
                         = postedToArena s h)).
  { intros t s. unfold updatePostedToDiscord.
    destruct (update_discord_ok env); [|repeat split].
    repeat split. intros h. unfold postedToArena.
    rewrite setPostedToDiscord_lookup.
    destruct (contract_transactions s !! h) as [row|]; simpl; [|reflexivity].
    destruct (String.eqb (row_id row) t); reflexivity. }
  destruct (negb d && discord_post env); [|repeat split].
  cbv zeta. destruct tid as [t|]; [|apply M].
  destruct (Js.truthy (Some t)); [|apply M].
  destruct (S t (markDiscordPostAsSent (now env) key (label pt) st)) as [-> [-> E]].
  split; [apply M|]. split; [apply M|]. intros h. rewrite E. apply M.
Qed.

Lemma hasRow_setPostedToArena st h t t' :
  hasRow st h t -> hasRow (setPostedToArena t' st) h t.
Proof.
  intros [row [E I]]. unfold hasRow. rewrite setPostedToArena_lookup, E. simpl.
  destruct (String.eqb (row_id row) t'); eexists; split; try reflexivity; exact I.
Qed.

Lemma hasRow_setPostedToDiscord st h t t' :
  hasRow st h t -> hasRow (setPostedToDiscord t' st) h t.
Proof.
  intros [row [E I]]. unfold hasRow. rewrite setPostedToDiscord_lookup, E. simpl.
  destruct (String.eqb (row_id row) t'); eexists; split; try reflexivity; exact I.
Qed.

Lemma hasRow_updatePostedToArena env st h t t' :
  hasRow st h t -> hasRow (updatePostedToArena env t' st) h t.
Proof.
  unfold updatePostedToArena. destruct (update_arena_ok env); [|auto].
  apply hasRow_setPostedToArena.
Qed.

Lemma hasRow_updatePostedToDiscord env st h t t' :
  hasRow st h t -> hasRow (updatePostedToDiscord env t' st) h t.
Proof.
  unfold updatePostedToDiscord. destruct (update_discord_ok env); [|auto].
  apply hasRow_setPostedToDiscord.
Qed.

Lemma postedToArena_set st h t :
  hasRow st h t -> postedToArena (setPostedToArena t st) h = true.
Proof.
  intros [row [E I]]. unfold postedToArena. rewrite setPostedToArena_lookup, E. simpl.
  rewrite I, String.eqb_refl. reflexivity.
Qed.

Lemma postedToDiscord_set st h t :
  hasRow st h t -> postedToDiscord (setPostedToDiscord t st) h = true.
Proof.
  intros [row [E I]]. unfold postedToDiscord. rewrite setPostedToDiscord_lookup, E. simpl.
  rewrite I, String.eqb_refl. reflexivity.
Qed.

Lemma markedPosted_insert cache key now l :
  markedPosted (<[key := {| posted := true; pc_timestamp := now; postType := l |}]> cache)
    key = true.
Proof. unfold markedPosted. rewrite lookup_insert_eq. reflexivity. Qed.

(** A post to Arena that succeeds marks the cache entry and, when the id
    of the row is known, the persisted flag. *)
Lemma dispatchArena_success env st key tid pt call :
  tiered pt = true -> arena_post env = true ->
  let st' := fst (dispatchArena env st key tid false pt call) in
  markedPosted (arenaPostCache st') key = true /\
  (forall h t, tid = Some t -> Js.truthy (Some t) = true -> hasRow st h t ->
               (update_arena_ok env = true -> postedToArena st' h = true) /\
               hasRow st' h t).
Proof.
  intros Ht Hp. cbv zeta. rewrite dispatchArena_state, Ht, Hp. simpl.
  destruct tid as [t|].
  - destruct (Js.truthy (Some t)) eqn:T.
    + split; [unfold updatePostedToArena; destruct (update_arena_ok env);
              apply markedPosted_insert|].
      intros h t' E _ R. injection E as <-. split.
      * intros U. unfold updatePostedToArena. rewrite U.
        apply postedToArena_set. exact R.
      * apply hasRow_updatePostedToArena. exact R.
    + split; [apply markedPosted_insert|].
      intros h t' E T'. injection E as <-.
      unfold Js.truthy in *. simpl in *. congruence.
  - split; [apply markedPosted_insert|]. intros h t E. discriminate E.
Qed.

Lemma dispatchDiscord_success env st key tid pt call :
  discord_post env = true ->
  let st' := fst (dispatchDiscord env st key tid false pt call) in
  markedPosted (discordPostCache st') key = true /\
  (forall h t, tid = Some t -> Js.truthy (Some t) = true -> hasRow st h t ->
               update_discord_ok env = true -> postedToDiscord st' h = true).
Proof.
  intros Hp. cbv zeta. rewrite dispatchDiscord_state, Hp. simpl.
  destruct tid as [t|].
  - destruct (Js.truthy (Some t)) eqn:T.
    + split; [unfold updatePostedToDiscord; destruct (update_discord_ok env);
              apply markedPosted_insert|].
      intros h t' E _ R U. injection E as <-. unfold updatePostedToDiscord. rewrite U.
      apply postedToDiscord_set. exact R.
    + split; [apply markedPosted_insert|].
      intros h t' E T'. injection E as <-.
      unfold Js.truthy in *. simpl in *. congruence.
  - split; [apply markedPosted_insert|]. intros h t E. discriminate E.
Qed.

(** A post that fails leaves the state as it was. *)
Lemma dispatchArena_failure env st key tid pt call :
  tiered pt = true -> arena_post env = false ->
  fst (dispatchArena env st key tid false pt call) = st.
Proof. intros Ht Hp. rewrite dispatchArena_state, Ht, Hp. reflexivity. Qed.

Lemma dispatchDiscord_failure env st key tid pt call :
  discord_post env = false ->
  fst (dispatchDiscord env st key tid false pt call) = st.
Proof. intros Hp. rewrite dispatchDiscord_state, Hp. reflexivity. Qed.

Lemma hasRow_dispatchArena env st key tid a pt call h t :
  hasRow st h t -> hasRow (fst (dispatchArena env st key tid a pt call)) h t.
Proof.
  intros R. rewrite dispatchArena_state.
  destruct (tiered pt); [|exact R].
  destruct (negb a && arena_post env); [|exact R].
  cbv zeta. destruct tid as [t'|]; [|exact R].
  destruct (Js.truthy (Some t')); [|exact R].
  apply hasRow_updatePostedToArena. exact R.
Qed.

Lemma arenaPosts_app t1 t2 : arenaPosts (t1 ++ t2) = (arenaPosts t1 + arenaPosts t2)%nat.
Proof. unfold arenaPosts. rewrite List.filter_app, List.length_app. reflexivity. Qed.

Lemma discordPosts_app t1 t2 :
  discordPosts (t1 ++ t2) = (discordPosts t1 + discordPosts t2)%nat.
Proof. unfold discordPosts. rewrite List.filter_app, List.length_app. reflexivity. Qed.

(** The outbound calls of [dispatch], per channel. *)
Lemma dispatch_posts env st ak dk tid a d sym name addr n prof uname :
  let t := snd (dispatch env st ak dk tid a d sym name addr n prof uname) in
  arenaPosts t = (if tiered (postTypeOf prof) && negb a then 1 else 0)%nat /\
  discordPosts t = (if negb d then 1 else 0)%nat.
Proof.
  cbv zeta. unfold dispatch.
  match goal with
  | |- context [dispatchArena ?e ?s ?k ?i ?x ?p ?c] =>
      pose proof (dispatchArena_trace e s k i x p c) as TA;
      destruct (dispatchArena e s k i x p c) as [st3 ta]
  end.
  match goal with
  | |- context [dispatchDiscord ?e ?s ?k ?i ?x ?p ?c] =>
      pose proof (dispatchDiscord_trace e s k i x p c) as TD;
      destruct (dispatchDiscord e s k i x p c) as [st4 td]
  end.
  simpl in *. subst ta td.
  rewrite arenaPosts_app, discordPosts_app.
  destruct (tiered (postTypeOf prof) && negb a), (negb d); split; reflexivity.
Qed.

Lemma dispatch_fst env st ak dk tid a d sym name addr n prof uname :
  fst (dispatch env st ak dk tid a d sym name addr n prof uname) =
  fst (dispatchDiscord env
         (fst (dispatchArena env st ak tid a (postTypeOf prof)
                 (EPostArena uname sym name n (or_false (isArenaChampion prof)))))
         dk tid d (postTypeOf prof)
         (EPostDiscord uname sym name n (or_false (isArenaChampion prof)) addr)).
Proof.
  unfold dispatch.
  destruct (dispatchArena _ _ _ _ _ _ _) as [st3 ta]. simpl.
  destruct (dispatchDiscord _ _ _ _ _ _ _) as [st4 td]. reflexivity.
Qed.

(** The state after [dispatch]: a post that succeeds marks the cache
    entry of its channel and, with the id of the row and an update that
    the store carries out, the persisted flag; a post that fails leaves the
    cache and the flags of its channel as they were. *)
Lemma dispatch_state env st ak dk tid a d sym name addr n prof uname :
  let st' := fst (dispatch env st ak dk tid a d sym name addr n prof uname) in
  creators st' = creators st /\
  (tiered (postTypeOf prof) = true -> a = false -> arena_post env = true ->
   markedPosted (arenaPostCache st') ak = true /\
   (forall h t, tid = Some t -> Js.truthy (Some t) = true -> hasRow st h t ->
                update_arena_ok env = true -> postedToArena st' h = true)) /\
  (tiered (postTypeOf prof) = true -> a = false -> arena_post env = false ->
   arenaPostCache st' = arenaPostCache st /\
   (forall h, postedToArena st' h = postedToArena st h)) /\
  (d = false -> discord_post env = true ->
   markedPosted (discordPostCache st') dk = true /\
   (forall h t, tid = Some t -> Js.truthy (Some t) = true -> hasRow st h t ->
                update_discord_ok env = true -> postedToDiscord st' h = true)) /\
  (d = false -> discord_post env = false ->
   discordPostCache st' = discordPostCache st /\
   (forall h, postedToDiscord st' h = postedToDiscord st h)).
Proof.
  cbv zeta. rewrite dispatch_fst.
  set (callA := EPostArena uname sym name n (or_false (isArenaChampion prof))).
  set (callD := EPostDiscord uname sym name n (or_false (isArenaChampion prof)) addr).
  set (pt := postTypeOf prof).
  pose proof (dispatchArena_frame env st ak tid a pt callA) as FA. cbv zeta in FA.
  set (st3 := fst (dispatchArena env st ak tid a pt callA)) in *.
  pose proof (dispatchDiscord_frame env st3 dk tid d pt callD) as FD. cbv zeta in FD.
  destruct FA as [FA1 [FA2 FA3]]. destruct FD as [FD1 [FD2 FD3]].
  split; [congruence|]. split; [|split; [|split]].
  - intros Ht -> Hp.
    destruct (dispatchArena_success env st ak tid pt callA Ht Hp) as [M R].
    fold st3 in M, R. split.
    + rewrite FD2. exact M.
    + intros h t E T H U. rewrite FD3. apply (R h t E T H). exact U.
  - intros Ht -> Hp.
    pose proof (dispatchArena_failure env st ak tid pt callA Ht Hp) as E.
    fold st3 in E. split.
    + rewrite FD2, E. reflexivity.
    + intros h. rewrite FD3, E. reflexivity.
  - intros -> Hp.
    destruct (dispatchDiscord_success env st3 dk tid pt callD Hp) as [M R].
    split; [exact M|].
    intros h t E T H U. apply (R h t E T); [|exact U].
    apply hasRow_dispatchArena. exact H.
  - intros -> Hp.
    rewrite (dispatchDiscord_failure env st3 dk tid pt callD Hp).
    split; [exact FA2 | exact FA3].
Qed.

(** *** Reading the flags and updating the creator *)

Lemma readPostedToArena_spec env st h :
  readPostedToArena env st h = select_tx_ok env && postedToArena st h.
Proof.
  unfold readPostedToArena, selectTransaction, postedToArena.
  destruct (select_tx_ok env); reflexivity.
Qed.

Lemma readPostedToDiscord_spec env st h :
  readPostedToDiscord env st h = select_tx_ok env && postedToDiscord st h.
Proof.
  unfold readPostedToDiscord, selectTransaction, postedToDiscord.
  destruct (select_tx_ok env); reflexivity.
Qed.

(** A row that is not selected is saved: the store answers with the id of
    the row it has for the hash, or with the id of the row it adds, and
    leaves the flags as they are. *)
Lemma saveContractTransaction_spec env st tx :
  let r := saveContractTransaction env st tx in
  creators (fst r) = creators st /\
  arenaPostCache (fst r) = arenaPostCache st /\
  discordPostCache (fst r) = discordPostCache st /\
  (forall h, postedToArena (fst r) h = postedToArena st h) /\
  (forall h, postedToDiscord (fst r) h = postedToDiscord st h) /\
  (forall t, snd r = Some t -> hasRow (fst r) (hash tx) t).
Proof.
  cbv zeta. unfold saveContractTransaction, postedToArena, postedToDiscord.
  destruct (saved_tx_id env) as [newId|]; [|repeat split; intros t E; discriminate E].
  destruct (contract_transactions st !! hash tx) as [row|] eqn:E; simpl.
  - repeat split. intros t [= <-]. exists row. split; [exact E | reflexivity].
  - repeat split.
    + intros h. destruct (decide (hash tx = h)) as [<- | NE].
      * rewrite lookup_insert_eq, E. reflexivity.
      * rewrite lookup_insert_ne by exact NE. reflexivity.
    + intros h. destruct (decide (hash tx = h)) as [<- | NE].
      * rewrite lookup_insert_eq, E. reflexivity.
      * rewrite lookup_insert_ne by exact NE. reflexivity.
    + intros t [= <-]. eexists. split; [apply lookup_insert_eq | reflexivity].
Qed.

Lemma loadPostStatus_spec env st tx ak dk :
  let r := loadPostStatus env st tx ak dk in
  let st1 := fst (fst (fst r)) in
  let tid := snd (fst (fst r)) in
  let a := snd (fst r) in
  let d := snd r in
  a = readPostedToArena env st (hash tx) /\
  d = readPostedToDiscord env st (hash tx) /\
  creators st1 = creators st /\
  (forall h, postedToArena st1 h = postedToArena st h) /\
  (forall h, postedToDiscord st1 h = postedToDiscord st h) /\
  (a = false -> arenaPostCache st1 = arenaPostCache st) /\
  (d = false -> discordPostCache st1 = discordPostCache st) /\
  (transactionIdKnown env st tx = true ->
   exists t, tid = Some t /\ Js.truthy (Some t) = true /\ hasRow st1 (hash tx) t).
Proof.
  cbv zeta.
  unfold loadPostStatus, readPostedToArena, readPostedToDiscord, transactionIdKnown.
  destruct (selectTransaction env st (hash tx)) as [row|] eqn:E.
  - assert (E' : contract_transactions st !! hash tx = Some row).
    { unfold selectTransaction in E. destruct (select_tx_ok env); [exact E | discriminate E]. }
    assert (K : Js.truthy (Some (row_id row)) = true ->
                exists t, Some (row_id row) = Some t /\ Js.truthy (Some t) = true /\
                          exists row', contract_transactions st !! hash tx = Some row' /\
                                       row_id row' = t).
    { intros T. exists (row_id row). split; [reflexivity|]. split; [exact T|].
      exists row. split; [exact E' | reflexivity]. }
    cbv zeta. simpl.
    destruct (or_false (posted_to_arena row)) eqn:A;
      destruct (or_false (posted_to_discord row)) eqn:D; simpl;
      (split; [reflexivity|]); (split; [reflexivity|]); (split; [reflexivity|]);
      (split; [reflexivity|]); (split; [reflexivity|]);
      (split; [first [reflexivity | intros H; discriminate H]|]);
      (split; [first [reflexivity | intros H; discriminate H]|]);
      unfold hasRow; simpl; exact K.
  - pose proof (saveContractTransaction_spec env st tx) as S. cbv zeta in S.
    destruct (saveContractTransaction env st tx) as [s tid]. simpl in *.
    destruct S as [S1 [S2 [S3 [S4 [S5 S6]]]]].
    repeat split; auto.
    intros T. destruct tid as [t|]; [|discriminate T].
    exists t. split; [reflexivity|]. split; [exact T|]. apply S6. reflexivity.
Qed.

Lemma addCreatorContract_frame env st w sym name addr h :
  let st' := fst (addCreatorContract env st w sym name addr h) in
  contract_transactions st' = contract_transactions st /\
  arenaPostCache st' = arenaPostCache st /\
  discordPostCache st' = discordPostCache st.
Proof.
  cbv zeta. unfold addCreatorContract.
  destruct (creators_db_ok env); repeat split.
Qed.

(** *** One invocation of [processTokenCreation] *)

Lemma creationSymbol_metadata tx sym :
  creationSymbol tx = Some sym -> exists md, tokenMetadata tx = Some md.
Proof.
  unfold creationSymbol. destruct (isTokenCreation tx); [|discriminate].
  destruct (tokenMetadata tx) as [md|]; [|discriminate]. eauto.
Qed.

Lemma process_rejected env st tx :
  creationSymbol tx = None ->
  processTokenCreation env st tx =
  {| out_state := st; out_trace := []; out_result := None |}.
Proof. intros E. unfold processTokenCreation. rewrite E. reflexivity. Qed.

Lemma process_accepted env st tx sym md :
  creationSymbol tx = Some sym -> tokenMetadata tx = Some md ->
  let ak := createArenaPostCacheKey (hash tx) (from tx) sym in
  let dk := createDiscordPostCacheKey (hash tx) (from tx) sym in
  let r := loadPostStatus env st tx ak dk in
  let st1 := fst (fst (fst r)) in
  let tid := snd (fst (fst r)) in
  let a := snd (fst r) in
  let d := snd r in
  let addr := Js.or_else (tm_tokenAddress md) (Js.or_undefined (tokenAddress tx)) in
  let ac := addCreatorContract env st1 (from tx) sym (Js.or_undefined (tm_name md)) addr
              (Some (hash tx)) in
  let e := enrichAndDispatch env (fst ac) tx ak dk tid a d sym (tm_name md) addr in
  processTokenCreation env st tx =
  if a && d then {| out_state := fst ac; out_trace := []; out_result := snd ac |}
  else if Js.truthy (snd ac)
       then {| out_state := fst e; out_trace := snd e; out_result := snd ac |}
       else {| out_state := fst ac; out_trace := []; out_result := snd ac |}.
Proof.
  intros Es Em. cbv zeta. unfold processTokenCreation. rewrite Es, Em.
  destruct (loadPostStatus _ _ _ _ _) as [[[st1 tid] a] d]. simpl.
  destruct (addCreatorContract _ _ _ _ _ _ _) as [st2 cid]. simpl.
  destruct (a && d); [reflexivity|].
  destruct (Js.truthy cid); [|reflexivity].
  destruct (enrichAndDispatch _ _ _ _ _ _ _ _ _ _ _) as [st3 t]. reflexivity.
Qed.

(** Either the posts are dispatched, for a creator with more than one
    contract and a profile with a user name, or nothing is posted and the
    state is left as it is. *)
Lemma enrich_cases env st tx ak dk tid a d sym name addr :
  let e := enrichAndDispatch env st tx ak dk tid a d sym name addr in
  (exists c prof uname,
     getCreator env st (from tx) = Some c /\ 1 < contracts_created c /\
     arena_profile env = Some prof /\ username prof = Some uname /\
     fst e = fst (dispatch env st ak dk tid a d sym name addr
                    (contracts_created c) prof uname) /\
     snd e = EFetchArenaProfile (from tx)
             :: snd (dispatch env st ak dk tid a d sym name addr
                       (contracts_created c) prof uname)) \/
  (fst e = st /\ arenaPosts (snd e) = 0%nat /\ discordPosts (snd e) = 0%nat /\
   ((exists c, getCreator env st (from tx) = Some c /\ 1 < contracts_created c)
    \/ snd e = [])).
Proof.
  cbv zeta. unfold enrichAndDispatch.
  destruct (getCreator env st (from tx)) as [c|] eqn:G; [|right; auto].
  destruct (Z.ltb_spec 1 (contracts_created c)) as [Hc | Hc]; [|right; auto].
  destruct (arena_profile env) as [prof|];
    [|right; repeat split; left; eauto].
  destruct (username prof) as [uname|] eqn:U;
    [|right; repeat split; left; eauto].
  destruct (Js.truthy (Some uname));
    [|right; repeat split; left; eauto].
  left. exists c, prof, uname.
  destruct (dispatch _ _ _ _ _ _ _ _ _ _ _ _ _) as [st' t]. simpl.
  repeat split; auto.
Qed.

Lemma addCreatorContract_result env st w sym name addr h :
  addCreatorContract env st w sym name addr h =
  if creators_db_ok env
  then (set_creators
          (<[w := creatorAfterContract (now env) (new_creator_id env) (creators st !! w)
                    w sym name addr h]> (creators st)) st,
        Some (id (creatorAfterContract (now env) (new_creator_id env) (creators st !! w)
                    w sym name addr h)))
  else (st, None).
Proof. reflexivity. Qed.

Lemma beforeDispatch_spec env st tx sym md :
  let st2 := beforeDispatch env st tx sym md in
  (forall h, postedToArena st2 h = postedToArena st h) /\
  (forall h, postedToDiscord st2 h = postedToDiscord st h) /\
  (readPostedToArena env st (hash tx) = false ->
   arenaPostCache st2 = arenaPostCache st) /\
  (readPostedToDiscord env st (hash tx) = false ->
   discordPostCache st2 = discordPostCache st) /\
  (creators_db_ok env = true ->
   creators st2 !! from tx = Some (creatorAfter env st tx sym md)) /\
  (transactionIdKnown env st tx = true ->
   exists t, loadedId env st tx sym = Some t /\ Js.truthy (Some t) = true /\
             hasRow st2 (hash tx) t).
Proof.
  cbv zeta. unfold beforeDispatch, loadedId.
  pose proof (loadPostStatus_spec env st tx
                (createArenaPostCacheKey (hash tx) (from tx) sym)
                (createDiscordPostCacheKey (hash tx) (from tx) sym)) as L.
  cbv zeta in L.
  destruct (loadPostStatus _ _ _ _ _) as [[[st1 tid] a] d]. simpl in *.
  destruct L as [-> [-> [L1 [L2 [L3 [L4 [L5 L6]]]]]]].
  match goal with
  | |- context [addCreatorContract ?e ?s ?w ?y ?n ?ad ?h] =>
      pose proof (addCreatorContract_frame e s w y n ad h) as F;
      pose proof (addCreatorContract_record e s w y n ad h) as R;
      cbv zeta in F; destruct F as [F1 [F2 F3]];
      set (st2 := fst (addCreatorContract e s w y n ad h)) in *
  end.
  assert (PA : forall h, postedToArena st2 h = postedToArena st1 h)
    by (intros h; unfold postedToArena; rewrite F1; reflexivity).
  assert (PD : forall h, postedToDiscord st2 h = postedToDiscord st1 h)
    by (intros h; unfold postedToDiscord; rewrite F1; reflexivity).
  split; [intros h; rewrite PA; apply L2|].
  split; [intros h; rewrite PD; apply L3|].
  split; [intros H; rewrite F2; apply L4; exact H|].
  split; [intros H; rewrite F3; apply L5; exact H|].
  split.
  - intros Hok. rewrite (R Hok). unfold creatorAfter. rewrite L1. reflexivity.
  - intros T. destruct (L6 T) as [t [E1 [E2 [row [E3 E4]]]]].
    exists t. split; [exact E1|]. split; [exact E2|].
    exists row. split; [rewrite F1; exact E3 | exact E4].
Qed.

(** What an invocation does, by whether it reaches the dispatch. *)
Lemma process_run env st tx :
  let o := processTokenCreation env st tx in
  match reachesDispatch env st tx with
  | Some prof =>
      exists sym md uname,
        creationSymbol tx = Some sym /\ tokenMetadata tx = Some md /\
        username prof = Some uname /\ arena_profile env = Some prof /\
        creators_db_ok env = true /\ get_creator_ok env = true /\
        Js.truthy (Some (id (creatorAfter env st tx sym md))) = true /\
        1 < contracts_created (creatorAfter env st tx sym md) /\
        let r :=
          dispatch env (beforeDispatch env st tx sym md)
            (createArenaPostCacheKey (hash tx) (from tx) sym)
            (createDiscordPostCacheKey (hash tx) (from tx) sym)
            (loadedId env st tx sym)
            (readPostedToArena env st (hash tx)) (readPostedToDiscord env st (hash tx))
            sym (tm_name md)
            (Js.or_else (tm_tokenAddress md) (Js.or_undefined (tokenAddress tx)))
            (contracts_created (creatorAfter env st tx sym md)) prof uname in
        out_state o = fst r /\
        out_trace o = EFetchArenaProfile (from tx) :: snd r
  | None =>
      arenaPosts (out_trace o) = 0%nat /\ discordPosts (out_trace o) = 0%nat
  end.
Proof.
  cbv zeta. unfold reachesDispatch.
  destruct (creationSymbol tx) as [sym|] eqn:Es;
    [|rewrite process_rejected by exact Es; destruct (tokenMetadata tx); split; reflexivity].
  destruct (creationSymbol_metadata tx sym Es) as [md Em]. rewrite Em.
  rewrite (process_accepted env st tx sym md Es Em).
  pose proof (beforeDispatch_spec env st tx sym md) as B. cbv zeta in B.
  destruct B as [_ [_ [_ [_ [BC _]]]]].
  unfold beforeDispatch, loadedId in *.
  pose proof (loadPostStatus_spec env st tx
                (createArenaPostCacheKey (hash tx) (from tx) sym)
                (createDiscordPostCacheKey (hash tx) (from tx) sym)) as L.
  cbv zeta in L.
  destruct (loadPostStatus _ _ _ _ _) as [[[st1 tid] a] d] eqn:EL. simpl in *.
  destruct L as [-> [-> [L1 _]]].
  destruct (readPostedToArena env st (hash tx) && readPostedToDiscord env st (hash tx));
    [split; reflexivity|].
  rewrite addCreatorContract_result in *. rewrite L1 in *.
  fold (creatorAfter env st tx sym md) in *.
  destruct (creators_db_ok env) eqn:Hok; simpl; [|split; reflexivity].
  specialize (BC eq_refl). simpl in BC.
  destruct (negb (String.eqb (id (creatorAfter env st tx sym md)) "")) eqn:T; simpl;
    [|split; reflexivity].
  unfold enrichAndDispatch, getCreator. simpl.
  destruct (get_creator_ok env); simpl; [|split; reflexivity].
  rewrite BC.
  destruct (Z.ltb_spec 1 (contracts_created (creatorAfter env st tx sym md)));
    simpl; [|split; reflexivity].
  destruct (arena_profile env) as [prof|]; simpl; [|split; reflexivity].
  destruct (username prof) as [uname|] eqn:U; simpl; [|split; reflexivity].
  destruct (negb (String.eqb uname "")); simpl; [|split; reflexivity].
  exists sym, md, uname.
  rewrite EL. simpl. rewrite addCreatorContract_result, Hok, L1. simpl.
  fold (creatorAfter env st tx sym md).
  destruct (dispatch _ _ _ _ _ _ _ _ _ _ _ _ _) as [st' t]. simpl.
  repeat split; auto.
Qed.

(** The outbound calls of an invocation, per channel: a call to Arena is
    made exactly when the dispatch is reached with a tiered profile and
    the persisted Arena flag is not read as set, a call to Discord exactly
    when the dispatch is reached and the persisted Discord flag is not
    read as set. *)
Lemma process_posts env st tx :
  arenaPosts (out_trace (processTokenCreation env st tx)) =
  match reachesDispatch env st tx with
  | Some prof =>
      if tiered (postTypeOf prof) && negb (readPostedToArena env st (hash tx))
      then 1 else 0
  | None => 0
  end%nat /\
  discordPosts (out_trace (processTokenCreation env st tx)) =
  match reachesDispatch env st tx with
  | Some prof => if negb (readPostedToDiscord env st (hash tx)) then 1 else 0
  | None => 0
  end%nat.
Proof.
  pose proof (process_run env st tx) as R. cbv zeta in R.
  destruct (reachesDispatch env st tx) as [prof|]; [|exact R].
  destruct R as [sym [md [uname [_ [_ [_ [_ [_ [_ [_ [_ [_ ->]]]]]]]]]]]].
  apply dispatch_posts.
Qed.

Lemma arenaPosts_one env st tx :
  arenaPosts (out_trace (processTokenCreation env st tx)) = 1%nat ->
  exists prof, reachesDispatch env st tx = Some prof /\
               tiered (postTypeOf prof) = true /\
               readPostedToArena env st (hash tx) = false.
Proof.
  destruct (process_posts env st tx) as [-> _].
  destruct (reachesDispatch env st tx) as [prof|]; [|discriminate].
  destruct (tiered (postTypeOf prof)) eqn:Ht; [|discriminate].
  destruct (readPostedToArena env st (hash tx)) eqn:Ha; [discriminate|].
  intros _. exists prof. repeat split. exact Ht.
Qed.

Lemma discordPosts_one env st tx :
  discordPosts (out_trace (processTokenCreation env st tx)) = 1%nat ->
  exists prof, reachesDispatch env st tx = Some prof /\
               readPostedToDiscord env st (hash tx) = false.
Proof.
  destruct (process_posts env st tx) as [_ ->].
  destruct (reachesDispatch env st tx) as [prof|]; [|discriminate].
  destruct (readPostedToDiscord env st (hash tx)); [discriminate|].
  intros _. exists prof. repeat split.
Qed.

(** The state after an invocation that reaches the dispatch. *)
Lemma process_state env st tx prof :
  reachesDispatch env st tx = Some prof ->
  let o := processTokenCreation env st tx in
  exists sym md,
    creationSymbol tx = Some sym /\ tokenMetadata tx = Some md /\
    creators (out_state o) !! from tx = Some (creatorAfter env st tx sym md) /\
    (tiered (postTypeOf prof) = true -> readPostedToArena env st (hash tx) = false ->
     arena_post env = true ->
     markedPosted (arenaPostCache (out_state o))
       (createArenaPostCacheKey (hash tx) (from tx) sym) = true /\
     (transactionIdKnown env st tx = true -> update_arena_ok env = true ->
      postedToArena (out_state o) (hash tx) = true)) /\
    (tiered (postTypeOf prof) = true -> readPostedToArena env st (hash tx) = false ->
     arena_post env = false ->
     arenaPostCache (out_state o) = arenaPostCache st /\
     (forall h, postedToArena (out_state o) h = postedToArena st h)) /\
    (readPostedToDiscord env st (hash tx) = false -> discord_post env = true ->
     markedPosted (discordPostCache (out_state o))
       (createDiscordPostCacheKey (hash tx) (from tx) sym) = true /\
     (transactionIdKnown env st tx = true -> update_discord_ok env = true ->
      postedToDiscord (out_state o) (hash tx) = true)) /\
    (readPostedToDiscord env st (hash tx) = false -> discord_post env = false ->
     discordPostCache (out_state o) = discordPostCache st /\
     (forall h, postedToDiscord (out_state o) h = postedToDiscord st h)).
Proof.
  intros RD. cbv zeta.
  pose proof (process_run env st tx) as R. cbv zeta in R. rewrite RD in R.
  destruct R as [sym [md [uname [Es [Em [U [P [Hok [Hget [T [Hc [E1 E2]]]]]]]]]]]].
  exists sym, md. split; [exact Es|]. split; [exact Em|].
  pose proof (beforeDispatch_spec env st tx sym md) as B. cbv zeta in B.
  destruct B as [B1 [B2 [B3 [B4 [B5 B6]]]]].
  match type of E1 with
  | _ = fst (dispatch ?e ?s ?ak ?dk ?i ?a ?d ?y ?n ?ad ?c ?p ?u) =>
      pose proof (dispatch_state e s ak dk i a d y n ad c p u) as D
  end.
  cbv zeta in D. rewrite <- E1 in D.
  destruct D as [D1 [D2 [D3 [D4 D5]]]].
  split; [rewrite D1; apply B5; exact Hok|].
  split; [|split; [|split]].
  - intros Ht Ha Hp. destruct (D2 Ht Ha Hp) as [M K]. split; [exact M|].
    intros TK UK. destruct (B6 TK) as [t [I1 [I2 I3]]]. apply (K _ t I1 I2 I3 UK).
  - intros Ht Ha Hp. destruct (D3 Ht Ha Hp) as [M K]. split.
    + rewrite M. apply B3. exact Ha.
    + intros h. rewrite K. apply B1.
  - intros Hd Hp. destruct (D4 Hd Hp) as [M K]. split; [exact M|].
    intros TK UK. destruct (B6 TK) as [t [I1 [I2 I3]]]. apply (K _ t I1 I2 I3 UK).
  - intros Hd Hp. destruct (D5 Hd Hp) as [M K]. split.
    + rewrite M. apply B4. exact Hd.
    + intros h. rewrite K. apply B2.
Qed.

(** An invocation that reached the dispatch reaches it again on the
    state it left, under the same answers of the outside world, unless
    both flags are read as set by then. *)
Lemma reachesDispatch_again env st tx prof :
  reachesDispatch env st tx = Some prof ->
  let st' := out_state (processTokenCreation env st tx) in
  readPostedToArena env st' (hash tx) && readPostedToDiscord env st' (hash tx) = false ->
  reachesDispatch env st' tx = Some prof.
Proof.
  intros RD. cbv zeta. intros NB.
  destruct (process_state env st tx prof RD) as [sym [md [Es [Em [C _]]]]].
  unfold reachesDispatch in *. rewrite Es, Em in *. cbv zeta in *.
  rewrite NB.
  destruct (readPostedToArena env st (hash tx) && readPostedToDiscord env st (hash tx));
    [discriminate|].
  destruct (creators_db_ok env); [|discriminate]. simpl in *.
  assert (I : id (creatorAfter env (out_state (processTokenCreation env st tx)) tx sym md)
              = id (creatorAfter env st tx sym md))
    by (unfold creatorAfter at 1; rewrite C; reflexivity).
  assert (N : contracts_created
                (creatorAfter env (out_state (processTokenCreation env st tx)) tx sym md)
              = contracts_created (creatorAfter env st tx sym md) + 1)
    by (unfold creatorAfter at 1; rewrite C; reflexivity).
  rewrite I, N.
  destruct (negb (String.eqb (id (creatorAfter env st tx sym md)) "")); [|discriminate].
  destruct (get_creator_ok env); [|discriminate]. simpl in *.
  destruct (Z.ltb_spec 1 (contracts_created (creatorAfter env st tx sym md)));
    [|discriminate].
  destruct (Z.ltb_spec 1 (contracts_created (creatorAfter env st tx sym md) + 1));
    [exact RD | lia].
Qed.

Lemma enrich_creators env st tx ak dk tid a d sym name addr :
  creators (fst (enrichAndDispatch env st tx ak dk tid a d sym name addr)) = creators st.
Proof.
  pose proof (enrich_cases env st tx ak dk tid a d sym name addr) as C. cbv zeta in C.
  destruct C as [[c [prof [uname [_ [_ [_ [_ [-> _]]]]]]]] | [-> _]]; [|reflexivity].
  apply dispatch_state.
Qed.

(** An accepted creation is recorded, whatever follows. *)
Lemma process_creator env st tx sym md :
  creationSymbol tx = Some sym -> tokenMetadata tx = Some md ->
  creators_db_ok env = true ->
  creators (out_state (processTokenCreation env st tx)) !! from tx =
  Some (creatorAfter env st tx sym md).
Proof.
  intros Es Em Hok.
  rewrite (process_accepted env st tx sym md Es Em).
  pose proof (beforeDispatch_spec env st tx sym md) as B. cbv zeta in B.
  destruct B as [_ [_ [_ [_ [BC _]]]]]. specialize (BC Hok).
  unfold beforeDispatch in BC.
  destruct (_ && _); [exact BC|].
  destruct (Js.truthy _); [|exact BC].
  simpl. rewrite enrich_creators. exact BC.
Qed.

Lemma creatorAfter_has_symbol env st tx sym md :
  has_symbol sym (contract_tickers (creatorAfter env st tx sym md)) = true.
Proof.
  unfold creatorAfter. destruct (creators st !! from tx) as [c|].
  - rewrite tickers_after_contract.
    destruct (has_symbol sym (contract_tickers c)) eqn:E; [exact E|].
    unfold has_symbol. rewrite existsb_app. simpl.
    rewrite String.eqb_refl. apply orb_true_r.
  - simpl. unfold has_symbol. simpl. rewrite String.eqb_refl. reflexivity.
Qed.

(** An invocation calls the resolver or a channel only after it read
    back, for the sender, a count of contracts above one. *)
Lemma process_trace env st tx :
  out_trace (processTokenCreation env st tx) = [] \/
  exists c, creators (out_state (processTokenCreation env st tx)) !! from tx = Some c /\
            1 < contracts_created c.
Proof.
  destruct (creationSymbol tx) as [sym|] eqn:Es;
    [|left; rewrite process_rejected by exact Es; reflexivity].
  destruct (creationSymbol_metadata tx sym Es) as [md Em].
  destruct (creators_db_ok env) eqn:Hok.
  - pose proof (process_creator env st tx sym md Es Em Hok) as C. rewrite C.
    rewrite (process_accepted env st tx sym md Es Em).
    destruct (_ && _); [left; reflexivity|].
    destruct (Js.truthy _); [|left; reflexivity].
    simpl.
    match goal with
    | |- context [enrichAndDispatch ?e ?s ?x ?ak ?dk ?i ?a ?d ?y ?n ?ad] =>
        pose proof (enrich_cases e s x ak dk i a d y n ad) as K; cbv zeta in K;
        assert (G : forall c, getCreator e s (from x) = Some c ->
                              c = creatorAfter env st tx sym md)
    end.
    { intros c. unfold getCreator. destruct (get_creator_ok env); [|discriminate].
      pose proof (beforeDispatch_spec env st tx sym md) as B. cbv zeta in B.
      destruct B as [_ [_ [_ [_ [BC _]]]]]. specialize (BC Hok).
      unfold beforeDispatch in BC. rewrite BC. congruence. }
    destruct K as [[c [prof [uname [Gc [Hc _]]]]] | [_ [_ [_ [[c [Gc Hc]] | E]]]]].
    + right. eexists. split; [reflexivity|]. rewrite <- (G c Gc). exact Hc.
    + right. eexists. split; [reflexivity|]. rewrite <- (G c Gc). exact Hc.
    + left. exact E.
  - left. rewrite (process_accepted env st tx sym md Es Em).
    rewrite addCreatorContract_result, Hok.
    destruct (_ && _); reflexivity.
Qed.

(** *** Two invocations for one creation *)






(** An invocation that runs alone is one whose select is answered from
    the store that it finds. *)
Lemma processTokenCreation_alone env st tx :
  processTokenCreation env st tx
  = processTokenCreationFrom (selectTransaction env st (hash tx)) env st tx.
Proof. reflexivity. Qed.

(** Two invocations that overlap both post: the poller starts the second
    invocation for a creation without waiting for the first, and when
    the select of the second is evaluated before the first has written
    its flags, each of the two invocations calls each channel, although
    the posts of the first succeeded and its cache entries and flags are
    marked. *)
Lemma overlapping_invocations_post_twice :
  let env := world 6000 true in
  let o1 := processTokenCreation env seasoned_state creation in
  let o2 :=
    processTokenCreationFrom (selectTransaction env seasoned_state (hash creation))
      env (out_state o1) creation in
  (arenaPosts (out_trace o1) = 1%nat /\ discordPosts (out_trace o1) = 1%nat) /\
  (postedToArena (out_state o1) (hash creation) = true /\
   postedToDiscord (out_state o1) (hash creation) = true) /\
  (arenaPosts (out_trace o1 ++ out_trace o2) = 2%nat /\
   discordPosts (out_trace o1 ++ out_trace o2) = 2%nat).
Proof. vm_compute. repeat split. Qed.



(** *** The caches are written and never read *)

(** The calls of an invocation do not depend on the two caches. *)
Lemma posts_ignore_caches env st tx ca cd :
  let st' := set_discordPostCache cd (set_arenaPostCache ca st) in
  arenaPosts (out_trace (processTokenCreation env st' tx)) =
  arenaPosts (out_trace (processTokenCreation env st tx)) /\
  discordPosts (out_trace (processTokenCreation env st' tx)) =
  discordPosts (out_trace (processTokenCreation env st tx)).
Proof.
  cbv zeta.
  destruct (process_posts env (set_discordPostCache cd (set_arenaPostCache ca st)) tx)
    as [-> ->].
  destruct (process_posts env st tx) as [-> ->].
  split; reflexivity.
Qed.

(** C5, on two failing inputs.  First: the creation was processed while
    its sender was regular, which marked the Arena cache entry as posted;
    it is processed again after the sender gathered 6000 followers; the
    cache answers that the post was sent, the persisted flag is not set,
    and the post to Arena is attempted.  Second: the row of the
    transaction cannot be saved; the first invocation posts to both
    channels and marks both cache entries, both caches answer that the
    post was sent, and the second invocation posts to both channels
    again. *)
Theorem post_cache_not_consulted :
  (fst (wasArenaPostAlreadySent 1700000001000 suppressed_state
          (createArenaPostCacheKey (hash creation) (from creation) "MYT")) = true /\
   postedToArena suppressed_state (hash creation) = false /\
   arenaPosts (out_trace (processTokenCreation (world 6000 true) suppressed_state
                            creation)) = 1%nat) /\
  (let o1 := processTokenCreation (rowless_world 6000 true) seasoned_state creation in
   let o2 := processTokenCreation (rowless_world 6000 true) (out_state o1) creation in
   arenaPosts (out_trace o1) = 1%nat /\ discordPosts (out_trace o1) = 1%nat /\
   fst (wasArenaPostAlreadySent 1700000001000 (out_state o1)
          (createArenaPostCacheKey (hash creation) (from creation) "MYT")) = true /\
   fst (wasDiscordPostAlreadySent 1700000001000 (out_state o1)
          (createDiscordPostCacheKey (hash creation) (from creation) "MYT")) = true /\
   arenaPosts (out_trace o2) = 1%nat /\ discordPosts (out_trace o2) = 1%nat).
Proof. vm_compute. repeat split. Qed.

End DispatchFacts.

Module MonitorFacts.
Import ArenaSocials Blockchain DatabaseSimple Monitor Samples DispatchFacts.


(** The actions that the poller schedules for a transaction. *)
Lemma processTransaction_In block tx a :
  In a (processTransaction block tx) <->
  addressed_to_contract tx = true /\
  ti_type (determineTransactionType (Js.slice_to 10 (ct_input tx)) (ct_value tx))
  = TOKEN_CREATION /\
  let contractTx :=
    contractTxOf block tx (Js.slice_to 10 (ct_input tx))
      (determineTransactionType (Js.slice_to 10 (ct_input tx)) (ct_value tx)) in
  (a = Notify contractTx \/ a = FetchCreatorProfile (ct_from tx) contractTx).
Proof.
  unfold processTransaction. cbv zeta.
  destruct (addressed_to_contract tx).
  - destruct (ti_type (determineTransactionType _ _)) eqn:T; simpl;
      try (split; [intros H; contradiction | intros [_ [E _]]; discriminate E]).
    split.
    + intros [<- | [<- | H]]; [auto | auto | contradiction].
    + intros [_ [_ [-> | ->]]]; auto.
  - simpl. split; [intros H; contradiction | intros [E _]; discriminate E].
Qed.





(** C4 as stated fails: for the first creation of a sender, whose count
    of contracts is one once the creation is recorded, the poller
    schedules the fetch of the sender's profile, which calls the
    resolver. *)
Lemma first_contract_resolution_counterexample :
  exists tx,
    snd (monitorContract (chain_with creation_call) running)
    = [Notify tx; FetchCreatorProfile wallet tx] /\
    (exists c,
       creators (out_state (processTokenCreation quiet_env empty_state tx)) !! wallet
       = Some c /\ contracts_created c = 1) /\
    fst (fetchCreatorProfile None wallet) = [EFetchArenaProfile wallet] /\
    In (EFetchArenaProfile wallet)
      (snd (runActions quiet_env None [1; 2]%nat empty_state
              (snd (monitorContract (chain_with creation_call) running)))).
Proof.
  eexists. split; [vm_compute; reflexivity|]. split; [|split].
  - eexists. split; [vm_compute; reflexivity | reflexivity].
  - reflexivity.
  - vm_compute. left. reflexivity.
Qed.

(** C4, amended: an invocation of [processTokenCreation] that leaves the
    sender with a count of one contract calls neither the resolver nor a
    channel, and the creation is recorded among the tickers of the
    sender.  The poller, for its part, fetches the profile of the sender
    of every creation it finds, whatever the count. *)
Theorem single_contract_no_dispatch env st tx c :
  creators (out_state (processTokenCreation env st tx)) !! from tx = Some c ->
  contracts_created c = 1 ->
  out_trace (processTokenCreation env st tx) = [] /\
  (forall sym, creationSymbol tx = Some sym -> creators_db_ok env = true ->
               has_symbol sym (contract_tickers c) = true) /\
  (forall block ctx,
     addressed_to_contract ctx = true ->
     ti_type (determineTransactionType (Js.slice_to 10 (ct_input ctx)) (ct_value ctx))
     = TOKEN_CREATION ->
     (exists contractTx,
        In (FetchCreatorProfile (ct_from ctx) contractTx) (processTransaction block ctx)) /\
     (forall resolved,
        fst (fetchCreatorProfile resolved (ct_from ctx))
        = [EFetchArenaProfile (ct_from ctx)])).
Proof.
  intros Hc H1. split; [|split].
  - destruct (process_trace env st tx) as [E | [c' [Hc' H']]]; [exact E|].
    rewrite Hc in Hc'. injection Hc' as <-. lia.
  - intros sym Es Hok.
    destruct (creationSymbol_metadata tx sym Es) as [md Em].
    rewrite (process_creator env st tx sym md Es Em Hok) in Hc.
    injection Hc as <-. apply creatorAfter_has_symbol.
  - intros block ctx Ha Ht. split; [|reflexivity].
    eexists. apply processTransaction_In. split; [exact Ha|]. split; [exact Ht|].
    cbv zeta. right. reflexivity.
Qed.

Lemma single_contract_no_dispatch_witness :
  out_trace (processTokenCreation (world 6000 true) empty_state creation) = [] /\
  exists c,
    creators (out_state (processTokenCreation (world 6000 true) empty_state creation))
      !! wallet = Some c /\
    contracts_created c = 1 /\ has_symbol "MYT" (contract_tickers c) = true.
Proof.
  assert (E : exists c,
             creators (out_state (processTokenCreation (world 6000 true) empty_state
                                    creation)) !! from creation = Some c /\
             contracts_created c = 1).
  { eexists. split; [vm_compute; reflexivity | reflexivity]. }
  destruct E as [c [Hc H1]].
  destruct (single_contract_no_dispatch (world 6000 true) empty_state creation c Hc H1)
    as [T [S _]].
  split; [exact T|]. exists c. split; [exact Hc|]. split; [exact H1|].
  apply S; reflexivity.
Defined.

Lemma creationSymbol_isTokenCreation tx sym :
  creationSymbol tx = Some sym -> isTokenCreation tx = true.
Proof.
  unfold creationSymbol. destruct (isTokenCreation tx); [reflexivity | discriminate].
Qed.

(** The poller notifies twice for a creation, without and with the
    profile of the sender, and each notification invokes
    [processTokenCreation]: a creation by a sender that had no record
    leaves the sender with a count of two contracts. *)
Theorem creation_counted_twice env resolved callbacks st tx sym :
  creationSymbol tx = Some sym ->
  creators_db_ok env = true ->
  creators st !! from tx = None ->
  exists c,
    creators (fst (runActions env resolved callbacks st
                     [Notify tx; FetchCreatorProfile (from tx) tx])) !! from tx
    = Some c /\
    contracts_created c = 2 /\
    map symbol (contract_tickers c) = [sym].
Proof.
  intros Es Hok Hn.
  destruct (creationSymbol_metadata tx sym Es) as [md Em].
  pose proof (creationSymbol_isTokenCreation tx sym Es) as Hc.
  set (tx' := with_creatorProfile
                {| cp_address := from tx; cp_arenaProfile := resolved;
                   cp_isLoading := false |} tx).
  set (st1 := out_state (processTokenCreation env st tx)).
  assert (R : fst (runActions env resolved callbacks st
                     [Notify tx; FetchCreatorProfile (from tx) tx])
              = out_state (processTokenCreation env st1 tx')).
  { cbn [runActions runAction fetchCreatorProfile].
    unfold notifyCallbacks, stateAfter. cbn [n_outcome].
    fold tx'. change (isTokenCreation tx') with (isTokenCreation tx).
    rewrite Hc. reflexivity. }
  rewrite R.
  assert (Es' : creationSymbol tx' = Some sym) by exact Es.
  assert (Em' : tokenMetadata tx' = Some md) by exact Em.
  pose proof (process_creator env st tx sym md Es Em Hok) as P1. fold st1 in P1.
  pose proof (process_creator env st1 tx' sym md Es' Em' Hok) as P2.
  change (from tx') with (from tx) in P2.
  rewrite P2. eexists. split; [reflexivity|].
  unfold creatorAfter. change (from tx') with (from tx). rewrite P1.
  unfold creatorAfter. rewrite Hn.
  cbn. rewrite String.eqb_refl. split; reflexivity.
Qed.

Lemma creation_counted_twice_witness :
  exists c,
    creators (fst (runActions (world 6000 true) None [1; 2]%nat empty_state
                     [Notify creation; FetchCreatorProfile wallet creation])) !! wallet
    = Some c /\
    contracts_created c = 2 /\
    map symbol (contract_tickers c) = ["MYT"%string].
Proof.
  exact (creation_counted_twice (world 6000 true) None [1; 2]%nat empty_state
           creation "MYT" eq_refl eq_refl eq_refl).
Defined.

End MonitorFacts.

Module AbiFacts.
Import Hex Abi Blockchain.

(** *** Hexadecimal text *)

Lemma byte_digits (b : ascii) :
  nibble_value (nibble_char (N_of_ascii b / 16)) = Some (N_of_ascii b / 16)%N /\
  nibble_value (nibble_char (N_of_ascii b mod 16)) = Some (N_of_ascii b mod 16)%N /\
  ascii_of_N (16 * (N_of_ascii b / 16) + N_of_ascii b mod 16) = b.
Proof.
  destruct b as [[] [] [] [] [] [] [] []]; vm_compute; repeat split; reflexivity.
Qed.

Lemma parse_hex_digits (bs : bytes) :
  parse_pairs (list_ascii_of_string (hex_digits bs)) = Some bs.
Proof.
  induction bs as [|b bs IH]; [reflexivity|].
  cbn [hex_digits list_ascii_of_string parse_pairs].
  destruct (byte_digits b) as [Hh [Hl Hb]].
  rewrite Hh, Hl, IH, Hb. reflexivity.
Qed.

Lemma hex_digits_even (bs : bytes) :
  Nat.odd (length (list_ascii_of_string (hex_digits bs))) = false.
Proof.
  induction bs as [|b bs IH]; [reflexivity|].
  cbn [hex_digits list_ascii_of_string length].
  rewrite Nat.odd_succ, Nat.even_succ. exact IH.
Qed.

Lemma hexToBytes_hex_digits (bs : bytes) :
  hexToBytes (String.append "0x" (hex_digits bs)) = Some bs.
Proof.
  unfold hexToBytes.
  change (Js.slice_from 2 (String.append "0x" (hex_digits bs))) with (hex_digits bs).
  rewrite hex_digits_even. apply parse_hex_digits.
Qed.

(** *** Big-endian words *)

Lemma numberToBytes_length (k : nat) (n : Z) : length (numberToBytes k n) = k.
Proof. induction k as [|k IH]; [reflexivity|]. cbn [numberToBytes length]. now rewrite IH. Qed.

Lemma bytesToBigInt_from_numberToBytes (k : nat) (n acc : Z) :
  0 <= n ->
  bytesToBigInt_from acc (numberToBytes k n)
  = acc * 256 ^ Z.of_nat k + n mod 256 ^ Z.of_nat k.
Proof.
  intros Hn. revert acc. induction k as [|k IH]; intros acc.
  - cbn [numberToBytes bytesToBigInt_from]. change (256 ^ Z.of_nat 0) with 1.
    rewrite Z.mod_1_r. lia.
  - cbn [numberToBytes bytesToBigInt_from]. rewrite IH.
    assert (Hp : 0 < 256 ^ Z.of_nat k) by (apply Z.pow_pos_nonneg; lia).
    set (P := 256 ^ Z.of_nat k) in *.
    assert (Hm : 0 <= (n / P) mod 256 < 256) by (apply Z.mod_pos_bound; lia).
    rewrite N_ascii_embedding by lia.
    rewrite Z2N.id by lia.
    replace (256 ^ Z.of_nat (S k)) with (P * 256)
      by (rewrite Nat2Z.inj_succ, Z.pow_succ_r by lia; subst P; lia).
    rewrite (Z.rem_mul_r n P 256) by lia. lia.
Qed.

Lemma bytesToBigInt_numberToBytes (k : nat) (n : Z) :
  0 <= n < 256 ^ Z.of_nat k -> bytesToBigInt (numberToBytes k n) = n.
Proof.
  intros Hn. unfold bytesToBigInt.
  rewrite bytesToBigInt_from_numberToBytes by lia.
  rewrite Z.mod_small by lia. lia.
Qed.

Lemma pow_256_32 : 256 ^ Z.of_nat 32 = 2 ^ 256.
Proof. reflexivity. Qed.

Lemma pow_256_20 : 256 ^ Z.of_nat 20 = 2 ^ 160.
Proof. reflexivity. Qed.

Lemma word_value (n : Z) : 0 <= n < 2 ^ 256 -> bytesToBigInt (word n) = n.
Proof.
  intros Hn. apply bytesToBigInt_numberToBytes. rewrite pow_256_32. exact Hn.
Qed.

Lemma word_length (n : Z) : length (word n) = 32%nat.
Proof. apply numberToBytes_length. Qed.

Lemma skipn_numberToBytes (j k : nat) (n : Z) :
  skipn j (numberToBytes (j + k) n) = numberToBytes k n.
Proof.
  induction j as [|j IH]; [reflexivity|].
  change (S j + k)%nat with (S (j + k)). cbn [numberToBytes skipn]. exact IH.
Qed.

Lemma address_value (a : Z) :
  0 <= a < 2 ^ 160 -> bytesToBigInt (skipn 12 (word a)) = a.
Proof.
  intros Ha. unfold word. change 32%nat with (12 + 20)%nat.
  rewrite skipn_numberToBytes. apply bytesToBigInt_numberToBytes.
  rewrite pow_256_20. exact Ha.
Qed.

(** *** Reading and text *)

Lemma readBytes_at (a b c : bytes) (pos len : nat) :
  pos = length a -> len = length b -> readBytes (a ++ b ++ c) pos len = Some b.
Proof.
  intros -> ->. unfold readBytes. rewrite !length_app.
  destruct (Nat.leb_spec (length a + length b) (length a + (length b + length c)))
    as [_|H]; [|lia].
  rewrite drop_app_length, take_app_length. reflexivity.
Qed.

Lemma list_ascii_length (s : string) :
  length (list_ascii_of_string s) = String.length s.
Proof. induction s as [|c s IH]; [reflexivity|]. cbn. now rewrite IH. Qed.

Lemma trim_text (s : string) :
  starts_with_nul s = false -> trim (list_ascii_of_string s) = list_ascii_of_string s.
Proof.
  destruct s as [|c [|c' s]]; intros H; try reflexivity.
  cbn [starts_with_nul] in H. cbn [list_ascii_of_string trim]. now rewrite H.
Qed.

(** The decoder leaves UTF-8 as it is. *)
Lemma utf8Decode_isUtf8_le (n : nat) :
  forall bs : bytes,
    (length bs <= n)%nat ->
    TextDecoder.isUtf8 bs = true -> TextDecoder.utf8Decode bs = bs.
Proof.
  induction n as [|n IH]; intros bs L V.
  - destruct bs; [reflexivity | cbn in L; lia].
  - destruct bs as [|b r1]; [reflexivity|].
    cbn [length] in L. cbn [TextDecoder.utf8Decode TextDecoder.isUtf8] in V |- *.
    destruct (TextDecoder.between 0 127 b).
    { rewrite IH by (trivial; lia). reflexivity. }
    destruct (TextDecoder.between 194 223 b).
    { destruct r1 as [|c r2]; [discriminate|]. cbn [length] in L.
      apply andb_prop in V. destruct V as [V1 V]. rewrite V1.
      rewrite IH by (trivial; lia). reflexivity. }
    destruct (TextDecoder.between 224 239 b).
    { destruct r1 as [|c [|d r3]]; try discriminate. cbn [length] in L.
      apply andb_prop in V. destruct V as [V V3].
      apply andb_prop in V. destruct V as [V1 V2]. rewrite V1, V2.
      rewrite IH by (trivial; lia). reflexivity. }
    destruct (TextDecoder.between 240 244 b); [|discriminate].
    destruct r1 as [|c [|d [|e r4]]]; try discriminate. cbn [length] in L.
    apply andb_prop in V. destruct V as [V V4].
    apply andb_prop in V. destruct V as [V V3].
    apply andb_prop in V. destruct V as [V1 V2]. rewrite V1, V2, V3.
    rewrite IH by (trivial; lia). reflexivity.
Qed.

Lemma utf8Decode_isUtf8 (bs : bytes) :
  TextDecoder.isUtf8 bs = true -> TextDecoder.utf8Decode bs = bs.
Proof. apply (utf8Decode_isUtf8_le (length bs)). lia. Qed.

(** A text of UTF-8 that begins plainly is decoded to itself. *)
Lemma bytesToString_text (s : string) :
  TextDecoder.isUtf8 (list_ascii_of_string s) = true ->
  begins_plainly (VString s) = true ->
  bytesToString (trim (list_ascii_of_string s)) = s.
Proof.
  intros V P. cbn [begins_plainly] in P. apply andb_prop in P. destruct P as [Pn Pb].
  apply negb_true_iff in Pn. apply negb_true_iff in Pb.
  rewrite trim_text by exact Pn.
  unfold bytesToString, TextDecoder.decode, TextDecoder.dropByteOrderMark.
  rewrite Pb. rewrite utf8Decode_isUtf8 by exact V.
  apply string_of_list_ascii_of_string.
Qed.

(** *** The decoder, the hash and the checksum on known values *)

(** What is not UTF-8 is replaced, and the byte that broke a sequence
    off is read again; one byte order mark is dropped. *)
Lemma decode_vectors :
  TextDecoder.decode [ascii_of_N 0xC3; "("%char]
  = TextDecoder.replacement ++ ["("%char] /\
  TextDecoder.decode [ascii_of_N 0xE2; ascii_of_N 0x82; "A"%char]
  = TextDecoder.replacement ++ ["A"%char] /\
  TextDecoder.decode [ascii_of_N 0xED; ascii_of_N 0xA0; ascii_of_N 0x80]
  = TextDecoder.replacement ++ TextDecoder.replacement ++ TextDecoder.replacement /\
  TextDecoder.decode [ascii_of_N 0xF0; ascii_of_N 0x9F; ascii_of_N 0x98; ascii_of_N 0x80]
  = [ascii_of_N 0xF0; ascii_of_N 0x9F; ascii_of_N 0x98; ascii_of_N 0x80] /\
  TextDecoder.decode
    (TextDecoder.byteOrderMark ++ TextDecoder.byteOrderMark ++ ["A"%char])
  = TextDecoder.byteOrderMark ++ ["A"%char].
Proof. repeat split. Qed.

Lemma keccak256_vectors :
  hex_digits (Keccak.keccak256 [])
  = "c5d2460186f7233c927e7db2dcc703c0e500b653ca82273b7bfad8045d85a470"%string /\
  hex_digits (Keccak.keccak256 (repeat "a"%char 135))
  = "34367dc248bbd832f4e3e69dfaac2f92638bd0bbd18f2912ba4ef454919cf446"%string /\
  hex_digits (Keccak.keccak256 (repeat "a"%char 136))
  = "a6c4d403279fe3e0af03729caada8374b5ca54d8065329a3ebcaeb4b60aa386e"%string /\
  hex_digits (Keccak.keccak256 (repeat "a"%char 300))
  = "5b7e0e47a96f32a88b4f14ca177982790807c40e1a105742ba0fc1babe1ef826"%string.
Proof. repeat split; vm_compute; reflexivity. Qed.

Lemma checksumAddress_vectors :
  Address.checksumAddress "0x5aaeb6053f3e94c9b9a09f33669435e7ef1beaed"
  = "0x5aAeb6053F3E94C9b9A09f33669435E7Ef1BeAed"%string /\
  Address.checksumAddress "0xFB6916095CA1DF60BB79CE92CE3EA74C37C5D359"
  = "0xfB6916095ca1df60bB79Ce92cE3Ea74c37c5d359"%string /\
  Address.checksumAddress (Js.toLowerCase ARENA_CONTRACT_ADDRESS)
  = ARENA_CONTRACT_ADDRESS.
Proof. repeat split; vm_compute; reflexivity. Qed.

(** *** The checksum changes capitals only *)

Lemma lower_upper_ascii (c : ascii) :
  Js.lower_ascii c = c -> Js.lower_ascii (Address.upper_ascii c) = c.
Proof.
  destruct c as [[] [] [] [] [] [] [] []]; vm_compute; intros H;
    first [reflexivity | discriminate H].
Qed.

Lemma lower_capitalise (hash : bytes) (address : list ascii) :
  List.Forall (fun c => Js.lower_ascii c = c) address ->
  map Js.lower_ascii (Address.capitalise hash address) = address.
Proof.
  revert address. induction hash as [|h hash IH]; intros address F.
  - cbn [Address.capitalise].
    induction F as [|c l Hc _ IHl]; [reflexivity|]. cbn [map]. now rewrite Hc, IHl.
  - destruct address as [|c1 [|c2 rest]].
    + reflexivity.
    + inversion_clear F as [|? ? H1 _]. cbn. now rewrite H1.
    + inversion_clear F as [|? ? H1 F1]. inversion_clear F1 as [|? ? H2 F2].
      cbn [Address.capitalise map]. rewrite (IH rest F2).
      f_equal; [|f_equal].
      * destruct (8 <=? N_of_ascii h / 16)%N; [now apply lower_upper_ascii | exact H1].
      * destruct (8 <=? N_of_ascii h mod 16)%N; [now apply lower_upper_ascii | exact H2].
Qed.

Lemma toLowerCase_chars (l : list ascii) :
  Js.toLowerCase (string_of_list_ascii l) = string_of_list_ascii (map Js.lower_ascii l).
Proof. induction l as [|c l IH]; [reflexivity|]. cbn. now rewrite IH. Qed.

Lemma nibble_char_lower (n : N) :
  (n < 16)%N -> Js.lower_ascii (nibble_char n) = nibble_char n.
Proof.
  intros H.
  assert (C : In n (map N.of_nat (seq 0 16))).
  { apply in_map_iff. exists (N.to_nat n). split; [apply N2Nat.id|].
    apply in_seq. lia. }
  cbn in C. repeat (destruct C as [<-|C]; [reflexivity|]). destruct C.
Qed.

Lemma hex_digits_lower (bs : bytes) :
  List.Forall (fun c => Js.lower_ascii c = c) (list_ascii_of_string (hex_digits bs)).
Proof.
  induction bs as [|b bs IH]; [constructor|].
  cbn [hex_digits list_ascii_of_string].
  constructor; [|constructor; [|exact IH]]; apply nibble_char_lower.
  - apply N.Div0.div_lt_upper_bound.
    pose proof (N_ascii_bounded b). lia.
  - apply N.mod_lt. lia.
Qed.

Lemma toLowerCase_fixed (s : string) :
  List.Forall (fun c => Js.lower_ascii c = c) (list_ascii_of_string s) ->
  Js.toLowerCase s = s.
Proof.
  induction s as [|c s IH]; [reflexivity|]. cbn [list_ascii_of_string].
  intros F. inversion_clear F as [|? ? H1 F1]. cbn [Js.toLowerCase].
  now rewrite H1, IH.
Qed.

(** The text of an address differs from its forty lower-case digits in
    the case of letters only. *)
Lemma address_text_lower (a : Z) :
  Js.toLowerCase (address_text a) = bytesToHex (numberToBytes 20 a).
Proof.
  unfold address_text, Address.checksumAddress, bytesToHex.
  change (Js.slice_from 2 (String.append "0x" (hex_digits (numberToBytes 20 a))))
    with (hex_digits (numberToBytes 20 a)).
  set (digits := hex_digits (numberToBytes 20 a)).
  assert (F : List.Forall (fun c => Js.lower_ascii c = c) (list_ascii_of_string digits))
    by apply hex_digits_lower.
  rewrite (toLowerCase_fixed digits F).
  set (hash := firstn 20 (Keccak.keccak256 (list_ascii_of_string digits))).
  change (Js.toLowerCase
            (String.append "0x"
               (string_of_list_ascii
                  (Address.capitalise hash (list_ascii_of_string digits)))))
    with (String.append "0x"
            (Js.toLowerCase
               (string_of_list_ascii
                  (Address.capitalise hash (list_ascii_of_string digits))))).
  rewrite toLowerCase_chars, (lower_capitalise hash _ F).
  now rewrite string_of_list_ascii_of_string.
Qed.

Lemma pad32_length (bs : bytes) : (length (pad32 bs) <= length bs + 31)%nat.
Proof.
  unfold pad32. rewrite length_app, repeat_length.
  pose proof (Nat.mod_upper_bound (32 - length bs mod 32) 32). lia.
Qed.

Lemma encodeString_length (s : string) :
  (length (encodeString s) <= String.length s + 63)%nat.
Proof.
  unfold encodeString. rewrite length_app, word_length.
  pose proof (pad32_length (list_ascii_of_string s)) as H.
  rewrite list_ascii_length in H. lia.
Qed.

(** *** Heads and tails *)

Lemma encodeParams_uint (n : Z) (vs : list AbiValue) (off : nat) :
  encodeParams (VUint n :: vs) off
  = (word n ++ fst (encodeParams vs off), snd (encodeParams vs off)).
Proof. cbn [encodeParams]. now destruct (encodeParams vs off). Qed.

Lemma encodeParams_address (a : Z) (vs : list AbiValue) (off : nat) :
  encodeParams (VAddress a :: vs) off
  = (word a ++ fst (encodeParams vs off), snd (encodeParams vs off)).
Proof. cbn [encodeParams]. now destruct (encodeParams vs off). Qed.

Lemma encodeParams_string (s : string) (vs : list AbiValue) (off : nat) :
  encodeParams (VString s :: vs) off
  = (word (Z.of_nat off) ++ fst (encodeParams vs (off + length (encodeString s))),
     encodeString s ++ snd (encodeParams vs (off + length (encodeString s)))).
Proof.
  cbn [encodeParams]. now destruct (encodeParams vs (off + length (encodeString s))).
Qed.

Lemma heads_length (vs : list AbiValue) (off : nat) :
  length (fst (encodeParams vs off)) = (32 * length vs)%nat.
Proof.
  revert off. induction vs as [|v vs IH]; intros off; [reflexivity|].
  destruct v as [n|a|s];
    [rewrite encodeParams_uint|rewrite encodeParams_address|rewrite encodeParams_string];
    cbn [fst length]; rewrite length_app, word_length, IH; lia.
Qed.

Lemma tails_length (tys : list AbiType) (vs : list AbiValue) (off : nat) :
  well_formed tys vs = true ->
  Z.of_nat (length (snd (encodeParams vs off))) <= Z.of_nat (length vs) * 2 ^ 33.
Proof.
  revert tys off. induction vs as [|v vs IH]; intros tys off H.
  - cbn. lia.
  - destruct tys as [|ty tys]; [discriminate|].
    cbn [well_formed] in H. apply andb_prop in H. destruct H as [Hv Hvs].
    assert (E33 : 2 ^ 33 = 2 * 2 ^ 32) by reflexivity.
    assert (P32 : 64 <= 2 ^ 32) by (vm_compute; discriminate).
    destruct v as [n|a|s].
    + rewrite encodeParams_uint. cbn [snd length]. specialize (IH tys off Hvs). lia.
    + rewrite encodeParams_address. cbn [snd length]. specialize (IH tys off Hvs). lia.
    + rewrite encodeParams_string. cbn [snd length]. rewrite length_app.
      specialize (IH tys (off + length (encodeString s))%nat Hvs).
      destruct ty; try discriminate. cbn [encodable] in Hv.
      apply andb_prop in Hv. destruct Hv as [_ Hl]. apply Z.ltb_lt in Hl.
      pose proof (encodeString_length s). lia.
Qed.

(** *** Decoding what was encoded *)

Lemma decodeParameters_encodeParams :
  forall (vs : list AbiValue) (tys : list AbiType) (off : nat)
         (hpre tpre post data : bytes) (pos : nat),
    well_formed tys vs = true ->
    forallb begins_plainly vs = true ->
    data = hpre ++ fst (encodeParams vs off) ++ tpre ++ snd (encodeParams vs off) ++ post ->
    pos = length hpre ->
    (length hpre + length (fst (encodeParams vs off)) + length tpre)%nat = off ->
    Z.of_nat (off + length (snd (encodeParams vs off))) < 2 ^ 256 ->
    decodeParameters tys data pos = Some vs.
Proof.
  induction vs as [|v vs IH]; intros tys off hpre tpre post data pos Hwf Hpl Hd Hp Hoff Hb.
  - destruct tys; [reflexivity|discriminate].
  - destruct tys as [|ty tys]; [discriminate|].
    cbn [well_formed] in Hwf. apply andb_prop in Hwf. destruct Hwf as [Hv Hvs].
    cbn [forallb] in Hpl. apply andb_prop in Hpl. destruct Hpl as [Hpv Hpvs].
    destruct v as [n|a|s].
    + destruct ty as [bits| |]; try discriminate.
      rewrite encodeParams_uint in Hd, Hoff, Hb. cbn [fst snd] in Hd, Hoff, Hb.
      rewrite length_app, word_length in Hoff.
      cbn [encodable] in Hv. apply andb_prop in Hv. destruct Hv as [Hv Hhi].
      apply andb_prop in Hv. destruct Hv as [Hbits Hlo].
      apply N.leb_le in Hbits. apply Z.leb_le in Hlo. apply Z.ltb_lt in Hhi.
      assert (Hn : 0 <= n < 2 ^ 256).
      { split; [exact Hlo|]. eapply Z.lt_le_trans; [exact Hhi|].
        apply Z.pow_le_mono_r; lia. }
      cbn [decodeParameters decodeParameter]. unfold decodeNumber.
      rewrite Hd at 1. rewrite <- app_assoc.
      rewrite (readBytes_at hpre (word n)) by (rewrite ?word_length; congruence).
      rewrite word_value by exact Hn.
      rewrite (IH tys off (hpre ++ word n) tpre post data (pos + 32)%nat Hvs Hpvs).
      * reflexivity.
      * rewrite Hd. rewrite <- !app_assoc. reflexivity.
      * rewrite length_app, word_length. lia.
      * rewrite length_app, word_length. lia.
      * exact Hb.
    + destruct ty as [bits| |]; try discriminate.
      rewrite encodeParams_address in Hd, Hoff, Hb. cbn [fst snd] in Hd, Hoff, Hb.
      rewrite length_app, word_length in Hoff.
      cbn [encodable] in Hv. apply andb_prop in Hv. destruct Hv as [Hlo Hhi].
      apply Z.leb_le in Hlo. apply Z.ltb_lt in Hhi.
      cbn [decodeParameters decodeParameter]. unfold decodeAddress.
      rewrite Hd at 1. rewrite <- app_assoc.
      rewrite (readBytes_at hpre (word a)) by (rewrite ?word_length; congruence).
      rewrite address_value by lia.
      rewrite (IH tys off (hpre ++ word a) tpre post data (pos + 32)%nat Hvs Hpvs).
      * reflexivity.
      * rewrite Hd. rewrite <- !app_assoc. reflexivity.
      * rewrite length_app, word_length. lia.
      * rewrite length_app, word_length. lia.
      * exact Hb.
    + destruct ty as [bits| |]; try discriminate.
      rewrite encodeParams_string in Hd, Hoff, Hb. cbn [fst snd] in Hd, Hoff, Hb.
      rewrite length_app, word_length in Hoff. rewrite length_app in Hb.
      cbn [encodable] in Hv. apply andb_prop in Hv. destruct Hv as [Hutf Hlen].
      apply Z.ltb_lt in Hlen.
      assert (P32 : 2 ^ 32 < 2 ^ 256) by (vm_compute; reflexivity).
      set (off' := (off + length (encodeString s))%nat) in *.
      set (h' := fst (encodeParams vs off')) in *.
      set (t' := snd (encodeParams vs off')) in *.
      assert (Hrec : decodeParameters tys data (pos + 32) = Some vs).
      { apply (IH tys off' (hpre ++ word (Z.of_nat off)) (tpre ++ encodeString s) post
                  data (pos + 32)%nat Hvs Hpvs).
        - rewrite Hd. fold h' t'. rewrite <- !app_assoc. reflexivity.
        - rewrite length_app, word_length. lia.
        - fold h'. rewrite !length_app, word_length. lia.
        - fold t'. lia. }
      assert (Hs : decodeString data pos = Some (VString s)).
      { unfold decodeString.
        assert (R1 : readBytes data pos 32 = Some (word (Z.of_nat off))).
        { rewrite Hd. rewrite <- app_assoc.
          apply readBytes_at; [exact Hp | now rewrite word_length]. }
        rewrite R1. rewrite word_value by lia. rewrite Nat2Z.id.
        assert (R2 : readBytes data off 32
                     = Some (word (Z.of_nat (String.length s)))).
        { rewrite Hd. unfold encodeString.
          replace (hpre ++ (word (Z.of_nat off) ++ h') ++ tpre
                     ++ ((word (Z.of_nat (String.length s))
                            ++ pad32 (list_ascii_of_string s)) ++ t') ++ post)
            with ((hpre ++ word (Z.of_nat off) ++ h' ++ tpre)
                    ++ word (Z.of_nat (String.length s))
                    ++ (pad32 (list_ascii_of_string s) ++ t' ++ post))
            by (rewrite <- !app_assoc; reflexivity).
          apply readBytes_at; [|now rewrite word_length].
          rewrite !length_app, word_length. lia. }
        rewrite R2. rewrite word_value by lia. rewrite Nat2Z.id.
        destruct (String.length s) as [|k] eqn:El.
        { destruct s; [reflexivity|discriminate]. }
        assert (R3 : readBytes data (off + 32) (S k) = Some (list_ascii_of_string s)).
        { rewrite Hd. unfold encodeString, pad32.
          replace (hpre ++ (word (Z.of_nat off) ++ h') ++ tpre
                     ++ ((word (Z.of_nat (String.length s))
                            ++ list_ascii_of_string s
                            ++ repeat Ascii.zero
                                 ((32 - length (list_ascii_of_string s) mod 32) mod 32))
                           ++ t') ++ post)
            with ((hpre ++ word (Z.of_nat off) ++ h' ++ tpre
                        ++ word (Z.of_nat (String.length s)))
                    ++ list_ascii_of_string s
                    ++ (repeat Ascii.zero
                          ((32 - length (list_ascii_of_string s) mod 32) mod 32)
                          ++ t' ++ post))
            by (rewrite <- !app_assoc; reflexivity).
          apply readBytes_at; [|now rewrite list_ascii_length].
          rewrite !length_app, !word_length. lia. }
        rewrite R3. rewrite (bytesToString_text s Hutf Hpv). reflexivity. }
      cbn [decodeParameters decodeParameter]. rewrite Hs, Hrec. reflexivity.
Qed.

Lemma encodeAbiParameters_bytes (vs : list AbiValue) :
  encodeAbiParameters vs
  = bytesToHex (fst (encodeParams vs (32 * length vs))
                  ++ snd (encodeParams vs (32 * length vs))).
Proof. unfold encodeAbiParameters. now destruct (encodeParams vs (32 * length vs)). Qed.

(** [decodeAbiParameters] gives back the parameters that
    [encodeAbiParameters] was given, when the texts among them begin
    plainly. *)
Lemma decodeAbiParameters_encodeAbiParameters (tys : list AbiType) (vs : list AbiValue) :
  well_formed tys vs = true ->
  forallb begins_plainly vs = true ->
  Z.of_nat (length vs) < 2 ^ 32 ->
  decodeAbiParameters tys (encodeAbiParameters vs) = Some vs.
Proof.
  intros Hwf Hpl Hn. rewrite encodeAbiParameters_bytes.
  unfold decodeAbiParameters, bytesToHex. rewrite hexToBytes_hex_digits.
  set (off := (32 * length vs)%nat).
  assert (Hh := heads_length vs off).
  assert (Ht := tails_length tys vs off Hwf).
  destruct vs as [|v vs].
  { destruct tys; [reflexivity|discriminate]. }
  assert (L : (32 <= length (fst (encodeParams (v :: vs) off)
                        ++ snd (encodeParams (v :: vs) off)))%nat).
  { rewrite length_app, Hh. cbn [length]. lia. }
  destruct (Nat.eqb_spec
              (length (fst (encodeParams (v :: vs) off)
                         ++ snd (encodeParams (v :: vs) off))) 0) as [E|_]; [lia|].
  cbn [andb].
  destruct (Nat.ltb_spec
              (length (fst (encodeParams (v :: vs) off)
                         ++ snd (encodeParams (v :: vs) off))) 32) as [E|_]; [lia|].
  rewrite andb_false_r.
  apply (decodeParameters_encodeParams (v :: vs) tys off [] [] [] _ 0%nat Hwf Hpl).
  - cbn [app]. rewrite !app_nil_r. reflexivity.
  - reflexivity.
  - cbn [length]. rewrite Hh. subst off. lia.
  - assert (P : 2 ^ 32 * 32 + 2 ^ 32 * 2 ^ 33 < 2 ^ 256) by (vm_compute; reflexivity).
    assert (Q : 0 < 2 ^ 33) by (vm_compute; reflexivity).
    subst off. nia.
Qed.

(** *** Creation call data *)

Lemma slice_from_append (a b : string) :
  Js.slice_from (String.length a) (String.append a b) = b.
Proof. induction a as [|c a IH]; [now destruct b|]. cbn. exact IH. Qed.

Lemma buildInput_payload (methodId : string) (params : list AbiValue) :
  String.length methodId = 10%nat ->
  String.append "0x" (Js.slice_from 10 (buildInput methodId params))
  = encodeAbiParameters params.
Proof.
  intros H. unfold buildInput. rewrite <- H, slice_from_append.
  rewrite encodeAbiParameters_bytes. reflexivity.
Qed.

(** The claim C6 as it is stated fails: a name that begins with a byte
    order mark or with a zero byte is returned without it, and the
    letters of the creator come back in the checksum capitalisation, so
    that the decoded metadata are not in every case the encoded ones. *)
Lemma decode_creation_counterexample :
  well_formed formatA
    [VString Samples.marked_name; VString "MYT"; VUint 1000; VUint 10] = true /\
  decodeTokenCreationData "0x0b8c6fec"
    (buildInput "0x0b8c6fec"
       [VString Samples.marked_name; VString "MYT"; VUint 1000; VUint 10])
  = Some {| tm_name := Some "MyToken"%string; tm_symbol := Some "MYT"%string;
            tm_totalSupply := Some "1000"%string;
            tm_creator := None; tm_tokenAddress := None |} /\
  Samples.marked_name <> "MyToken"%string /\
  well_formed formatA
    [VString Samples.padded_name; VString "MYT"; VUint 1000; VUint 10] = true /\
  decodeTokenCreationData "0x0b8c6fec"
    (buildInput "0x0b8c6fec"
       [VString Samples.padded_name; VString "MYT"; VUint 1000; VUint 10])
  = Some {| tm_name := Some "MyToken"%string; tm_symbol := Some "MYT"%string;
            tm_totalSupply := Some "1000"%string;
            tm_creator := None; tm_tokenAddress := None |} /\
  Samples.padded_name <> "MyToken"%string /\
  decodeTokenCreationData "0x30f51a46"
    (buildInput "0x30f51a46"
       [VUint 1; VUint 2; VUint 3; VUint 4; VAddress 0xaa;
        VUint 5; VString "New Token"; VString "NTK"; VUint 5000])
  = Some {| tm_name := Some "New Token"%string; tm_symbol := Some "NTK"%string;
            tm_totalSupply := Some "5000"%string;
            tm_creator := Some "0x00000000000000000000000000000000000000AA"%string;
            tm_tokenAddress := None |} /\
  bytesToHex (numberToBytes 20 0xaa)
  = "0x00000000000000000000000000000000000000aa"%string.
Proof.
  repeat split; try (vm_compute; reflexivity); vm_compute; discriminate.
Qed.

(** C6, amended: the metadata decoded from the call data of a creation
    are the encoded name, symbol and total supply (as a decimal numeral),
    for the format of four parameters under [0x0b8c6fec] and for the
    format of nine parameters under [0x30f51a46], which also gives the
    address of the creator, in the checksum capitalisation: it is the
    encoded address up to the case of its letters.  The parameters are
    values the encoder takes for their types, and the names and symbols
    begin with neither a zero byte nor a byte order mark.  The call data
    encoding ("MyToken", "MYT", 1000, 10) under [0x0b8c6fec] decode to
    the name MyToken, the symbol MYT and the total supply 1000. *)
Theorem decode_creation_round_trip
  (name symbol : string) (totalSupply taxPercentage : Z)
  (param1 param2 param3 param4 creator param6 : Z)
  (nameB symbolB : string) (totalSupplyB : Z) :
  well_formed formatA
    [VString name; VString symbol; VUint totalSupply; VUint taxPercentage] = true ->
  well_formed formatB
    [VUint param1; VUint param2; VUint param3; VUint param4; VAddress creator;
     VUint param6; VString nameB; VString symbolB; VUint totalSupplyB] = true ->
  forallb begins_plainly
    [VString name; VString symbol; VString nameB; VString symbolB] = true ->
  decodeTokenCreationData "0x0b8c6fec"
    (buildInput "0x0b8c6fec"
       [VString name; VString symbol; VUint totalSupply; VUint taxPercentage])
  = Some {| tm_name := Some name; tm_symbol := Some symbol;
            tm_totalSupply := Some (Js.bigint_toString totalSupply);
            tm_creator := None; tm_tokenAddress := None |} /\
  decodeTokenCreationData "0x30f51a46"
    (buildInput "0x30f51a46"
       [VUint param1; VUint param2; VUint param3; VUint param4; VAddress creator;
        VUint param6; VString nameB; VString symbolB; VUint totalSupplyB])
  = Some {| tm_name := Some nameB; tm_symbol := Some symbolB;
            tm_totalSupply := Some (Js.bigint_toString totalSupplyB);
            tm_creator := Some (address_text creator); tm_tokenAddress := None |} /\
  Js.toLowerCase (address_text creator) = bytesToHex (numberToBytes 20 creator) /\
  decodeTokenCreationData "0x0b8c6fec"
    (buildInput "0x0b8c6fec" [VString "MyToken"; VString "MYT"; VUint 1000; VUint 10])
  = Some {| tm_name := Some "MyToken"%string; tm_symbol := Some "MYT"%string;
            tm_totalSupply := Some "1000"%string;
            tm_creator := None; tm_tokenAddress := None |}.
Proof.
  intros HA HB HP.
  cbn [forallb] in HP.
  apply andb_prop in HP. destruct HP as [Pn HP].
  apply andb_prop in HP. destruct HP as [Ps HP].
  apply andb_prop in HP. destruct HP as [PnB HP].
  apply andb_prop in HP. destruct HP as [PsB _].
  split; [|split; [|split]].
  - unfold decodeTokenCreationData.
    change (String.eqb "0x0b8c6fec" "0x0b8c6fec") with true. cbv iota.
    rewrite buildInput_payload by reflexivity.
    rewrite (decodeAbiParameters_encodeAbiParameters formatA _ HA)
      by first [ cbn [forallb begins_plainly] in *; now rewrite Pn, Ps
               | vm_compute; reflexivity ].
    reflexivity.
  - unfold decodeTokenCreationData.
    change (String.eqb "0x30f51a46" "0x0b8c6fec") with false.
    change (String.eqb "0x30f51a46" "0x30f51a46") with true. cbv iota.
    rewrite buildInput_payload by reflexivity.
    rewrite (decodeAbiParameters_encodeAbiParameters formatB _ HB)
      by first [ cbn [forallb begins_plainly] in *; now rewrite PnB, PsB
               | vm_compute; reflexivity ].
    reflexivity.
  - apply address_text_lower.
  - vm_compute. reflexivity.
Qed.

Lemma decode_creation_round_trip_witness :
  decodeTokenCreationData "0x0b8c6fec"
    (buildInput "0x0b8c6fec"
       [VString "My Token"; VString "MYT"; VUint 1000; VUint 10])
  = Some {| tm_name := Some "My Token"%string; tm_symbol := Some "MYT"%string;
            tm_totalSupply := Some "1000"%string;
            tm_creator := None; tm_tokenAddress := None |} /\
  decodeTokenCreationData "0x30f51a46"
    (buildInput "0x30f51a46"
       [VUint 1; VUint 2; VUint 3; VUint 4;
        VAddress 0x8315f1eb449dd4b779495c3a0b05e5d194446c6e;
        VUint 5; VString "New Token"; VString "NTK"; VUint 5000])
  = Some {| tm_name := Some "New Token"%string; tm_symbol := Some "NTK"%string;
            tm_totalSupply := Some "5000"%string;
            tm_creator := Some (address_text 0x8315f1eb449dd4b779495c3a0b05e5d194446c6e);
            tm_tokenAddress := None |} /\
  address_text 0x8315f1eb449dd4b779495c3a0b05e5d194446c6e
  = "0x8315f1eb449Dd4B779495C3A0b05e5d194446c6e"%string /\
  address_text 0x1111111111111111111111111111111111111111
  = "0x1111111111111111111111111111111111111111"%string.
Proof.
  destruct (decode_creation_round_trip "My Token" "MYT" 1000 10
              1 2 3 4 0x8315f1eb449dd4b779495c3a0b05e5d194446c6e 5
              "New Token" "NTK" 5000 eq_refl eq_refl eq_refl) as [A [B _]].
  split; [exact A | split; [exact B | split; vm_compute; reflexivity]].
Defined.

End AbiFacts.

Module RetryFacts.
Import Retry.

Lemma settles_spec a :
  settles a = true <-> exists s, a = Responded s /\ (ok s = true \/ s = 404).
Proof.
  destruct a as [s | e]; simpl.
  - rewrite orb_true_iff, Z.eqb_eq. split.
    + intros H. exists s. split; [reflexivity | exact H].
    + intros [s' [E H]]. injection E as ->. exact H.
  - split; [discriminate | intros [s [E _]]; discriminate E].
Qed.

(** The loop, from any attempt on. *)
Lemma attempts_spec fetch m : forall remaining attempt lastError,
  match attempts fetch m remaining attempt lastError with
  | (Returned s, t) =>
      exists k, (attempt <= k < attempt + remaining)%nat /\
                fetch k = Responded s /\ settles (fetch k) = true /\
                (forall j, (attempt <= j < k)%nat -> settles (fetch j) = false) /\
                t = flat_map (eventsOf fetch m) (seq attempt (k - attempt))
                    ++ [Attempted k (10000 + Z.of_nat k * 2000)]
  | (Thrown e, t) =>
      (forall j, (attempt <= j < attempt + remaining)%nat -> settles (fetch j) = false) /\
      e = match lastThrown fetch remaining attempt lastError with
          | Some e' => e'
          | None => failedAfter m
          end /\
      t = flat_map (eventsOf fetch m) (seq attempt remaining)
  end.
Proof.
  induction remaining as [|r IH]; intros attempt lastError.
  - simpl. split; [intros j Hj; lia|]. split; reflexivity.
  - cbn [attempts lastThrown].
    destruct (fetch attempt) as [status | err] eqn:Ef.
    + destruct (ok status) eqn:Eok.
      { exists attempt. rewrite Ef. simpl. rewrite Eok.
        replace (attempt - attempt)%nat with 0%nat by lia.
        repeat split; try reflexivity; try lia. }
      destruct (status =? 404) eqn:E404.
      { exists attempt. rewrite Ef. simpl. rewrite Eok, E404.
        replace (attempt - attempt)%nat with 0%nat by lia.
        repeat split; try reflexivity; try lia. }
      specialize (IH (S attempt) lastError).
      destruct (attempts fetch m r (S attempt) lastError) as [[s | e] t].
      * destruct IH as [k [Hk [Fk [Sk [Hj Ht]]]]].
        exists k. repeat split; try assumption; try lia.
        -- intros j Hj'. destruct (Nat.eq_dec j attempt) as [-> | Hne].
           ++ rewrite Ef. simpl. rewrite Eok, E404. reflexivity.
           ++ apply Hj. lia.
        -- replace (k - attempt)%nat with (S (k - S attempt)) by lia.
           cbn [seq flat_map]. unfold eventsOf at 1. rewrite Ef.
           rewrite Ht. reflexivity.
      * destruct IH as [Hj [He Ht]]. repeat split.
        -- intros j Hj'. destruct (Nat.eq_dec j attempt) as [-> | Hne].
           ++ rewrite Ef. simpl. rewrite Eok, E404. reflexivity.
           ++ apply Hj. lia.
        -- exact He.
        -- cbn [seq flat_map]. unfold eventsOf at 1. rewrite Ef. rewrite Ht. reflexivity.
    + specialize (IH (S attempt) (Some err)).
      destruct (attempts fetch m r (S attempt) (Some err)) as [[s | e] t].
      * destruct IH as [k [Hk [Fk [Sk [Hj Ht]]]]].
        exists k. repeat split; try assumption; try lia.
        -- intros j Hj'. destruct (Nat.eq_dec j attempt) as [-> | Hne].
           ++ rewrite Ef. reflexivity.
           ++ apply Hj. lia.
        -- replace (k - attempt)%nat with (S (k - S attempt)) by lia.
           cbn [seq flat_map]. unfold eventsOf at 1. rewrite Ef.
           rewrite Ht. cbn [app]. rewrite <- app_assoc. reflexivity.
      * destruct IH as [Hj [He Ht]]. repeat split.
        -- intros j Hj'. destruct (Nat.eq_dec j attempt) as [-> | Hne].
           ++ rewrite Ef. reflexivity.
           ++ apply Hj. lia.
        -- exact He.
        -- cbn [seq flat_map]. unfold eventsOf at 1. rewrite Ef. rewrite Ht.
           cbn [app]. reflexivity.
Qed.

Lemma attempts_settled fetch m : forall remaining attempt lastError k,
  (attempt <= k < attempt + remaining)%nat ->
  settles (fetch k) = true ->
  exists s t, attempts fetch m remaining attempt lastError = (Returned s, t).
Proof.
  intros remaining attempt lastError k Hk Sk.
  pose proof (attempts_spec fetch m remaining attempt lastError) as H.
  destruct (attempts fetch m remaining attempt lastError) as [[s | e] t].
  - eauto.
  - destruct H as [Hj _]. rewrite (Hj k Hk) in Sk. discriminate Sk.
Qed.

Lemma attemptsOf_app t1 t2 : attemptsOf (t1 ++ t2) = attemptsOf t1 ++ attemptsOf t2.
Proof. unfold attemptsOf. apply flat_map_app. Qed.

Lemma attemptsOf_events fetch m : forall n a,
  attemptsOf (flat_map (eventsOf fetch m) (seq a n)) = seq a n.
Proof.
  induction n as [|n IH]; intros a; [reflexivity|].
  cbn [seq flat_map]. rewrite attemptsOf_app, IH.
  unfold eventsOf. destruct (fetch a); [reflexivity|].
  destruct (a <? m)%nat; reflexivity.
Qed.

Lemma waited_app t1 t2 : waited (t1 ++ t2) = waited t1 + waited t2.
Proof.
  induction t1 as [|[k tm | d] t1 IH]; simpl; [reflexivity | exact IH | rewrite IH; lia].
Qed.

Lemma backoff_bounds k : 0 <= backoff k <= 3000.
Proof.
  unfold backoff. split; [|apply Z.le_min_r].
  apply Z.min_glb; [|lia].
  assert (0 <= 2 ^ (Z.of_nat k - 1)) by (apply Z.pow_nonneg; lia). lia.
Qed.

Lemma waited_events fetch m : forall n a,
  0 <= waited (flat_map (eventsOf fetch m) (seq a n))
  <= 3000 * Z.of_nat (Nat.min n (m - a)).
Proof.
  induction n as [|n IH]; intros a; [simpl; lia|].
  cbn [seq flat_map]. rewrite waited_app. specialize (IH (S a)).
  set (W := waited (flat_map (eventsOf fetch m) (seq (S a) n))) in *.
  unfold eventsOf. destruct (fetch a) as [s | e].
  - change (waited [Attempted a (10000 + Z.of_nat a * 2000)]) with 0. lia.
  - destruct (Nat.ltb_spec a m) as [Lt | Ge].
    + change (waited [Attempted a (10000 + Z.of_nat a * 2000); Waited (backoff a)])
        with (backoff a + 0).
      pose proof (backoff_bounds a). lia.
    + change (waited [Attempted a (10000 + Z.of_nat a * 2000)]) with 0. lia.
Qed.

Lemma waited_responses fetch m : forall n a,
  (forall j, (a <= j < a + n)%nat -> exists s, fetch j = Responded s) ->
  waited (flat_map (eventsOf fetch m) (seq a n)) = 0.
Proof.
  induction n as [|n IH]; intros a H; [reflexivity|].
  cbn [seq flat_map]. rewrite waited_app, IH by (intros j Hj; apply H; lia).
  unfold eventsOf. destruct (H a ltac:(lia)) as [s ->]. reflexivity.
Qed.

Lemma lastThrown_spec fetch : forall remaining attempt lastError,
  match lastThrown fetch remaining attempt lastError with
  | Some e =>
      (exists k, (attempt <= k < attempt + remaining)%nat /\ fetch k = Threw e /\
                 forall j, (k < j < attempt + remaining)%nat -> exists s, fetch j = Responded s)
      \/ (lastError = Some e /\
          forall j, (attempt <= j < attempt + remaining)%nat -> exists s, fetch j = Responded s)
  | None =>
      lastError = None /\
      forall j, (attempt <= j < attempt + remaining)%nat -> exists s, fetch j = Responded s
  end.
Proof.
  induction remaining as [|r IH]; intros attempt lastError.
  - simpl. destruct lastError as [e|].
    + right. split; [reflexivity | intros j Hj; lia].
    + split; [reflexivity | intros j Hj; lia].
  - cbn [lastThrown].
    specialize (IH (S attempt)
                  (match fetch attempt with Threw e => Some e | Responded _ => lastError end)).
    destruct (lastThrown fetch r (S attempt) _) as [e|].
    + destruct IH as [[k [Hk [Fk Hj]]] | [El Hj]].
      * left. exists k. split; [lia|]. split; [exact Fk|]. intros j Hj'. apply Hj. lia.
      * destruct (fetch attempt) as [s | e'] eqn:Ef.
        -- right. split; [exact El|]. intros j Hj'.
           destruct (Nat.eq_dec j attempt) as [-> | Hne]; [eauto | apply Hj; lia].
        -- left. injection El as ->. exists attempt. split; [lia|].
           split; [exact Ef|]. intros j Hj'. apply Hj. lia.
    + destruct IH as [El Hj].
      destruct (fetch attempt) as [s | e'] eqn:Ef; [|discriminate El].
      split; [exact El|]. intros j Hj'.
      destruct (Nat.eq_dec j attempt) as [-> | Hne]; [eauto | apply Hj; lia].
Qed.

(** [fetchWithRetry] returns a response exactly when one of its first
    [maxRetries] attempts is answered by a response that is ok or 404: it
    returns the first such response and makes no attempt after it.  A
    response of any other status is never returned. *)
Theorem fetchWithRetry_returns fetch m s :
  (forall t, fetchWithRetry fetch m = (Returned s, t) ->
     (ok s = true \/ s = 404) /\
     exists k, (1 <= k <= m)%nat /\ fetch k = Responded s /\
               (forall j, (1 <= j < k)%nat -> settles (fetch j) = false) /\
               attemptsOf t = seq 1 k) /\
  (forall k, (1 <= k <= m)%nat -> fetch k = Responded s ->
             (ok s = true \/ s = 404) ->
             (forall j, (1 <= j < k)%nat -> settles (fetch j) = false) ->
             exists t, fetchWithRetry fetch m = (Returned s, t) /\ attemptsOf t = seq 1 k).
Proof.
  unfold fetchWithRetry. split.
  - intros t E. pose proof (attempts_spec fetch m m 1 None) as H. rewrite E in H.
    destruct H as [k [Hk [Fk [Sk [Hj Ht]]]]]. split.
    + apply settles_spec in Sk. destruct Sk as [s' [E' H]].
      rewrite Fk in E'. injection E' as <-. exact H.
    + exists k. split; [lia|]. split; [exact Fk|]. split; [exact Hj|].
      rewrite Ht, attemptsOf_app, attemptsOf_events. cbn [attemptsOf flat_map app].
      replace k with ((k - 1) + 1)%nat at 3 by lia.
      rewrite seq_app. replace (1 + (k - 1))%nat with k by lia. reflexivity.
  - intros k Hk Fk Hs Hj.
    assert (Sk : settles (fetch k) = true) by (apply settles_spec; eauto).
    pose proof (attempts_spec fetch m m 1 None) as H.
    destruct (attempts fetch m m 1 None) as [[s' | e] t].
    + destruct H as [k' [Hk' [Fk' [Sk' [Hj' Ht]]]]].
      assert (k' = k).
      { destruct (Nat.lt_trichotomy k' k) as [Lt | [Eq | Gt]]; [|exact Eq|].
        - rewrite (Hj k') in Sk' by lia. discriminate Sk'.
        - rewrite (Hj' k) in Sk by lia. discriminate Sk. }
      subst k'. rewrite Fk in Fk'. injection Fk' as <-.
      exists t. split; [reflexivity|].
      rewrite Ht, attemptsOf_app, attemptsOf_events. cbn [attemptsOf flat_map app].
      replace k with ((k - 1) + 1)%nat at 3 by lia.
      rewrite seq_app. replace (1 + (k - 1))%nat with k by lia. reflexivity.
    + destruct H as [Hn _]. rewrite (Hn k) in Sk by lia. discriminate Sk.
Qed.

(** When [fetchWithRetry] throws, it has made [maxRetries] attempts,
    none of which was answered by a response that is ok or 404, and it
    throws the error of the last attempt that was rejected, or "Failed
    after [maxRetries] attempts" when every attempt was answered by a
    response. *)
Theorem fetchWithRetry_throws fetch m e t :
  fetchWithRetry fetch m = (Thrown e, t) ->
  (forall j, (1 <= j <= m)%nat -> settles (fetch j) = false) /\
  attemptsOf t = seq 1 m /\
  ((exists k, (1 <= k <= m)%nat /\ fetch k = Threw e /\
              forall j, (k < j <= m)%nat -> exists s, fetch j = Responded s) \/
   (e = failedAfter m /\
    forall j, (1 <= j <= m)%nat -> exists s, fetch j = Responded s)).
Proof.
  unfold fetchWithRetry. intros E.
  pose proof (attempts_spec fetch m m 1 None) as H. rewrite E in H.
  destruct H as [Hj [He Ht]]. split; [|split].
  - intros j Hj'. apply Hj. lia.
  - rewrite Ht. apply attemptsOf_events.
  - pose proof (lastThrown_spec fetch m 1 None) as L.
    destruct (lastThrown fetch m 1 None) as [e'|].
    + subst e'. destruct L as [[k [Hk [Fk Hr]]] | [El _]]; [|discriminate El].
      left. exists k. split; [lia|]. split; [exact Fk|]. intros j Hj'. apply Hr. lia.
    + right. split; [exact He|]. destruct L as [_ Hr]. intros j Hj'. apply Hr. lia.
Qed.

Lemma fetchWithRetry_throws_witness :
  fetchWithRetry (flaky 503) 2
  = (Thrown "timeout",
     [Attempted 1 12000; Waited 1000; Attempted 2 14000]) /\
  attemptsOf (snd (fetchWithRetry (flaky 503) 2)) = [1; 2]%nat.
Proof.
  split; [reflexivity|].
  destruct (fetchWithRetry_throws (flaky 503) 2 "timeout"
              [Attempted 1 12000; Waited 1000; Attempted 2 14000] eq_refl)
    as [_ [H _]].
  exact H.
Defined.

(** [fetchWithRetry] waits only after an attempt that was rejected: when
    every attempt is answered by a response, whatever its status, the
    attempts follow each other without a pause.  In all it waits at most
    three seconds per attempt but the last. *)
Theorem fetchWithRetry_waits fetch m :
  let t := snd (fetchWithRetry fetch m) in
  0 <= waited t <= 3000 * Z.max 0 (Z.of_nat m - 1) /\
  (length (attemptsOf t) <= m)%nat /\
  ((forall j, (1 <= j <= m)%nat -> exists s, fetch j = Responded s) -> waited t = 0).
Proof.
  cbv zeta. unfold fetchWithRetry.
  pose proof (attempts_spec fetch m m 1 None) as H.
  destruct (attempts fetch m m 1 None) as [[s | e] t]; cbn [snd].
  - destruct H as [k [Hk [_ [_ [_ Ht]]]]]. subst t. split; [|split].
    + rewrite waited_app. cbn [waited fold_right].
      pose proof (waited_events fetch m (k - 1) 1). lia.
    + rewrite attemptsOf_app, attemptsOf_events, length_app, length_seq. simpl. lia.
    + intros Hr. rewrite waited_app, waited_responses; [reflexivity|].
      intros j Hj. apply Hr. lia.
  - destruct H as [_ [_ Ht]]. subst t. split; [|split].
    + pose proof (waited_events fetch m m 1). lia.
    + rewrite attemptsOf_events, length_seq. lia.
    + intros Hr. apply waited_responses. intros j Hj. apply Hr. lia.
Qed.

(** *** The Discord retry loop *)

Lemma postsOf_app t1 t2 : postsOf (t1 ++ t2) = postsOf t1 ++ postsOf t2.
Proof. unfold postsOf. apply flat_map_app. Qed.

Lemma paused_app t1 t2 : paused (t1 ++ t2) = paused t1 + paused t2.
Proof.
  induction t1 as [|[k | d] t1 IH]; simpl; [reflexivity | exact IH | rewrite IH; lia].
Qed.

Lemma discordAttempts_spec post m : forall remaining attempt,
  (attempt + remaining = S m)%nat ->
  let r := discordAttempts post m remaining attempt in
  exists n, (n <= remaining)%nat /\
            postsOf (snd r) = seq attempt n /\
            (forall j, (attempt <= j < attempt + n - 1)%nat -> post j = false) /\
            (fst r = true -> (1 <= n)%nat /\ post (attempt + n - 1)%nat = true) /\
            (fst r = false -> n = remaining /\
                              forall j, (attempt <= j < attempt + n)%nat -> post j = false) /\
            2 * paused (snd r)
            = (if (0 <? n)%nat
               then 1000 * (Z.of_nat n - 1) * (2 * Z.of_nat attempt + Z.of_nat n - 2)
               else 0).
Proof.
  induction remaining as [|r IH]; intros attempt Hm; cbv zeta.
  - exists 0%nat. simpl. repeat split; try lia; try discriminate.
  - cbn [discordAttempts]. destruct (post attempt) eqn:Ep.
    + exists 1%nat. cbn [fst snd postsOf flat_map app seq paused fold_right].
      repeat split; try lia; try discriminate.
      all: try (intros j Hj; lia).
      all: try (replace (attempt + 1 - 1)%nat with attempt by lia; exact Ep).
    + specialize (IH (S attempt) ltac:(lia)). cbv zeta in IH.
      destruct (discordAttempts post m r (S attempt)) as [res t].
      destruct IH as [n [Hn [Hp [Hf [Ht [Hfa Hs]]]]]]. cbn [fst snd] in *.
      exists (S n). split; [lia|]. split; [|split; [|split; [|split]]].
      * change (Posted attempt :: ?w ++ t) with ([Posted attempt] ++ w ++ t).
        rewrite !postsOf_app, Hp.
        destruct (attempt <? m)%nat; reflexivity.
      * intros j Hj. destruct (Nat.eq_dec j attempt) as [-> | Hne]; [exact Ep|].
        apply Hf. lia.
      * intros Hr. destruct (Ht Hr) as [H1 H2]. split; [lia|].
        replace (attempt + S n - 1)%nat with (S attempt + n - 1)%nat by lia. exact H2.
      * intros Hr. destruct (Hfa Hr) as [H1 H2]. split; [lia|].
        intros j Hj. destruct (Nat.eq_dec j attempt) as [-> | Hne]; [exact Ep|].
        apply H2. lia.
      * change (Posted attempt :: ?w ++ t) with ([Posted attempt] ++ w ++ t).
        rewrite !paused_app. cbn [paused fold_right].
        destruct (Nat.ltb_spec attempt m) as [Lt | Ge]; cbn [paused fold_right].
        -- destruct (Nat.ltb_spec 0 n) as [Hn0 | Hn0]; cbn [Nat.ltb Nat.leb].
           ++ rewrite !Nat2Z.inj_succ in *. unfold Z.succ in *.
              replace (2 * (0 + (Z.of_nat attempt * 1000 + 0 + paused t)))
                with (2000 * Z.of_nat attempt + 2 * paused t) by ring.
              rewrite Hs. ring.
           ++ exfalso. destruct res.
              ** destruct (Ht eq_refl). lia.
              ** destruct (Hfa eq_refl). lia.
        -- assert (r = 0)%nat by lia. subst r. assert (n = 0)%nat by lia. subst n.
           simpl in Hs. simpl. lia.
Qed.

(** [postToDiscordWithRetry] answers true exactly when one of its first
    [maxRetries] posts succeeds.  It posts until the first success and at
    most [maxRetries] times, and pauses [attempt * 1000] milliseconds
    after each failed post but the last one. *)
Theorem postToDiscordWithRetry_spec post m :
  let r := postToDiscordWithRetry post m in
  (fst r = true <-> exists k, (1 <= k <= m)%nat /\ post k = true) /\
  exists n, (n <= m)%nat /\ postsOf (snd r) = seq 1 n /\
            (forall j, (1 <= j < n)%nat -> post j = false) /\
            (fst r = true -> (1 <= n)%nat /\ post n = true) /\
            (fst r = false -> n = m) /\
            paused (snd r) = 500 * Z.of_nat n * (Z.of_nat n - 1).
Proof.
  cbv zeta. unfold postToDiscordWithRetry.
  pose proof (discordAttempts_spec post m m 1 ltac:(lia)) as H. cbv zeta in H.
  destruct H as [n [Hn [Hp [Hf [Ht [Hfa Hs]]]]]].
  split.
  - split.
    + intros Hr. destruct (Ht Hr) as [H1 H2]. exists (1 + n - 1)%nat. split; [lia | exact H2].
    + intros [k [Hk Pk]].
      destruct (fst (discordAttempts post m m 1)) eqn:Er; [reflexivity|].
      destruct (Hfa eq_refl) as [-> H2]. rewrite (H2 k) in Pk by lia. discriminate Pk.
  - exists n. split; [exact Hn|]. split; [exact Hp|]. split; [|split; [|split]].
    + intros j Hj. apply Hf. lia.
    + intros Hr. destruct (Ht Hr) as [H1 H2]. split; [exact H1|].
      replace (1 + n - 1)%nat with n in H2 by lia. exact H2.
    + intros Hr. apply Hfa. exact Hr.
    + destruct (Nat.ltb_spec 0 n) as [Hn0 | Hn0]; [nia|].
      assert (n = 0)%nat by lia. subst n. simpl in Hs. lia.
Qed.

End RetryFacts.

Module ProfileCacheFacts.
Import ArenaSocials ProfileCache Samples ResolverFacts.

Section Cache.

Variable StringToNumber : string -> option Z.

Lemma fetch_miss now cache w rs :
  (forall e, cache !! Js.toLowerCase w = Some e -> CACHE_DURATION <= now - ce_timestamp e) ->
  fetchArenaUserProfile StringToNumber now cache w rs
  = (<[Js.toLowerCase w := {| ce_profile := resolve StringToNumber rs; ce_timestamp := now |}]> cache,
     resolve StringToNumber rs).
Proof.
  intros H. unfold fetchArenaUserProfile.
  destruct (cache !! Js.toLowerCase w) as [e|] eqn:E; [|reflexivity].
  specialize (H e eq_refl).
  destruct (Z.ltb_spec (now - ce_timestamp e) CACHE_DURATION); [lia | reflexivity].
Qed.

(** A profile that was resolved is served from the cache for five
    minutes, to every spelling of the address that differs in the case
    of its letters only, whatever the lookups would answer by then; this
    holds for the answer [null] too.  From five minutes on it is
    resolved again. *)
Theorem profile_served_from_cache now now' cache w w' rs rs' :
  (forall e, cache !! Js.toLowerCase w = Some e ->
             CACHE_DURATION <= now - ce_timestamp e) ->
  Js.toLowerCase w' = Js.toLowerCase w ->
  let r := fetchArenaUserProfile StringToNumber now cache w rs in
  snd r = resolve StringToNumber rs /\
  (now' - now < CACHE_DURATION ->
   fetchArenaUserProfile StringToNumber now' (fst r) w' rs'
   = (fst r, resolve StringToNumber rs)) /\
  (CACHE_DURATION <= now' - now ->
   snd (fetchArenaUserProfile StringToNumber now' (fst r) w' rs')
   = resolve StringToNumber rs').
Proof.
  intros Hm Hw. cbv zeta. rewrite (fetch_miss now cache w rs Hm). cbn [fst snd].
  split; [reflexivity|]. split.
  - intros Hd. unfold fetchArenaUserProfile. rewrite Hw, lookup_insert_eq. cbn.
    destruct (Z.ltb_spec (now' - now) CACHE_DURATION); [reflexivity | lia].
  - intros Hd. rewrite fetch_miss; [reflexivity|].
    intros e. rewrite Hw, lookup_insert_eq. intros E. injection E as <-. exact Hd.
Qed.

(** The badge array of a profile comes from the statistics lookup, and
    the champion flag is computed from it. *)
Lemma applyStats_badges handle uid p0 data :
  match applyStats StringToNumber handle uid (Some p0) data with
  | Done p =>
      badges p = match sb_badges data with Some bs => Some bs | None => badges p0 end
  | Raised p => badges p = badges p0
  end.
Proof.
  destruct data as [th st bd]. unfold applyStats. cbn [sb_totalHolders sb_stats sb_badges].
  destruct th; [| reflexivity |];
    (destruct st as [[kp vol sup]|]; cbn;
     [destruct kp; [| reflexivity |];
      (destruct vol; [| reflexivity |]; (destruct sup; destruct bd; reflexivity))
     | destruct bd; reflexivity]).
Qed.

Lemma normalize_badges data p :
  normalizeArenaTradeArrayResponse data = Some p -> badges p = None.
Proof.
  unfold normalizeArenaTradeArrayResponse.
  destruct data as [h hl th un tf kp tot vol sup ap hc tv]. cbn.
  destruct kp; [| discriminate |];
    (destruct tot; [| discriminate |];
     (destruct vol; [| discriminate |];
      (destruct sup;
       (destruct ap; [| discriminate |];
        (destruct hc; [| discriminate |];
         (destruct tv; [| discriminate |];
          (cbn; destruct (_ || _); [|discriminate];
           intros E; injection E as <-; reflexivity))))))).
Qed.

Lemma step1_badges r p h : step1 r = (Some p, h) -> badges p = None.
Proof.
  unfold step1. destruct r as [[|u us]| | |]; try discriminate.
  intros E. injection E as E _. eapply normalize_badges; exact E.
Qed.

Lemma step2_badges h profile r p u :
  match profile with Some p0 => badges p0 = None | None => True end ->
  step2 h profile r = (Some p, u) -> badges p = None.
Proof.
  intros Hp. unfold step2.
  destruct r as [[user|]| | |];
    try (intros E; injection E as -> _; exact Hp).
  destruct (Js.truthy (su_id user)); [|intros E; injection E as -> _; exact Hp].
  intros E. injection E as <- _.
  unfold assign_if_some, assign_if_num, assign_if_str.
  destruct (lastKeyPrice user), (su_keyPrice user),
    (truthy_num (su_twitterFollowerCount user)), (truthy_num (su_followerCount user)),
    (Js.truthy (twitterName user)); cbn; destruct profile; try exact Hp; reflexivity.
Qed.

Lemma step3_badges handle userId profile r p bs :
  match profile with Some p0 => badges p0 = None | None => True end ->
  step3 StringToNumber handle userId profile r = Some p ->
  badges p = Some bs ->
  isArenaChampion p = Some (has_champion_badge StringToNumber bs).
Proof.
  intros Hp. unfold step3.
  assert (C : forall q, clearChampion profile = Some q -> badges q = Some bs -> False).
  { intros q. unfold clearChampion. destruct profile as [p0|]; [|discriminate].
    intros E. injection E as <-. cbn. rewrite Hp. discriminate. }
  destruct userId as [uid|]; [|intros E B; destruct (C _ E B)].
  destruct r as [[data|]| | |]; try (intros E B; destruct (C _ E B)).
  - destruct profile as [p0|].
    + pose proof (applyStats_badges handle uid p0 data) as HB.
      pose proof (applyStats_flag StringToNumber handle uid (Some p0) data) as HF.
      destruct (applyStats StringToNumber handle uid (Some p0) data) as [q | q].
      * intros E. injection E as <-. intros B. destruct HF as [_ HF].
        rewrite HB in B. destruct (sb_badges data) as [bs'|].
        -- injection B as ->. exact HF.
        -- rewrite Hp in B. discriminate B.
      * intros E. injection E as <-. cbn. rewrite HB, Hp. discriminate.
    + pose proof (applyStats_flag StringToNumber handle uid None data) as HF.
      unfold applyStats in *.
      set (p0 := {| username := Js.or_else handle (Some uid);
                    displayName := Js.or_else handle (Some uid);
                    followerCount := None; twitterFollowerCount := None;
                    keyPrice := None; totalHolders := None; volume := None;
                    supply := None; badges := None; isArenaChampion := None |}) in *.
      pose proof (applyStats_badges handle uid p0 data) as HB.
      unfold applyStats in HB.
      match goal with
      | |- context [match ?s with Done _ => _ | Raised _ => _ end] =>
          destruct s as [q | q]
      end.
      * intros E. injection E as <-. intros B. destruct HF as [_ HF].
        rewrite HB in B. destruct (sb_badges data) as [bs'|].
        -- injection B as ->. exact HF.
        -- discriminate B.
      * intros E. injection E as <-. cbn. rewrite HB. discriminate.
  - destruct profile as [p0|].
    + intros E. injection E as <-. cbn. rewrite Hp. discriminate.
    + intros E. injection E as <-. cbn. discriminate.
Qed.

Lemma resolve_badges rs p bs :
  resolve StringToNumber rs = Some p -> badges p = Some bs ->
  isArenaChampion p = Some (has_champion_badge StringToNumber bs).
Proof.
  unfold resolve.
  destruct (step1 (r_trade rs)) as [profile1 handle] eqn:E1.
  assert (H1 : match profile1 with Some p0 => badges p0 = None | None => True end).
  { destruct profile1 as [p0|]; [|exact I]. eapply step1_badges; exact E1. }
  destruct handle as [h|].
  - destruct (step2 h profile1 (r_user rs)) as [profile2 userId] eqn:E2.
    apply step3_badges.
    destruct profile2 as [p2|]; [|exact I]. eapply step2_badges; [exact H1 | exact E2].
  - apply step3_badges. exact H1.
Qed.

Lemma strict_implies_champion b :
  strict_eq_num (badgeType b) 19 = true -> championBadge StringToNumber b = true.
Proof. unfold championBadge. intros ->. reflexivity. Qed.

(** [checkArenaChampionStatus] always resolves the profile anew.  When it
    answers true, the champion flag of the profile is true as well.  The
    converse fails: a badge whose type is the string "19" sets the flag,
    and the check, which compares with [===], answers false when every
    badge type is a string. *)
Theorem champion_check_agrees_with_flag now cache w rs c b :
  checkArenaChampionStatus StringToNumber now cache w rs = (c, Some b) ->
  exists p bs,
    resolve StringToNumber rs = Some p /\ badges p = Some bs /\
    c !! Js.toLowerCase w = Some {| ce_profile := Some p; ce_timestamp := now |} /\
    (b = true -> isArenaChampion p = Some true) /\
    ((forall badge, In badge bs -> exists s, badgeType badge = JStr s) -> b = false).
Proof.
  unfold checkArenaChampionStatus.
  rewrite fetch_miss by (intros e; rewrite lookup_delete_eq; discriminate).
  destruct (resolve StringToNumber rs) as [p|] eqn:Er; [|discriminate].
  destruct (badges p) as [bs|] eqn:Eb; [|discriminate].
  intros E. injection E as <- <-. exists p, bs.
  split; [reflexivity|]. split; [exact Eb|]. split; [apply lookup_insert_eq|]. split.
  - intros H. rewrite (resolve_badges rs p bs Er Eb). f_equal.
    apply existsb_exists in H. destruct H as [badge [Hin Hs]].
    unfold has_champion_badge. apply existsb_exists. exists badge. split; [exact Hin|].
    rewrite (strict_implies_champion badge Hs). reflexivity.
  - intros H. destruct (existsb _ bs) eqn:Ex; [|reflexivity].
    apply existsb_exists in Ex. destruct Ex as [badge [Hin Hs]].
    destruct (H badge Hin) as [s Es]. rewrite Es in Hs. discriminate Hs.
Qed.

End Cache.

Lemma profile_served_from_cache_witness :
  let r := fetchArenaUserProfile decimalToNumber 1000 ∅ "0xAbC" forbidden_responses in
  fetchArenaUserProfile decimalToNumber 300999 (fst r) "0xaBc" champion_responses
  = (fst r, resolve decimalToNumber forbidden_responses) /\
  snd (fetchArenaUserProfile decimalToNumber 301000 (fst r) "0xaBc" champion_responses)
  = resolve decimalToNumber champion_responses.
Proof.
  cbv zeta.
  destruct (profile_served_from_cache decimalToNumber 1000 300999 ∅ "0xAbC" "0xaBc"
              forbidden_responses champion_responses)
    as [_ [H _]].
  { intros e E. rewrite lookup_empty in E. discriminate E. }
  { reflexivity. }
  destruct (profile_served_from_cache decimalToNumber 1000 301000 ∅ "0xAbC" "0xaBc"
              forbidden_responses champion_responses)
    as [_ [_ H']].
  { intros e E. rewrite lookup_empty in E. discriminate E. }
  { reflexivity. }
  split; [apply H; reflexivity | apply H'; unfold CACHE_DURATION; lia].
Defined.

Lemma champion_check_agrees_with_flag_witness :
  snd (checkArenaChampionStatus decimalToNumber 1000 ∅ wallet champion_responses)
  = Some false /\
  exists p, resolve decimalToNumber champion_responses = Some p /\
            isArenaChampion p = Some true.
Proof.
  destruct (checkArenaChampionStatus decimalToNumber 1000 ∅ wallet champion_responses)
    as [c b] eqn:E.
  assert (Eb : b = Some false) by (apply (f_equal snd) in E; vm_compute in E; congruence).
  subst b.
  destruct (champion_check_agrees_with_flag decimalToNumber 1000 ∅ wallet
              champion_responses c false E) as [p [bs [Er _]]].
  split; [reflexivity|]. exists p. split; [exact Er|].
  vm_compute in Er. injection Er as <-. reflexivity.
Defined.

End ProfileCacheFacts.

Module PostCachesFacts.
Import DatabaseSimple PostCaches Samples.

Lemma cleanEntry_fold now : forall (l : list (string * PostCacheEntry)) c n,
  NoDup (map fst l) ->
  (forall k v, In (k, v) l -> c !! k = Some v) ->
  let r := fold_left (cleanEntry now) l (c, n) in
  (forall k, fst r !! k =
             match c !! k with
             | Some e => if existsb (fun kv => String.eqb (fst kv) k && expired now (snd kv)) l
                         then None else Some e
             | None => None
             end) /\
  snd r = n + Z.of_nat (size c) - Z.of_nat (size (fst r)) /\
  (size (fst r) <= size c)%nat.
Proof.
  induction l as [|[key value] l IH]; intros c n Hnd Hin; cbv zeta.
  - cbn. split; [|lia]. intros k. destruct (c !! k); reflexivity.
  - cbn [fold_left cleanEntry]. cbn [map fst] in Hnd.
    apply NoDup_cons in Hnd. destruct Hnd as [Hk Hnd].
    assert (Hc : c !! key = Some value) by (apply Hin; left; reflexivity).
    assert (Hne : forall k v, In (k, v) l -> k <> key).
    { intros k v Hkv ->. apply Hk. apply list_elem_of_In, in_map_iff.
      exists (key, v). split; [reflexivity | exact Hkv]. }
    fold (expired now value).
    destruct (expired now value) eqn:Ex.
    + specialize (IH (delete key c) (n + 1) Hnd).
      destruct IH as [L [S1 S2]].
      { intros k v Hkv. rewrite lookup_delete_ne by (intros E; exact (Hne k v Hkv (eq_sym E))).
        apply Hin. right. exact Hkv. }
      pose proof (map_size_delete_Some key c (ex_intro _ value Hc)) as Sd.
      assert (Sp : (0 < size c)%nat).
      { destruct (size c) eqn:Es; [|lia]. apply map_size_empty_inv in Es.
        rewrite Es, lookup_empty in Hc. discriminate Hc. }
      split; [|split].
      * intros k. rewrite L. cbn [existsb fst snd]. rewrite Ex.
        destruct (String.eqb_spec key k) as [-> | Hk'].
        -- rewrite lookup_delete_eq, Hc. reflexivity.
        -- rewrite lookup_delete_ne by exact Hk'. cbn. reflexivity.
      * rewrite S1. lia.
      * lia.
    + specialize (IH c n Hnd).
      destruct IH as [L [S1 S2]].
      { intros k v Hkv. apply Hin. right. exact Hkv. }
      split; [|split; assumption].
      intros k. rewrite L. cbn [existsb fst snd]. rewrite Ex, andb_false_r. reflexivity.
Qed.

Lemma existsb_entries now (m : gmap string PostCacheEntry) k e :
  m !! k = Some e ->
  existsb (fun kv => String.eqb (fst kv) k && expired now (snd kv)) (map_to_list m)
  = expired now e.
Proof.
  intros Hm. destruct (expired now e) eqn:Ex.
  - apply existsb_exists. exists (k, e). split.
    + apply list_elem_of_In, elem_of_map_to_list. exact Hm.
    + cbn. rewrite String.eqb_refl, Ex. reflexivity.
  - destruct (existsb _ (map_to_list m)) eqn:E; [|reflexivity].
    apply existsb_exists in E. destruct E as [[k' e'] [Hin H]].
    apply list_elem_of_In, elem_of_map_to_list in Hin. cbn in H.
    apply andb_prop in H. destruct H as [Hk He]. apply String.eqb_eq in Hk. subst k'.
    rewrite Hm in Hin. injection Hin as <-. congruence.
Qed.

(** [cleanExpiredArenaPostCache] deletes exactly the entries of the
    Arena cache that are older than 24 hours and returns their number;
    it leaves the Discord cache and the store as they are, and it does
    not change the answer of [wasArenaPostAlreadySent] for any key. *)
Theorem cleanExpiredArenaPostCache_spec now st :
  let r := cleanExpiredArenaPostCache now st in
  (forall key,
     arenaPostCache (fst r) !! key =
     match arenaPostCache st !! key with
     | Some e => if CACHE_DURATION <? now - pc_timestamp e then None else Some e
     | None => None
     end) /\
  snd r = Z.of_nat (size (arenaPostCache st)) - Z.of_nat (size (arenaPostCache (fst r))) /\
  0 <= snd r /\
  discordPostCache (fst r) = discordPostCache st /\
  creators (fst r) = creators st /\
  contract_transactions (fst r) = contract_transactions st /\
  (forall key,
     fst (wasArenaPostAlreadySent now (fst r) key) = fst (wasArenaPostAlreadySent now st key)).
Proof.
  cbv zeta. unfold cleanExpiredArenaPostCache.
  pose proof (cleanEntry_fold now (map_to_list (arenaPostCache st)) (arenaPostCache st) 0)
    as H.
  cbv zeta in H.
  destruct H as [L [S1 S2]].
  { change (NoDup ((map_to_list (arenaPostCache st)).*1)). apply NoDup_fst_map_to_list. }
  { intros k v Hin. apply elem_of_map_to_list, list_elem_of_In. exact Hin. }
  destruct (fold_left _ _ _) as [cache cleaned].
  cbn [fst snd arenaPostCache discordPostCache creators contract_transactions
         set_arenaPostCache] in *.
  assert (L' : forall key,
             cache !! key =
             match arenaPostCache st !! key with
             | Some e => if CACHE_DURATION <? now - pc_timestamp e then None else Some e
             | None => None
             end).
  { intros key. rewrite L. destruct (arenaPostCache st !! key) as [e|] eqn:E; [|reflexivity].
    rewrite (existsb_entries now _ key e E). reflexivity. }
  split; [exact L'|]. split; [lia|]. split; [lia|].
  split; [reflexivity|]. split; [reflexivity|]. split; [reflexivity|].
  intros key. unfold wasArenaPostAlreadySent, wasPostAlreadySent. cbn [arenaPostCache set_arenaPostCache].
  rewrite L'. destruct (arenaPostCache st !! key) as [e|]; [|reflexivity].
  destruct (Z.ltb_spec CACHE_DURATION (now - pc_timestamp e)) as [Hx | Hx].
  - destruct (Z.ltb_spec (now - pc_timestamp e) CACHE_DURATION); [lia | reflexivity].
  - destruct (now - pc_timestamp e <? CACHE_DURATION); reflexivity.
Qed.

(** A post marked as sent at [t0] is reported as sent until 24 hours
    have passed and no longer: from then on the check answers false and
    deletes the entry.  The check under another key is not affected by
    the mark. *)
Theorem post_mark_expires t0 t1 key postType st :
  let st1 := markArenaPostAsSent t0 key postType st in
  let r := wasArenaPostAlreadySent t1 st1 key in
  fst r = (t1 - t0 <? CACHE_DURATION) /\
  (CACHE_DURATION <= t1 - t0 -> arenaPostCache (snd r) !! key = None) /\
  (t1 - t0 < CACHE_DURATION -> snd r = st1) /\
  (forall key', key' <> key ->
     fst (wasArenaPostAlreadySent t1 st1 key') = fst (wasArenaPostAlreadySent t1 st key')) /\
  (forall key', fst (wasDiscordPostAlreadySent t1 st1 key')
                = fst (wasDiscordPostAlreadySent t1 st key')).
Proof.
  cbv zeta.
  assert (D : forall key',
             fst (wasDiscordPostAlreadySent t1 (markArenaPostAsSent t0 key postType st) key')
             = fst (wasDiscordPostAlreadySent t1 st key')).
  { intros key'. unfold wasDiscordPostAlreadySent, wasPostAlreadySent, markArenaPostAsSent.
    cbn [discordPostCache set_arenaPostCache].
    destruct (discordPostCache st !! key') as [e|]; [|reflexivity].
    destruct (t1 - pc_timestamp e <? CACHE_DURATION); reflexivity. }
  assert (A : forall key', key' <> key ->
             fst (wasArenaPostAlreadySent t1 (markArenaPostAsSent t0 key postType st) key')
             = fst (wasArenaPostAlreadySent t1 st key')).
  { intros key' Hne. unfold wasArenaPostAlreadySent, wasPostAlreadySent, markArenaPostAsSent.
    cbn [arenaPostCache set_arenaPostCache]. rewrite lookup_insert_ne by congruence.
    destruct (arenaPostCache st !! key') as [e|]; [|reflexivity].
    destruct (t1 - pc_timestamp e <? CACHE_DURATION); reflexivity. }
  unfold wasArenaPostAlreadySent, wasPostAlreadySent, markArenaPostAsSent in *.
  cbn [arenaPostCache set_arenaPostCache] in *. rewrite lookup_insert_eq.
  cbn [pc_timestamp posted].
  destruct (Z.ltb_spec (t1 - t0) CACHE_DURATION) as [Hv | Hx]; cbn [fst snd].
  - split; [reflexivity|]. split; [intros; lia|]. split; [|split; assumption].
    intros _. reflexivity.
  - split; [reflexivity|]. split; [|split; [intros; lia | split; assumption]].
    intros _. cbn. apply lookup_delete_eq.
Qed.

End PostCachesFacts.

Module SubscriptionFacts.
Import Blockchain Monitor Subscription Samples MonitorFacts.

Lemma monitorContract_frame chain st :
  isMonitoring (fst (monitorContract chain st)) = isMonitoring st /\
  monitoringCallbacks (fst (monitorContract chain st)) = monitoringCallbacks st.
Proof.
  unfold monitorContract. destruct (isMonitoring st) eqn:E; [|split; [exact E | reflexivity]].
  destruct (getBlockNumber chain) as [latest|]; [|split; [exact E | reflexivity]].
  destruct (lastProcessedBlock st =? 0); [split; [exact E | reflexivity]|].
  destruct (lastProcessedBlock st <? latest); split; try exact E; reflexivity.
Qed.

Lemma run_app ops op : run (ops ++ [op]) = step (run ops) op.
Proof. unfold run. rewrite fold_left_app. reflexivity. Qed.

Lemma afterBlockNumber_frame latestBlock st :
  isMonitoring (fst (afterBlockNumber latestBlock st)) = isMonitoring st /\
  monitoringCallbacks (fst (afterBlockNumber latestBlock st)) = monitoringCallbacks st.
Proof.
  unfold afterBlockNumber. destruct latestBlock as [l|]; [|split; reflexivity].
  destruct (lastProcessedBlock st =? 0); [split; reflexivity|].
  destruct (lastProcessedBlock st <? l); split; reflexivity.
Qed.

(** A tick during which nothing else happens is [monitorContract] as it
    is embedded above. *)
Lemma monitorContract_uninterrupted chain st :
  isMonitoring st = true ->
  fst (monitorContract chain st) =
  match afterBlockNumber (getBlockNumber chain) st with
  | (st1, Some (ProcessingBlocks latestBlock)) => afterBlocks latestBlock st1
  | (st1, _) => st1
  end.
Proof.
  intros Hm. unfold monitorContract, afterBlockNumber, afterBlocks. rewrite Hm.
  destruct (getBlockNumber chain) as [l|]; [|reflexivity].
  destruct (lastProcessedBlock st =? 0).
  - unfold rearm, armTimer. cbn. rewrite Hm. reflexivity.
  - destruct (lastProcessedBlock st <? l); reflexivity.
Qed.

Lemma step_callbacks p op :
  (monitoringCallbacks (variables p) <> [] -> isMonitoring (variables p) = true) ->
  monitoringCallbacks (variables (step p op)) <> [] ->
  isMonitoring (variables (step p op)) = true.
Proof.
  intros Inv.
  assert (B : forall q, variables (beginTick q) = variables q)
    by (intros q; unfold beginTick; destruct (isMonitoring (variables q)); reflexivity).
  destruct op as [c | c | | | | l | l]; cbn [step].
  - destruct (snd _); rewrite ?B; cbn [variables with_variables];
      unfold subscribeToContractTransactions, startContractMonitoring;
      cbn [isMonitoring set_monitoringCallbacks];
      destruct (isMonitoring (variables p)) eqn:E; cbn; rewrite ?E; reflexivity.
  - cbn [variables with_variables]. unfold unsubscribe.
    destruct (length _ =? 0)%nat eqn:L.
    + intros H. contradiction H. reflexivity.
    + cbn [isMonitoring monitoringCallbacks set_monitoringCallbacks]. intros _.
      apply Inv. intros E.
      destruct (indexOf c (monitoringCallbacks (variables p))) as [i|];
        rewrite E in L; [destruct i|]; discriminate L.
  - destruct (snd _); rewrite ?B; cbn [variables with_variables];
      unfold startContractMonitoring;
      destruct (isMonitoring (variables p)) eqn:E; cbn; intros H;
      first [reflexivity | exact E | apply Inv; exact H].
  - cbn. intros H. contradiction H. reflexivity.
  - rewrite B. exact Inv.
  - destruct (resume is_awaiting (suspended p)); [|exact Inv].
    cbn [variables].
    destruct (afterBlockNumber_frame l (variables p)) as [-> ->]. exact Inv.
  - destruct (resume (is_processing l) (suspended p)); [|exact Inv].
    cbn [variables]. unfold afterBlocks, rearm. cbn. exact Inv.
Qed.

(** Whatever happens to the module, in whatever order, a subscriber is
    never registered without the poller running: while [isMonitoring] is
    not set there is no subscriber.  The other variables need not be as
    they were when the module was loaded: a tick that was waiting for the
    number of the latest block when the poller was stopped sets the block
    pointer and arms the timer when the answer arrives. *)
Theorem subscribers_are_polled (ops : list Op) :
  (monitoringCallbacks (variables (run ops)) <> [] ->
   isMonitoring (variables (run ops)) = true) /\
  (isMonitoring (variables (run ops)) = false ->
   monitoringCallbacks (variables (run ops)) = []) /\
  (let stopped := variables (run [Subscribe 1%nat; Stop; BlockNumberArrives (Some 100)]) in
   isMonitoring stopped = false /\ lastProcessedBlock stopped = 99 /\
   monitoringTimeout stopped = Some 3000).
Proof.
  assert (Inv : monitoringCallbacks (variables (run ops)) <> [] ->
                isMonitoring (variables (run ops)) = true).
  { induction ops as [|op ops IH] using rev_ind.
    - intros H. contradiction H. reflexivity.
    - rewrite run_app. apply step_callbacks. exact IH. }
  split; [exact Inv|]. split.
  - intros E. destruct (monitoringCallbacks (variables (run ops))) as [|c l] eqn:C;
      [reflexivity|].
    rewrite Inv in E by discriminate. discriminate E.
  - cbv zeta. vm_compute. repeat split.
Qed.




(** A subscription followed by its cancellation leaves the state of the
    monitor as it was, when the poller was running for other subscribers
    and the callback was not registered before; from the loaded state it
    starts the poller and stops it again. *)
Theorem subscribe_then_unsubscribe callback st :
  indexOf callback (monitoringCallbacks st) = None ->
  (isMonitoring st = false -> st = loaded) ->
  let r := subscribeToContractTransactions callback st in
  In callback (monitoringCallbacks (fst r)) /\
  isMonitoring (fst r) = true /\
  snd r = negb (isMonitoring st) /\
  unsubscribe callback (fst r) = (if isMonitoring st
                                  then match monitoringCallbacks st with
                                       | [] => loaded
                                       | _ => st
                                       end
                                  else loaded).
Proof.
  intros Hn Inv. cbv zeta.
  unfold subscribeToContractTransactions, startContractMonitoring.
  cbn [isMonitoring set_monitoringCallbacks monitoringCallbacks].
  assert (I : forall l, indexOf callback l = None ->
              match indexOf callback (l ++ [callback]) with
              | Some index => splice1 index (l ++ [callback])
              | None => l ++ [callback]
              end = l).
  { induction l as [|x l IH]; cbn [indexOf app].
    - rewrite Nat.eqb_refl. reflexivity.
    - destruct (Nat.eqb_spec x callback); [discriminate|].
      destruct (indexOf callback l) eqn:El; [discriminate|]. intros _.
      specialize (IH eq_refl).
      destruct (indexOf callback (l ++ [callback])) as [i|]; cbn [splice1]; congruence. }
  destruct (isMonitoring st) eqn:E; cbn [negb fst snd].
  - cbn [isMonitoring monitoringCallbacks set_monitoringCallbacks].
    split; [apply in_or_app; right; left; reflexivity|]. split; [exact E|].
    split; [reflexivity|].
    unfold unsubscribe. cbn [monitoringCallbacks set_monitoringCallbacks].
    rewrite (I _ Hn).
    destruct (monitoringCallbacks st) as [|x l] eqn:El; cbn [length Nat.eqb].
    + reflexivity.
    + destruct st; cbn in *. subst. reflexivity.
  - rewrite (Inv eq_refl) in *.
    cbn [isMonitoring monitoringCallbacks set_monitoringCallbacks loaded fst snd].
    split; [left; reflexivity|]. split; [reflexivity|]. split; [reflexivity|].
    unfold unsubscribe. cbn [monitoringCallbacks].
    rewrite (I [] eq_refl). reflexivity.
Qed.

Lemma subscribe_then_unsubscribe_witness :
  unsubscribe 3%nat (fst (subscribeToContractTransactions 3%nat running)) = running /\
  unsubscribe 3%nat (fst (subscribeToContractTransactions 3%nat loaded)) = loaded.
Proof.
  destruct (subscribe_then_unsubscribe 3%nat running eq_refl) as [_ [_ [_ H]]];
    [discriminate|].
  destruct (subscribe_then_unsubscribe 3%nat loaded eq_refl) as [_ [_ [_ H']]];
    [reflexivity|].
  split; [exact H | exact H'].
Defined.

(** *** Ticks *)

Lemma blockRange_shift n : forall lo k,
  map (fun i => lo + Z.of_nat i) (seq k n)
  = map (fun i => lo + Z.of_nat k + Z.of_nat i) (seq 0 n).
Proof.
  induction n as [|n IH]; intros lo k; [reflexivity|].
  cbn [seq map]. f_equal; [lia|].
  rewrite (IH lo (S k)), (IH (lo + Z.of_nat k) 1%nat).
  apply map_ext. intros i. lia.
Qed.

Lemma blockRange_app a b c :
  a <= b -> b <= c ->
  blockRange (a + 1) c = blockRange (a + 1) b ++ blockRange (b + 1) c.
Proof.
  intros Hab Hbc. unfold blockRange.
  replace (Z.to_nat (c - (a + 1) + 1)) with (Z.to_nat (b - a) + Z.to_nat (c - b))%nat by lia.
  replace (Z.to_nat (b - (a + 1) + 1)) with (Z.to_nat (b - a)) by lia.
  replace (Z.to_nat (c - (b + 1) + 1)) with (Z.to_nat (c - b)) by lia.
  rewrite seq_app, List.map_app. f_equal.
  rewrite blockRange_shift. apply map_ext. intros i. lia.
Qed.

Lemma blockRange_empty lo hi : hi < lo -> blockRange lo hi = [].
Proof. intros H. unfold blockRange. replace (Z.to_nat (hi - lo + 1)) with 0%nat by lia. reflexivity. Qed.

Lemma steady_tick chain st latest :
  isMonitoring st = true -> lastProcessedBlock st <> 0 ->
  getBlockNumber chain = Some latest ->
  lastProcessedBlock (fst (monitorContract chain st))
  = Z.max (lastProcessedBlock st) latest /\
  snd (monitorContract chain st)
  = flat_map (processBlock chain) (blockRange (lastProcessedBlock st + 1) latest).
Proof.
  intros Hm Hl Hb. unfold monitorContract. rewrite Hm, Hb.
  destruct (Z.eqb_spec (lastProcessedBlock st) 0) as [E | _]; [contradiction|].
  destruct (Z.ltb_spec (lastProcessedBlock st) latest) as [Lt | Ge]; cbn.
  - split; [lia | reflexivity].
  - rewrite blockRange_empty by lia. split; [lia | reflexivity].
Qed.

(** The tick that receives the number of the latest block while the
    block pointer is at zero, as it is after a start, only sets the pointer
    to the block before the latest one and arms the timer, without testing
    whether the poller was stopped meanwhile; it schedules nothing.  The
    uninterrupted tick that follows processes the blocks from that latest
    block on: the head block at the time of the first tick is the oldest
    block that is processed. *)
Theorem first_tick_only_initialises chain chain' st latest latest' :
  lastProcessedBlock st = 0 ->
  getBlockNumber chain = Some latest -> latest <> 1 ->
  getBlockNumber chain' = Some latest' ->
  let st1 := armTimer (set_lastProcessedBlock (latest - 1) st) in
  afterBlockNumber (Some latest) st = (st1, None) /\
  (isMonitoring st = true -> monitorContract chain st = (st1, [])) /\
  (isMonitoring st = true ->
   snd (monitorContract chain' st1)
   = flat_map (processBlock chain') (blockRange latest latest')) /\
  (forall n, In n (blockRange latest latest') -> latest <= n).
Proof.
  intros Hl Hb Hne Hb'. cbv zeta.
  split; [unfold afterBlockNumber; rewrite Hl; reflexivity|].
  split; [|split].
  - intros Hm. unfold monitorContract. rewrite Hm, Hb, Hl. cbn.
    unfold rearm, armTimer. cbn. rewrite Hm. reflexivity.
  - intros Hm.
    destruct (steady_tick chain' (armTimer (set_lastProcessedBlock (latest - 1) st)) latest')
      as [_ H]; [exact Hm | cbn; lia | exact Hb' |].
    rewrite H. cbn [lastProcessedBlock armTimer set_lastProcessedBlock].
    replace (latest - 1 + 1) with latest by lia. reflexivity.
  - intros n Hn. unfold blockRange in Hn. apply in_map_iff in Hn.
    destruct Hn as [i [<- _]]. lia.
Qed.

Lemma first_tick_only_initialises_witness :
  snd (monitorContract (chain_with creation_call)
         (fst (subscribeToContractTransactions 1%nat loaded))) = [] /\
  length (snd (monitorContract (chain_with creation_call)
                 (fst (monitorContract (chain_with creation_call)
                         (fst (subscribeToContractTransactions 1%nat loaded))))))
  = 2%nat /\
  monitoringTimeout (fst (afterBlockNumber (Some 101) loaded)) = Some 3000.
Proof.
  destruct (first_tick_only_initialises (chain_with creation_call)
              (chain_with creation_call)
              (fst (subscribeToContractTransactions 1%nat loaded)) 101 101
              eq_refl eq_refl ltac:(lia) eq_refl) as [_ [H1 [H2 _]]].
  destruct (first_tick_only_initialises (chain_with creation_call)
              (chain_with creation_call) loaded 101 101
              eq_refl eq_refl ltac:(lia) eq_refl) as [H3 _].
  cbv zeta in H1, H2, H3.
  split; [rewrite (H1 eq_refl); reflexivity|].
  split; [rewrite (H1 eq_refl); cbn [fst]; rewrite (H2 eq_refl); vm_compute; reflexivity|].
  rewrite H3. reflexivity.
Defined.

(** A steady-state tick moves the block pointer to the latest block,
    whether or not the blocks could be fetched, and never moves it back;
    the next tick processes only blocks above it, so a block whose
    fetch failed is not fetched again.  Two ticks in a row process what
    a single tick to the later block processes. *)
Theorem poller_never_looks_back chain chain' st latest latest' :
  isMonitoring st = true ->
  0 < lastProcessedBlock st <= latest ->
  getBlockNumber chain = Some latest ->
  getBlockNumber chain' = Some latest' ->
  let st1 := fst (monitorContract chain st) in
  lastProcessedBlock st1 = latest /\
  snd (monitorContract chain' st1)
  = flat_map (processBlock chain') (blockRange (latest + 1) latest') /\
  lastProcessedBlock (fst (monitorContract chain' st1)) = Z.max latest latest' /\
  ((forall n, getBlock chain' n = getBlock chain n) -> latest <= latest' ->
   snd (monitorContract chain st) ++ snd (monitorContract chain' st1)
   = snd (monitorContract chain' st)).
Proof.
  intros Hm Hl Hb Hb'. cbv zeta.
  destruct (steady_tick chain st latest Hm ltac:(lia) Hb) as [P1 A1].
  destruct (monitorContract_frame chain st) as [Hm1 _].
  assert (P1' : lastProcessedBlock (fst (monitorContract chain st)) = latest) by lia.
  destruct (steady_tick chain' (fst (monitorContract chain st)) latest')
    as [P2 A2]; [congruence | lia | exact Hb' |].
  split; [exact P1'|]. split; [rewrite A2, P1'; reflexivity|].
  split; [rewrite P2, P1'; reflexivity|].
  intros Hg Hle.
  destruct (steady_tick chain' st latest' Hm ltac:(lia) Hb') as [_ A3].
  rewrite A1, A2, A3, P1'.
  rewrite (blockRange_app (lastProcessedBlock st) latest latest') by lia.
  rewrite flat_map_app. f_equal.
  apply flat_map_ext. intros n. unfold processBlock. rewrite Hg. reflexivity.
Qed.

Lemma poller_never_looks_back_witness :
  lastProcessedBlock (fst (monitorContract (chain_with creation_call) running)) = 101 /\
  snd (monitorContract (chain_with buy_call)
         (fst (monitorContract (chain_with creation_call) running))) = [].
Proof.
  destruct (poller_never_looks_back (chain_with creation_call) (chain_with buy_call)
              running 101 101 eq_refl ltac:(cbn; lia) eq_refl eq_refl)
    as [H1 [H2 _]].
  split; [exact H1|]. rewrite H2. reflexivity.
Defined.

End SubscriptionFacts.

Module SelectorFacts.
Import Blockchain Monitor Selectors Samples Float64Facts MonitorFacts.

Lemma includes_chars sub : forall s,
  Js.includes sub s = true ->
  forall c, In c (list_ascii_of_string sub) -> In c (list_ascii_of_string s).
Proof.
  assert (P : forall sub s, String.prefix sub s = true ->
              forall c, In c (list_ascii_of_string sub) -> In c (list_ascii_of_string s)).
  { clear. induction sub as [|a sub IH]; intros s Hp c Hc; [destruct Hc|].
    destruct s as [|b s]; [discriminate Hp|]. cbn in Hp.
    destruct (Ascii.ascii_dec a b) as [-> | Hne]; [|discriminate Hp].
    cbn in Hc |- *. destruct Hc as [-> | Hc]; [left; reflexivity|].
    right. eapply IH; eassumption. }
  induction s as [|b s IH]; intros H c Hc.
  - cbn in H. rewrite orb_false_r in H. eapply P; eassumption.
  - cbn [Js.includes] in H. apply orb_prop in H. destruct H as [H | H].
    + eapply P; eassumption.
    + cbn. right. apply IH; assumption.
Qed.

Lemma lower_hex_char c : is_hex_char c = true -> is_hex_char (Js.lower_ascii c) = true.
Proof.
  destruct c as [[] [] [] [] [] [] [] []]; vm_compute; intros H; try reflexivity;
    discriminate H.
Qed.

Lemma hex_text_lower s : hex_text s = true -> hex_text (Js.toLowerCase s) = true.
Proof.
  unfold hex_text. induction s as [|c s IH]; [reflexivity|].
  cbn. intros H. apply andb_prop in H. destruct H as [Hc Hs].
  rewrite (lower_hex_char c Hc), (IH Hs). reflexivity.
Qed.

Lemma hex_text_chars s c :
  hex_text s = true -> In c (list_ascii_of_string s) -> is_hex_char c = true.
Proof.
  unfold hex_text. intros H Hc. rewrite forallb_forall in H. apply H. exact Hc.
Qed.

Lemma hex_text_no_keyword s :
  hex_text s = true ->
  Js.includes "create" (Js.toLowerCase s) || Js.includes "token" (Js.toLowerCase s) = false.
Proof.
  intros H. apply hex_text_lower in H.
  destruct (Js.includes "create" (Js.toLowerCase s)) eqn:E1.
  { pose proof (includes_chars _ _ E1 "r"%char ltac:(cbn; tauto)) as Hc.
    apply (hex_text_chars _ _ H) in Hc. discriminate Hc. }
  destruct (Js.includes "token" (Js.toLowerCase s)) eqn:E2; [|reflexivity].
  pose proof (includes_chars _ _ E2 "t"%char ltac:(cbn; tauto)) as Hc.
  apply (hex_text_chars _ _ H) in Hc. discriminate Hc.
Qed.

Lemma lookup_creation methodId info :
  lookup_signature METHOD_SIGNATURES methodId = Some info ->
  (mi_type info = TOKEN_CREATION <->
   methodId = "0x0b8c6fec"%string \/ methodId = "0x30f51a46"%string).
Proof.
  unfold METHOD_SIGNATURES. cbn [lookup_signature].
  repeat match goal with
         | |- context [String.eqb ?k methodId] =>
             destruct (String.eqb_spec k methodId) as [<- | ?]
         end;
    intros E; try discriminate E; injection E as <-; cbn;
    split; intros H; try discriminate H; try (destruct H as [H | H]; congruence);
    auto.
Qed.

(** A selector of hexadecimal text that is classified as a token
    creation is one of the two creation selectors of the table. *)
Lemma hex_selector_creation (methodId : string) (value : Z) :
  hex_text methodId = true ->
  ti_type (determineTransactionType methodId value) = TOKEN_CREATION ->
  methodId = "0x0b8c6fec"%string \/ methodId = "0x30f51a46"%string.
Proof.
  intros Hh. pose proof (hex_text_no_keyword methodId Hh) as Hk.
  unfold determineTransactionType.
  destruct (lookup_signature METHOD_SIGNATURES methodId) as [info|] eqn:El.
  - cbn [ti_type]. apply lookup_creation. exact El.
  - rewrite Hk, div_1e18_positive. destruct (0 <? value); discriminate.
Qed.

(** For a selector that is hexadecimal text, as every selector cut from
    call data is, the keyword test of the fallback never succeeds: the
    transaction is a token creation exactly when the selector is
    [0x0b8c6fec] or [0x30f51a46], written in lower case, and a selector
    that is not in the table is classified by the value alone. *)
Theorem hex_selector_classification (methodId : string) (value : Z) :
  hex_text methodId = true ->
  (ti_type (determineTransactionType methodId value) = TOKEN_CREATION <->
   methodId = "0x0b8c6fec"%string \/ methodId = "0x30f51a46"%string) /\
  (lookup_signature METHOD_SIGNATURES methodId = None ->
   ti_type (determineTransactionType methodId value) = if 0 <? value then BUY else UNKNOWN).
Proof.
  intros Hh. pose proof (hex_text_no_keyword methodId Hh) as Hk.
  unfold determineTransactionType.
  destruct (lookup_signature METHOD_SIGNATURES methodId) as [info|] eqn:El.
  - split; [|discriminate]. cbn [ti_type]. apply lookup_creation. exact El.
  - rewrite Hk, div_1e18_positive. split.
    + split.
      * destruct (0 <? value); discriminate.
      * intros [-> | ->]; vm_compute in El; discriminate El.
    + intros _. destruct (0 <? value); reflexivity.
Qed.

Lemma hex_selector_classification_witness :
  ti_type (determineTransactionType "0x0B8C6FEC" 0) = UNKNOWN /\
  ti_type (determineTransactionType "0x30f51a46" 0) = TOKEN_CREATION.
Proof.
  destruct (hex_selector_classification "0x0B8C6FEC" 0 eq_refl) as [_ H].
  destruct (hex_selector_classification "0x30f51a46" 0 eq_refl) as [H' _].
  split; [apply H; reflexivity | apply H'; right; reflexivity].
Defined.

Lemma slice_to_chars n : forall s c,
  In c (list_ascii_of_string (Js.slice_to n s)) -> In c (list_ascii_of_string s).
Proof.
  unfold Js.slice_to. induction n as [|n IH]; intros s c.
  - destruct s; cbn; tauto.
  - destruct s as [|a s]; cbn; [tauto|]. intros [-> | H]; [left; reflexivity|].
    right. apply IH. exact H.
Qed.

Lemma hex_text_slice n s : hex_text s = true -> hex_text (Js.slice_to n s) = true.
Proof.
  unfold hex_text. rewrite !forallb_forall. intros H c Hc. apply H.
  eapply slice_to_chars. exact Hc.
Qed.

(** The poller schedules work for a transaction only when it is
    addressed to the tracked contract and its call data begin with
    [0x0b8c6fec] or [0x30f51a46]; the event it delivers is flagged as a
    token creation and carries the metadata decoded from the call data,
    and the profile of the sender is fetched for it. *)
Theorem poller_delivers_two_selectors block tx a :
  hex_text (ct_input tx) = true ->
  In a (processTransaction block tx) ->
  addressed_to_contract tx = true /\
  (Js.slice_to 10 (ct_input tx) = "0x0b8c6fec"%string \/
   Js.slice_to 10 (ct_input tx) = "0x30f51a46"%string) /\
  exists contractTx,
    (a = Notify contractTx \/ a = FetchCreatorProfile (ct_from tx) contractTx) /\
    isTokenCreation contractTx = true /\
    hash contractTx = ct_hash tx /\ from contractTx = ct_from tx /\
    tokenMetadata contractTx
    = decodeTokenCreationData (Js.slice_to 10 (ct_input tx)) (ct_input tx).
Proof.
  intros Hh Hin. apply processTransaction_In in Hin. destruct Hin as [Ha [Ht Hc]].
  split; [exact Ha|]. split.
  - apply (hex_selector_creation _ (ct_value tx)); [|exact Ht].
    apply hex_text_slice. exact Hh.
  - cbv zeta in Hc. eexists. split; [exact Hc|].
    cbn [isTokenCreation hash from tokenMetadata contractTxOf]. rewrite Ht.
    repeat split; reflexivity.
Qed.

Lemma poller_delivers_two_selectors_witness :
  addressed_to_contract creation_call = true /\
  (Js.slice_to 10 (ct_input creation_call) = "0x0b8c6fec"%string \/
   Js.slice_to 10 (ct_input creation_call) = "0x30f51a46"%string).
Proof.
  destruct (poller_delivers_two_selectors
              {| b_number := 101; b_timestamp := 1700000000; b_transactions := None |}
              creation_call
              (Notify (contractTxOf
                         {| b_number := 101; b_timestamp := 1700000000;
                            b_transactions := None |}
                         creation_call (Js.slice_to 10 (ct_input creation_call))
                         (determineTransactionType
                            (Js.slice_to 10 (ct_input creation_call))
                            (ct_value creation_call))))
              eq_refl) as [H1 [H2 _]].
  { vm_compute. left. reflexivity. }
  split; [exact H1 | exact H2].
Defined.

End SelectorFacts.

Module RouteFacts.
Import ArenaSocials Blockchain DatabaseSimple Retry Routes Samples DispatchFacts RetryFacts.

Lemma ordinal_values :
  forallb (fun k =>
             let value := Z.of_nat k in
             String.eqb
               (match suffixAt (Z.rem (value - 20) 10) with
                | Some s => s
                | None => match suffixAt value with Some s => s | None => "th"%string end
                end)
               (ordinalSuffix value)) (seq 0 100) = true.
Proof. vm_compute. reflexivity. Qed.

(** [getOrdinalNumber] follows the rule of the English ordinals for
    every count from zero on that is a safe integer: "th" after 11, 12
    and 13 in the last two digits, else "st", "nd" and "rd" after a last
    digit 1, 2 and 3, else "th". *)
Theorem getOrdinalNumber_rule (num : Z) :
  0 <= num <= MAX_SAFE_INTEGER ->
  getOrdinalNumber num
  = Some (String.append (Js.bigint_toString num) (ordinalSuffix num)).
Proof.
  intros Hn. unfold getOrdinalNumber, numberText. cbv zeta.
  assert (Hs : 0 < MAX_SAFE_INTEGER) by (unfold MAX_SAFE_INTEGER; lia).
  destruct (Z.leb_spec (- MAX_SAFE_INTEGER) num) as [_ | G]; [|lia].
  destruct (Z.leb_spec num MAX_SAFE_INTEGER) as [_ | G]; [|lia].
  cbn [andb]. do 2 f_equal.
  rewrite (Z.rem_mod_nonneg num 100) by lia.
  assert (Hv : 0 <= num mod 100 < 100) by (apply Z.mod_pos_bound; lia).
  assert (Es : ordinalSuffix num = ordinalSuffix (num mod 100)).
  { unfold ordinalSuffix. rewrite Z.mod_mod by lia.
    replace ((num mod 100) mod 10) with (num mod 10); [reflexivity|].
    Z.div_mod_to_equations. lia. }
  rewrite Es.
  pose proof ordinal_values as H. rewrite forallb_forall in H.
  specialize (H (Z.to_nat (num mod 100))). cbv zeta in H.
  rewrite Z2Nat.id in H by lia.
  apply String.eqb_eq. apply H. apply in_seq. lia.
Qed.

Lemma getOrdinalNumber_rule_witness :
  getOrdinalNumber 112 = Some "112th"%string /\
  getOrdinalNumber 22 = Some "22nd"%string.
Proof.
  split.
  - rewrite (getOrdinalNumber_rule 112) by (unfold MAX_SAFE_INTEGER; lia). reflexivity.
  - rewrite (getOrdinalNumber_rule 22) by (unfold MAX_SAFE_INTEGER; lia). reflexivity.
Defined.

(** *** The posts of the dispatcher *)

Lemma fetchWithRetry_returns_cases fetch m s t :
  fetchWithRetry fetch m = (Returned s, t) -> ok s = true \/ s = 404.
Proof.
  unfold fetchWithRetry. intros E.
  pose proof (attempts_spec fetch m m 1 None) as H. rewrite E in H.
  destruct H as [k [_ [Fk [Sk _]]]].
  apply settles_spec in Sk. destruct Sk as [s' [E' H]].
  rewrite Fk in E'. injection E' as <-. exact H.
Qed.

Lemma fetchWithRetry_attempts fetch m :
  (length (attemptsOf (snd (fetchWithRetry fetch m))) <= m)%nat.
Proof.
  unfold fetchWithRetry.
  pose proof (attempts_spec fetch m m 1 None) as H.
  destruct (attempts fetch m m 1 None) as [[s | e] t]; cbn [snd].
  - destruct H as [k [Hk [_ [_ [_ Ht]]]]]. subst t.
    rewrite attemptsOf_app, attemptsOf_events, length_app, length_seq. simpl. lia.
  - destruct H as [_ [_ Ht]]. subst t. rewrite attemptsOf_events, length_seq. lia.
Qed.

Lemma dispatch_snd env st ak dk tid a d sym name addr n prof uname :
  snd (dispatch env st ak dk tid a d sym name addr n prof uname) =
  (if tiered (postTypeOf prof) && negb a
   then [EPostArena uname sym name n (or_false (isArenaChampion prof))] else [])
  ++ (if negb d
      then [EPostDiscord uname sym name n (or_false (isArenaChampion prof)) addr] else []).
Proof.
  unfold dispatch. cbv zeta.
  pose proof (dispatchArena_trace env st ak tid a (postTypeOf prof)
                (EPostArena uname sym name n (or_false (isArenaChampion prof)))) as TA.
  destruct (dispatchArena env st ak tid a (postTypeOf prof) _) as [st3 ta].
  pose proof (dispatchDiscord_trace env st3 dk tid d (postTypeOf prof)
                (EPostDiscord uname sym name n (or_false (isArenaChampion prof)) addr))
    as TD.
  destruct (dispatchDiscord env st3 dk tid d (postTypeOf prof) _) as [st4 td].
  cbn [snd] in *. subst. reflexivity.
Qed.

Lemma posts_zero t e :
  arenaPosts t = 0%nat -> discordPosts t = 0%nat -> In e t ->
  exists w, e = EFetchArenaProfile w.
Proof.
  unfold arenaPosts, discordPosts. induction t as [|x t IH]; intros Ha Hd Hin.
  - destruct Hin.
  - cbn [List.filter] in Ha, Hd.
    destruct x as [w | u s n c ch | u s n c ch addr]; cbn in Ha, Hd; try discriminate.
    destruct Hin as [<- | Hin]; [eauto | apply IH; assumption].
Qed.

(** The posts of an invocation, with what they carry. *)
Lemma process_posts_carry env st tx e :
  In e (out_trace (processTokenCreation env st tx)) ->
  (exists w, e = EFetchArenaProfile w) \/
  exists prof sym md uname,
    arena_profile env = Some prof /\ creationSymbol tx = Some sym /\
    tokenMetadata tx = Some md /\
    username prof = Some uname /\ Js.truthy (Some uname) = true /\
    1 < contracts_created (creatorAfter env st tx sym md) /\
    ((e = EPostArena uname sym (tm_name md)
            (contracts_created (creatorAfter env st tx sym md))
            (or_false (isArenaChampion prof)) /\
      tiered (postTypeOf prof) = true) \/
     e = EPostDiscord uname sym (tm_name md)
           (contracts_created (creatorAfter env st tx sym md))
           (or_false (isArenaChampion prof))
           (Js.or_else (tm_tokenAddress md) (Js.or_undefined (tokenAddress tx)))).
Proof.
  intros Hin. pose proof (process_run env st tx) as R. cbv zeta in R.
  destruct (reachesDispatch env st tx) as [prof|] eqn:Er.
  - destruct R as [sym [md [uname [Es [Em [Eu [Ep [_ [_ [_ [Hc [_ Ht]]]]]]]]]]]].
    rewrite Ht in Hin. destruct Hin as [<- | Hin]; [left; eauto|].
    rewrite dispatch_snd in Hin. right. exists prof, sym, md, uname.
    assert (Tu : Js.truthy (Some uname) = true).
    { unfold reachesDispatch in Er. rewrite Es, Em in Er.
      destruct (_ && _) in Er; [discriminate|].
      destruct (_ && _) in Er; [|discriminate].
      rewrite Ep in Er. rewrite Eu in Er.
      destruct (Js.truthy (Some uname)); [reflexivity | discriminate]. }
    repeat (split; [assumption|]).
    apply in_app_or in Hin. destruct Hin as [Hin | Hin].
    + left. destruct (tiered (postTypeOf prof)); [|destruct Hin].
      destruct (negb _); [|destruct Hin].
      destruct Hin as [<- | []]. split; reflexivity.
    + right. destruct (negb _); [|destruct Hin]. destruct Hin as [<- | []]. reflexivity.
  - destruct R as [Ra Rd]. left. eapply posts_zero; eassumption.
Qed.

Lemma creationSymbol_truthy tx sym :
  creationSymbol tx = Some sym -> Js.truthy (Some sym) = true.
Proof.
  unfold creationSymbol. destruct (isTokenCreation tx); [|discriminate].
  destruct (tokenMetadata tx) as [md|]; [|discriminate].
  destruct (tm_symbol md) as [s|]; [|discriminate].
  destruct (String.eqb s "") eqn:E; [discriminate|].
  intros H. injection H as <-. cbn. rewrite E. reflexivity.
Qed.

(** Every Arena post that [processTokenCreation] makes passes the
    validation of the route, and its message is the one of a champion or
    of a heavy hitter that is not at its first token: the pipeline never
    posts the alert for a regular creator to Arena, nor the text for a
    debut. *)
Theorem arena_post_message env st tx prof username symbol name contractsCreated isChampion
    req configured fetch :
  In (EPostArena username symbol name contractsCreated isChampion)
     (out_trace (processTokenCreation env st tx)) ->
  arena_profile env = Some prof ->
  requestOf (EPostArena username symbol name contractsCreated isChampion) prof = Some req ->
  rp_status (fst (fst (arenaPostRoute configured fetch req))) <> 400 /\
  ((postTypeOf prof = Champion /\
    exists display, arenaMessage req = ChampionText username display) \/
   (postTypeOf prof = HeavyHitter /\
    arenaMessage req
    = HeavyHitterText username symbol name (followersOf prof) (keyPrice prof) false)).
Proof.
  intros Hin Hp Hr. cbn in Hr. injection Hr as <-.
  destruct (process_posts_carry env st tx _ Hin) as [[w E] | H]; [discriminate E|].
  destruct H as [prof' [sym [md [uname [Hp' [Es [Em [Eu [Tu [Hc [[E Ht] | E]]]]]]]]]]];
    [|discriminate E].
  rewrite Hp in Hp'. injection Hp' as <-.
  injection E as -> -> -> -> ->.
  pose proof (creationSymbol_truthy tx sym Es) as Ts.
  split.
  - unfold arenaPostRoute. cbn [rq_username rq_tokenSymbol rq_contractsCreated].
    rewrite Tu, Ts. cbn [negb orb].
    destruct (Z.eqb_spec (contracts_created (creatorAfter env st tx sym md)) 0) as [E0|_];
      [lia|].
    destruct (negb configured); [cbn; lia|].
    destruct (fetchWithRetry fetch 2) as [[status | err] t] eqn:Ef.
    + destruct (fetchWithRetry_returns_cases fetch 2 status t Ef) as [Eok | ->].
      * rewrite Eok. cbn. lia.
      * cbn. lia.
    + cbn. lia.
  - unfold arenaMessage, postTypeOf, or_false in *.
    cbn [rq_isChampion rq_arenaProfile rq_username rq_tokenSymbol rq_tokenName
           rq_contractsCreated].
    destruct (is_true (isArenaChampion prof)).
    + left. split; [reflexivity|]. eexists. reflexivity.
    + right. cbv zeta in Ht |- *. unfold checkHeavyHitter.
      destruct (5000 <=? followersOf prof); cbn [orb] in *.
      * split; [reflexivity|].
        destruct (Z.eqb_spec (contracts_created (creatorAfter env st tx sym md)) 1);
          [lia | reflexivity].
      * generalize dependent (Float64.leb Float64.lit_1_5 (ticketPriceOf prof)).
        intros b Ht. destruct b; [|discriminate Ht].
        split; [reflexivity|].
        destruct (Z.eqb_spec (contracts_created (creatorAfter env st tx sym md)) 1);
          [lia | reflexivity].
Qed.

Lemma arena_post_message_witness :
  exists req,
    requestOf (EPostArena "alice" "MYT" (Some "MyToken"%string) 2 false)
      (profile_with 6000 false) = Some req /\
    arenaMessage req
    = HeavyHitterText "alice" "MYT" (Some "MyToken"%string) 6000
        (Some 20000000000000000) false.
Proof.
  eexists. split; [reflexivity|].
  destruct (arena_post_message (world 6000 true) seasoned_state creation
              (profile_with 6000 false) "alice" "MYT" (Some "MyToken"%string) 2 false
              {| rq_username := "alice"; rq_tokenSymbol := "MYT";
                 rq_tokenName := Some "MyToken"%string; rq_contractsCreated := 2;
                 rq_isChampion := false;
                 rq_arenaProfile := Some (profile_with 6000 false);
                 rq_contractAddress := None |}
              true (flaky 200)) as [_ [[H _] | [_ H]]].
  - vm_compute. right. left. reflexivity.
  - reflexivity.
  - reflexivity.
  - vm_compute in H. discriminate H.
  - exact H.
Defined.

(** Every Discord post that [processTokenCreation] makes goes to the
    channel of the tier it computed: champions, heavy hitters, or the
    general channel for a regular creator. *)
Theorem discord_post_channel env st tx prof username symbol name contractsCreated
    isChampion contractAddress req :
  In (EPostDiscord username symbol name contractsCreated isChampion contractAddress)
     (out_trace (processTokenCreation env st tx)) ->
  arena_profile env = Some prof ->
  requestOf (EPostDiscord username symbol name contractsCreated isChampion contractAddress)
    prof = Some req ->
  discordChannel req = channelOf (postTypeOf prof) /\ 1 < contractsCreated.
Proof.
  intros Hin Hp Hr. cbn in Hr. injection Hr as <-.
  destruct (process_posts_carry env st tx _ Hin) as [[w E] | H]; [discriminate E|].
  destruct H as [prof' [sym [md [uname [Hp' [Es [Em [Eu [Tu [Hc [[E Ht] | E]]]]]]]]]]];
    [discriminate E|].
  rewrite Hp in Hp'. injection Hp' as <-.
  injection E as -> -> -> -> -> ->.
  split; [|exact Hc].
  unfold discordChannel, postTypeOf, or_false. cbn [rq_isChampion rq_arenaProfile].
  cbv zeta.
  destruct (is_true (isArenaChampion prof)); [reflexivity|].
  destruct (_ || _); reflexivity.
Qed.

Lemma discord_post_channel_witness :
  exists req,
    requestOf (EPostDiscord "alice" "MYT" (Some "MyToken"%string) 2 false None)
      (profile_with 100 false) = Some req /\
    discordChannel req = General.
Proof.
  eexists. split; [reflexivity|].
  destruct (discord_post_channel (world 100 true) seasoned_state creation
              (profile_with 100 false) "alice" "MYT" (Some "MyToken"%string) 2 false None
              {| rq_username := "alice"; rq_tokenSymbol := "MYT";
                 rq_tokenName := Some "MyToken"%string; rq_contractsCreated := 2;
                 rq_isChampion := false;
                 rq_arenaProfile := Some (profile_with 100 false);
                 rq_contractAddress := None |}) as [H _].
  - vm_compute. right. left. reflexivity.
  - reflexivity.
  - reflexivity.
  - rewrite H. vm_compute. reflexivity.
Defined.

(** The Arena route answers with one of four statuses: 400 when a
    required field is missing (a count of zero contracts counts as
    missing), 200 when the post was accepted within two attempts, 404
    when the post was answered by 404, and 500 in every other case;
    [postToArenaTimeline] answers true exactly for 200. *)
Theorem arena_route_statuses configured fetch req :
  let reply := fst (fst (arenaPostRoute configured fetch req)) in
  (rp_status reply = 200 \/ rp_status reply = 400 \/ rp_status reply = 404
   \/ rp_status reply = 500) /\
  (postToArenaTimeline reply = true <-> rp_status reply = 200) /\
  (rp_status reply = 200 <->
   Js.truthy (Some (rq_username req)) = true /\
   Js.truthy (Some (rq_tokenSymbol req)) = true /\
   rq_contractsCreated req <> 0 /\ configured = true /\
   exists s, fst (fetchWithRetry fetch 2) = Returned s /\ ok s = true) /\
  (length (attemptsOf (snd (arenaPostRoute configured fetch req))) <= 2)%nat.
Proof.
  cbv zeta. unfold arenaPostRoute.
  destruct (Js.truthy (Some (rq_username req))); cbn [negb orb];
    [|cbn; repeat split; try tauto; try lia; try discriminate;
      intros H; decompose [and] H; discriminate].
  destruct (Js.truthy (Some (rq_tokenSymbol req))); cbn [negb orb];
    [|cbn; repeat split; try tauto; try lia; try discriminate;
      intros H; decompose [and] H; discriminate].
  destruct (Z.eqb_spec (rq_contractsCreated req) 0) as [E0 | N0];
    [cbn; repeat split; try tauto; try lia; try discriminate;
     intros H; decompose [and] H; contradiction|].
  destruct configured; cbn [negb];
    [|cbn; repeat split; try tauto; try lia; try discriminate;
      intros H; decompose [and] H; discriminate].
  pose proof (fetchWithRetry_attempts fetch 2) as W.
  destruct (fetchWithRetry fetch 2) as [[s | e] t] eqn:Ef; cbn [fst snd] in *.
  - pose proof (fetchWithRetry_returns_cases fetch 2 s t Ef) as Hs.
    destruct (ok s) eqn:Eok; cbn [fst snd rp_status rp_success postToArenaTimeline].
    + repeat split; try tauto; try lia; try reflexivity.
      exists s. split; [reflexivity | exact Eok].
    + destruct Hs as [Hs | ->]; [congruence|].
      repeat split; try tauto; try lia; try discriminate.
      intros [_ [_ [_ [_ [s' [E' Eok']]]]]]. injection E' as <-. discriminate Eok'.
  - cbn [fst snd rp_status rp_success postToArenaTimeline].
    repeat split; try tauto; try lia; try discriminate.
    intros [_ [_ [_ [_ [s' [E' _]]]]]]. discriminate E'.
Qed.

End RouteFacts.

Module InvocationFacts.
Import ArenaSocials Blockchain DatabaseSimple Samples Invocations DispatchFacts.

Lemma setPostedToArena_mono t st h :
  postedToArena st h = true -> postedToArena (setPostedToArena t st) h = true.
Proof.
  unfold postedToArena. rewrite setPostedToArena_lookup.
  destruct (contract_transactions st !! h) as [row|]; simpl; [|discriminate].
  destruct (String.eqb (row_id row) t); simpl; auto.
Qed.

Lemma setPostedToDiscord_mono t st h :
  postedToDiscord st h = true -> postedToDiscord (setPostedToDiscord t st) h = true.
Proof.
  unfold postedToDiscord. rewrite setPostedToDiscord_lookup.
  destruct (contract_transactions st !! h) as [row|]; simpl; [|discriminate].
  destruct (String.eqb (row_id row) t); simpl; auto.
Qed.

Lemma dispatchArena_mono env st key tid a pt call h :
  postedToArena st h = true ->
  postedToArena (fst (dispatchArena env st key tid a pt call)) h = true.
Proof.
  intros P. rewrite dispatchArena_state.
  destruct (tiered pt); [|exact P].
  destruct (negb a && arena_post env); [|exact P].
  cbv zeta. destruct tid as [t|]; [|exact P].
  destruct (Js.truthy (Some t)); [|exact P].
  unfold updatePostedToArena. destruct (update_arena_ok env); [|exact P].
  apply setPostedToArena_mono. exact P.
Qed.

Lemma dispatchDiscord_mono env st key tid d pt call h :
  postedToDiscord st h = true ->
  postedToDiscord (fst (dispatchDiscord env st key tid d pt call)) h = true.
Proof.
  intros P. rewrite dispatchDiscord_state.
  destruct (negb d && discord_post env); [|exact P].
  cbv zeta. destruct tid as [t|]; [|exact P].
  destruct (Js.truthy (Some t)); [|exact P].
  unfold updatePostedToDiscord. destruct (update_discord_ok env); [|exact P].
  apply setPostedToDiscord_mono. exact P.
Qed.

Lemma dispatch_mono env st ak dk tid a d sym name addr n prof uname h :
  let st' := fst (dispatch env st ak dk tid a d sym name addr n prof uname) in
  (postedToArena st h = true -> postedToArena st' h = true) /\
  (postedToDiscord st h = true -> postedToDiscord st' h = true).
Proof.
  cbv zeta. rewrite dispatch_fst.
  match goal with
  | |- context [dispatchDiscord ?e ?s ?k ?i ?x ?p ?c] =>
      pose proof (dispatchDiscord_frame e s k i x p c) as FD; cbv zeta in FD;
      destruct FD as [_ [_ FD]]
  end.
  match goal with
  | |- context [dispatchArena ?e ?s ?k ?i ?x ?p ?c] =>
      pose proof (dispatchArena_frame e s k i x p c) as FA; cbv zeta in FA;
      destruct FA as [_ [_ FA]]
  end.
  split; intros P.
  - rewrite FD. apply dispatchArena_mono. exact P.
  - apply dispatchDiscord_mono. rewrite FA. exact P.
Qed.

(** An invocation never clears a persisted flag, of any transaction. *)
Lemma process_mono env st tx h :
  let o := processTokenCreation env st tx in
  (postedToArena st h = true -> postedToArena (out_state o) h = true) /\
  (postedToDiscord st h = true -> postedToDiscord (out_state o) h = true).
Proof.
  cbv zeta.
  destruct (creationSymbol tx) as [sym|] eqn:Es;
    [|rewrite process_rejected by exact Es; split; auto].
  destruct (creationSymbol_metadata tx sym Es) as [md Em].
  rewrite (process_accepted env st tx sym md Es Em).
  pose proof (beforeDispatch_spec env st tx sym md) as B. cbv zeta in B.
  destruct B as [BA [BD _]]. unfold beforeDispatch in BA, BD.
  destruct (_ && _); [simpl; split; intros P; [rewrite BA | rewrite BD]; exact P|].
  destruct (Js.truthy _); [|simpl; split; intros P; [rewrite BA | rewrite BD]; exact P].
  simpl.
  match goal with
  | |- context [enrichAndDispatch ?e ?s ?x ?ak ?dk ?i ?a ?d ?y ?n ?ad] =>
      pose proof (enrich_cases e s x ak dk i a d y n ad) as K; cbv zeta in K
  end.
  destruct K as [[c [prof [uname [_ [_ [_ [_ [-> _]]]]]]]] | [-> _]].
  - match goal with
    | |- context [dispatch ?e ?s ?ak ?dk ?i ?a ?d ?y ?n ?ad ?c ?p ?u] =>
        pose proof (dispatch_mono e s ak dk i a d y n ad c p u h) as M; cbv zeta in M
    end.
    destruct M as [MA MD].
    split; intros P; [apply MA; rewrite BA | apply MD; rewrite BD]; exact P.
  - split; intros P; [rewrite BA | rewrite BD]; exact P.
Qed.

Lemma processAll_mono calls : forall st h,
  (postedToArena st h = true -> postedToArena (processAll st calls) h = true) /\
  (postedToDiscord st h = true -> postedToDiscord (processAll st calls) h = true).
Proof.
  induction calls as [|[env tx] calls IH]; intros st h; [split; auto|].
  unfold processAll. simpl.
  destruct (process_mono env st tx h) as [MA MD]. cbv zeta in MA, MD.
  destruct (IH (out_state (processTokenCreation env st tx)) h) as [IA ID].
  unfold processAll in IA, ID.
  split; intros P; [apply IA, MA | apply ID, MD]; exact P.
Qed.

(** A post that succeeded and whose flag the store has written is final
    for the invocations that read the flag.  The invocations run one after
    the other.  The first one posts to a channel, the post succeeds, the
    id of the transaction's row is known to it and the store carries out
    the update of the flag.  Then, after any number of further invocations,
    for any transactions and under any answers of the outside world, an
    invocation for a transaction of the same hash whose select of the row
    succeeds does not call the channel. *)
Theorem successful_post_is_final env st tx calls env' tx' :
  hash tx' = hash tx ->
  transactionIdKnown env st tx = true ->
  select_tx_ok env' = true ->
  let o := processTokenCreation env st tx in
  let later := processTokenCreation env' (processAll (out_state o) calls) tx' in
  (arenaPosts (out_trace o) = 1%nat -> arena_post env = true ->
   update_arena_ok env = true ->
   arenaPosts (out_trace later) = 0%nat) /\
  (discordPosts (out_trace o) = 1%nat -> discord_post env = true ->
   update_discord_ok env = true ->
   discordPosts (out_trace later) = 0%nat).
Proof.
  intros Eh TK Sel. cbv zeta. split.
  - intros H1 Hp UK.
    destruct (arenaPosts_one env st tx H1) as [prof [RD [Ht Ha]]].
    destruct (process_state env st tx prof RD) as [sym [md [_ [_ [_ [S _]]]]]].
    destruct (S Ht Ha Hp) as [_ K]. specialize (K TK UK).
    destruct (processAll_mono calls (out_state (processTokenCreation env st tx)) (hash tx))
      as [MA _].
    specialize (MA K).
    match goal with
    | |- arenaPosts (out_trace (processTokenCreation ?e ?s ?x)) = _ =>
        destruct (process_posts e s x) as [-> _]
    end.
    rewrite readPostedToArena_spec, Sel, Eh, MA.
    destruct (reachesDispatch env' _ tx') as [p|]; [|reflexivity].
    destruct (tiered (postTypeOf p)); reflexivity.
  - intros H1 Hp UK.
    destruct (discordPosts_one env st tx H1) as [prof [RD Hd]].
    destruct (process_state env st tx prof RD) as [sym [md [_ [_ [_ [_ [_ [S _]]]]]]]].
    destruct (S Hd Hp) as [_ K]. specialize (K TK UK).
    destruct (processAll_mono calls (out_state (processTokenCreation env st tx)) (hash tx))
      as [_ MD].
    specialize (MD K).
    match goal with
    | |- discordPosts (out_trace (processTokenCreation ?e ?s ?x)) = _ =>
        destruct (process_posts e s x) as [_ ->]
    end.
    rewrite readPostedToDiscord_spec, Sel, Eh, MD.
    destruct (reachesDispatch env' _ tx'); reflexivity.
Qed.

(** The two conditions on the store are needed: on a store that fails
    the select of the later invocation, or that refused the update of the
    first one, the later invocation posts again. *)
Lemma successful_post_is_final_witness :
  let o := processTokenCreation (world 6000 true) seasoned_state creation in
  let later :=
    processTokenCreation (world 9000 true)
      (processAll (out_state o)
         [(world 100 false, creation); (rowless_world 7000 true, creation)])
      creation in
  (arenaPosts (out_trace o) = 1%nat /\ discordPosts (out_trace o) = 1%nat) /\
  (arenaPosts (out_trace later) = 0%nat /\ discordPosts (out_trace later) = 0%nat) /\
  arenaPosts (out_trace (processTokenCreation (blind_world 9000) (out_state o) creation))
  = 1%nat /\
  arenaPosts
    (out_trace (processTokenCreation (world 9000 true)
                  (out_state (processTokenCreation (refusing_world 6000)
                                seasoned_state creation)) creation))
  = 1%nat.
Proof.
  cbv zeta.
  assert (A : arenaPosts (out_trace (processTokenCreation (world 6000 true)
                                       seasoned_state creation)) = 1%nat)
    by (vm_compute; reflexivity).
  assert (D : discordPosts (out_trace (processTokenCreation (world 6000 true)
                                         seasoned_state creation)) = 1%nat)
    by (vm_compute; reflexivity).
  split; [split; [exact A | exact D]|].
  destruct (successful_post_is_final (world 6000 true) seasoned_state creation
              [(world 100 false, creation); (rowless_world 7000 true, creation)]
              (world 9000 true) creation eq_refl) as [FA FD];
    [vm_compute; reflexivity | reflexivity |].
  cbv zeta in FA, FD.
  split; [split; [apply FA | apply FD]; solve [exact A | exact D | reflexivity]|].
  split; vm_compute; reflexivity.
Defined.

(** The dispatch of a regular creator: no call to Arena, the Arena cache
    entry of the creation marked as posted all the same, and no persisted
    Arena flag changed, so that the creation reaches the dispatch again
    whenever it is processed again. *)
Theorem regular_creator_marks_arena env st tx prof :
  reachesDispatch env st tx = Some prof ->
  postTypeOf prof = Regular ->
  let o := processTokenCreation env st tx in
  arenaPosts (out_trace o) = 0%nat /\
  (forall sym, creationSymbol tx = Some sym ->
     fst (wasArenaPostAlreadySent (now env) (out_state o)
            (createArenaPostCacheKey (hash tx) (from tx) sym)) = true) /\
  (forall h, postedToArena (out_state o) h = postedToArena st h) /\
  (postedToArena st (hash tx) = false -> reachesDispatch env (out_state o) tx = Some prof).
Proof.
  intros RD Hr. cbv zeta.
  pose proof (process_run env st tx) as R. cbv zeta in R. rewrite RD in R.
  destruct R as [sym [md [uname [Es [Em [U [P [Hok [Hget [T [Hc [E1 E2]]]]]]]]]]]].
  pose proof (beforeDispatch_spec env st tx sym md) as B. cbv zeta in B.
  destruct B as [BA _].
  assert (FL : forall h, postedToArena (out_state (processTokenCreation env st tx)) h
                         = postedToArena st h).
  { intros h. rewrite E1, dispatch_fst, Hr.
    match goal with
    | |- context [dispatchDiscord ?e ?s ?k ?i ?x ?p ?c] =>
        pose proof (dispatchDiscord_frame e s k i x p c) as FD; cbv zeta in FD;
        destruct FD as [_ [_ FD]]
    end.
    rewrite FD, dispatchArena_state. simpl. apply BA. }
  split; [|split; [|split]].
  - destruct (process_posts env st tx) as [-> _]. rewrite RD, Hr. reflexivity.
  - intros sym' Es'. rewrite Es in Es'. injection Es' as <-.
    rewrite E1, dispatch_fst, Hr.
    match goal with
    | |- context [dispatchDiscord ?e ?s ?k ?i ?x ?p ?c] =>
        pose proof (dispatchDiscord_frame e s k i x p c) as FD; cbv zeta in FD;
        destruct FD as [_ [FD _]]
    end.
    unfold wasArenaPostAlreadySent, wasPostAlreadySent.
    rewrite FD, dispatchArena_state. simpl.
    rewrite lookup_insert_eq. simpl.
    rewrite Z.sub_diag. reflexivity.
  - exact FL.
  - intros Ha. apply (reachesDispatch_again env st tx prof RD).
    rewrite readPostedToArena_spec, FL, Ha, andb_false_r. reflexivity.
Qed.

Lemma regular_creator_marks_arena_witness :
  let o := processTokenCreation (world 100 true) seasoned_state creation in
  arenaPosts (out_trace o) = 0%nat /\
  fst (wasArenaPostAlreadySent 1700000000000 (out_state o)
         (createArenaPostCacheKey (hash creation) (from creation) "MYT")) = true /\
  postedToArena (out_state o) (hash creation) = false /\
  reachesDispatch (world 100 true) (out_state o) creation = Some (profile_with 100 false).
Proof.
  cbv zeta.
  destruct (regular_creator_marks_arena (world 100 true) seasoned_state creation
              (profile_with 100 false)) as [A [M [F R]]];
    [vm_compute; reflexivity | vm_compute; reflexivity |].
  cbv zeta in A, M, F, R.
  split; [exact A|]. split; [apply (M "MYT"%string); reflexivity|].
  split; [rewrite F; reflexivity | apply R; reflexivity].
Defined.

End InvocationFacts.

Module CreatorStatsFacts.
Import ArenaSocials Blockchain DatabaseSimple Samples CreatorStats DispatchFacts.

Lemma fold_total (f : Creator -> Z) l : forall a,
  fold_left (fun sum creator => sum + f creator) l a = a + total f l.
Proof.
  unfold total. induction l as [|c l IH]; intros a; simpl; [lia|].
  rewrite (IH (a + f c)), (IH (0 + f c)). lia.
Qed.

Lemma total_cons f c l : total f (c :: l) = f c + total f l.
Proof. unfold total at 1. simpl. rewrite fold_total. lia. Qed.

Lemma total_perm f l l' : Permutation l l' -> total f l = total f l'.
Proof.
  induction 1 as [|c l l' _ IH|c d l|l l' l'' _ IH1 _ IH2].
  - reflexivity.
  - rewrite !total_cons, IH. reflexivity.
  - rewrite !total_cons. lia.
  - congruence.
Qed.

Lemma count_total (p : Creator -> bool) l :
  Z.of_nat (length (List.filter p l)) = total (fun c => if p c then 1 else 0) l.
Proof.
  induction l as [|c l IH]; [reflexivity|].
  rewrite total_cons. simpl. destruct (p c); simpl length; lia.
Qed.

(** A column summed over the table, after the record of one wallet is
    written. *)
Lemma total_insert f (m : gmap string Creator) k v :
  total f (map snd (map_to_list (<[k := v]> m))) =
  total f (map snd (map_to_list m))
  - match m !! k with Some c => f c | None => 0 end + f v.
Proof.
  destruct (m !! k) as [c|] eqn:E.
  - rewrite <- insert_delete_eq.
    rewrite (total_perm f _ (map snd ((k, v) :: map_to_list (delete k m)))).
    2:{ apply Permutation_map, map_to_list_insert, lookup_delete_eq. }
    rewrite (total_perm f (map snd (map_to_list m))
               (map snd ((k, c) :: map_to_list (delete k m)))).
    2:{ apply Permutation_map. symmetry. apply map_to_list_delete. exact E. }
    simpl. rewrite !total_cons. lia.
  - rewrite (total_perm f _ (map snd ((k, v) :: map_to_list m))).
    2:{ apply Permutation_map, map_to_list_insert. exact E. }
    simpl. rewrite total_cons. lia.
Qed.

(** The creators table after an accepted creation that the store
    records: the record of the sender is written, the others are as they
    were. *)
Lemma process_creators_map env st tx sym md :
  creationSymbol tx = Some sym -> tokenMetadata tx = Some md ->
  creators_db_ok env = true ->
  creators (out_state (processTokenCreation env st tx)) =
  <[from tx := creatorAfter env st tx sym md]> (creators st).
Proof.
  intros Es Em Hok.
  rewrite (process_accepted env st tx sym md Es Em).
  pose proof (loadPostStatus_spec env st tx
                (createArenaPostCacheKey (hash tx) (from tx) sym)
                (createDiscordPostCacheKey (hash tx) (from tx) sym)) as L.
  cbv zeta in L.
  destruct (loadPostStatus _ _ _ _ _) as [[[st1 tid] a] d]. simpl in *.
  destruct L as [_ [_ [L1 _]]].
  rewrite addCreatorContract_result, Hok. simpl.
  assert (G : creators
                (set_creators
                   (<[from tx := creatorAfterContract (now env) (new_creator_id env)
                                   (creators st1 !! from tx) (from tx) sym
                                   (Js.or_undefined (tm_name md))
                                   (Js.or_else (tm_tokenAddress md)
                                      (Js.or_undefined (tokenAddress tx)))
                                   (Some (hash tx))]> (creators st1)) st1)
              = <[from tx := creatorAfter env st tx sym md]> (creators st))
    by (unfold creatorAfter; rewrite L1; reflexivity).
  destruct (a && d); [exact G|].
  destruct (negb _); [|exact G].
  simpl. rewrite enrich_creators. exact G.
Qed.

(** The statistics after an accepted creation that the store records,
    read within a day of it: one contract more; one creator more, and one
    new creator more, exactly when the wallet was unknown; and one more
    under [newContractsLast24h] only when the wallet was not counted there
    already, since that figure counts the creators with a contract in the
    last day and not their contracts. *)
Theorem stats_after_creation env st tx sym now' :
  creationSymbol tx = Some sym ->
  creators_db_ok env = true ->
  now' - 24 * 60 * 60 * 1000 <= now env ->
  let before := getCreatorStats answered now' st in
  let after := getCreatorStats answered now' (out_state (processTokenCreation env st tx)) in
  totalContracts after = totalContracts before + 1 /\
  totalCreators after =
    totalCreators before + (if known st (from tx) then 0 else 1) /\
  newCreatorsLast24h after =
    newCreatorsLast24h before + (if known st (from tx) then 0 else 1) /\
  newContractsLast24h after =
    newContractsLast24h before + (if activeLast24h now' st (from tx) then 0 else 1).
Proof.
  intros Es Hok Hnow. cbv zeta.
  destruct (creationSymbol_metadata tx sym Es) as [md Em].
  pose proof (process_creators_map env st tx sym md Es Em Hok) as C.
  unfold getCreatorStats, answered, countWhere, rows, known, activeLast24h. simpl.
  rewrite !count_total, C, !total_insert.
  unfold creatorAfter.
  destruct (creators st !! from tx) as [c|]; simpl.
  - assert (G : (now' - 86400000 <=? now env) = true) by (apply Z.leb_le; lia).
    change (24 * 60 * 60 * 1000) with 86400000 in *.
    rewrite G.
    destruct (gte (last_contract_at c) (now' - 86400000)); repeat split; lia.
  - assert (G : (now' - 86400000 <=? now env) = true) by (apply Z.leb_le; lia).
    change (24 * 60 * 60 * 1000) with 86400000 in *.
    rewrite G. repeat split; lia.
Qed.

Lemma stats_after_creation_witness :
  let st1 := out_state (processTokenCreation (world 6000 true) seasoned_state creation) in
  let st2 := out_state (processTokenCreation (world 6000 true) empty_state creation) in
  (totalContracts (getCreatorStats answered 1700000001000 seasoned_state) = 1 /\
   newContractsLast24h (getCreatorStats answered 1700000001000 seasoned_state) = 1) /\
  (totalContracts (getCreatorStats answered 1700000001000 st1) = 2 /\
   totalCreators (getCreatorStats answered 1700000001000 st1) = 1 /\
   newContractsLast24h (getCreatorStats answered 1700000001000 st1) = 1) /\
  (totalContracts (getCreatorStats answered 1700000001000 st2) = 1 /\
   totalCreators (getCreatorStats answered 1700000001000 st2) = 1).
Proof.
  cbv zeta.
  assert (B : getCreatorStats answered 1700000001000 seasoned_state =
              {| totalCreators := 1; totalContracts := 1;
                 newCreatorsLast24h := 1; newContractsLast24h := 1 |})
    by (vm_compute; reflexivity).
  assert (B0 : getCreatorStats answered 1700000001000 empty_state =
               {| totalCreators := 0; totalContracts := 0;
                  newCreatorsLast24h := 0; newContractsLast24h := 0 |})
    by (vm_compute; reflexivity).
  destruct (stats_after_creation (world 6000 true) seasoned_state creation "MYT"
              1700000001000 eq_refl eq_refl) as [T1 [C1 [_ A1]]];
    [vm_compute; discriminate|].
  destruct (stats_after_creation (world 6000 true) empty_state creation "MYT"
              1700000001000 eq_refl eq_refl) as [T2 [C2 _]];
    [vm_compute; discriminate|].
  cbv zeta in T1, C1, A1, T2, C2.
  rewrite B in T1, C1, A1. rewrite B0 in T2, C2.
  rewrite B. simpl in *.
  split; [split; reflexivity|].
  split; [split; [exact T1 | split; [exact C1 | exact A1]]|].
  split; [exact T2 | exact C2].
Defined.

End CreatorStatsFacts.

Module HistoryFacts.
Import ArenaSocials Blockchain DatabaseSimple Monitor History.

(** *** The sort *)

Lemma insertNewest_perm x l : Permutation (insertNewest x l) (x :: l).
Proof.
  induction l as [|y l IH]; simpl; [reflexivity|].
  destruct (blockNumber x <? blockNumber y); [|reflexivity].
  rewrite IH. apply perm_swap.
Qed.

Lemma sortNewestFirst_perm l : Permutation (sortNewestFirst l) l.
Proof.
  induction l as [|x l IH]; simpl; [reflexivity|].
  rewrite insertNewest_perm, IH. reflexivity.
Qed.

Lemma insertNewest_sorted x l :
  StronglySorted newerOrSame l -> StronglySorted newerOrSame (insertNewest x l).
Proof.
  induction 1 as [|y l S IH F]; simpl; [repeat constructor|].
  destruct (Z.ltb_spec (blockNumber x) (blockNumber y)) as [L | L].
  - constructor; [exact IH|].
    rewrite (List.Forall_forall (newerOrSame y)). intros z Hz.
    apply (Permutation_in _ (insertNewest_perm x l)) in Hz.
    destruct Hz as [<- | Hz]; [unfold newerOrSame; lia|].
    rewrite (List.Forall_forall (newerOrSame y)) in F. apply F. exact Hz.
  - constructor; [constructor; assumption|].
    constructor; [exact L|].
    rewrite (List.Forall_forall (newerOrSame x)). intros z Hz.
    rewrite (List.Forall_forall (newerOrSame y)) in F. specialize (F z Hz).
    unfold newerOrSame in *. lia.
Qed.

Lemma sortNewestFirst_sorted l : StronglySorted newerOrSame (sortNewestFirst l).
Proof.
  induction l as [|x l IH]; simpl; [constructor|].
  apply insertNewest_sorted. exact IH.
Qed.

Lemma sorted_app_inv (l1 l2 : list ContractTransaction) :
  StronglySorted newerOrSame (l1 ++ l2) ->
  StronglySorted newerOrSame l1 /\
  (forall x y, In x l1 -> In y l2 -> newerOrSame x y).
Proof.
  induction l1 as [|a l1 IH]; simpl; intros S.
  - split; [constructor|]. intros x y [].
  - apply StronglySorted_inv in S. destruct S as [S F].
    destruct (IH S) as [S1 C]. split.
    + constructor; [exact S1|].
      rewrite List.Forall_forall in *. intros z Hz. apply F, in_or_app. left. exact Hz.
    + intros x y [<- | Hx] Hy.
      * rewrite List.Forall_forall in F. apply F, in_or_app. right. exact Hy.
      * apply C; assumption.
Qed.

(** *** The slice *)

Lemma slice0_firstn {A} (limit : Z) (l : list A) :
  0 <= limit -> slice0 limit l = firstn (Z.to_nat limit) l.
Proof.
  intros H. unfold slice0. destruct (Z.ltb_spec limit 0); [lia | reflexivity].
Qed.

Lemma slice0_In {A} (limit : Z) (l : list A) x : In x (slice0 limit l) -> In x l.
Proof.
  unfold slice0.
  destruct (limit <? 0); intros H;
    match type of H with
    | In _ (firstn ?k _) => rewrite <- (firstn_skipn k l)
    end; apply in_or_app; left; exact H.
Qed.

(** *** The profiles *)

Lemma forgetProfile_attach client txs : forall n,
  map forgetProfile (attachProfiles client n txs) = map forgetProfile txs.
Proof.
  induction txs as [|tx txs IH]; intros n; simpl; [reflexivity|].
  destruct (is_creation (transactionType tx)); simpl; rewrite IH; reflexivity.
Qed.

Lemma attachProfiles_In client txs : forall n tx',
  In tx' (attachProfiles client n txs) ->
  exists tx m,
    In tx txs /\
    tx' = if is_creation (transactionType tx)
          then with_creatorProfile
                 (snd (fetchCreatorProfile (resolveCreator client m (from tx)) (from tx)))
                 tx
          else tx.
Proof.
  induction txs as [|tx txs IH]; intros n tx'; simpl; [intros []|].
  destruct (is_creation (transactionType tx)) eqn:E; simpl.
  - intros [<- | H].
    + exists tx, n. rewrite E. split; [left|]; reflexivity.
    + destruct (IH _ _ H) as [t [m [I Et]]]. exists t, m. split; [right; exact I | exact Et].
  - intros [<- | H].
    + exists tx, n. rewrite E. split; [left|]; reflexivity.
    + destruct (IH _ _ H) as [t [m [I Et]]]. exists t, m. split; [right; exact I | exact Et].
Qed.

Lemma attachProfiles_blockNumber client txs : forall n,
  map blockNumber (attachProfiles client n txs) = map blockNumber txs.
Proof.
  intros n.
  assert (G : forall l, map blockNumber l = map blockNumber (map forgetProfile l))
    by (intros l; rewrite List.map_map; reflexivity).
  rewrite (G (attachProfiles client n txs)), (G txs), forgetProfile_attach. reflexivity.
Qed.

Lemma sorted_by_blockNumber (l l' : list ContractTransaction) :
  map blockNumber l = map blockNumber l' ->
  StronglySorted newerOrSame l -> StronglySorted newerOrSame l'.
Proof.
  revert l'. induction l as [|a l IH]; intros [|a' l'] E S; try discriminate E.
  - constructor.
  - simpl in E. injection E as Ea El.
    apply StronglySorted_inv in S. destruct S as [S F].
    constructor; [apply IH; assumption|].
    rewrite List.Forall_forall in *. intros z' Hz'.
    apply (in_map blockNumber) in Hz'. rewrite <- El in Hz'.
    apply in_map_iff in Hz'. destruct Hz' as [z [Ez Hz]].
    specialize (F z Hz). unfold newerOrSame in *. lia.
Qed.

(** *** The scan *)

Lemma blockRange_In_iff lo hi n : In n (blockRange lo hi) <-> lo <= n <= hi.
Proof.
  unfold blockRange. rewrite in_map_iff. split.
  - intros [i [<- Hi]]. apply in_seq in Hi. lia.
  - intros H. exists (Z.to_nat (n - lo)). split; [lia|]. apply in_seq. lia.
Qed.

Lemma allFetched_spec answers blocks :
  allFetched answers = Some blocks -> answers = map Some blocks.
Proof.
  revert blocks. induction answers as [|[b|] answers IH]; intros blocks; simpl.
  - intros [= <-]. reflexivity.
  - destruct (allFetched answers) as [bs|]; [|discriminate].
    intros [= <-]. simpl. rewrite (IH bs eq_refl). reflexivity.
  - discriminate.
Qed.

(** A transaction of a chunk comes from a block of the chunk, and every
    block of the chunk was fetched. *)
Lemma scanChunk_In client filterType i endBlock tx :
  In tx (scanChunk client filterType i endBlock) ->
  (forall m, i <= m <= endBlock -> getBlock (cl_chain client) m <> None) /\
  exists m block,
    i <= m <= endBlock /\ getBlock (cl_chain client) m = Some block /\
    In tx (historyBlock client filterType block).
Proof.
  unfold scanChunk.
  destruct (allFetched _) as [blocks|] eqn:E; [|intros []].
  apply allFetched_spec in E. intros H. split.
  - intros m Hm. apply blockRange_In_iff in Hm.
    apply (in_map (getBlock (cl_chain client))) in Hm. rewrite E in Hm.
    apply in_map_iff in Hm. destruct Hm as [b [Eb _]]. congruence.
  - apply in_flat_map in H. destruct H as [block [Hb Ht]].
    apply (in_map Some) in Hb. rewrite <- E in Hb.
    apply in_map_iff in Hb. destruct Hb as [m [Em Hm]].
    exists m, block. split; [apply blockRange_In_iff; exact Hm|]. split; assumption.
Qed.

Lemma scanFrom_In fuel client filterType : forall i toBlock tx,
  In tx (scanFrom fuel client filterType i toBlock) ->
  exists k, 0 <= k < Z.of_nat fuel /\ i + 50 * k <= toBlock /\
            In tx (scanChunk client filterType (i + 50 * k)
                     (Z.min (i + 50 * k + 49) toBlock)).
Proof.
  induction fuel as [|fuel IH]; intros i toBlock tx; simpl; [intros []|].
  destruct (Z.leb_spec i toBlock) as [L | L]; [|intros []].
  unfold chunkSize. intros H. apply in_app_or in H. destruct H as [H | H].
  - exists 0. split; [lia|]. split; [lia|].
    replace (i + 50 * 0) with i by lia.
    replace (Z.min (i + 49) toBlock)
      with (if toBlock <? i + 50 - 1 then toBlock else i + 50 - 1); [exact H|].
    destruct (Z.ltb_spec toBlock (i + 50 - 1)); lia.
  - destruct (IH _ _ _ H) as [k [Hk [Hl Hc]]].
    exists (k + 1). split; [lia|]. split; [lia|].
    replace (i + 50 * (k + 1)) with (i + 50 + 50 * k) by lia. exact Hc.
Qed.

(** Eleven iterations end the loop over the chunks. *)
Lemma scanFrom_enough client filterType latestBlock fuel :
  scanFrom (11 + fuel) client filterType (latestBlock - 500) latestBlock =
  scanned client filterType latestBlock.
Proof.
  unfold scanned.
  assert (G : forall n i, latestBlock < i + 50 * Z.of_nat n ->
                scanFrom (n + fuel) client filterType i latestBlock =
                scanFrom n client filterType i latestBlock).
  { induction n as [|n IH]; intros i Hi.
    - simpl. destruct fuel; simpl; [reflexivity|].
      destruct (Z.leb_spec i latestBlock); [lia | reflexivity].
    - simpl. destruct (Z.leb_spec i latestBlock); [|reflexivity].
      rewrite IH by (unfold chunkSize; lia). reflexivity. }
  apply (G 11%nat). lia.
Qed.

(** What the scan pushes for a transaction. *)
Lemma historyTransaction_In client filterType block ctx tx :
  In tx (historyTransaction client filterType block ctx) ->
  addressed_to_contract ctx = true /\
  to tx = ct_to ctx /\ from tx = ct_from ctx /\ hash tx = ct_hash ctx /\
  blockNumber tx = b_number block /\
  transactionType tx =
    ti_type (determineTransactionType (Js.slice_to 10 (ct_input ctx)) (ct_value ctx)) /\
  passesFilter filterType (transactionType tx) = true /\
  isTokenCreation tx = is_creation (transactionType tx) /\
  creatorProfile tx = None /\
  (is_creation (transactionType tx) = false ->
   tokenMetadata tx = None /\ tokenAddress tx = None).
Proof.
  unfold historyTransaction.
  destruct (addressed_to_contract ctx); [|intros []].
  destruct (passesFilter _ _) eqn:P; [|intros []].
  intros [<- | []].
  cbn [to from hash blockNumber transactionType isTokenCreation creatorProfile
       tokenMetadata tokenAddress].
  rewrite P.
  repeat (split; [reflexivity|]).
  intros E. rewrite E. split; reflexivity.
Qed.

Lemma scanned_In client filterType latestBlock tx :
  In tx (scanned client filterType latestBlock) ->
  exists k m block ctx txs,
    0 <= k < 11 /\
    latestBlock - 500 + 50 * k <= m <= Z.min (latestBlock - 500 + 50 * k + 49) latestBlock /\
    (forall m', latestBlock - 500 + 50 * k <= m'
                  <= Z.min (latestBlock - 500 + 50 * k + 49) latestBlock ->
                getBlock (cl_chain client) m' <> None) /\
    getBlock (cl_chain client) m = Some block /\
    b_transactions block = Some txs /\ In ctx txs /\
    In tx (historyTransaction client filterType block ctx).
Proof.
  intros H. apply scanFrom_In in H. destruct H as [k [Hk [Hl H]]].
  apply scanChunk_In in H. destruct H as [All [m [block [Hm [Eb H]]]]].
  unfold historyBlock in H.
  destruct (b_transactions block) as [txs|] eqn:Et; [|destruct H].
  apply in_flat_map in H. destruct H as [ctx [Hc H]].
  exists k, m, block, ctx, txs. simpl in Hk.
  repeat split; try assumption; lia.
Qed.

Lemma forgetProfile_scanned client filterType latestBlock :
  map forgetProfile (scanned client filterType latestBlock) =
  scanned client filterType latestBlock.
Proof.
  assert (G : forall l, (forall tx, In tx l -> creatorProfile tx = None) ->
                        map forgetProfile l = l).
  { induction l as [|tx l IH]; intros H; [reflexivity|].
    simpl. rewrite IH by (intros t Ht; apply H; right; exact Ht).
    f_equal. pose proof (H tx (or_introl eq_refl)) as E.
    destruct tx. simpl in *. subst. reflexivity. }
  apply G. intros tx H.
  destruct (scanned_In _ _ _ _ H) as [k [m [block [ctx [txs [_ [_ [_ [_ [_ [_ Ht]]]]]]]]]]].
  apply historyTransaction_In in Ht. tauto.
Qed.

(** What is returned comes from the scan. *)
Lemma result_In client limit filterType latestBlock tx' :
  getBlockNumber (cl_chain client) = Some latestBlock ->
  In tx' (fetchContractTransactions client limit filterType) ->
  exists tx m,
    In tx (scanned client filterType latestBlock) /\
    tx' = if is_creation (transactionType tx)
          then with_creatorProfile
                 (snd (fetchCreatorProfile (resolveCreator client m (from tx)) (from tx)))
                 tx
          else tx.
Proof.
  intros El. unfold fetchContractTransactions. rewrite El. intros H.
  destruct (attachProfiles_In _ _ _ _ H) as [tx [m [I E]]].
  exists tx, m. split; [|exact E].
  apply (Permutation_in _ (sortNewestFirst_perm _)).
  apply slice0_In in I. exact I.
Qed.

(** *** The load *)

(** The transactions that [fetchContractTransactions] returns for a
    limit that is not negative: at most [limit], the newest first, all of
    them addressed to the tracked contract and of the type asked for; a
    creation carries the flag and the profile of its sender, any other
    transaction neither metadata nor a profile.  Without the number of
    the latest block nothing is returned. *)
Theorem history_newest_first client limit filterType :
  0 <= limit ->
  let result := fetchContractTransactions client limit filterType in
  Z.of_nat (length result) <= limit /\
  StronglySorted newerOrSame result /\
  (forall tx, In tx result ->
     (exists a, to tx = Some a /\
                Js.toLowerCase a = Js.toLowerCase ARENA_CONTRACT_ADDRESS) /\
     (forall t, filterType = Some t -> transactionType tx = t) /\
     isTokenCreation tx = is_creation (transactionType tx) /\
     (is_creation (transactionType tx) = true ->
      exists profile, creatorProfile tx = Some profile /\
                      cp_address profile = from tx /\ cp_isLoading profile = false) /\
     (is_creation (transactionType tx) = false ->
      tokenMetadata tx = None /\ creatorProfile tx = None /\ tokenAddress tx = None)) /\
  (getBlockNumber (cl_chain client) = None -> result = []).
Proof.
  intros Hl. cbv zeta.
  destruct (getBlockNumber (cl_chain client)) as [latestBlock|] eqn:El.
  2:{ unfold fetchContractTransactions. rewrite El. simpl.
      split; [lia|]. split; [constructor|]. split; [intros tx [] | reflexivity]. }
  split; [|split; [|split; [|discriminate]]].
  - unfold fetchContractTransactions. rewrite El.
    assert (L : forall l n, length (attachProfiles client n l) = length l).
    { intros l n. rewrite <- (List.length_map forgetProfile), forgetProfile_attach.
      apply List.length_map. }
    rewrite L, slice0_firstn by exact Hl.
    rewrite List.length_firstn. lia.
  - unfold fetchContractTransactions. rewrite El.
    apply (sorted_by_blockNumber
             (slice0 limit (sortNewestFirst (scanned client filterType latestBlock)))).
    + symmetry. apply attachProfiles_blockNumber.
    + rewrite slice0_firstn by exact Hl.
      pose proof (sortNewestFirst_sorted (scanned client filterType latestBlock)) as S.
      rewrite <- (firstn_skipn (Z.to_nat limit)) in S.
      apply sorted_app_inv in S. exact (proj1 S).
  - intros tx' H.
    destruct (result_In _ _ _ _ _ El H) as [tx [m [I E]]].
    destruct (scanned_In _ _ _ _ I) as [k [n [block [ctx [txs [_ [_ [_ [_ [_ [_ Ht]]]]]]]]]]].
    apply historyTransaction_In in Ht.
    destruct Ht as [A [Eto [Ef [Eh [Eb [Ety [P [Ec [Ep Eo]]]]]]]]].
    assert (T : transactionType tx' = transactionType tx)
      by (rewrite E; destruct (is_creation (transactionType tx)); reflexivity).
    rewrite T.
    split; [|split; [|split; [|split]]].
    + unfold addressed_to_contract in A.
      assert (To : to tx' = ct_to ctx)
        by (rewrite E; destruct (is_creation (transactionType tx)); exact Eto).
      rewrite To. destruct (ct_to ctx) as [a|]; [|discriminate].
      exists a. split; [reflexivity|]. apply String.eqb_eq. exact A.
    + intros t ->. simpl in P. apply bool_decide_eq_true in P. exact P.
    + rewrite E. destruct (is_creation (transactionType tx)); exact Ec.
    + intros C. rewrite E, C. simpl. eexists. split; [reflexivity|]. split; reflexivity.
    + intros C. rewrite E, C. destruct (Eo C) as [-> ->]. rewrite Ep. repeat split.
Qed.

Lemma history_newest_first_witness :
  let result := fetchContractTransactions (sample_client 1000 777) 3 (Some TOKEN_CREATION) in
  map blockNumber result = [1000; 999; 998] /\
  Z.of_nat (length result) <= 3 /\
  StronglySorted newerOrSame result.
Proof.
  cbv zeta.
  split; [vm_compute; reflexivity|].
  destruct (history_newest_first (sample_client 1000 777) 3 (Some TOKEN_CREATION))
    as [L [S _]]; [lia|].
  split; [exact L | exact S].
Defined.

(** The selection: the result is, up to the profiles, a prefix of the
    scanned transactions put in order, so that a transaction left out is
    not newer than any that is returned; nothing is left out while fewer
    than [limit] transactions were scanned. *)
Theorem history_keeps_newest client limit filterType latestBlock :
  0 <= limit ->
  getBlockNumber (cl_chain client) = Some latestBlock ->
  let result := fetchContractTransactions client limit filterType in
  let found := scanned client filterType latestBlock in
  exists dropped,
    Permutation found (map forgetProfile result ++ dropped) /\
    Z.of_nat (length result) = Z.min limit (Z.of_nat (length found)) /\
    (forall x y, In x result -> In y dropped -> blockNumber y <= blockNumber x).
Proof.
  intros Hl El. cbv zeta.
  unfold fetchContractTransactions. rewrite El.
  set (found := scanned client filterType latestBlock).
  rewrite slice0_firstn by exact Hl.
  exists (skipn (Z.to_nat limit) (sortNewestFirst found)).
  rewrite forgetProfile_attach.
  assert (F : map forgetProfile (sortNewestFirst found) = sortNewestFirst found).
  { assert (G : forall l, map forgetProfile l = l ->
                          map forgetProfile (sortNewestFirst l) = sortNewestFirst l).
    { intros l. assert (P : forall x, In x (sortNewestFirst l) -> In x l)
        by (intros x; apply Permutation_in, sortNewestFirst_perm).
      intros E.
      assert (Q : forall x, In x l -> forgetProfile x = x).
      { clear P. induction l as [|a l IH]; [intros x []|].
        simpl in E. injection E as Ea E. intros x [<- | Hx]; [exact Ea | apply IH; assumption]. }
      induction (sortNewestFirst l) as [|a s IH]; [reflexivity|].
      simpl. rewrite (Q a) by (apply P; left; reflexivity).
      rewrite IH by (intros x Hx; apply P; right; exact Hx). reflexivity. }
    apply G, forgetProfile_scanned. }
  split; [|split].
  - rewrite <- List.firstn_map, F, firstn_skipn.
    symmetry. apply sortNewestFirst_perm.
  - assert (L : forall l n, length (attachProfiles client n l) = length l).
    { intros l n. rewrite <- (List.length_map forgetProfile), forgetProfile_attach.
      apply List.length_map. }
    rewrite L, List.length_firstn.
    rewrite (Permutation_length (sortNewestFirst_perm found)). lia.
  - intros x y Hx Hy.
    pose proof (sortNewestFirst_sorted found) as S.
    rewrite <- (firstn_skipn (Z.to_nat limit)) in S.
    apply sorted_app_inv in S. destruct S as [_ C].
    apply (in_map blockNumber) in Hx. rewrite attachProfiles_blockNumber in Hx.
    apply in_map_iff in Hx. destruct Hx as [x0 [Ex Hx]].
    rewrite <- Ex. apply (C x0 y Hx Hy).
Qed.

Lemma history_keeps_newest_witness :
  let result := fetchContractTransactions (sample_client 1000 777) 3 None in
  let found := scanned (sample_client 1000 777) None 1000 in
  length found = 902%nat /\
  exists dropped,
    Permutation found (map forgetProfile result ++ dropped) /\
    Z.of_nat (length result) = 3 /\
    (forall x y, In x result -> In y dropped -> blockNumber y <= blockNumber x).
Proof.
  cbv zeta.
  assert (E : length (scanned (sample_client 1000 777) None 1000) = 902%nat)
    by (vm_compute; reflexivity).
  split; [exact E|].
  destruct (history_keeps_newest (sample_client 1000 777) 3 None 1000) as [d [P [L C]]];
    [lia | reflexivity |].
  exists d. split; [exact P|]. split; [|exact C].
  rewrite L, E. reflexivity.
Defined.

(** The reach of the load, for a chain that answers a request for a
    block with that block: a transaction returned lies in the last 501
    blocks, and in none of the fifty blocks of a chunk one block of which
    could not be fetched. *)
Theorem failed_block_hides_chunk client limit filterType latestBlock tx :
  (forall m block, getBlock (cl_chain client) m = Some block -> b_number block = m) ->
  getBlockNumber (cl_chain client) = Some latestBlock ->
  In tx (fetchContractTransactions client limit filterType) ->
  latestBlock - 500 <= blockNumber tx <= latestBlock /\
  (forall n, latestBlock - 500 <= n <= latestBlock ->
             getBlock (cl_chain client) n = None ->
             ~ (chunkStart latestBlock n <= blockNumber tx
                  <= chunkStart latestBlock n + 49)).
Proof.
  intros Hc El H.
  destruct (result_In _ _ _ _ _ El H) as [tx0 [j [I E]]].
  assert (B : blockNumber tx = blockNumber tx0)
    by (rewrite E; destruct (is_creation (transactionType tx0)); reflexivity).
  destruct (scanned_In _ _ _ _ I)
    as [k [m [block [ctx [txs [Hk [Hm [All [Eb [_ [_ Ht]]]]]]]]]]].
  apply historyTransaction_In in Ht.
  destruct Ht as [_ [_ [_ [_ [Bn _]]]]].
  rewrite (Hc m block Eb) in Bn. rewrite B, Bn.
  split; [lia|].
  intros n Hn Fail [C1 C2]. apply (All n); [|exact Fail].
  unfold chunkStart, chunkSize in *.
  pose proof (Z.div_mod (n - (latestBlock - 500)) 50 ltac:(lia)) as D.
  pose proof (Z.mod_pos_bound (n - (latestBlock - 500)) 50 ltac:(lia)) as M.
  lia.
Qed.

Lemma failed_block_hides_chunk_witness :
  let result := fetchContractTransactions (sample_client 1000 777) 1000 None in
  length result = 902%nat /\
  (forall tx, In tx result ->
     500 <= blockNumber tx <= 1000 /\ ~ (750 <= blockNumber tx <= 799)).
Proof.
  cbv zeta. split; [vm_compute; reflexivity|].
  intros tx H.
  destruct (failed_block_hides_chunk (sample_client 1000 777) 1000 None 1000 tx)
    as [R C].
  - intros m block. simpl. destruct (m =? 777); [discriminate|].
    intros [= <-]. reflexivity.
  - reflexivity.
  - exact H.
  - split; [exact R|]. apply (C 777); [lia | reflexivity].
Defined.

End HistoryFacts.

Module ResolverInputFacts.
Import ArenaSocials Samples ResolverInputs ResolverFacts.

Section Resolver.
Variable StringToNumber : string -> option Z.

Lemma step3_with_id handle uid profile r :
  exists p, step3 StringToNumber handle (Some uid) (Some profile) r = Some p /\
            exists b, isArenaChampion p = Some b.
Proof.
  unfold step3. destruct r as [[data|]| | |]; simpl;
    try (eexists; split; [reflexivity|]; eexists; reflexivity).
  pose proof (applyStats_flag StringToNumber handle uid (Some profile) data) as F.
  destruct (applyStats StringToNumber handle uid (Some profile) data) as [p | p].
  - exists p. split; [reflexivity|]. destruct F as [_ F]. eexists. exact F.
  - eexists. split; [reflexivity|]. eexists. reflexivity.
Qed.

Lemma resolve_cases rs :
  resolve StringToNumber rs =
  match foundUserId rs with
  | Some uid =>
      step3 StringToNumber (tradeHandle rs) (Some uid)
        (match tradeHandle rs with
         | Some h => fst (step2 h (tradeProfile rs) (r_user rs))
         | None => tradeProfile rs
         end) (r_stats rs)
  | None => clearChampion (tradeProfile rs)
  end.
Proof.
  unfold resolve, foundUserId, tradeHandle, tradeProfile.
  destruct (step1 (r_trade rs)) as [p1 [h|]]; simpl.
  - destruct (step2 h p1 (r_user rs)) as [p2 [uid|]] eqn:E; simpl; [reflexivity|].
    unfold step2 in E.
    destruct (r_user rs) as [[user|]| | |]; try (injection E as <-; reflexivity).
    destruct (Js.truthy (su_id user)) eqn:T; [|injection E as <-; reflexivity].
    injection E as _ E. unfold Js.truthy in T. rewrite E in T. discriminate T.
  - reflexivity.
Qed.

(** The resolver answers [null] exactly when the first lookup yields no
    profile and no user id is found; in particular whenever the first
    lookup yields no record, whatever the two others would answer.  A
    profile that it answers has its champion flag set to a boolean. *)
Theorem resolver_answer rs :
  (resolve StringToNumber rs = None <-> tradeProfile rs = None /\ foundUserId rs = None) /\
  ((forall u us, r_trade rs <> Ok (u :: us)) -> resolve StringToNumber rs = None) /\
  (forall p, resolve StringToNumber rs = Some p -> exists b, isArenaChampion p = Some b).
Proof.
  assert (K : forall uid,
            foundUserId rs = Some uid ->
            exists q, match tradeHandle rs with
                      | Some h => fst (step2 h (tradeProfile rs) (r_user rs))
                      | None => tradeProfile rs
                      end = Some q).
  { intros uid. unfold foundUserId. destruct (tradeHandle rs) as [h|]; [|discriminate].
    intros E. destruct (step2 h (tradeProfile rs) (r_user rs)) as [p2 u] eqn:E2.
    simpl in E. subst u. apply (step2_profile _ _ _ _ _ E2). }
  assert (A : resolve StringToNumber rs = None <->
              tradeProfile rs = None /\ foundUserId rs = None).
  { rewrite resolve_cases.
    destruct (foundUserId rs) as [uid|] eqn:U.
    - destruct (K uid eq_refl) as [q ->].
      destruct (step3_with_id (tradeHandle rs) uid q (r_stats rs)) as [p [-> _]].
      split; [discriminate | intros [_ E]; discriminate E].
    - unfold clearChampion. destruct (tradeProfile rs); split; try tauto; try discriminate.
      intros [E _]. discriminate E. }
  split; [exact A|]. split.
  - intros N. apply A. unfold foundUserId, tradeHandle, tradeProfile, step1.
    destruct (r_trade rs) as [[|u us]| | |]; try (split; reflexivity).
    destruct (N u us eq_refl).
  - intros p. rewrite resolve_cases.
    destruct (foundUserId rs) as [uid|] eqn:U.
    + destruct (K uid eq_refl) as [q ->].
      destruct (step3_with_id (tradeHandle rs) uid q (r_stats rs)) as [p' [-> B]].
      intros [= <-]. exact B.
    + unfold clearChampion. destruct (tradeProfile rs); [|discriminate].
      intros [= <-]. eexists. reflexivity.
Qed.

(** *** The inputs of the tiering *)

Lemma normalize_inputs data p :
  normalizeArenaTradeArrayResponse data = Some p ->
  followerCount p = Some 0 /\
  keyPrice p = firstDefined [field_value (arena_price data); field_value (key_price data)].
Proof.
  unfold normalizeArenaTradeArrayResponse.
  destruct data as [h hl th un tf kp tot vol sup ap hc tv]. cbn.
  destruct kp; [| discriminate |];
    (destruct tot; [| discriminate |];
     (destruct vol; [| discriminate |];
      (destruct sup;
       (destruct ap; [| discriminate |];
        (destruct hc; [| discriminate |];
         (destruct tv; [| discriminate |];
          (cbn; destruct (_ || _); [|discriminate];
           intros E; injection E as <-; split; reflexivity))))))).
Qed.

Lemma step2_inputs h p1 user :
  Js.truthy (su_id user) = true ->
  exists p2,
    step2 h (Some p1) (Ok (Some user)) = (Some p2, su_id user) /\
    followerCount p2 =
      (if truthy_num (su_followerCount user) then su_followerCount user
       else followerCount p1) /\
    keyPrice p2 = firstDefined [lastKeyPrice user; su_keyPrice user; keyPrice p1].
Proof.
  intros T. unfold step2. rewrite T. eexists. split; [reflexivity|].
  unfold assign_if_some, assign_if_num, assign_if_str.
  destruct (lastKeyPrice user), (su_keyPrice user),
    (truthy_num (su_twitterFollowerCount user)), (truthy_num (su_followerCount user)),
    (Js.truthy (twitterName user)); cbn; split; try reflexivity;
    destruct (keyPrice p1); reflexivity.
Qed.

Lemma applyStats_inputs handle uid p0 data :
  stats_raises data = false ->
  exists p,
    applyStats StringToNumber handle uid (Some p0) data = Done p /\
    followerCount p = followerCount p0 /\
    keyPrice p =
      firstDefined [match sb_stats data with
                    | Some st => field_value (st_keyPrice st)
                    | None => None
                    end; keyPrice p0].
Proof.
  unfold applyStats, stats_raises.
  destruct data as [th st bs];
    destruct th as [| |t];
    destruct st as [[[| |k] [| |v] [| |u]]|];
    destruct bs as [l|]; simpl; try discriminate; intros _;
    eexists; (split; [reflexivity|]);
    unfold set_isArenaChampion, set_badges, set_keyPrice, set_supply, set_volume,
      set_totalHolders; cbn; split; try reflexivity;
    destruct (keyPrice p0); reflexivity.
Qed.

(** The two figures that decide the tier of a creator, when the three
    lookups succeed: the follower count is the one of StarsArena, or zero
    when that is missing or zero, never the one of Twitter; the key price
    is the first that is given among the one of the statistics, the last
    key price and the key price of the StarsArena user, and the Arena price
    and the key price of the trade record.  The two key prices of the
    StarsArena user are tested for truth, so they are taken not to be
    zero. *)
Theorem tier_inputs_source rs u us p1 h user data :
  r_trade rs = Ok (u :: us) ->
  step1 (r_trade rs) = (Some p1, Some h) ->
  r_user rs = Ok (Some user) ->
  Js.truthy (su_id user) = true ->
  su_keyPrice user <> Some 0 ->
  lastKeyPrice user <> Some 0 ->
  r_stats rs = Ok (Some data) ->
  stats_raises data = false ->
  exists p,
    resolve StringToNumber rs = Some p /\
    followerCount p =
      (if truthy_num (su_followerCount user) then su_followerCount user else Some 0) /\
    keyPrice p =
      firstDefined [match sb_stats data with
                    | Some st => field_value (st_keyPrice st)
                    | None => None
                    end;
                    lastKeyPrice user; su_keyPrice user;
                    field_value (arena_price u); field_value (key_price u)].
Proof.
  intros Et E1 Eu T _ _ Es R.
  assert (N : normalizeArenaTradeArrayResponse u = Some p1).
  { rewrite Et in E1. simpl in E1. injection E1 as E1 _. exact E1. }
  destruct (normalize_inputs u p1 N) as [F1 K1].
  destruct (step2_inputs h p1 user T) as [p2 [E2 [F2 K2]]].
  destruct (su_id user) as [uid|] eqn:I; [|discriminate T].
  destruct (applyStats_inputs (Some h) uid p2 data R) as [p [E3 [F3 K3]]].
  exists p. split; [|split].
  - unfold resolve. rewrite E1, Eu, E2. unfold step3. rewrite Es, E3. reflexivity.
  - rewrite F3, F2, F1. reflexivity.
  - rewrite K3, K2, K1.
    set (s := match sb_stats data with
              | Some st => field_value (st_keyPrice st)
              | None => None
              end).
    destruct s, (lastKeyPrice user), (su_keyPrice user), (field_value (arena_price u)),
      (field_value (key_price u)); reflexivity.
Qed.

End Resolver.

Lemma resolver_answer_witness :
  resolve decimalToNumber
    {| r_trade := Ok []; r_user := Ok (Some alice_user); r_stats := Ok (Some alice_stats) |}
  = None /\
  exists p, resolve decimalToNumber forbidden_responses = Some p /\
            isArenaChampion p = Some false.
Proof.
  split.
  - apply (resolver_answer decimalToNumber). intros u us E. discriminate E.
  - destruct (resolve decimalToNumber forbidden_responses) as [p|] eqn:E.
    + destruct (proj2 (proj2 (resolver_answer decimalToNumber forbidden_responses)) p E)
        as [b B].
      exists p. split; [reflexivity|].
      vm_compute in E. injection E as <-. reflexivity.
    + vm_compute in E. discriminate E.
Defined.

Lemma tier_inputs_source_witness :
  exists p, resolve decimalToNumber champion_responses = Some p /\
            followerCount p = Some 6000 /\ keyPrice p = Some 20000000000000000.
Proof.
  destruct (tier_inputs_source decimalToNumber champion_responses alice [] _ _
              alice_user alice_stats eq_refl eq_refl eq_refl eq_refl
              ltac:(discriminate) ltac:(discriminate) eq_refl eq_refl)
    as [p [E [F K]]].
  exists p. split; [exact E|]. split; [exact F | exact K].
Defined.

End ResolverInputFacts.
